(* ===== verification/_CoqProject ===== *)
-Q . S2P
Prelude.v
Kline.v
Parser.v
Msg.v
Services.v
Text.v
Sync.v
TimeServer.v
Ipc.v
MmcEntry.v
SystemModule.v
Boot.v
Comm.v
HobdModule.v
Session.v
Typing.v
HobdTypes.v
MmcFile.v
FatLock.v
MmcRace.v
MmcModule.v
MmcCalls.v
Cli.v
Console.v
Commands.v
LogDump.v
MmcLog.v
EcuParser.v
Ecu.v
EcuMain.v
Link.v
System.v
Shared.v
Whole.v
