(* ===== verification/Prelude.v ===== *)
(** Verification of the HOBD system: an seL4 system that keeps a diagnostic
    connection to a motorcycle's engine control unit (ECU) over the K-line and
    logs what it hears to an SD card (src/projects/hobd-system), with two tools: a
    simulated ECU (src/testing-tools/fake-hobd-ecu-data) and a reader of the log
    (src/testing-tools/hobd-log-entry-dump).

    * The system and its model

    Five threads and the root task share no data but a message area; they call
    each other through endpoints and mutexes.

<<
      part of the system                     modelled in          source
      ------------------------------------   ------------------   ---------------------------
      message layout, constants              Kline                hobd_kline.h
      byte-wise message parser               Parser               hobd_parser.c
      message builders                       Msg                  hobd_msg.h
      K-line layer: send, receive, wait      Comm                 comm.c
      HOBD thread, state machine, calls      HobdModule           hobd_module.c
      that thread from its start on          Session              hobd_module.c
      types of that thread's state           Typing, HobdTypes    comm.h, hobd_parser.h, hobd.h
      log entries                            MmcEntry             mmc_entry.h
      log file, media access                 MmcFile              mmc_file.c, mmc_module.c
      file system lock, threads under it     FatLock              mmc_module.c
      a write against a hard flush           MmcRace              mmc_file.c
      MMC thread, messages, entry log        MmcModule            mmc_module.c
      MMC calls served by the thread         MmcCalls             mmc_module.c
      the MMC module as an abstract log      MmcLog               mmc.h
      time server and its callers            TimeServer           time_server_module.c
      barrier, heartbeat, fault loop         SystemModule         system_module.c, main.c
      command tables, look-up                Cli                  cli.c
      commands, console thread               Console              console_module.c
      commands on the real modules           Commands             (composition)
      threads, initialization, boot          Boot                 thread.c, root_task.c,
                                                                  platform.c, main.c, inits
      badges, labels, message registers      Ipc                  ipc_util.h, sel4_mr.h
      log reader                             LogDump              hobd-log-entry-dump/main.c
      the simulator's copy of the parser     EcuParser            fake-hobd-ecu-data/hobd_parser.c
      ECU simulator                          Ecu                  fake-hobd-ecu-data/ecu.c
      the simulator's program                EcuMain              fake-hobd-ecu-data/main.c
      module and ECU on one line             Link                 (composition)
      line to card to reader                 System               (composition)
      one MMC module, several clients        Shared               (composition)
      all threads taking turns               Whole                (composition)
>>

    Interfaces: Services has the classes of what a module asks of the others
    ([TimeServer], [Services]) and of what they promise ([TimeServerSpec],
    [TimerSpec], [ServicesSpec]).  TimeServer discharges the first over Sync,
    System discharges the last over MmcModule, so that HobdModule, proved against
    the classes, runs on the real modules there; Console is proved against
    [BackendSpec], which Commands discharges over MmcCalls and HobdModule.  Shared
    discharges [ServicesSpec] again, over MmcLog and with a history of the log that
    says which client did what in which order, and Whole runs HobdModule,
    SystemModule, Console and the root task over that one MMC module.
    FatCalls and [FatLock.LockedCall] state what the FAT library does in steps under
    the lock, for MmcRace.  Text has the output of numbers, Typing the rules by which
    an operation keeps every object in its C type, this file the machine integers,
    the monad, arrays and the lemmas all of them share.

    * How state and operations correspond to the code

    An operation is a function of the monad [M S]: it runs on a state, which has
    the globals of its file as a record and what the outside does as a script,
    and ends with a value or stops.  It stops with [Fault] where C accesses
    memory outside of an object or a null pointer, with [Halted] where a fatal
    check aborts, and with [Blocked] where a thread waits for something the
    script does not have.  Definitions have the names of the source.  A 32-bit
    value is a [Z] whose wrap-around is written out ([u8], [u16], [u32], [u64]);
    a buffer is a list of bytes or words, accessed at an index by [load], [store],
    [read_at], [write_at]; a structure in a buffer is an overlay over its bytes.
    ZF_LOGF_IF aborts or only logs, depending on the build: [LogPolicy] is the
    parameter that decides, and theorems that need the abort say so.

    Input is a script: what each poll of the serial port finds and whether the
    timeout fires before the next look at its flag (Comm), the messages at an
    endpoint, what the driver calls return (class [Hw]), the events of the MMC
    thread (a message, the hard-flush timeout, a caller's write to the message
    area), the interrupts of the console's port, what the kernel and the
    libraries answer during the boot (class [Platform]).  The theorems are about
    every script.

    Threads that run concurrently are step relations: the callers of the time
    server with its thread ([TimeServer.step]: a step is a lock, the work under
    the lock, an unlock), the modules at the barrier with the system thread
    ([SystemModule.boot_step]: one statement per step), and the threads that share
    the FAT library ([FatLock.mstep]: a step is a piece of work on the module's
    globals or on the library's state, a lock or an unlock).  In Whole the threads
    take turns ([Whole.take_turns], for any list of turns): an iteration of the HOBD
    thread, a console line, a heartbeat, a fault, a hard flush.

    * What the theorems show

    - The system: from the start of its threads on, whatever turns they take, it is
      a small abstract machine ([Whole.system_refines]: the flags, the conversation
      with the ECU, the line and the history of the log, from which the reader's
      output follows).
    - The path of a message, end to end: [System.messages_reach_dump], and from the
      start of the module on, with the requests that enable it,
      [System.power_on_to_reader]; both ends of the line, [Link.hobd_meets_ecu], and
      after an outage, with both ends in any state, [Link.hobd_reconnects].
    - The HOBD thread is a refinement of an abstract session with the ECU
      ([thread_refines_session]; [comm_update_state_refines] and
      [comm_wait_for_resp_refines] for its parts), does not fault
      ([thread_never_faults]), keeps its state in the types of C
      ([thread_keeps_types]), is silent where it has to be ([listen_only_silent]),
      and answers its calls ([get_stats_served]; as a lemma [comm_state_set_get]).
    - The parser refines a reference framer over any byte stream
      ([parser_refines_framer]), accepts every well-formed frame ([parse_frame]),
      is back at a boundary within 251 bytes ([parser_resynchronises]), and reads
      what the builders write ([hobd_msg_roundtrip]); the simulator's copy of it is
      the same function (lemmas [ecu_parse_byte_run], [ecu_checksum_run]).
    - The log: the MMC module is an abstract log of entries, for any calls by any
      clients, whose entries the reader of the card shows ([log_refines]); an
      entry reaches the file as it is ([log_entry_stored]), the MMC thread does not
      fault ([mmc_thread_never_faults]) and serves its calls (as a lemma
      [mmc_calls_served]), the file's operations keep its handle valid
      ([file_ops_sound]) and store what a hard flush promises
      ([hard_flush_stores]); reading is the inverse of writing ([dump_log]) and
      always ends ([dump_terminates]).
    - Concurrency and start: the calls of the time server are linearizable
      ([calls_linearize]) and return ([calls_return]); the file system lock makes
      the calls of the FAT library atomic ([locked_calls_atomic]); nobody passes
      the barrier early and everybody passes ([nobody_starts_early], [everybody_starts]); the
      heartbeat ([heartbeats_logged]); no thread runs before it is set up
      ([threads_start_ready]).
    - The console: a line is executed as its meaning says ([exec_dispatch]), with
      that effect on the real modules and that output ([commands_effective]), for
      ever ([console_keeps_serving]).
    - The ECU simulator refines a reference ECU ([ecu_refines]); its program runs
      it until SIGINT and cleans up ([runs_until_interrupt]).
    - Limits and defects of the code, each with a concrete input or a general
      statement: [concurrent_callers_tear_entries], [refused_operations],
      [dump_overflows], [flush_races_with_write], [response_size_wraps]; and, in
      the files of their components, [init_guard_insufficient],
      [table_query_carries_stale_byte], [ids_exhausted], [callbacks_must_not_call],
      [ipc_buffer_frame_mismatch], [calloc_failure_faults].

    Every property with hypotheses is followed by a witness that applies it to a
    concrete input, on an implementation of each interface.

    * Bounds and fuel

    A thread's loop runs [n] iterations, for any [n].  The receive loops of Comm
    have one unit of fuel per poll of the script and one more: each iteration
    takes a poll, and without one the thread is blocked, so the fuel is never
    what ends them.  The checksum loop and the loops over message registers have
    their number of iterations.  The reader's main loop needs one unit per entry
    and two more ([dump_log], [dump_terminates] say so).  Numbers are printed
    with the digits of a 64-bit number.  The kernel delivers messages of up to
    120 words; a log entry has up to 456 bytes of data; the time server has three
    timeout ids.

    * What is not modelled

    - The kernel, the drivers, the FAT library (class [Fat]: what a call does to
      the contents, to the open handles and to the card), the line editor, the
      time manager and the mutex are interfaces with their documented behaviour
      as laws, and a small implementation of each.
    - The events of the MMC thread are atomic in MmcModule and above: there the
      hard-flush timeout does not run in the middle of the handling of a message.
      It can in the code, and [flush_races_with_write] shows what follows; the
      theorems about the MMC thread hold while the two do not overlap.  The turns of
      Whole are atomic in the same sense: a turn that is preempted in the middle of
      a call is not in the model.  The console of Whole does not enable a log that
      is enabled, which opens the file a second time ([MmcLog] has what the module
      does for every other call).  A call
      of the FAT library is told at its start whether the media functions perform
      their transfers; in the code they look at the flag at every transfer.
    - There is no echo and no collision on the K-line.  The files of the reader
      can be opened and written.  Debug output, the printing of a fault, delays
      and the dump of the scheduler are left out.
    - The simulator's calls of the system are an interface ([EcuMain.Os]); a failed
      receive and a closed connection are polls without data, as the code has it.
    - Build configuration, library patches and scripts.

    * Where the development ends

    Every function of the C sources is a definition; the lines without one are
    prototypes, includes, comments, static objects (fields of a component's record
    here), packed structures whose fields are accessed by their offsets, and the
    statements behind loops that do not end.  Left open, because the code cannot be read from here or has no
    statement about it: preemption inside of a turn of Whole, which needs the FAT
    library's steps (FatCalls, FatLock and MmcRace treat the module's share of it);
    the look of the media functions at the flag at every transfer; what an ECU does
    that is not the simulator, of which Link only assumes its bytes. *)
From stdpp Require Export base list numbers option.
From Stdlib Require Export ZArith Lia ZifyBool.

#[global] Open Scope Z_scope.

(** ** Machine integers

    An unsigned [w]-bit object of the source is a [Z] in [0 .. 2^w - 1]; the
    wrap-around of a store into such an object is written out. *)
Definition u8 (z : Z) : Z := z mod 256.
Definition u16 (z : Z) : Z := z mod 65536.
Definition u32 (z : Z) : Z := z mod 4294967296.
Definition u64 (z : Z) : Z := z mod 18446744073709551616.

Definition byte (z : Z) : Prop := 0 <= z < 256.
Definition word (z : Z) : Prop := 0 <= z < 4294967296.
Definition bytes (l : list Z) : Prop := Forall byte l.

Lemma u8_range z : byte (u8 z).
Proof. by apply Z.mod_pos_bound. Qed.
Lemma u32_range z : word (u32 z).
Proof. by apply Z.mod_pos_bound. Qed.
Lemma u64_range z : 0 <= u64 z < 2 ^ 64.
Proof. by apply Z.mod_pos_bound. Qed.

#[export] Instance byte_dec z : Decision (byte z).
Proof. unfold byte. apply _. Defined.
#[export] Instance word_dec z : Decision (word z).
Proof. unfold word. apply _. Defined.
#[export] Instance bytes_dec l : Decision (bytes l).
Proof. unfold bytes. apply _. Defined.

(** ** Outcomes and the state monad of a thread

    A C function that runs on a state [S] is a function of type [M S A].  It
    is [Done] with its result, or it stopped: [Halted] by a fatal check,
    [Fault]ed on an access outside of an object (or through [NULL]), or
    [Blocked] waiting for an event its environment does not provide. *)
Inductive stop := Halted | Fault | Blocked.

#[export] Instance stop_eq_dec : EqDecision stop.
Proof. solve_decision. Defined.

Inductive outcome (A : Type) :=
| Done (a : A)
| Stop (k : stop).
Arguments Done {A} a.
Arguments Stop {A} k.

Definition M (S A : Type) : Type := S -> outcome A * S.

#[export] Instance M_ret S : MRet (M S) := fun A a s => (Done a, s).
#[export] Instance M_bind S : MBind (M S) := fun A B f m s =>
  match m s with
  | (Done a, s') => f a s'
  | (Stop k, s') => (Stop k, s')
  end.

Definition gets {S A} (f : S -> A) : M S A := fun s => (Done (f s), s).
Definition modify {S} (f : S -> S) : M S unit := fun s => (Done tt, f s).
Definition stop_with {S A} (k : stop) : M S A := fun s => (Stop k, s).
Definition when {S} (b : bool) (m : M S unit) : M S unit :=
  if b then m else mret tt.

(** An [option] of the pure layer is a faulting access of the effectful one. *)
Definition or_fault {S A} (o : option A) : M S A :=
  match o with Some a => mret a | None => stop_with Fault end.

(** [zoom get put m] runs an operation of a component inside of a larger state. *)
Definition zoom {S T A} (get : S -> T) (put : T -> S -> S) (m : M T A) : M S A :=
  fun s => let '(o, t) := m (get s) in (o, put t s).

(** The fatal log macro of the seL4 utility library: whether it aborts the
    thread depends on that library's build, so it is a parameter. *)
Class LogPolicy := logf_aborts : bool.

Definition ZF_LOGF `{LogPolicy} {S} : M S unit :=
  if logf_aborts then stop_with Halted else mret tt.
Definition ZF_LOGF_IF `{LogPolicy} {S} (c : bool) : M S unit := when c ZF_LOGF.

(** C's [assert] always aborts when its condition is false. *)
Definition c_assert {S} (c : bool) : M S unit :=
  if c then mret tt else stop_with Halted.

(** ** Weakest preconditions

    [wp m Q X s]: running [m] from [s] ends in a result and a state that
    satisfy [Q], or stops for a reason and in a state that satisfy [X]. *)
Definition wp {S A} (m : M S A) (Q : A -> S -> Prop) (X : stop -> S -> Prop) (s : S) : Prop :=
  match m s with
  | (Done a, s') => Q a s'
  | (Stop k, s') => X k s'
  end.

Section wp_rules.
Context {S : Type}.
Implicit Types X : stop -> S -> Prop.

Lemma wp_ret {A} (a : A) Q X (s : S) : Q a s -> wp (mret a) Q X s.
Proof. done. Qed.

Lemma wp_bind {A B} (m : M S A) (f : A -> M S B) Q X s :
  wp m (fun a => wp (f a) Q X) X s -> wp (m ≫= f) Q X s.
Proof. unfold wp, mbind, M_bind. by destruct (m s) as [[a|k] s']. Qed.

(** A specification of the first three of several statements. *)
Lemma wp_seq3 {A B C D} (m1 : M S A) (m2 : M S B) (m3 : M S C) (k : M S D) Q X s :
  wp (m1;; m2;; m3) (fun _ s' => wp k Q X s') X s -> wp (m1;; m2;; m3;; k) Q X s.
Proof.
  unfold wp, mbind, M_bind. destruct (m1 s) as [[?|?] s1]; [|done].
  destruct (m2 s1) as [[?|?] s2]; [|done]. by destruct (m3 s2) as [[?|?] s3].
Qed.

(** Conversely, and in front of a result. *)
Lemma wp_bind_inv {A B} (m : M S A) (f : A -> M S B) Q X s :
  wp (m ≫= f) Q X s -> wp m (fun a => wp (f a) Q X) X s.
Proof. unfold wp, mbind, M_bind. by destruct (m s) as [[a|k] s']. Qed.
Lemma wp_ret_inv {A B} (m : M S A) (f : A -> B) Q X s :
  wp (m ≫= (fun a => mret (f a))) Q X s -> wp m (fun a => Q (f a)) X s.
Proof. apply wp_bind_inv. Qed.

Lemma wp_gets {A} (f : S -> A) Q X s : Q (f s) s -> wp (gets f) Q X s.
Proof. done. Qed.

Lemma wp_modify (f : S -> S) Q X s : Q tt (f s) -> wp (modify f) Q X s.
Proof. done. Qed.

Lemma wp_stop {A} k (Q : A -> S -> Prop) X s : X k s -> wp (stop_with k) Q X s.
Proof. done. Qed.

Lemma wp_when b (m : M S unit) Q X s :
  (b = true -> wp m Q X s) -> (b = false -> Q tt s) -> wp (when b m) Q X s.
Proof. destruct b; [tauto|]. unfold when. intros _ H. by apply wp_ret, H. Qed.

Lemma wp_logf_if `{LogPolicy} b Q X (s : S) :
  (b = true -> X Halted s) -> Q tt s -> wp (ZF_LOGF_IF b) Q X s.
Proof.
  intros HX HQ. apply wp_when; [|done]. intros Hb. unfold ZF_LOGF.
  destruct logf_aborts; [by apply wp_stop, HX | by apply wp_ret].
Qed.

(** When the fatal log aborts, what follows may rely on the check. *)
Lemma wp_logf_abort `{LogPolicy} b Q X (s : S) : logf_aborts = true ->
  X Halted s -> (b = false -> Q tt s) -> wp (ZF_LOGF_IF b) Q X s.
Proof.
  intros Ha HX HQ. apply wp_when; [|done]. intros _. unfold ZF_LOGF. rewrite Ha. by apply wp_stop.
Qed.

Lemma wp_mono {A} (m : M S A) (Q Q' : A -> S -> Prop) X X' s :
  wp m Q X s ->
  (forall a s', Q a s' -> Q' a s') -> (forall k s', X k s' -> X' k s') ->
  wp m Q' X' s.
Proof. unfold wp. intros H HQ HX. destruct (m s) as [[a|k] s']; eauto. Qed.

Lemma wp_conj {A} (m : M S A) (Q Q' : A -> S -> Prop) X X' s :
  wp m Q X s -> wp m Q' X' s ->
  wp m (fun a s' => Q a s' /\ Q' a s') (fun k s' => X k s' /\ X' k s') s.
Proof. unfold wp. by destruct (m s) as [[a|k] s']. Qed.

(** The final state is the one the run computes. *)
Lemma wp_final {A} (m : M S A) (Q : A -> S -> Prop) X s :
  wp m Q X s -> wp m (fun a s' => Q a s' /\ s' = (m s).2) X s.
Proof. unfold wp. by destruct (m s) as [[a|k] s']. Qed.

(** The result and the state are those of the run. *)
Lemma wp_exact {A} (m : M S A) (Q : A -> S -> Prop) X s :
  wp m Q X s -> wp m (fun a s' => Q a s' /\ m s = (Done a, s')) X s.
Proof. unfold wp. by destruct (m s) as [[a|k] s']. Qed.

Lemma wp_zoom {T A} (get : S -> T) (put : T -> S -> S) (m : M T A) Q X s :
  wp m (fun a t => Q a (put t s)) (fun k t => X k (put t s)) (get s) ->
  wp (zoom get put m) Q X s.
Proof. unfold wp, zoom. by destruct (m (get s)) as [[a|k] t]. Qed.

Lemma wp_or_fault {A} (o : option A) a Q X (s : S) :
  o = Some a -> Q a s -> wp (or_fault o) Q X s.
Proof. by intros ->. Qed.

(** A run that is known exactly. *)
Lemma wp_run {A} (m : M S A) a s s' Q X : m s = (Done a, s') -> Q a s' -> wp m Q X s.
Proof. unfold wp. by intros ->. Qed.
Lemma run_of_wp {A} (m : M S A) a s s' :
  wp m (fun a1 s1 => a1 = a /\ s1 = s') (fun _ _ => False) s -> m s = (Done a, s').
Proof. unfold wp. destruct (m s) as [[a1|k] s1]; [|done]. by intros [-> ->]. Qed.

(** A run that cannot stop. *)
Lemma wp_done {A} (m : M S A) Q s :
  wp m Q (fun _ _ => False) s -> exists a s', m s = (Done a, s') /\ Q a s'.
Proof. unfold wp. destruct (m s) as [[a|k] s1]; [|done]. by exists a, s1. Qed.
End wp_rules.

Lemma bind_done {S A B} (m : M S A) (f : A -> M S B) s a s' :
  m s = (Done a, s') -> (m ≫= f) s = f a s'.
Proof. unfold mbind, M_bind. by intros ->. Qed.

Lemma bind_stop {S A B} (m : M S A) (f : A -> M S B) s k s' :
  m s = (Stop k, s') -> (m ≫= f) s = (Stop k, s').
Proof. unfold mbind, M_bind. by intros ->. Qed.

Lemma bind_assoc {S A B C} (m : M S A) (f : A -> M S B) (g : B -> M S C) s :
  ((m ≫= f) ≫= g) s = (m ≫= (fun a => f a ≫= g)) s.
Proof. unfold mbind, M_bind. by destruct (m s) as [[a|k] s']. Qed.

#[export] Instance wp_proper {S A} (m : M S A) :
  Proper (pointwise_relation A (pointwise_relation S iff) ==>
          pointwise_relation stop (pointwise_relation S iff) ==>
          pointwise_relation S iff) (wp m).
Proof.
  intros Q Q' HQ X X' HX s. unfold wp.
  destruct (m s) as [[a|k] s']; [apply HQ | apply HX].
Qed.

(** [respects R m]: whatever the outcome, the state [m] leaves is related to
    the state it started from. *)
Definition respects {S A} (R : S -> S -> Prop) (m : M S A) : Prop := forall s, R s (m s).2.

Section respects.
Context {S : Type} (R : S -> S -> Prop) `{!PreOrder R}.

Lemma respects_ret {A} (a : A) : respects R (mret a).
Proof. intros s. cbn. reflexivity. Qed.
Lemma respects_gets {A} (f : S -> A) : respects R (gets f).
Proof. intros s. cbn. reflexivity. Qed.
Lemma respects_stop {A} k : respects R (stop_with (A := A) k).
Proof. intros s. cbn. reflexivity. Qed.
Lemma respects_or_fault {A} (o : option A) : respects R (or_fault o).
Proof. destruct o; [apply respects_ret|apply respects_stop]. Qed.
Lemma respects_bind {A B} (m : M S A) (f : A -> M S B) :
  respects R m -> (forall a, respects R (f a)) -> respects R (m ≫= f).
Proof.
  intros Hm Hf s. specialize (Hm s). unfold mbind, M_bind.
  destruct (m s) as [[a|k] s1]; [|done]. etrans; [exact Hm|apply Hf].
Qed.
Lemma respects_when b (m : M S unit) : (b = true -> respects R m) -> respects R (when b m).
Proof. destruct b; intros H; [by apply H|apply respects_ret]. Qed.
Lemma respects_logf `{LogPolicy} : respects R ZF_LOGF.
Proof. unfold ZF_LOGF. destruct logf_aborts; [apply respects_stop|apply respects_ret]. Qed.
Lemma respects_logf_if `{LogPolicy} c : respects R (ZF_LOGF_IF c).
Proof. apply respects_when. intros _. apply respects_logf. Qed.
Lemma respects_modify f : (forall s, R s (f s)) -> respects R (modify f).
Proof. intros Hf s. apply Hf. Qed.
(** What every outcome keeps, as a postcondition. *)
Lemma wp_respects {A} (m : M S A) (I : S -> Prop) s :
  respects R m -> (forall s', R s s' -> I s') -> wp m (fun _ => I) (fun _ => I) s.
Proof. intros Hm HI. specialize (Hm s). unfold wp. destruct (m s) as [[a|k] s']; by apply HI. Qed.
Lemma respects_zoom {T A} (get : S -> T) put (m : M T A) :
  (forall s t, R s (put t s)) -> respects R (zoom get put m).
Proof. intros Hp s. unfold zoom. destruct (m (get s)) as [o t]. apply Hp. Qed.
End respects.

(** The structural steps of a [respects] proof. *)
Ltac respects_steps :=
  repeat match goal with
  | |- respects _ (mbind _ _) => apply respects_bind
  | |- respects _ (mret _) => apply respects_ret
  | |- respects _ (gets _) => apply respects_gets
  | |- respects _ (stop_with _) => apply respects_stop
  | |- respects _ (or_fault _) => apply respects_or_fault
  | |- respects _ (when _ _) => refine (respects_when _ _ _ _); intros _
  | |- respects _ ZF_LOGF => apply respects_logf
  | |- respects _ (ZF_LOGF_IF _) => apply respects_logf_if
  | |- PreOrder _ => apply _
  | |- forall _, respects _ _ => intros ?
  | |- respects _ (match ?x with _ => _ end) => destruct x
  end.

Create HintDb wp.
#[export] Hint Resolve wp_ret wp_gets wp_modify wp_stop : wp.

(** One step of a weakest-precondition proof. *)
Ltac wp_step :=
  lazymatch goal with
  | |- wp (_ ≫= _) _ _ _ => apply wp_bind
  | |- wp (mret _) _ _ _ => apply wp_ret
  | |- wp (gets _) _ _ _ => apply wp_gets
  | |- wp (modify _) _ _ _ => apply wp_modify
  | |- wp (stop_with _) _ _ _ => apply wp_stop
  | |- wp (when _ _) _ _ _ => apply wp_when
  | |- wp (ZF_LOGF_IF _) _ _ _ => apply wp_logf_if
  end; cbn beta.
(** The straight-line steps. *)
Ltac wp_steps :=
  repeat lazymatch goal with
  | |- wp (_ ≫= _) _ _ _ => wp_step
  | |- wp (mret _) _ _ _ => wp_step
  | |- wp (gets _) _ _ _ => wp_step
  | |- wp (modify _) _ _ _ => wp_step
  | |- wp (stop_with _) _ _ _ => wp_step
  end.
(** Uses a specification [lem] of the first statement. *)
Ltac wp_use lem := eapply wp_mono; [lem| |]; cbn beta.

(** ** Arrays

    [load]/[store] are an array access at an integer index: an access outside
    of the array is [None]. *)
Definition load {A} (l : list A) (i : Z) : option A :=
  if decide (0 <= i) then l !! Z.to_nat i else None.

Definition store {A} (l : list A) (i : Z) (x : A) : option (list A) :=
  if decide (0 <= i < Z.of_nat (length l)) then Some (<[Z.to_nat i := x]> l) else None.

(** [write_at l i xs] is [memcpy(&l[i], xs, length xs)]. *)
Definition write_at {A} (l : list A) (i : Z) (xs : list A) : option (list A) :=
  if decide (0 <= i /\ i + Z.of_nat (length xs) <= Z.of_nat (length l))
  then Some (take (Z.to_nat i) l ++ xs ++ drop (Z.to_nat i + length xs) l)
  else None.

(** [read_at l i n] is the [n] elements at [&l[i]]. *)
Definition read_at {A} (l : list A) (i n : Z) : option (list A) :=
  if decide (0 <= i /\ 0 <= n /\ i + n <= Z.of_nat (length l))
  then Some (take (Z.to_nat n) (drop (Z.to_nat i) l))
  else None.

Section arrays.
Context {A : Type}.
Implicit Types (l : list A) (x : A).

Lemma load_nat l (n : nat) : load l (Z.of_nat n) = l !! n.
Proof. unfold load. rewrite decide_True by lia. by rewrite Nat2Z.id. Qed.

Lemma store_nat l (n : nat) x :
  (n < length l)%nat -> store l (Z.of_nat n) x = Some (<[n := x]> l).
Proof. intros. unfold store. rewrite decide_True by lia. by rewrite Nat2Z.id. Qed.

Lemma store_length l i x l' : store l i x = Some l' -> length l' = length l.
Proof. unfold store. case_decide; [|done]. intros [= <-]. apply length_insert. Qed.

Lemma store_None l i x : store l i x = None <-> ~ (0 <= i < Z.of_nat (length l)).
Proof. unfold store. by case_decide. Qed.

(** Storing just behind a prefix extends the prefix. *)
Lemma take_S_insert l (n : nat) x :
  (n < length l)%nat -> take (S n) (<[n := x]> l) = take n l ++ [x].
Proof.
  intros Hn. rewrite (take_S_r _ _ x).
  - by rewrite take_insert_ge by lia.
  - by apply list_lookup_insert_eq.
Qed.

Lemma write_at_Some l (i : nat) xs :
  (i + length xs <= length l)%nat ->
  write_at l (Z.of_nat i) xs = Some (take i l ++ xs ++ drop (i + length xs) l).
Proof. intros. unfold write_at. rewrite decide_True by lia. by rewrite Nat2Z.id. Qed.

Lemma length_write_at l i xs l' : write_at l i xs = Some l' -> length l' = length l.
Proof.
  unfold write_at. case_decide; [|done]. intros [= <-].
  rewrite !length_app, length_take, length_drop. lia.
Qed.
End arrays.

(** One element of a list of threads moves while the others stay. *)
Section moved.
Context {A : Type}.
Implicit Types (l : list A) (p q : A).

Lemma moved l i p q j : l !! i = Some p -> <[i := q]> l !! j = if decide (i = j) then Some q else l !! j.
Proof.
  intros Hi. case_decide; [subst; apply list_lookup_insert_eq, (lookup_lt_Some _ _ _ Hi)|].
  by apply list_lookup_insert_ne.
Qed.

Lemma moved_some l i p q j : l !! i = Some p -> is_Some (l !! j) -> is_Some (<[i := q]> l !! j).
Proof. intros Hi Hj. rewrite (moved _ _ _ _ _ Hi). by case_decide. Qed.

(** What they have left to do, if [w] is what one of them has. *)
Lemma sum_moved (w : A -> nat) l i p q : l !! i = Some p ->
  (sum_list_with w (<[i := q]> l) + w p = sum_list_with w l + w q)%nat.
Proof.
  revert i. induction l as [|p' l IH]; intros [|i]; cbn; [done..| |].
  - intros [= ->]. lia.
  - intros Hi. specialize (IH i Hi). unfold insert in *. lia.
Qed.

Lemma sum_bound (w : A -> nat) (n : nat) l : (forall p, (w p <= n)%nat) ->
  (sum_list_with w l <= n * length l)%nat.
Proof.
  intros Hn. induction l as [|p l IH]; [cbn; lia|]. cbn [sum_list_with length]. specialize (Hn p). lia.
Qed.
End moved.

Lemma bytes_app l1 l2 : bytes (l1 ++ l2) <-> bytes l1 /\ bytes l2.
Proof. apply Forall_app. Qed.

Lemma bytes_take n l : bytes l -> bytes (take n l).
Proof. apply Forall_take. Qed.

Lemma bytes_drop n l : bytes l -> bytes (drop n l).
Proof. apply Forall_drop. Qed.

Lemma bytes_insert n x l : bytes l -> byte x -> bytes (<[n := x]> l).
Proof. intros. by apply Forall_insert. Qed.

Lemma bytes_store l i x l' : bytes l -> byte x -> store l i x = Some l' -> bytes l'.
Proof. unfold store. case_decide; [|done]. intros ?? [= <-]. by apply bytes_insert. Qed.

Lemma bytes_lookup l i x : bytes l -> l !! i = Some x -> byte x.
Proof. intros Hl Hi. exact (Forall_lookup_1 _ _ _ _ Hl Hi). Qed.

(** ** Sums of bytes *)
Definition sumZ (l : list Z) : Z := foldr Z.add 0 l.

Lemma sumZ_cons x l : sumZ (x :: l) = x + sumZ l.
Proof. done. Qed.

Lemma sumZ_app l1 l2 : sumZ (l1 ++ l2) = sumZ l1 + sumZ l2.
Proof. induction l1 as [|x l1 IH]; [done|]. cbn [app]. rewrite !sumZ_cons. lia. Qed.

Lemma sumZ_bounds l : bytes l -> 0 <= sumZ l <= 255 * Z.of_nat (length l).
Proof.
  induction 1 as [|x l Hx _ IH]; [cbn; lia|].
  rewrite sumZ_cons, length_cons. unfold byte in Hx. lia.
Qed.

(** ** Little-endian layout of scalars *)
Fixpoint le_bytes (n : nat) (z : Z) : list Z :=
  match n with O => [] | S n => z mod 256 :: le_bytes n (z / 256) end.

Fixpoint le_val (l : list Z) : Z :=
  match l with [] => 0 | b :: l => b + 256 * le_val l end.

Lemma length_le_bytes n z : length (le_bytes n z) = n.
Proof. revert z. induction n; intros; cbn; auto. Qed.

Lemma bytes_le_bytes n z : bytes (le_bytes n z).
Proof.
  revert z. induction n as [|n IH]; intros z; [constructor|].
  cbn. constructor; [|apply IH]. apply Z.mod_pos_bound. lia.
Qed.

Lemma le_val_bytes n z : 0 <= z < 256 ^ Z.of_nat n -> le_val (le_bytes n z) = z.
Proof.
  revert z. induction n as [|n IH]; intros z Hz; cbn -[Z.of_nat].
  - change (256 ^ Z.of_nat 0) with 1 in Hz. lia.
  - rewrite IH.
    + pose proof (Z.div_mod z 256 ltac:(lia)). lia.
    + rewrite Nat2Z.inj_succ, Z.pow_succ_r in Hz by lia.
      split; [apply Z.div_pos; lia | apply Z.div_lt_upper_bound; lia].
Qed.

Lemma le_bytes_val l : bytes l -> le_bytes (length l) (le_val l) = l.
Proof.
  induction 1 as [|b l Hb _ IH]; [done|]. unfold byte in Hb. cbn.
  replace (b + 256 * le_val l) with (le_val l * 256 + b) by ring.
  rewrite Z.div_add_l, (Z.div_small b), Z.add_0_r by lia. rewrite IH. f_equal.
  rewrite Z.add_comm, Z.mod_add by lia. by apply Z.mod_small.
Qed.

Lemma le_bytes_app n m z :
  le_bytes (n + m) z = le_bytes n z ++ le_bytes m (z / 256 ^ Z.of_nat n).
Proof.
  revert z. induction n as [|n IH]; intros z; [by rewrite Z.div_1_r|].
  cbn [Nat.add le_bytes app]. f_equal. rewrite IH. do 2 f_equal.
  rewrite Nat2Z.inj_succ, Z.pow_succ_r by lia. by rewrite Z.div_div by lia.
Qed.

(** Only the low bytes count. *)
Lemma le_bytes_mod n z : le_bytes n (z mod 256 ^ Z.of_nat n) = le_bytes n z.
Proof.
  revert z. induction n as [|n IH]; intros z; [done|].
  rewrite Nat2Z.inj_succ, Z.pow_succ_r by lia. cbn [le_bytes]. f_equal.
  - apply Z.mod_mod_divide. by exists (256 ^ Z.of_nat n); lia.
  - rewrite Z.rem_mul_r by lia. rewrite Z.add_comm, Z.mul_comm, Z.div_add_l by lia.
    rewrite (Z.div_small (z mod 256)) by (apply Z.mod_pos_bound; lia).
    by rewrite Z.add_0_r.
Qed.

Lemma le_val_app l1 l2 : le_val (l1 ++ l2) = le_val l1 + 256 ^ Z.of_nat (length l1) * le_val l2.
Proof.
  induction l1 as [|b l1 IH]; [cbn; destruct (le_val l2); done|].
  cbn [app le_val length]. rewrite IH, Nat2Z.inj_succ, Z.pow_succ_r by lia. ring.
Qed.

Lemma le_val_range l : bytes l -> 0 <= le_val l < 256 ^ Z.of_nat (length l).
Proof.
  induction 1 as [|b l Hb _ IH]; [done|]. unfold byte in Hb.
  cbn [le_val length]. rewrite Nat2Z.inj_succ, Z.pow_succ_r by lia. nia.
Qed.

(** Fields packed with shifts. *)
Lemma lor_shiftl a b k : 0 <= k -> 0 <= a < 2 ^ k -> Z.lor a (Z.shiftl b k) = a + 2 ^ k * b.
Proof.
  intros Hk Ha. rewrite <- Z.add_nocarry_lor; [rewrite Z.shiftl_mul_pow2 by lia; ring|].
  apply Z.bits_inj'. intros i Hi. rewrite Z.land_spec, Z.bits_0.
  destruct (Z.ltb_spec i k).
  - by rewrite Z.shiftl_spec_low, andb_false_r by done.
  - by rewrite (proj1 (Z.bounded_iff_bits_nonneg' k a ltac:(lia) ltac:(lia))) by lia.
Qed.

Create HintDb bytes.
#[export] Hint Resolve bytes_take bytes_drop bytes_insert bytes_le_bytes : bytes.
Create Rewrite HintDb len.
#[export] Hint Rewrite @length_app @length_take @length_drop @length_insert
  @length_replicate length_le_bytes : len.

(** Closes a decidable goal about closed data by evaluation. *)
Ltac decide_now := apply (bool_decide_unpack _); vm_compute; exact I.

(** The two builds of the log library, for evaluating the model. *)
Definition log_aborts : LogPolicy := true.
Definition log_continues : LogPolicy := false.
