(* ===== verification/Kline.v ===== *)
(** The Honda OBD K-line protocol: the constants of
    modules/hobd/include/hobd_kline.h, the packed header overlay of a message
    buffer, and the abstract notion of a well-formed frame that the parser,
    the message builders and the ECU simulator agree on. *)
From S2P Require Import Prelude.

Definition HOBD_KLINE_BAUD : Z := 10400.
Definition HOBD_MSG_HEADER_SIZE : Z := 3.
Definition HOBD_MSG_CHECKSUM_SIZE : Z := 1.
Definition HOBD_MSG_HEADERCS_SIZE : Z := 4.
Definition HOBD_MSG_DATA_SIZE_MAX : Z := 251.
Definition HOBD_MSG_SIZE_MIN : Z := 4.
Definition HOBD_MSG_SIZE_MAX : Z := 255.

Definition HOBD_MSG_TYPE_INVALID : Z := 0x00.
Definition HOBD_MSG_TYPE_QUERY : Z := 0x72.
Definition HOBD_MSG_TYPE_RESPONSE : Z := 0x02.
Definition HOBD_MSG_TYPE_WAKE_UP : Z := 0xFE.

Definition HOBD_MSG_SUBTYPE_INVALID : Z := 0xAA.
Definition HOBD_MSG_SUBTYPE_WAKE_UP : Z := 0xFF.
Definition HOBD_MSG_SUBTYPE_INIT : Z := 0x00.
Definition HOBD_MSG_SUBTYPE_TABLE : Z := 0x71.
Definition HOBD_MSG_SUBTYPE_TABLE_SUBGROUP : Z := 0x72.

Definition HOBD_INIT_DATA : Z := 0xF0.
Definition HOBD_TABLE_SIZE_MAX : Z := 255.
Definition HOBD_TABLE_0 : Z := 0x00.
Definition HOBD_TABLE_10 : Z := 0x10.
Definition HOBD_TABLE_20 : Z := 0x20.
Definition HOBD_TABLE_D1 : Z := 0xD1.

(** [hobd_msg_s *] over a byte buffer: the packed header is the first three
    bytes, [data[i]] is the byte at offset [3 + i]. *)
Definition header_type (msg : list Z) : option Z := load msg 0.
Definition header_size (msg : list Z) : option Z := load msg 1.
Definition header_subtype (msg : list Z) : option Z := load msg 2.
Definition data_at (msg : list Z) (i : Z) : option Z := load msg (3 + i).
Definition set_header_type (v : Z) (msg : list Z) : option (list Z) := store msg 0 (u8 v).
Definition set_header_size (v : Z) (msg : list Z) : option (list Z) := store msg 1 (u8 v).
Definition set_header_subtype (v : Z) (msg : list Z) : option (list Z) := store msg 2 (u8 v).
Definition set_data (i v : Z) (msg : list Z) : option (list Z) := store msg (3 + i) (u8 v).

(** A frame is what may travel on the line as one message: its second byte is
    its length, and its bytes, the checksum included, add up to 0 modulo 256. *)
Definition frame_ok (f : list Z) : Prop :=
  bytes f /\ (4 <= length f <= 251)%nat /\
  f !! 1%nat = Some (Z.of_nat (length f)) /\ sumZ f mod 256 = 0.

#[export] Instance frame_ok_dec f : Decision (frame_ok f).
Proof. unfold frame_ok. apply _. Defined.

(** The frame that carries [data] under a type and a subtype. *)
Definition checksum_of (l : list Z) : Z := (- sumZ l) mod 256.
Definition frame_body (ty st : Z) (data : list Z) : list Z :=
  [ty; Z.of_nat (length data) + 4; st] ++ data.
Definition mk_frame (ty st : Z) (data : list Z) : list Z :=
  frame_body ty st data ++ [checksum_of (frame_body ty st data)].

Lemma byte_checksum l : byte (checksum_of l).
Proof. apply Z.mod_pos_bound. lia. Qed.

(** Appending its checksum makes the sum of a list vanish. *)
Lemma sum_checksum l : sumZ (l ++ [checksum_of l]) mod 256 = 0.
Proof.
  rewrite sumZ_app. cbn -[sumZ]. rewrite sumZ_cons. change (sumZ []) with 0.
  unfold checksum_of. rewrite Z.add_0_r, Zplus_mod_idemp_r.
  by replace (sumZ l + - sumZ l) with 0 by lia.
Qed.

Lemma length_mk_frame ty st data : length (mk_frame ty st data) = (length data + 4)%nat.
Proof. unfold mk_frame, frame_body. autorewrite with len. cbn. lia. Qed.

Lemma mk_frame_ok ty st data :
  byte ty -> byte st -> bytes data -> (length data <= 247)%nat ->
  frame_ok (mk_frame ty st data).
Proof.
  intros Hty Hst Hd Hl. unfold frame_ok. rewrite length_mk_frame. repeat split.
  - unfold mk_frame, frame_body. rewrite !bytes_app. repeat split; try done.
    + repeat apply Forall_cons_2; try done; unfold byte; lia.
    + apply Forall_cons_2; [apply byte_checksum | apply Forall_nil_2].
  - lia.
  - lia.
  - cbn. f_equal. lia.
  - apply sum_checksum.
Qed.

(** The checksum is the only byte that completes a list to a sum of 0. *)
Lemma checksum_unique l cs :
  byte cs -> sumZ (l ++ [cs]) mod 256 = 0 -> cs = checksum_of l.
Proof.
  intros Hcs. rewrite sumZ_app. unfold checksum_of, byte in *.
  rewrite (sumZ_cons cs []). change (sumZ []) with 0. rewrite Z.add_0_r. intros H.
  rewrite <- (Z.mod_small cs 256) by lia.
  replace cs with (- sumZ l + (sumZ l + cs)) by lia.
  by rewrite <- Zplus_mod_idemp_r, H, Z.add_0_r.
Qed.

(** Conversely every frame carries some payload under some type and subtype. *)
Lemma frame_ok_inv f :
  frame_ok f ->
  exists ty st data, f = mk_frame ty st data /\ byte ty /\ byte st /\ bytes data /\
    (length data <= 247)%nat.
Proof.
  intros (Hb & Hl & Hsz & Hsum).
  destruct f as [|ty [|sz [|st f]]]; cbn in Hl; try lia.
  destruct f as [|cs data _] using rev_ind; [cbn in Hl; lia|].
  exists ty, st, data.
  change (ty :: sz :: st :: data ++ [cs]) with ([ty; sz; st] ++ data ++ [cs]) in *.
  rewrite !bytes_app in Hb. destruct Hb as (Hh & Hd & Hc).
  unfold bytes in Hh, Hc. rewrite !Forall_cons_iff in Hh. destruct Hh as (Ht & _ & Hs & _).
  rewrite Forall_cons_iff in Hc. destruct Hc as [Hc _].
  autorewrite with len in Hl. cbn in Hl.
  assert (sz = Z.of_nat (length data) + 4) as ->.
  { cbn in Hsz. injection Hsz as ->. rewrite length_app. cbn. lia. }
  refine (conj _ (conj Ht (conj Hs (conj Hd _)))); [|lia].
  unfold mk_frame, frame_body. rewrite app_assoc. do 2 f_equal.
  apply checksum_unique; [done|]. by rewrite <- app_assoc.
Qed.
