(* ===== verification/Parser.v ===== *)
(** The byte-at-a-time message parser, modules/hobd/src/hobd_parser.c (and the
    simulator's copy of it, by [EcuParser]).

    The record mirrors [hobd_parser_s]; [rx_buffer] is the array the pointer
    of that name refers to, so a write behind its end is [None].  A [NULL]
    buffer is the empty array.  The abstract counterpart is the [framer], which
    only knows the bytes received since the last message boundary. *)
From S2P Require Import Prelude Kline.

Module Parser.

Definition HOBD_ERROR_NONE : Z := 0.
Definition HOBD_ERROR_NO_MSG : Z := 1.
Definition HOBD_ERROR_MSG_TYPE : Z := 2.
Definition HOBD_ERROR_MSG_SUBTYPE : Z := 3.
Definition HOBD_ERROR_CHECKSUM : Z := 4.

Inductive hobd_parser_state_kind :=
| HOBD_PARSER_STATE_GET_TYPE
| HOBD_PARSER_STATE_GET_SIZE
| HOBD_PARSER_STATE_GET_SUBTYPE
| HOBD_PARSER_STATE_GET_DATA
| HOBD_PARSER_STATE_GET_CHECKSUM.

#[export] Instance state_kind_eq_dec : EqDecision hobd_parser_state_kind.
Proof. solve_decision. Defined.

Record hobd_parser_s := mk_parser {
  state : hobd_parser_state_kind;
  bytes_read : Z;
  total_size : Z;
  checksum : Z;
  valid_count : Z;
  invalid_count : Z;
  rx_buffer : list Z;
  rx_buffer_size : Z;
}.

(** Assignments to the fields. *)
Definition set_state v p := mk_parser v (bytes_read p) (total_size p) (checksum p)
  (valid_count p) (invalid_count p) (rx_buffer p) (rx_buffer_size p).
Definition set_bytes_read v p := mk_parser (state p) v (total_size p) (checksum p)
  (valid_count p) (invalid_count p) (rx_buffer p) (rx_buffer_size p).
Definition set_total_size v p := mk_parser (state p) (bytes_read p) v (checksum p)
  (valid_count p) (invalid_count p) (rx_buffer p) (rx_buffer_size p).
Definition set_checksum v p := mk_parser (state p) (bytes_read p) (total_size p) v
  (valid_count p) (invalid_count p) (rx_buffer p) (rx_buffer_size p).
Definition set_valid_count v p := mk_parser (state p) (bytes_read p) (total_size p)
  (checksum p) v (invalid_count p) (rx_buffer p) (rx_buffer_size p).
Definition set_invalid_count v p := mk_parser (state p) (bytes_read p) (total_size p)
  (checksum p) (valid_count p) v (rx_buffer p) (rx_buffer_size p).
Definition set_rx_buffer v p := mk_parser (state p) (bytes_read p) (total_size p)
  (checksum p) (valid_count p) (invalid_count p) v (rx_buffer_size p).
Definition set_rx_buffer_size v p := mk_parser (state p) (bytes_read p) (total_size p)
  (checksum p) (valid_count p) (invalid_count p) (rx_buffer p) v.

Definition valid_type (type : Z) : Z :=
  if type =? HOBD_MSG_TYPE_QUERY then type
  else if type =? HOBD_MSG_TYPE_RESPONSE then type
  else if type =? HOBD_MSG_TYPE_WAKE_UP then type
  else u8 HOBD_ERROR_MSG_TYPE.

Definition valid_subtype (subtype : Z) : Z :=
  if subtype =? HOBD_MSG_SUBTYPE_WAKE_UP then subtype
  else if subtype =? HOBD_MSG_SUBTYPE_INIT then subtype
  else if subtype =? HOBD_MSG_SUBTYPE_TABLE_SUBGROUP then subtype
  else if subtype =? HOBD_MSG_SUBTYPE_TABLE then subtype
  else u8 HOBD_ERROR_MSG_SUBTYPE.

Definition invalid_reset (p : hobd_parser_s) : hobd_parser_s :=
  set_state HOBD_PARSER_STATE_GET_TYPE
    (set_invalid_count (u16 (invalid_count p + 1)) p).

Definition ready_parser (p : hobd_parser_s) : hobd_parser_s :=
  set_checksum 0 (set_total_size 0 (set_bytes_read 0 p)).

(** [rx_buffer[bytes_read] = byte; bytes_read += 1]. *)
Definition put_byte (byte : Z) (p : hobd_parser_s) : option hobd_parser_s :=
  buf ← store (rx_buffer p) (bytes_read p) byte;
  Some (set_bytes_read (u8 (bytes_read p + 1)) (set_rx_buffer buf p)).

Definition update_byte (byte : Z) (p : hobd_parser_s) : option hobd_parser_s :=
  p ← put_byte byte p;
  Some (set_checksum (u16 (checksum p + byte)) p).

Definition hobd_parser_init `{LogPolicy} (buffer : list Z) (size : Z) :
    M hobd_parser_s unit :=
  ZF_LOGF_IF (bool_decide (buffer = []));;
  ZF_LOGF_IF (size <=? HOBD_MSG_SIZE_MIN);;
  modify (set_state HOBD_PARSER_STATE_GET_TYPE);;
  modify ready_parser;;
  modify (set_valid_count 0);;
  modify (set_invalid_count 0);;
  modify (set_rx_buffer buffer);;
  modify (set_rx_buffer_size size).

Definition hobd_parser_reset (p : hobd_parser_s) : hobd_parser_s :=
  set_state HOBD_PARSER_STATE_GET_TYPE (ready_parser p).

Definition hobd_parser_parse_byte (byte : Z) (p : hobd_parser_s) :
    option (Z * hobd_parser_s) :=
  match state p with
  | HOBD_PARSER_STATE_GET_TYPE =>
      p ← update_byte byte (ready_parser p);
      Some (HOBD_ERROR_NO_MSG,
            if negb (valid_type byte =? HOBD_MSG_TYPE_INVALID)
            then set_state HOBD_PARSER_STATE_GET_SIZE p else p)
  | HOBD_PARSER_STATE_GET_SIZE =>
      p ← update_byte byte p;
      Some (HOBD_ERROR_NO_MSG,
            if HOBD_MSG_DATA_SIZE_MAX <? byte then invalid_reset p
            else if byte <? HOBD_MSG_SIZE_MIN then invalid_reset p
            else set_state HOBD_PARSER_STATE_GET_SUBTYPE (set_total_size byte p))
  | HOBD_PARSER_STATE_GET_SUBTYPE =>
      p ← update_byte byte p;
      Some (HOBD_ERROR_NO_MSG,
            if negb (valid_subtype byte =? HOBD_MSG_SUBTYPE_INVALID)
            then if total_size p =? HOBD_MSG_SIZE_MIN
                 then set_state HOBD_PARSER_STATE_GET_CHECKSUM p
                 else set_state HOBD_PARSER_STATE_GET_DATA p
            else invalid_reset p)
  | HOBD_PARSER_STATE_GET_DATA =>
      p ← update_byte byte p;
      Some (HOBD_ERROR_NO_MSG,
            if bytes_read p + 1 =? total_size p
            then set_state HOBD_PARSER_STATE_GET_CHECKSUM p else p)
  | HOBD_PARSER_STATE_GET_CHECKSUM =>
      p ← put_byte byte p;
      let cs := u16 (if 0x0100 <? checksum p
                     then 0x0100 - Z.land (checksum p) 0x00FF
                     else 0x0100 - checksum p) in
      let p := set_checksum cs p in
      let '(ret, p) :=
        if byte =? u8 (Z.land cs 0x00FF)
        then (HOBD_ERROR_NONE, set_valid_count (u16 (valid_count p + 1)) p)
        else (HOBD_ERROR_CHECKSUM, set_invalid_count (u16 (invalid_count p + 1)) p) in
      Some (ret, set_state HOBD_PARSER_STATE_GET_TYPE p)
  end.

(** The loop of [hobd_parser_checksum]; [fuel] bounds its iterations. *)
Fixpoint checksum_loop (fuel : nat) (data : list Z) (size idx cs : Z) : option Z :=
  match fuel with
  | O => None
  | S fuel =>
      if idx <? size
      then b ← load data idx;
           checksum_loop fuel data size (u16 (idx + 1)) (u16 (cs + b))
      else Some cs
  end.

Definition hobd_parser_checksum (data : list Z) (size : Z) : option Z :=
  cs ← checksum_loop (S (Z.to_nat size)) data size 0 0;
  let cs := u16 (if 0x0100 <? cs then 0x0100 - Z.land cs 0x00FF else 0x0100 - cs) in
  Some (u8 (Z.land cs 0xFF)).

(** *** The reference framer

    [pend] is what was received of the current message. *)
Inductive verdict :=
| Pending
| BadLength
| BadSum
| Framed (f : list Z).

Definition framer_step (pend : list Z) (b : Z) : verdict * list Z :=
  let f := pend ++ [b] in
  match f !! 1%nat with
  | None => (Pending, f)
  | Some size =>
      if negb ((4 <=? size) && (size <=? 251)) then (BadLength, [])
      else if Z.of_nat (length f) <? size then (Pending, f)
      else if sumZ f mod 256 =? 0 then (Framed f, []) else (BadSum, [])
  end.

Definition status_of (v : verdict) : Z :=
  match v with
  | Pending | BadLength => HOBD_ERROR_NO_MSG
  | BadSum => HOBD_ERROR_CHECKSUM
  | Framed _ => HOBD_ERROR_NONE
  end.

Fixpoint framer_run (pend : list Z) (bs : list Z) : list verdict * list Z :=
  match bs with
  | [] => ([], pend)
  | b :: bs =>
      let '(v, pend) := framer_step pend b in
      let '(vs, pend) := framer_run pend bs in (v :: vs, pend)
  end.

Definition frames (vs : list verdict) : list (list Z) :=
  omap (fun v => match v with Framed f => Some f | _ => None end) vs.
Definition is_reject (v : verdict) : bool :=
  match v with BadLength | BadSum => true | _ => false end.
Definition rejects (vs : list verdict) : nat := length (filter is_reject vs).

(** *** The checksum arithmetic *)

Lemma land_0xFF z : Z.land z 0xFF = z mod 256.
Proof. change 0xFF with (Z.ones 8). by rewrite Z.land_ones by lia. Qed.

(** Both shapes of the source's two's complement give [- cs] modulo 256. *)
Lemma complement_spec cs :
  0 <= cs < 65536 ->
  u8 (Z.land (u16 (if 0x0100 <? cs then 0x0100 - Z.land cs 0x00FF else 0x0100 - cs)) 0xFF)
  = (- cs) mod 256.
Proof.
  intros Hcs. rewrite land_0xFF. unfold u8, u16. rewrite Z.mod_mod by lia.
  case (Z.ltb_spec 0x0100 cs); intros H.
  - rewrite land_0xFF. pose proof (Z.mod_pos_bound cs 256 ltac:(lia)).
    rewrite (Z.mod_small _ 65536) by lia.
    rewrite Zminus_mod_idemp_r. replace (0x0100 - cs) with (- cs + 1 * 256) by lia.
    by rewrite Z.mod_add by lia.
  - rewrite (Z.mod_small _ 65536) by lia.
    replace (0x0100 - cs) with (- cs + 1 * 256) by lia. by rewrite Z.mod_add by lia.
Qed.

Lemma byte_eq_complement b s :
  byte b -> (b =? (- s) mod 256) = ((s + b) mod 256 =? 0).
Proof.
  unfold byte. intros Hb. apply eq_true_iff_eq. rewrite !Z.eqb_eq. split; intros H.
  - rewrite H, Zplus_mod_idemp_r. by replace (s + - s) with 0 by lia.
  - rewrite <- (Z.mod_small b 256) by lia.
    replace b with (- s + (s + b)) at 1 by lia.
    by rewrite <- Zplus_mod_idemp_r, H, Z.add_0_r.
Qed.

(** *** The representation of the pending bytes by the parser record *)

Definition state_after (n : nat) (size : Z) : hobd_parser_state_kind :=
  match n with
  | O => HOBD_PARSER_STATE_GET_TYPE
  | 1%nat => HOBD_PARSER_STATE_GET_SIZE
  | 2%nat => HOBD_PARSER_STATE_GET_SUBTYPE
  | _ => if Z.of_nat n + 1 =? size then HOBD_PARSER_STATE_GET_CHECKSUM
         else HOBD_PARSER_STATE_GET_DATA
  end.

(** [pend] is a prefix that some frame can complete. *)
Definition prefix_ok (pend : list Z) : Prop :=
  bytes pend /\
  forall size, pend !! 1%nat = Some size ->
    4 <= size <= 251 /\ Z.of_nat (length pend) < size.

Definition repr (p : hobd_parser_s) (pend : list Z) : Prop :=
  prefix_ok pend /\ (251 <= length (rx_buffer p))%nat /\
  state p = state_after (length pend) (total_size p) /\
  (pend <> [] ->
   bytes_read p = Z.of_nat (length pend) /\ checksum p = sumZ pend /\
   take (length pend) (rx_buffer p) = pend) /\
  (forall size, pend !! 1%nat = Some size -> total_size p = size).

Lemma prefix_ok_snoc pend b :
  prefix_ok pend -> byte b ->
  (forall size, (pend ++ [b]) !! 1%nat = Some size ->
     4 <= size <= 251 /\ Z.of_nat (length (pend ++ [b])) < size) ->
  prefix_ok (pend ++ [b]).
Proof.
  intros [Hp _] Hb H. split; [|done]. apply bytes_app. split; [done|].
  by apply Forall_cons_2.
Qed.

Lemma prefix_ok_length pend : prefix_ok pend -> (length pend <= 250)%nat.
Proof.
  intros [_ H]. destruct pend as [|a [|sz pend]]; cbn; [lia..|].
  destruct (H sz eq_refl). cbn in *. lia.
Qed.

Lemma prefix_ok_sum pend : prefix_ok pend -> 0 <= sumZ pend <= 63750.
Proof.
  intros H. pose proof (prefix_ok_length _ H). destruct H as [Hb _].
  pose proof (sumZ_bounds _ Hb). lia.
Qed.

(** *** One byte *)

Lemma put_byte_repr p pend b :
  byte b -> prefix_ok pend -> (251 <= length (rx_buffer p))%nat ->
  bytes_read p = Z.of_nat (length pend) ->
  take (length pend) (rx_buffer p) = pend ->
  exists buf, put_byte b p =
    Some (set_bytes_read (Z.of_nat (length (pend ++ [b]))) (set_rx_buffer buf p)) /\
    length buf = length (rx_buffer p) /\
    take (length (pend ++ [b])) buf = pend ++ [b].
Proof.
  intros Hb Hp Hlen Hn Ht. pose proof (prefix_ok_length _ Hp) as Hl.
  exists (<[length pend := b]> (rx_buffer p)).
  unfold put_byte. rewrite Hn, store_nat by lia. cbn. split_and!.
  - unfold u8. rewrite Z.mod_small by lia. rewrite length_app. cbn.
    do 2 f_equal. lia.
  - apply length_insert.
  - rewrite length_app, Nat.add_comm. cbn. rewrite take_S_insert by lia. by rewrite Ht.
Qed.

Lemma update_byte_repr p pend b :
  byte b -> prefix_ok pend -> (251 <= length (rx_buffer p))%nat ->
  bytes_read p = Z.of_nat (length pend) -> checksum p = sumZ pend ->
  take (length pend) (rx_buffer p) = pend ->
  exists buf, update_byte b p =
    Some (set_checksum (sumZ (pend ++ [b]))
           (set_bytes_read (Z.of_nat (length (pend ++ [b]))) (set_rx_buffer buf p))) /\
    length buf = length (rx_buffer p) /\
    take (length (pend ++ [b])) buf = pend ++ [b].
Proof.
  intros Hb Hp Hlen Hn Hcs Ht.
  destruct (put_byte_repr p pend b) as (buf & Hput & ?); [done..|].
  exists buf. split; [|done]. unfold update_byte. rewrite Hput. cbn. do 2 f_equal.
  rewrite Hcs, sumZ_app, sumZ_cons. change (sumZ []) with 0.
  pose proof (prefix_ok_sum _ Hp). unfold byte in Hb.
  unfold u16. rewrite Z.mod_small; lia.
Qed.

(** The counters after a verdict. *)
Definition count_verdict (v : verdict) (p p' : hobd_parser_s) : Prop :=
  valid_count p' = (if v is Framed _ then u16 (valid_count p + 1) else valid_count p) /\
  invalid_count p' = (if is_reject v then u16 (invalid_count p + 1) else invalid_count p).

(** What a byte does to the parser, as the framer says it. *)
Definition step_refines (b : Z) (p : hobd_parser_s) (pend : list Z) : Prop :=
  let '(v, pend') := framer_step pend b in
  exists p', hobd_parser_parse_byte b p = Some (status_of v, p') /\
    repr p' pend' /\ count_verdict v p p' /\
    length (rx_buffer p') = length (rx_buffer p) /\
    rx_buffer_size p' = rx_buffer_size p /\
    (forall f, v = Framed f -> frame_ok f /\ take (length f) (rx_buffer p') = f).

Lemma repr_nil p : (251 <= length (rx_buffer p))%nat ->
  state p = HOBD_PARSER_STATE_GET_TYPE -> repr p [].
Proof.
  intros. split_and!; try done. split; [constructor|]. done.
Qed.

Lemma valid_type_accepts b : valid_type b <> HOBD_MSG_TYPE_INVALID.
Proof.
  unfold valid_type. repeat case_match; try done; intros ->; discriminate.
Qed.

Lemma valid_subtype_accepts b : valid_subtype b <> HOBD_MSG_SUBTYPE_INVALID.
Proof.
  unfold valid_subtype. repeat case_match; try done; intros ->; discriminate.
Qed.

Lemma step_type b p : byte b -> repr p [] -> step_refines b p [].
Proof.
  intros Hb (Hp & Hlen & Hst & _ & _). unfold step_refines. cbn -[Z.add].
  destruct (update_byte_repr (ready_parser p) [] b) as (buf & Hup & Hlb & Htk); try done.
  unfold hobd_parser_parse_byte. cbn in Hst. rewrite Hst, Hup. cbn -[valid_type] in *.
  rewrite (proj2 (Z.eqb_neq _ _) (valid_type_accepts b)).
  eexists. split; [done|]. unfold repr. cbn. rewrite Hlb.
  split_and!; try done; try lia.
  by apply (prefix_ok_snoc []).
Qed.

Lemma step_size a b p : byte b -> repr p [a] -> step_refines b p [a].
Proof.
  intros Hb (Hp & Hlen & Hst & Hne & _). unfold step_refines.
  destruct Hne as (Hn & Hcs & Htk); [done|].
  destruct (update_byte_repr p [a] b) as (buf & Hup & Hlb & Htk'); try done.
  unfold hobd_parser_parse_byte. cbn in Hst. rewrite Hst, Hup. cbn in *.
  change HOBD_MSG_DATA_SIZE_MAX with 251. change HOBD_MSG_SIZE_MIN with 4.
  destruct (Z.ltb_spec 251 b) as [H1|H1]; [|destruct (Z.ltb_spec b 4) as [H2|H2]].
  1, 2: replace ((4 <=? b) && (b <=? 251)) with false by lia; cbn;
    eexists; split; [done|]; split_and!; try done; apply repr_nil; [cbn; lia|done].
  replace ((4 <=? b) && (b <=? 251)) with true by lia. cbn.
  change (Z.of_nat 2) with 2. replace (2 <? b) with true by lia. cbn.
  eexists. split; [done|]. unfold repr. cbn. rewrite Hlb.
  split_and!; try done; [|intros; by simplify_eq].
  apply (prefix_ok_snoc [a]); [done..|]. intros ? [= <-]. cbn. lia.
Qed.

(** The shared part of the payload steps: the frame is not complete yet. *)
Lemma step_more pend sz b p st :
  byte b -> repr p pend -> pend !! 1%nat = Some sz ->
  hobd_parser_parse_byte b p =
    (p' ← update_byte b p; Some (HOBD_ERROR_NO_MSG, set_state (st p') p')) ->
  (forall p', total_size p' = sz -> state p' = state p ->
     bytes_read p' = Z.of_nat (length (pend ++ [b])) ->
     st p' = state_after (length (pend ++ [b])) sz) ->
  Z.of_nat (length pend) + 1 < sz ->
  step_refines b p pend.
Proof.
  intros Hb (Hp & Hlen & Hst & Hne & Hts) Hsz Heq Hst' Hlt. unfold step_refines.
  destruct Hne as (Hn & Hcs & Htk); [by intros ->|].
  destruct (update_byte_repr p pend b) as (buf & Hup & Hlb & Htk'); try done.
  rewrite Heq, Hup. specialize (Hts sz Hsz).
  destruct (proj2 Hp sz Hsz) as [Hr _].
  assert ((pend ++ [b]) !! 1%nat = Some sz) as Hsz' by by apply lookup_app_l_Some.
  assert (Z.of_nat (length (pend ++ [b])) < sz) as Hlt'.
  { rewrite length_app. cbn. lia. }
  unfold framer_step. rewrite Hsz'.
  replace ((4 <=? sz) && (sz <=? 251)) with true by lia. cbn [negb].
  rewrite (proj2 (Z.ltb_lt _ _) Hlt').
  eexists. split; [done|]. unfold repr.
  cbn -[length app sumZ state_after]. rewrite Hlb.
  split_and!; try done.
  - apply prefix_ok_snoc; [done..|]. rewrite Hsz'. intros ? [= <-]. lia.
  - by rewrite Hst', Hts by done.
  - rewrite Hsz'. by intros ? [= <-].
Qed.

Lemma step_checksum pend sz b p :
  byte b -> repr p pend -> pend !! 1%nat = Some sz ->
  Z.of_nat (length pend) + 1 = sz ->
  state p = HOBD_PARSER_STATE_GET_CHECKSUM ->
  step_refines b p pend.
Proof.
  intros Hb (Hp & Hlen & _ & Hne & _) Hsz Hlt Hst. unfold step_refines.
  destruct Hne as (Hn & Hcs & Htk); [by intros ->|].
  destruct (put_byte_repr p pend b) as (buf & Hup & Hlb & Htk'); try done.
  pose proof (prefix_ok_sum _ Hp) as Hsum.
  destruct Hp as [Hbs Hp]. destruct (Hp sz Hsz) as [Hr _].
  assert ((pend ++ [b]) !! 1%nat = Some sz) as Hsz' by by apply lookup_app_l_Some.
  assert (Z.of_nat (length (pend ++ [b])) = sz) as Hfl.
  { rewrite length_app. cbn. lia. }
  unfold hobd_parser_parse_byte. rewrite Hst, Hup.
  unfold framer_step. rewrite Hsz', Hfl, Z.ltb_irrefl.
  replace ((4 <=? sz) && (sz <=? 251)) with true by lia.
  cbn -[sumZ Z.land u8 u16 app length]. rewrite Hcs.
  rewrite complement_spec, byte_eq_complement by (done || lia).
  rewrite sumZ_app. rewrite (sumZ_cons b []). change (sumZ []) with 0. rewrite Z.add_0_r.
  destruct (_ =? 0) eqn:Hz; (eexists; split; [done|]; split_and!; try done;
    try (apply repr_nil; [cbn; lia|done])).
  intros f [= <-]. split; [|done]. split_and!.
  - apply bytes_app. split; [done|]. by apply Forall_cons_2.
  - lia.
  - lia.
  - by rewrite Hfl.
  - apply Z.eqb_eq in Hz. rewrite sumZ_app, (sumZ_cons b []).
    change (sumZ []) with 0. by rewrite Z.add_0_r.
Qed.

Lemma parse_step b p pend : byte b -> repr p pend -> step_refines b p pend.
Proof.
  intros Hb Hr. destruct pend as [|a [|sz [|c rest]]];
    [by apply step_type | by apply step_size | |].
  all: pose proof Hr as (Hp & _ & Hst & _ & Hts); specialize (Hts sz eq_refl);
    destruct (proj2 Hp sz eq_refl) as [Hsz Hlt]; rewrite Hts in Hst; cbn in Hst, Hlt.
  - apply step_more with (sz := sz) (st := fun p => if total_size p =? HOBD_MSG_SIZE_MIN
      then HOBD_PARSER_STATE_GET_CHECKSUM else HOBD_PARSER_STATE_GET_DATA); try done.
    + unfold hobd_parser_parse_byte. rewrite Hst.
      destruct (update_byte b p) as [q|]; [|done]. cbn.
      rewrite (proj2 (Z.eqb_neq _ _) (valid_subtype_accepts b)). cbn. by case_match.
    + intros q -> _ _. cbn. change HOBD_MSG_SIZE_MIN with (3 + 1). by rewrite Z.eqb_sym.
    + cbn. lia.
  - case_match eqn:He.
    { apply Z.eqb_eq in He. by eapply step_checksum. }
    apply Z.eqb_neq in He.
    apply step_more with (sz := sz) (st := fun p => if bytes_read p + 1 =? total_size p
      then HOBD_PARSER_STATE_GET_CHECKSUM else state p); try done.
    + unfold hobd_parser_parse_byte. rewrite Hst.
      destruct (update_byte b p) as [q|] eqn:Hq; [|done]. cbn.
      case_match; [done|]. by destruct q.
    + intros q -> -> ->. rewrite Hst. cbn. rewrite length_app. cbn.
      by replace (length rest + 1)%nat with (S (length rest)) by lia.
    + cbn. lia.
Qed.

(** *** Streams *)

(** The message a status of [HOBD_ERROR_NONE] announces: as many bytes of the
    receive buffer as its header says. *)
Definition rx_message (p : hobd_parser_s) : list Z :=
  match header_size (rx_buffer p) with
  | Some size => take (Z.to_nat size) (rx_buffer p)
  | None => []
  end.

(** Feeding a stream: the statuses, the announced messages, the final parser;
    [None] if some byte was stored outside of the buffer. *)
Fixpoint feed (bs : list Z) (p : hobd_parser_s) :
    option (list Z * list (list Z) * hobd_parser_s) :=
  match bs with
  | [] => Some ([], [], p)
  | b :: bs =>
      '(st, p) ← hobd_parser_parse_byte b p;
      '(sts, ms, p') ← feed bs p;
      Some (st :: sts, (if st =? HOBD_ERROR_NONE then [rx_message p] else []) ++ ms, p')
  end.

Lemma rx_message_frame p f :
  frame_ok f -> take (length f) (rx_buffer p) = f -> rx_message p = f.
Proof.
  intros (_ & Hl & Hsz & _) Ht. unfold rx_message, header_size.
  change 1 with (Z.of_nat 1). rewrite load_nat.
  assert (rx_buffer p !! 1%nat = Some (Z.of_nat (length f))) as ->.
  { rewrite <- (lookup_take_lt _ (length f)) by lia. by rewrite Ht. }
  by rewrite Nat2Z.id.
Qed.

Lemma frames_cons v vs :
  frames (v :: vs) = (if v is Framed f then [f] else []) ++ frames vs.
Proof. by destruct v. Qed.

Lemma rejects_cons v vs :
  rejects (v :: vs) = ((if is_reject v then 1 else 0) + rejects vs)%nat.
Proof. unfold rejects. by destruct v. Qed.

Lemma u16_idemp z : u16 (u16 z) = u16 z.
Proof. unfold u16. by rewrite Z.mod_mod by lia. Qed.

Lemma u16_succ_add c n :
  u16 (u16 (c + 1) + Z.of_nat n) = u16 (c + Z.of_nat (S n)).
Proof. unfold u16. rewrite Zplus_mod_idemp_l. f_equal. lia. Qed.

(** The counters are 16-bit values. *)
Definition counts_ok (p : hobd_parser_s) : Prop :=
  u16 (valid_count p) = valid_count p /\ u16 (invalid_count p) = invalid_count p.

Lemma count_verdict_ok v p p' : count_verdict v p p' -> counts_ok p -> counts_ok p'.
Proof.
  intros [Hv Hi] [? ?]. unfold counts_ok. rewrite Hv, Hi.
  destruct v; cbn; by rewrite ?u16_idemp.
Qed.

Lemma feed_refines bs : forall p pend vs pend',
  bytes bs -> repr p pend -> framer_run pend bs = (vs, pend') -> counts_ok p ->
  exists p', feed bs p = Some (status_of <$> vs, frames vs, p') /\ repr p' pend' /\
    Forall frame_ok (frames vs) /\
    valid_count p' = u16 (valid_count p + Z.of_nat (length (frames vs))) /\
    invalid_count p' = u16 (invalid_count p + Z.of_nat (rejects vs)).
Proof.
  induction bs as [|b bs IH]; intros p pend vs pend' Hbs Hr Hrun Hc; cbn in Hrun.
  { simplify_eq. exists p. cbn. rewrite !Z.add_0_r. by destruct Hc as [-> ->]. }
  apply Forall_cons_iff in Hbs as [Hb Hbs].
  pose proof (parse_step b p pend Hb Hr) as Hs. unfold step_refines in Hs.
  destruct (framer_step pend b) as [v pend1]. destruct Hs as
    (p1 & Hp1 & Hr1 & [Hvc Hic] & _ & _ & Hf).
  destruct (framer_run pend1 bs) as [vs1 pend2] eqn:Hrun1. simplify_eq.
  pose proof (count_verdict_ok v p p1 (conj Hvc Hic) Hc) as Hc1.
  destruct (IH p1 pend1 vs1 pend' Hbs Hr1 Hrun1 Hc1) as (p' & Hfeed & Hr' & Hok & Hv & Hi).
  exists p'. cbn [feed]. rewrite Hp1. cbn -[frames rejects]. rewrite Hfeed.
  cbn -[frames rejects]. rewrite frames_cons, rejects_cons, Hv, Hi, Hvc, Hic.
  destruct v as [| | |f]; cbn -[frames rejects]; try done.
  1, 2: split_and!; try done; by rewrite u16_succ_add.
  destruct (Hf f eq_refl) as [Hfok Htk]. rewrite (rx_message_frame _ _ Hfok Htk).
  split_and!; try done; [by apply Forall_cons_2 | by rewrite u16_succ_add].
Qed.

(** *** Properties of the framer *)

Lemma framer_run_app bs1 : forall bs2 pend,
  framer_run pend (bs1 ++ bs2) =
  (let '(vs1, pend1) := framer_run pend bs1 in
   let '(vs2, pend2) := framer_run pend1 bs2 in (vs1 ++ vs2, pend2)).
Proof.
  induction bs1 as [|b bs1 IH]; intros bs2 pend; cbn.
  { by destruct (framer_run pend bs2). }
  destruct (framer_step pend b) as [v pend1]. rewrite IH.
  destruct (framer_run pend1 bs1) as [vs1 pend2].
  by destruct (framer_run pend2 bs2).
Qed.

Lemma framer_step_more pend b rest :
  rest <> [] -> frame_ok ((pend ++ [b]) ++ rest) ->
  framer_step pend b = (Pending, pend ++ [b]).
Proof.
  intros Hne (_ & Hl & Hsz & _). unfold framer_step.
  rewrite length_app in Hl, Hsz.
  destruct ((pend ++ [b]) !! 1%nat) as [size|] eqn:E; [|done].
  rewrite (lookup_app_l_Some _ _ _ _ E) in Hsz. injection Hsz as ->.
  destruct rest as [|r rest]; [done|]. rewrite length_cons in *.
  replace ((4 <=? _) && _) with true by lia. cbn [negb].
  by rewrite (proj2 (Z.ltb_lt _ _)) by lia.
Qed.

(** The bytes of a frame before its last one only pile up. *)
Lemma framer_prefix f rest pend :
  frame_ok (pend ++ f ++ rest) -> rest <> [] ->
  framer_run pend f = (replicate (length f) Pending, pend ++ f).
Proof.
  revert pend. induction f as [|b f IH]; intros pend Hok Hne.
  { by rewrite app_nil_r. }
  cbn [framer_run length replicate].
  rewrite (framer_step_more pend b (f ++ rest)).
  2: by intros [_ ?]%app_nil.
  2: by rewrite <- app_assoc.
  rewrite IH; [|by rewrite <- app_assoc|done]. by rewrite <- app_assoc.
Qed.

Lemma framer_frame f : frame_ok f ->
  framer_run [] f = (replicate (length f - 1) Pending ++ [Framed f], []).
Proof.
  intros Hok. destruct f as [|b f _] using rev_ind; [destruct Hok as (_ & [] & _); cbn in *; lia|].
  rewrite framer_run_app, (framer_prefix f [b] []) by done. cbn.
  rewrite length_app. cbn. rewrite Nat.add_sub.
  destruct Hok as (_ & Hl & Hsz & Hsum). unfold framer_step. cbn [app].
  rewrite Hsz, Hsum. rewrite Z.ltb_irrefl.
  match goal with |- context [negb ?c] => replace c with true by lia end. done.
Qed.

Lemma framer_step_prefix pend b v pend' :
  prefix_ok pend -> byte b -> framer_step pend b = (v, pend') ->
  prefix_ok pend' /\ (pend' = [] \/ pend' = pend ++ [b]).
Proof.
  intros Hp Hb. unfold framer_step.
  destruct (_ !! _) as [size|] eqn:Hsz.
  - destruct (negb _) eqn:E1; [|destruct (_ <? _) eqn:E2; [|destruct (_ =? 0)]];
      intros [= <- <-]; (split; [|tauto]); try by (split; [constructor|]).
    apply prefix_ok_snoc; [done..|]. rewrite Hsz. intros ? [= <-]. lia.
  - intros [= <- <-]. split; [|tauto]. apply prefix_ok_snoc; [done..|]. by rewrite Hsz.
Qed.

Lemma framer_boundary bs : forall pend,
  prefix_ok pend -> bytes bs -> (251 <= length pend + length bs)%nat ->
  exists k, (0 < k <= 251)%nat /\ snd (framer_run pend (take k bs)) = [].
Proof.
  enough (forall pend, prefix_ok pend -> bytes bs -> (251 <= length pend + length bs)%nat ->
    exists k, (0 < k <= 251 - length pend)%nat /\ snd (framer_run pend (take k bs)) = [])
    as Hgoal.
  { intros pend Hp Hb Hl. destruct (Hgoal pend Hp Hb Hl) as (k & ? & ?).
    exists k. split; [lia|done]. }
  induction bs as [|b bs IH]; intros pend Hp Hbs Hl; pose proof (prefix_ok_length _ Hp).
  { cbn in Hl. lia. }
  apply Forall_cons_iff in Hbs as [Hb Hbs].
  destruct (framer_step pend b) as [v pend1] eqn:Hs.
  destruct (framer_step_prefix _ _ _ _ Hp Hb Hs) as [Hp1 [-> | ->]].
  { exists 1%nat. split; [lia|]. cbn. rewrite Hs. done. }
  pose proof (prefix_ok_length _ Hp1) as Hl1. rewrite length_app in Hl1. cbn in Hl, Hl1.
  destruct (IH _ Hp1 Hbs) as (k & Hk & Hrun); rewrite length_app in *; cbn in *; [lia|].
  exists (S k). split; [lia|]. cbn. rewrite Hs.
  by destruct (framer_run (pend ++ [b]) (take k bs)).
Qed.

(** *** The checksum function *)

Lemma checksum_loop_spec fuel : forall data size idx cs,
  0 <= idx <= size -> size < 65536 -> size <= Z.of_nat (length data) ->
  (Z.to_nat (size - idx) < fuel)%nat -> u16 cs = cs ->
  checksum_loop fuel data size idx cs =
  Some (u16 (cs + sumZ (take (Z.to_nat (size - idx)) (drop (Z.to_nat idx) data)))).
Proof.
  induction fuel as [|fuel IH]; intros data size idx cs Hi Hs Hl Hf Hcs; [lia|].
  cbn [checksum_loop]. destruct (Z.ltb_spec idx size).
  - destruct (lookup_lt_is_Some_2 data (Z.to_nat idx)) as [b Hb]; [lia|].
    unfold load. rewrite decide_True, Hb by lia. cbn.
    assert (u16 (idx + 1) = idx + 1) as -> by (unfold u16; apply Z.mod_small; lia).
    rewrite IH by (try lia; apply u16_idemp). f_equal.
    rewrite (drop_S _ _ _ Hb).
    replace (Z.to_nat (size - idx)) with (S (Z.to_nat (size - (idx + 1)))) by lia.
    replace (Z.to_nat (idx + 1)) with (S (Z.to_nat idx)) by lia.
    cbn [take]. rewrite sumZ_cons. unfold u16. rewrite Zplus_mod_idemp_l. f_equal. lia.
  - replace (size - idx) with 0 by lia. cbn. by rewrite Z.add_0_r, Hcs.
Qed.

Lemma frames_pending n f :
  frames (replicate n Pending ++ [Framed f]) = [f] /\
  rejects (replicate n Pending ++ [Framed f]) = 0%nat.
Proof.
  induction n as [|n [IH1 IH2]]; [done|]. cbn [replicate app].
  by rewrite frames_cons, rejects_cons, IH1, IH2.
Qed.

Lemma init_run `{LogPolicy} buf size p0 :
  buf <> [] -> 4 < size ->
  hobd_parser_init buf size p0 =
  (Done tt, mk_parser HOBD_PARSER_STATE_GET_TYPE 0 0 0 0 0 buf size).
Proof.
  intros Hb Hs. unfold hobd_parser_init.
  rewrite (bool_decide_eq_false_2 _ Hb), (proj2 (Z.leb_gt size HOBD_MSG_SIZE_MIN)) by done.
  done.
Qed.

(** The entry points, as the other components use them. *)
Lemma parse_frame_run f p :
  frame_ok f -> state p = HOBD_PARSER_STATE_GET_TYPE -> (251 <= length (rx_buffer p))%nat ->
  counts_ok p ->
  exists p', feed f p = Some (replicate (length f - 1) HOBD_ERROR_NO_MSG ++ [HOBD_ERROR_NONE],
                              [f], p') /\
    state p' = HOBD_PARSER_STATE_GET_TYPE /\
    valid_count p' = u16 (valid_count p + 1) /\ invalid_count p' = invalid_count p.
Proof.
  intros Hok Hst Hlen Hc.
  destruct (feed_refines f p [] _ _ (proj1 Hok) (repr_nil _ Hlen Hst) (framer_frame f Hok) Hc)
    as (p' & Hf & Hr & _ & Hv & Hi).
  exists p'. rewrite Hf, Hv, Hi.
  destruct (frames_pending (length f - 1) f) as [-> ->].
  rewrite fmap_app, fmap_replicate. destruct Hr as (_ & _ & Hst' & _).
  split_and!; try done. rewrite Z.add_0_r. apply Hc.
Qed.

Lemma checksum_run data size :
  0 <= size < 65536 -> size <= Z.of_nat (length data) ->
  hobd_parser_checksum data size = Some (checksum_of (take (Z.to_nat size) data)).
Proof.
  intros Hs Hl. unfold hobd_parser_checksum.
  rewrite checksum_loop_spec by (done || lia). rewrite Z.sub_0_r. cbn -[u8 u16 Z.land].
  rewrite complement_spec by (apply Z.mod_pos_bound; lia).
  unfold checksum_of, u16. f_equal. rewrite <- !Z.sub_0_l.
  rewrite Zminus_mod, (Zminus_mod 0 (sumZ _)). do 2 f_equal.
  apply Z.mod_mod_divide. by exists 256.
Qed.

(** *** Properties *)

(** C23: the parser implements the reference framer.  Over any byte stream,
    started by [hobd_parser_init] on a buffer of at least 251 bytes, it never
    stores outside of its buffer, every status it returns is the framer's
    verdict, the messages it announces are exactly the framer's frames, all
    of them well formed, and its two 16-bit counters count the accepted and
    the rejected messages. *)
Theorem parser_refines_framer `{LogPolicy} buf size p0 bs vs pend :
  (251 <= length buf)%nat -> 4 < size -> bytes bs -> framer_run [] bs = (vs, pend) ->
  exists p p', hobd_parser_init buf size p0 = (Done tt, p) /\
    feed bs p = Some (status_of <$> vs, frames vs, p') /\
    Forall frame_ok (frames vs) /\
    valid_count p' = u16 (Z.of_nat (length (frames vs))) /\
    invalid_count p' = u16 (Z.of_nat (rejects vs)).
Proof.
  intros Hb Hs Hbs Hrun. eexists _.
  edestruct (feed_refines bs (mk_parser HOBD_PARSER_STATE_GET_TYPE 0 0 0 0 0 buf size))
    as (p' & Hf & _ & Hok & Hv & Hi); [done| |done|done|].
  { by apply repr_nil. }
  exists p'. split; [|done]. apply init_run; [|done]. intros ->. cbn in Hb. lia.
Qed.

(** C24: a parser at a message boundary announces every well-formed frame,
    whatever its type and subtype, at its last byte and unchanged. *)
Theorem parse_frame f p :
  frame_ok f -> state p = HOBD_PARSER_STATE_GET_TYPE -> (251 <= length (rx_buffer p))%nat ->
  counts_ok p ->
  exists p', feed f p = Some (replicate (length f - 1) HOBD_ERROR_NO_MSG ++ [HOBD_ERROR_NONE],
                              [f], p') /\
    state p' = HOBD_PARSER_STATE_GET_TYPE /\
    valid_count p' = u16 (valid_count p + 1) /\ invalid_count p' = invalid_count p.
Proof. exact (parse_frame_run f p). Qed.

(** C25: the parser never stays inside of one message for more than 251 bytes:
    from any reachable point, within the next 251 bytes it is again waiting
    for the type byte of a message. *)
Theorem parser_resynchronises p pend bs :
  repr p pend -> counts_ok p -> bytes bs -> length bs = 251%nat ->
  exists k sts ms p', (0 < k <= 251)%nat /\ feed (take k bs) p = Some (sts, ms, p') /\
    state p' = HOBD_PARSER_STATE_GET_TYPE.
Proof.
  intros Hr Hc Hbs Hl. pose proof (proj1 Hr) as Hp.
  destruct (framer_boundary bs pend Hp Hbs) as (k & Hk & Hrun); [lia|].
  destruct (framer_run pend (take k bs)) as [vs pend'] eqn:E. cbn in Hrun. subst pend'.
  destruct (feed_refines (take k bs) p pend vs []) as (p' & Hf & (_ & _ & Hst & _) & _);
    [by apply bytes_take|done..|].
  by eexists k, _, _, p'.
Qed.

(** [hobd_parser_checksum] is the two's complement of the byte sum modulo
    256, for every size a 16-bit argument can have (the 16-bit accumulator may
    wrap), and it reads exactly the first [size] bytes. *)
Theorem checksum_spec data size :
  0 <= size < 65536 -> size <= Z.of_nat (length data) ->
  hobd_parser_checksum data size = Some (checksum_of (take (Z.to_nat size) data)).
Proof. exact (checksum_run data size). Qed.

(** The size check of [hobd_parser_init] is not enough for the parser's
    stores: any buffer of 5 to 250 bytes passes it, and some well-formed frame
    then runs over the end of the buffer. *)
Theorem init_guard_insufficient `{LogPolicy} n p0 :
  (4 < n < 251)%nat ->
  exists p f, hobd_parser_init (replicate n 0) (Z.of_nat n) p0 = (Done tt, p) /\
    frame_ok f /\ feed f p = None.
Proof.
  intros Hn. exists (mk_parser HOBD_PARSER_STATE_GET_TYPE 0 0 0 0 0 (replicate n 0) (Z.of_nat n)).
  exists (mk_frame 2 0 (replicate (n - 3) 0)). split_and!.
  - apply init_run; [destruct n; [lia|done] | lia].
  - apply mk_frame_ok; [done..| |rewrite length_replicate; lia].
    apply Forall_replicate. done.
  - assert (forallb (fun n => match feed (mk_frame 2 0 (replicate (n - 3) 0))
      (mk_parser HOBD_PARSER_STATE_GET_TYPE 0 0 0 0 0 (replicate n 0) (Z.of_nat n)) with
      None => true | _ => false end) (seq 5 246) = true) as Hall by by vm_compute.
    rewrite forallb_forall in Hall. specialize (Hall n).
    rewrite in_seq in Hall. specialize (Hall ltac:(lia)). by case_match.
Qed.

(** *** The properties at concrete inputs *)

(** A message buffer of the module's size, and a parser on it. *)
Definition zero_parser : hobd_parser_s :=
  mk_parser HOBD_PARSER_STATE_GET_TYPE 0 0 0 0 0 (replicate 512 0) 512.
(** Garbage, a wake-up message, a message with a wrong checksum. *)
Definition sample_stream : list Z :=
  [0x00; 0x02] ++ [0xFE; 0x04; 0xFF; 0xFF] ++ [0x72; 0x05; 0x00; 0xF0; 0x98].

Example sample_verdicts : (framer_run [] sample_stream).1 =
  [Pending; BadLength; Pending; Pending; Pending; Framed [0xFE; 0x04; 0xFF; 0xFF];
   Pending; Pending; Pending; Pending; BadSum].
Proof. reflexivity. Qed.

Lemma parser_refines_framer_witness :
  exists p p', @hobd_parser_init log_aborts (replicate 512 0) 512 zero_parser = (Done tt, p) /\
    feed sample_stream p = Some ([1; 1; 1; 1; 1; 0; 1; 1; 1; 1; 4],
                                 [[0xFE; 0x04; 0xFF; 0xFF]], p') /\
    Forall frame_ok [[0xFE; 0x04; 0xFF; 0xFF]] /\ valid_count p' = 1 /\ invalid_count p' = 2.
Proof.
  refine (@parser_refines_framer log_aborts (replicate 512 0) 512 zero_parser sample_stream
    (framer_run [] sample_stream).1 [] _ _ _ _).
  - rewrite length_replicate. lia.
  - lia.
  - decide_now.
  - reflexivity.
Defined.

Lemma parse_frame_witness :
  exists p', feed [0x02; 0x04; 0x00; 0xFA] zero_parser =
      Some ([1; 1; 1; 0], [[0x02; 0x04; 0x00; 0xFA]], p') /\
    state p' = HOBD_PARSER_STATE_GET_TYPE /\ valid_count p' = 1 /\ invalid_count p' = 0.
Proof.
  refine (parse_frame [0x02; 0x04; 0x00; 0xFA] zero_parser _ eq_refl _ _).
  - decide_now.
  - cbn [zero_parser rx_buffer]. rewrite length_replicate. lia.
  - split; reflexivity.
Defined.

Lemma parser_resynchronises_witness :
  exists k sts ms p', (0 < k <= 251)%nat /\
    feed (take k (replicate 251 0xFE)) zero_parser = Some (sts, ms, p') /\
    state p' = HOBD_PARSER_STATE_GET_TYPE.
Proof.
  refine (parser_resynchronises zero_parser [] (replicate 251 0xFE) _ _ _ _).
  - apply repr_nil; [cbn [zero_parser rx_buffer]; rewrite length_replicate; lia | reflexivity].
  - split; reflexivity.
  - decide_now.
  - reflexivity.
Defined.

Lemma checksum_spec_witness :
  hobd_parser_checksum [0x72; 0x05; 0x00; 0xF0; 0x99] 4 = Some 0x99.
Proof.
  refine (checksum_spec [0x72; 0x05; 0x00; 0xF0; 0x99] 4 _ _); [lia | cbn; lia].
Defined.

Lemma init_guard_insufficient_witness :
  exists p f, @hobd_parser_init log_aborts (replicate 16 0) 16 zero_parser = (Done tt, p) /\
    frame_ok f /\ feed f p = None.
Proof. refine (@init_guard_insufficient log_aborts 16 zero_parser _). lia. Defined.

End Parser.
