(* ===== verification/Msg.v ===== *)
(** The message builders of modules/hobd/include/hobd_msg.h: they complete a
    header and a checksum around a payload that is already in the buffer. *)
From S2P Require Import Prelude Kline Parser.

Module Msg.

(** The three assignments to a header. *)
Definition set_header (type size subtype : Z) (msg : list Z) : option (list Z) :=
  msg ← set_header_type type msg;
  msg ← set_header_size size msg;
  set_header_subtype subtype msg.

Definition hobd_msg_update_checksum (msg : list Z) : option (list Z) :=
  size ← header_size msg;
  cs ← Parser.hobd_parser_checksum msg (u16 (size - 1));
  set_data (size - HOBD_MSG_HEADERCS_SIZE) cs msg.

Definition hobd_msg_no_data (type subtype : Z) (buffer : list Z) : option (Z * list Z) :=
  msg ← set_header type HOBD_MSG_HEADERCS_SIZE subtype buffer;
  msg ← hobd_msg_update_checksum msg;
  size ← header_size msg;
  Some (size, msg).

Definition hobd_msg (type subtype data_size : Z) (buffer : list Z) : option (Z * list Z) :=
  msg ← set_header type (u8 (data_size + HOBD_MSG_HEADERCS_SIZE)) subtype buffer;
  msg ← hobd_msg_update_checksum msg;
  size ← header_size msg;
  Some (size, msg).

Lemma set_header_spec ty size st buf :
  (3 <= length buf)%nat -> byte ty -> byte size -> byte st ->
  set_header ty size st buf = Some ([ty; size; st] ++ drop 3 buf).
Proof.
  intros Hl Ht Hsz Hs. destruct buf as [|a [|b [|c buf]]]; cbn in Hl; try lia.
  unfold set_header, set_header_type, set_header_size, set_header_subtype.
  change 0 with (Z.of_nat 0). change 1 with (Z.of_nat 1). change 2 with (Z.of_nat 2).
  rewrite (store_nat _ 0) by (cbn; lia). cbn -[Z.of_nat store].
  rewrite (store_nat _ 1) by (cbn; lia). cbn -[Z.of_nat store].
  rewrite (store_nat _ 2) by (cbn; lia). cbn.
  unfold u8, byte in *. by rewrite !Z.mod_small by lia.
Qed.

(** The checksum completes whatever the header and the payload hold. *)
Lemma update_checksum_spec ty st data rest old :
  byte ty -> byte st -> (length data <= 251)%nat ->
  hobd_msg_update_checksum (frame_body ty st data ++ [old] ++ rest) =
  Some (mk_frame ty st data ++ rest).
Proof.
  intros Ht Hs Hl. unfold hobd_msg_update_checksum.
  assert (length (frame_body ty st data) = (length data + 3)%nat) as Hlen.
  { unfold frame_body. rewrite length_app. cbn. lia. }
  assert (header_size (frame_body ty st data ++ [old] ++ rest) =
          Some (Z.of_nat (length data) + 4)) as -> by done.
  cbn [mbind option_bind]. unfold u16. rewrite Z.mod_small by lia.
  rewrite Parser.checksum_run by (rewrite ?length_app, ?Hlen; cbn; lia).
  replace (Z.to_nat (Z.of_nat (length data) + 4 - 1)) with
    (length (frame_body ty st data)) by lia.
  rewrite take_app_length. cbn [mbind option_bind]. unfold set_data, HOBD_MSG_HEADERCS_SIZE.
  replace (3 + _) with (Z.of_nat (length (frame_body ty st data))) by lia.
  rewrite store_nat by (rewrite length_app; cbn; lia).
  rewrite insert_app_r_alt, Nat.sub_diag by done. cbn -[frame_body mk_frame].
  pose proof (byte_checksum (frame_body ty st data)) as Hcs. unfold byte in Hcs.
  unfold u8. rewrite Z.mod_small by done.
  unfold mk_frame. by rewrite <- app_assoc.
Qed.

(** What [hobd_msg] leaves in a buffer whose payload area starts with [data]. *)
Lemma hobd_msg_run ty st data old rest hd :
  length hd = 3%nat -> byte ty -> byte st -> (length data <= 251)%nat ->
  hobd_msg ty st (Z.of_nat (length data)) (hd ++ data ++ [old] ++ rest) =
  Some (Z.of_nat (length data) + 4, mk_frame ty st data ++ rest).
Proof.
  intros Hhd Ht Hs Hl. unfold hobd_msg, HOBD_MSG_HEADERCS_SIZE.
  assert (u8 (Z.of_nat (length data) + 4) = Z.of_nat (length data) + 4) as ->.
  { unfold u8. apply Z.mod_small. lia. }
  rewrite set_header_spec; [|rewrite length_app; lia|done|unfold byte; lia|done].
  rewrite drop_app_length' by done. cbn [mbind option_bind].
  pose proof (update_checksum_spec ty st data rest old Ht Hs Hl) as Hu.
  unfold frame_body in Hu. rewrite <- app_assoc in Hu. rewrite Hu.
  cbn [mbind option_bind]. done.
Qed.

Lemma hobd_msg_no_data_run ty st hd old rest :
  length hd = 3%nat -> byte ty -> byte st ->
  hobd_msg_no_data ty st (hd ++ [old] ++ rest) = Some (4, mk_frame ty st [] ++ rest).
Proof. intros Hhd Ht Hs. exact (hobd_msg_run ty st [] old rest hd Hhd Ht Hs ltac:(cbn; lia)). Qed.

(** Every buffer splits as the builder sees it. *)
Lemma buffer_split (buf : list Z) n :
  (n + 4 <= length buf)%nat ->
  exists hd data old rest, buf = hd ++ data ++ [old] ++ rest /\
    length hd = 3%nat /\ length data = n /\
    data = take n (drop 3 buf) /\ rest = drop (n + 4) buf.
Proof.
  intros Hl. destruct (lookup_lt_is_Some_2 buf (n + 3)) as [old Hold]; [lia|].
  exists (take 3 buf), (take n (drop 3 buf)), old, (drop (n + 4) buf).
  split_and!; try done.
  - rewrite <- (take_drop 3 buf) at 1. f_equal.
    rewrite <- (take_drop n (drop 3 buf)) at 1. f_equal.
    rewrite drop_drop. replace (3 + n)%nat with (n + 3)%nat by lia.
    replace (n + 4)%nat with (S (n + 3)) by lia. by apply drop_S.
  - rewrite length_take. lia.
  - rewrite length_take, length_drop. lia.
Qed.

(** *** Properties *)

(** C26: what [hobd_msg] builds is what the parser of the other side announces.
    With the payload in the buffer's data area, it completes header and
    checksum to the frame of that payload, leaves the rest of the buffer alone,
    and feeding its [size] bytes to a parser at a message boundary announces
    exactly this frame. *)
Theorem hobd_msg_roundtrip ty st (n : nat) buf p :
  byte ty -> byte st -> bytes buf -> (n <= 247)%nat -> (n + 4 <= length buf)%nat ->
  Parser.state p = Parser.HOBD_PARSER_STATE_GET_TYPE ->
  (251 <= length (Parser.rx_buffer p))%nat -> Parser.counts_ok p ->
  let f := mk_frame ty st (take n (drop 3 buf)) in
  exists buf' p', hobd_msg ty st (Z.of_nat n) buf = Some (Z.of_nat n + 4, buf') /\
    take (n + 4) buf' = f /\ drop (n + 4) buf' = drop (n + 4) buf /\
    Parser.feed (take (n + 4) buf') p =
      Some (replicate (n + 3) Parser.HOBD_ERROR_NO_MSG ++ [Parser.HOBD_ERROR_NONE], [f], p').
Proof.
  intros Ht Hs Hb Hn Hl Hst Hlen Hc. cbn zeta.
  destruct (buffer_split buf n Hl) as (hd & data & old & rest & -> & Hhd & Hdl & Hd & Hr).
  rewrite <- Hd. clear Hd. subst n. set (f := mk_frame ty st data).
  assert (bytes data) as Hbd by by apply bytes_app in Hb as [_ [? _]%bytes_app].
  destruct (Parser.parse_frame_run f p) as (p' & Hf & _).
  { by apply mk_frame_ok. } { done. } { done. } { done. }
  exists (f ++ rest), p'.
  assert (length f = (length data + 4)%nat) as Hlf by apply length_mk_frame.
  rewrite (take_app_length' f), (drop_app_length' f) by done. split_and!; try done.
  - by apply hobd_msg_run; [..|lia].
  - rewrite Hf, Hlf. by replace (length data + 4 - 1)%nat with (length data + 3)%nat by lia.
Qed.

Lemma hobd_msg_roundtrip_witness :
  let f := mk_frame HOBD_MSG_TYPE_QUERY HOBD_MSG_SUBTYPE_INIT [HOBD_INIT_DATA] in
  let buf := replicate 3 0 ++ [HOBD_INIT_DATA] ++ replicate 252 0x55 in
  exists buf' p', hobd_msg HOBD_MSG_TYPE_QUERY HOBD_MSG_SUBTYPE_INIT 1 buf = Some (5, buf') /\
    take 5 buf' = f /\ drop 5 buf' = drop 5 buf /\
    Parser.feed (take 5 buf') Parser.zero_parser = Some ([1; 1; 1; 1; 0], [f], p').
Proof.
  refine (hobd_msg_roundtrip HOBD_MSG_TYPE_QUERY HOBD_MSG_SUBTYPE_INIT 1
    (replicate 3 0 ++ [HOBD_INIT_DATA] ++ replicate 252 0x55) Parser.zero_parser
    _ _ _ _ _ eq_refl _ _).
  - decide_now.
  - decide_now.
  - decide_now.
  - lia.
  - cbn. lia.
  - cbn [Parser.zero_parser Parser.rx_buffer]. rewrite length_replicate. lia.
  - split; reflexivity.
Defined.

(** The messages of the protocol notes in hobd_kline.h. *)
Example wake_up_message :
  hobd_msg_no_data HOBD_MSG_TYPE_WAKE_UP HOBD_MSG_SUBTYPE_WAKE_UP (replicate 4 0) =
  Some (4, [0xFE; 0x04; 0xFF; 0xFF]).
Proof. reflexivity. Qed.

Example diag_init_message :
  hobd_msg HOBD_MSG_TYPE_QUERY HOBD_MSG_SUBTYPE_INIT 1 ([0; 0; 0] ++ [HOBD_INIT_DATA] ++ [0]) =
  Some (5, [0x72; 0x05; 0x00; 0xF0; 0x99]).
Proof. reflexivity. Qed.

End Msg.
