(* ===== verification/Services.v ===== *)
(** What a component asks of the others: the time server
    (modules/time_server/include/time_server.h), the system module's start
    signal and the MMC module's entry log (modules/mmc/include/mmc.h).
    [TimeServer] and [Services] list the operations over the state [W] those
    components share; [TimeServerSpec] and [ServicesSpec] list what they
    promise.  The clients are verified against these classes. *)
From S2P Require Import Prelude.

(** An entry of the log: its type, the time stamp and the payload. *)
Record log_entry := Entry { entry_type : Z; entry_time : Z; entry_data : list Z }.

#[export] Instance log_entry_eq_dec : EqDecision log_entry.
Proof. solve_decision. Defined.

Class TimeServer (W : Type) := {
  time_server_get_time : M W Z;
  time_server_alloc_id : M W Z;
  (** [time] and [id]; the callback and its token are the client's. *)
  time_server_register_rel_cb : Z -> Z -> M W unit;
  (** [period], [start] and [id]. *)
  time_server_register_periodic_cb : Z -> Z -> Z -> M W unit;
  time_server_deregister_cb : Z -> M W unit;
  (** The ids that were handed out, whether a callback is registered under an
      id, and the time server's own removal of a relative callback when it
      runs it. *)
  allocated : W -> list Z;
  cb_registered : Z -> W -> bool;
  cb_expire : Z -> W -> W;
}.

(** The time server hands out that many ids (time_server_module.c). *)
Definition MAX_TIMEOUTS : nat := 3.
Definition ids_left {W} `{!TimeServer W} (w : W) : Prop := (length (allocated w) < MAX_TIMEOUTS)%nat.

Class Services (W : Type) := {
  services_time :: TimeServer W;
  (** Returns once the system module has signalled that the system is up. *)
  system_module_wait_for_start : M W unit;
  (** [type data_size timestamp data nonblocking]; no time stamp is [NULL]. *)
  mmc_log_entry_data : Z -> Z -> option Z -> list Z -> Z -> M W unit;
}.

(** No stop is possible. *)
Definition total {W} : stop -> W -> Prop := fun _ _ => False.

(** Ids can be allocated as long as there are some, and callbacks are
    registered under the ids that were handed out. *)
Class TimeServerSpec (W : Type) `{!TimeServer W} := {
  time_ok : W -> Prop;
  ts_get_time_spec w : time_ok w ->
    wp time_server_get_time (fun t w' => time_ok w' /\ 0 <= t < 2 ^ 64 /\
      allocated w' = allocated w) total w;
  ts_alloc_id_spec w : time_ok w -> ids_left w ->
    wp time_server_alloc_id (fun id w' => time_ok w' /\ (id ∉ allocated w) /\
      allocated w' = (id :: allocated w)) total w;
  ts_register_periodic_cb_spec period start id w : time_ok w -> id ∈ allocated w ->
    wp (time_server_register_periodic_cb period start id) (fun _ w' => time_ok w' /\
      allocated w' = allocated w /\ cb_registered id w' = true) total w;
}.

(** The callbacks of the time server. *)
Class TimerSpec (W : Type) `{!TimeServer W} `{!TimeServerSpec W} := {
  ts_time_keeps w : time_ok w ->
    forall id, cb_registered id (time_server_get_time w).2 = cb_registered id w;
  ts_register_rel_cb_spec time id w : time_ok w -> id ∈ allocated w ->
    wp (time_server_register_rel_cb time id) (fun _ w' => time_ok w' /\
      allocated w' = allocated w /\ cb_registered id w' = true) total w;
  ts_deregister_cb_spec id w : time_ok w -> id ∈ allocated w ->
    wp (time_server_deregister_cb id) (fun _ w' => time_ok w' /\
      allocated w' = allocated w /\ cb_registered id w' = false) total w;
  ts_expire_spec id w : time_ok w -> id ∈ allocated w ->
    time_ok (cb_expire id w) /\ allocated (cb_expire id w) = allocated w /\
    cb_registered id (cb_expire id w) = false;
}.

Class ServicesSpec (W : Type) `{!Services W} := {
  services_ok : W -> Prop;
  logged : W -> list log_entry;
  get_time_spec w : services_ok w ->
    wp time_server_get_time (fun t w' => services_ok w' /\ 0 <= t < 2 ^ 64 /\
      logged w' = logged w /\ allocated w' = allocated w /\
      forall id, cb_registered id w' = cb_registered id w) total w;
  alloc_id_spec w : services_ok w -> ids_left w ->
    wp time_server_alloc_id (fun id w' => services_ok w' /\ logged w' = logged w /\
      allocated w' = (id :: allocated w)) total w;
  wait_for_start_spec w : services_ok w ->
    wp system_module_wait_for_start (fun _ w' => services_ok w' /\ logged w' = logged w /\
      allocated w' = allocated w) total w;
  register_rel_cb_spec time id w : services_ok w -> id ∈ allocated w ->
    wp (time_server_register_rel_cb time id) (fun _ w' => services_ok w' /\
      logged w' = logged w /\ allocated w' = allocated w /\ cb_registered id w' = true) total w;
  register_periodic_cb_spec period start id w : services_ok w -> id ∈ allocated w ->
    wp (time_server_register_periodic_cb period start id) (fun _ w' => services_ok w' /\
      logged w' = logged w /\ allocated w' = allocated w /\ cb_registered id w' = true) total w;
  deregister_cb_spec id w : services_ok w -> id ∈ allocated w ->
    wp (time_server_deregister_cb id) (fun _ w' => services_ok w' /\
      logged w' = logged w /\ allocated w' = allocated w /\ cb_registered id w' = false) total w;
  cb_expire_spec id w : services_ok w -> id ∈ allocated w ->
    services_ok (cb_expire id w) /\ logged (cb_expire id w) = logged w /\
    allocated (cb_expire id w) = allocated w /\ cb_registered id (cb_expire id w) = false;
  (** A request of at most 255 bytes, the largest message, is logged, under the
      given time stamp or under the time of the call; one that does not block
      may be dropped. *)
  log_entry_data_spec type size ts data nonblocking w : services_ok w ->
    0 < type < 65536 -> 0 <= size <= 255 -> size <= Z.of_nat (length data) ->
    bytes (take (Z.to_nat size) data) ->
    (forall t, ts = Some t -> 0 <= t < 2 ^ 64) ->
    wp (mmc_log_entry_data type size ts data nonblocking) (fun _ w' => services_ok w' /\
      allocated w' = allocated w /\
      (forall id, cb_registered id w' = cb_registered id w) /\
      (nonblocking <> 0 /\ logged w' = logged w \/
       exists t, 0 <= t < 2 ^ 64 /\ (forall t', ts = Some t' -> t = t') /\
         logged w' = logged w ++ [Entry type t (take (Z.to_nat size) data)])) total w;
}.

(** A client that holds the id of its timeout. *)
Section client.
Context {W : Type} `{!Services W} `{!ServicesSpec W}.

Definition serves (id : Z) (w : W) : Prop := services_ok w /\ id ∈ allocated w.

Local Ltac serve spec := intros [Hok Hid]; eapply wp_mono; [by apply spec| |done]; cbn beta;
  intros ? ?; unfold serves; intuition congruence.

Lemma serves_get_time id w : serves id w ->
  wp time_server_get_time (fun t w' => serves id w' /\ 0 <= t < 2 ^ 64 /\
    logged w' = logged w /\ forall id, cb_registered id w' = cb_registered id w) total w.
Proof. serve get_time_spec. Qed.

Lemma serves_register_rel_cb time id w : serves id w ->
  wp (time_server_register_rel_cb time id) (fun _ w' => serves id w' /\
    logged w' = logged w /\ cb_registered id w' = true) total w.
Proof. serve register_rel_cb_spec. Qed.

Lemma serves_deregister_cb id w : serves id w ->
  wp (time_server_deregister_cb id) (fun _ w' => serves id w' /\
    logged w' = logged w /\ cb_registered id w' = false) total w.
Proof. serve deregister_cb_spec. Qed.

Lemma serves_cb_expire id w : serves id w ->
  serves id (cb_expire id w) /\ logged (cb_expire id w) = logged w /\
  cb_registered id (cb_expire id w) = false.
Proof.
  intros [Hok Hid]. destruct (cb_expire_spec id w Hok Hid) as (? & ? & Ha & ?).
  unfold serves. by rewrite Ha.
Qed.

Lemma serves_log id type size ts data w : serves id w ->
  0 < type < 65536 -> 0 <= size <= 255 -> size <= Z.of_nat (length data) ->
  bytes (take (Z.to_nat size) data) ->
  (forall t, ts = Some t -> 0 <= t < 2 ^ 64) ->
  wp (mmc_log_entry_data type size ts data 0) (fun _ w' => serves id w' /\
    (forall id, cb_registered id w' = cb_registered id w) /\
    exists t, 0 <= t < 2 ^ 64 /\ (forall t', ts = Some t' -> t = t') /\
      logged w' = logged w ++ [Entry type t (take (Z.to_nat size) data)]) total w.
Proof.
  intros [Hok Hid] Hty Hs Hl Hb Hts.
  wp_use ltac:(by apply (log_entry_data_spec type size ts data 0 w)); [|done].
  intros _ w' (? & Ha & ? & [[]|?]); [done|]. unfold serves. by rewrite Ha.
Qed.

(** An entry without data that may be dropped: the log gains at most that entry. *)
Definition at_most (type : Z) (n : nat) (w w' : W) : Prop :=
  exists es, logged w' = logged w ++ es /\ (length es <= n)%nat /\
    Forall (fun e => entry_type e = type /\ 0 <= entry_time e < 2 ^ 64 /\ entry_data e = []) es.

Lemma at_most_refl type w w' : logged w' = logged w -> at_most type 0 w w'.
Proof. intros E. exists []. by rewrite E, app_nil_r. Qed.

Lemma at_most_trans type n m w1 w2 w3 :
  at_most type n w1 w2 -> at_most type m w2 w3 -> at_most type (n + m) w1 w3.
Proof.
  intros (es1 & E1 & L1 & F1) (es2 & E2 & L2 & F2). exists (es1 ++ es2).
  rewrite E2, E1, app_assoc, length_app. split; [done|]. split; [lia|]. by apply Forall_app.
Qed.

Lemma log_marker type w : services_ok w -> 0 < type < 65536 ->
  wp (mmc_log_entry_data type 0 None [] 1) (fun _ w' => services_ok w' /\ allocated w' = allocated w /\
    (forall id, cb_registered id w' = cb_registered id w) /\ at_most type 1 w w') total w.
Proof.
  intros Hok Hty. wp_use ltac:(apply (log_entry_data_spec type 0 None [] 1 w)); try done.
  - constructor.
  - intros _ w' (? & ? & ? & [[_ E]|(t & Ht & _ & E)]); do 3 (split; [done|]).
    + exists []. rewrite E, app_nil_r. split; [done|]. split; [cbn; lia|constructor].
    + exists [Entry type t []]. split; [done|]. split; [done|]. by constructor.
Qed.
End client.

(** *** A small implementation, to evaluate the clients on

    A clock that advances by one at every reading, the ids handed out, the set
    of registered callbacks, and the log itself. *)
Record toy := mk_toy { toy_clock : Z; toy_ids : list Z; toy_cbs : list Z; toy_log : list log_entry }.

(** One id handed out, which is the one of the client. *)
Definition Toy (clock : Z) (cbs : list Z) (log : list log_entry) : toy := mk_toy clock [1] cbs log.

Definition toy_time : M toy Z := fun w =>
  (Done (toy_clock w), mk_toy (u64 (toy_clock w + 1)) (toy_ids w) (toy_cbs w) (toy_log w)).
Definition toy_alloc : M toy Z := fun w =>
  let id := Z.of_nat (length (toy_ids w)) + 1 in
  (Done id, mk_toy (toy_clock w) (id :: toy_ids w) (toy_cbs w) (toy_log w)).
Definition toy_set_cbs (f : list Z -> list Z) (w : toy) : toy :=
  mk_toy (toy_clock w) (toy_ids w) (f (toy_cbs w)) (toy_log w).

#[export] Instance toy_time_server : TimeServer toy := {|
  time_server_get_time := toy_time;
  time_server_alloc_id := toy_alloc;
  time_server_register_rel_cb _ id := modify (toy_set_cbs (cons id));
  time_server_register_periodic_cb _ _ id := modify (toy_set_cbs (cons id));
  time_server_deregister_cb id := modify (toy_set_cbs (filter (fun i => i <> id)));
  allocated := toy_ids;
  cb_registered id w := bool_decide (id ∈ toy_cbs w);
  cb_expire id := toy_set_cbs (filter (fun i => i <> id));
|}.

#[export] Instance toy_services : Services toy := {|
  services_time := toy_time_server;
  system_module_wait_for_start := mret tt;
  mmc_log_entry_data type size ts data _ :=
    t ← (match ts with Some t => mret t | None => toy_time end);
    modify (fun w => mk_toy (toy_clock w) (toy_ids w) (toy_cbs w)
      (toy_log w ++ [Entry type t (take (Z.to_nat size) data)]));
|}.

(** The ids count up from 1. *)
Definition toy_ok (w : toy) : Prop :=
  0 <= toy_clock w < 2 ^ 64 /\ Forall (fun i => i <= Z.of_nat (length (toy_ids w))) (toy_ids w).

Lemma toy_alloc_ok w : toy_ok w ->
  wp toy_alloc (fun id w' => toy_ok w' /\ toy_log w' = toy_log w /\ (id ∉ toy_ids w) /\
    toy_ids w' = (id :: toy_ids w)) total w.
Proof.
  intros [Hc Hi]. unfold wp. cbn. split; [split; [done|]|split; [done|split; [|done]]]; cbn.
  - constructor; [lia|]. eapply Forall_impl; [|exact Hi]. cbn. lia.
  - intros Hin. rewrite List.Forall_forall in Hi. specialize (Hi _ (proj1 (list_elem_of_In _ _) Hin)).
    cbn in Hi. lia.
Qed.

Lemma toy_cb_on id w : bool_decide (id ∈ toy_cbs (toy_set_cbs (cons id) w)) = true.
Proof. apply bool_decide_eq_true_2. cbn. left. Qed.
Lemma toy_cb_off id w : bool_decide (id ∈ toy_cbs (toy_set_cbs (filter (fun i => i <> id)) w)) = false.
Proof. apply bool_decide_eq_false_2. cbn. rewrite list_elem_of_filter. tauto. Qed.
Lemma toy_tick w : toy_ok w -> toy_ok (toy_time w).2.
Proof. intros [Hc Hi]. split; [apply u64_range|done]. Qed.

Lemma toy_set_cbs_ok f w : toy_ok w -> toy_ok (toy_set_cbs f w).
Proof. done. Qed.

Create HintDb toy.
#[export] Hint Resolve toy_cb_on toy_cb_off toy_tick toy_set_cbs_ok : toy.
Ltac toy_done := unfold wp; cbn -[toy_ok toy_set_cbs bool_decide]; repeat match goal with |- _ /\ _ => split end;
  first [done|by eauto with toy|idtac].

#[export] Instance toy_time_server_spec : TimeServerSpec toy.
Proof.
  refine {| time_ok := toy_ok |}.
  - intros w Hw. unfold wp. cbn. split; [by apply toy_tick|]. split; [apply Hw|done].
  - intros w Hw _. wp_use ltac:(by apply toy_alloc_ok); [|done]. tauto.
  - intros period start id w Hw _. toy_done.
Defined.

#[export] Instance toy_timer_spec : TimerSpec toy.
Proof.
  constructor; intros; toy_done.
Defined.

#[export] Instance toy_services_spec : ServicesSpec toy.
Proof.
  refine {| services_ok := toy_ok; logged := toy_log |}.
  - intros w Hw. unfold wp. cbn. split; [by apply toy_tick|]. split; [apply Hw|done].
  - intros w Hw _. wp_use ltac:(by apply toy_alloc_ok); [|done]. tauto.
  - done.
  - intros time id w Hw _. toy_done.
  - intros period start id w Hw _. toy_done.
  - intros id w Hw _. toy_done.
  - intros id w Hw _. toy_done.
  - intros type size ts data nonblocking w Hw _ _ _ _ Hts. unfold wp. destruct ts as [t|]; cbn.
    + do 3 (split; [done|]). right. exists t. split; [by apply Hts|].
      split; [by intros ? [= ->]|done].
    + split; [by apply (toy_tick w)|]. do 2 (split; [done|]).
      right. exists (toy_clock w). split; [apply Hw|by split].
Defined.

Lemma Toy_ok c cbs log : 0 <= c < 2 ^ 64 -> toy_ok (Toy c cbs log).
Proof. intros Hc. split; [done|]. cbn. constructor; [lia|constructor]. Qed.
Lemma toy_serves c cbs log : 0 <= c < 2 ^ 64 -> serves 1 (Toy c cbs log).
Proof. intros Hc. split; [by apply Toy_ok|by left]. Qed.
