(* ===== verification/Text.v ===== *)
(** Text: strings, the output of numbers, and reading numbers back. *)
From stdpp Require Import strings pretty.
From S2P Require Import Prelude.

(** ** Joining strings *)

Lemma string_app_cons c s1 s2 : String c s1 +:+ s2 = String c (s1 +:+ s2).
Proof. done. Qed.
Lemma string_app_nil s : s +:+ EmptyString = s.
Proof. induction s as [|c s IH]; [done|]. by rewrite string_app_cons, IH. Qed.
Lemma string_app_assoc s1 s2 s3 : (s1 +:+ s2) +:+ s3 = s1 +:+ s2 +:+ s3.
Proof. induction s1 as [|c s1 IH]; [done|]. by rewrite !string_app_cons, IH. Qed.

(** ** Output formats

    The digits of a number in a base up to 16, [fuel] more than one at most;
    [printf]'s [%u], [%llu], [%02lX], [%04lX] and [%04lu]. *)
Definition newline : string := String (Ascii.ascii_of_nat 10) EmptyString.

Definition digit (d : Z) : Ascii.ascii :=
  Ascii.ascii_of_nat (Z.to_nat (if d <? 10 then 48 + d else 55 + d)).
Fixpoint num_acc (base : Z) (fuel : nat) (z : Z) (acc : string) : string :=
  match fuel with
  | O => String (digit (z mod base)) acc
  | S fuel =>
      if z <? base then String (digit z) acc
      else num_acc base fuel (z / base) (String (digit (z mod base)) acc)
  end.
Definition dec (z : Z) : string := num_acc 10 19 z EmptyString.
Definition hex (z : Z) : string := num_acc 16 15 z EmptyString.
Fixpoint zeros (n : nat) : string :=
  match n with O => EmptyString | S n => String (digit 0) (zeros n) end.
Definition pad (width : nat) (s : string) : string := zeros (width - String.length s) +:+ s.

(** ** Reading numbers back *)

(** The value of a decimal number. *)
Fixpoint dec_val_acc (acc : Z) (s : string) : Z :=
  match s with
  | EmptyString => acc
  | String c s => dec_val_acc (10 * acc + (Z.of_nat (Ascii.nat_of_ascii c) - 48)) s
  end.
Definition dec_val (s : string) : Z := dec_val_acc 0 s.

Lemma digit_cases (P : Z -> Prop) : P 0 -> P 1 -> P 2 -> P 3 -> P 4 -> P 5 -> P 6 -> P 7 -> P 8 ->
  P 9 -> forall d, 0 <= d < 10 -> P d.
Proof.
  intros. assert (d = 0 \/ d = 1 \/ d = 2 \/ d = 3 \/ d = 4 \/ d = 5 \/ d = 6 \/ d = 7 \/ d = 8 \/ d = 9)
    as Hd by lia.
  destruct_or! Hd; by rewrite Hd.
Qed.

Lemma digit_val d : 0 <= d < 10 -> Z.of_nat (Ascii.nat_of_ascii (digit d)) - 48 = d.
Proof. revert d. by apply digit_cases. Qed.
Lemma div10 z : 0 <= z -> 0 <= z mod 10 < 10 /\ 0 <= z / 10 /\ z = 10 * (z / 10) + z mod 10.
Proof.
  intros Hz. pose proof (Z.mod_pos_bound z 10). pose proof (Z.div_pos z 10).
  pose proof (Z.div_mod z 10). lia.
Qed.

Lemma num_val fuel : forall z acc n, 0 <= z < 10 ^ (Z.of_nat fuel + 1) ->
  exists m, dec_val_acc n (num_acc 10 fuel z acc) = dec_val_acc (m * n + z) acc.
Proof.
  induction fuel as [|fuel IH]; intros z acc n Hz; pose proof (div10 z (proj1 Hz)) as (Hm & Hq & Hdm);
    cbn [num_acc].
  - exists 10. cbn [dec_val_acc]. change (10 ^ (Z.of_nat 0 + 1)) with 10 in Hz.
    rewrite digit_val by lia. by rewrite Z.mod_small by lia.
  - destruct (Z.ltb_spec z 10).
    + exists 10. cbn [dec_val_acc]. by rewrite digit_val by lia.
    + destruct (IH (z / 10) (String (digit (z mod 10)) acc) n) as [m Hrec].
      { split; [lia|]. apply Z.div_lt_upper_bound; [lia|]. rewrite <- Z.pow_succ_r by lia.
        replace (Z.succ (Z.of_nat fuel + 1)) with (Z.of_nat (S fuel) + 1) by lia. apply Hz. }
      rewrite Hrec. cbn [dec_val_acc]. rewrite digit_val by lia.
      exists (10 * m). f_equal. nia.
Qed.

Lemma dec_roundtrip z : 0 <= z < 2 ^ 64 -> dec_val (dec z) = z.
Proof.
  intros Hz. unfold dec_val, dec. destruct (num_val 19 z EmptyString 0) as [m Hm].
  { change (10 ^ (Z.of_nat 19 + 1)) with (10 ^ 20). lia. }
  rewrite Hm. cbn [dec_val_acc]. lia.
Qed.

(** A number of 64 bits has at most 20 digits. *)
Lemma num_length fuel : forall z acc,
  (String.length (num_acc 10 fuel z acc) <= S fuel + String.length acc)%nat.
Proof.
  induction fuel as [|fuel IH]; intros z acc; cbn [num_acc]; [cbn; lia|].
  destruct (_ <? _); [cbn; lia|]. specialize (IH (z / 10) (String (digit (z mod 10)) acc)). cbn in *. lia.
Qed.
Lemma dec_length z : (String.length (dec z) <= 20)%nat.
Proof. apply (num_length 19 z EmptyString). Qed.
