(* ===== verification/Sync.v ===== *)
(** What the modules use of the libraries for mutual exclusion (libsel4sync's
    sync_mutex) and for timeouts (libplatsupport's time manager), as
    interfaces with their documented behaviour, and a small implementation of
    each to evaluate the clients on. *)
From S2P Require Import Prelude.

(** ** Mutexes

    A call on the mutex [X]: [None] while it has to wait.  The error is the
    call's result. *)
Class SyncMutex (X : Type) := {
  sync_mutex_lock : X -> option (Z * X);
  sync_mutex_unlock : X -> Z * X;
  mutex_free : X -> Prop;
  mutex_held : X -> Prop;
}.

Class SyncMutexSpec (X : Type) `{!SyncMutex X} := {
  lock_free x : mutex_free x -> exists x', sync_mutex_lock x = Some (0, x') /\ mutex_held x';
  lock_held x : mutex_held x -> sync_mutex_lock x = None;
  unlock_held x : mutex_held x -> exists x', sync_mutex_unlock x = (0, x') /\ mutex_free x';
}.

(** ** Recursive mutexes

    A thread that holds the mutex may lock it again, up to a limit; the others
    wait.  [rec_holder]: the thread that holds it, and how often. *)
Class RecMutex (X : Type) := {
  sync_recursive_mutex_lock : nat -> X -> option (Z * X);
  sync_recursive_mutex_unlock : nat -> X -> Z * X;
  rec_holder : X -> option (nat * nat);
  rec_limit : nat;
}.

Class RecMutexSpec (X : Type) `{!RecMutex X} := {
  rec_lock_free i x : rec_holder x = None ->
    exists x', sync_recursive_mutex_lock i x = Some (0, x') /\ rec_holder x' = Some (i, 1%nat);
  rec_lock_again i n x : rec_holder x = Some (i, n) -> (n < rec_limit)%nat ->
    exists x', sync_recursive_mutex_lock i x = Some (0, x') /\ rec_holder x' = Some (i, S n);
  rec_lock_other i j n x : rec_holder x = Some (j, n) -> i <> j ->
    sync_recursive_mutex_lock i x = None;
  rec_unlock_held i n x : rec_holder x = Some (i, S n) ->
    exists x', sync_recursive_mutex_unlock i x = (0, x') /\
      rec_holder x' = match n with O => None | S _ => Some (i, n) end;
}.

(** ** The time manager

    Calls on the manager [T]: the error they return, what they leave in the
    caller's variable, and the manager.  [tm_update] runs the callbacks that
    are due; their ids are listed in the order of the calls.  [tm_expire] is the
    manager after a relative timeout was delivered. *)
Class TimeManager (T : Type) := {
  tm_init : Z -> T -> Z * T;
  tm_get_time : Z -> T -> Z * Z * T;
  tm_alloc_id : Z -> T -> Z * Z * T;
  tm_register_periodic_cb : Z -> Z -> Z -> T -> Z * T;
  tm_register_rel_cb : Z -> Z -> T -> Z * T;
  tm_deregister_cb : Z -> T -> Z * T;
  tm_update : T -> Z * list Z * T;
  tm_expire : Z -> T -> T;
  tm_allocated : T -> list Z;
  tm_registered : Z -> T -> bool;
  tm_capacity : T -> Z;
}.

(** What the manager promises, between calls ([tm_ok]): its time is 64 bits
    wide; it hands out that many different 32-bit ids as it was made for, and
    fails behind; callbacks go under ids that were handed out. *)
Class TimeManagerSpec (T : Type) `{!TimeManager T} := {
  tm_ok : T -> Prop;
  tm_init_spec n t t' : 0 < n < 2 ^ 32 -> tm_init n t = (0, t') ->
    tm_ok t' /\ tm_allocated t' = [] /\ tm_capacity t' = n;
  tm_get_time_spec v t : tm_ok t -> exists v' t', tm_get_time v t = (0, v', t') /\
    tm_ok t' /\ 0 <= v' < 2 ^ 64 /\ tm_allocated t' = tm_allocated t /\
    tm_capacity t' = tm_capacity t /\ forall id, tm_registered id t' = tm_registered id t;
  tm_alloc_id_spec v t : tm_ok t -> Z.of_nat (length (tm_allocated t)) < tm_capacity t ->
    exists id t', tm_alloc_id v t = (0, id, t') /\ tm_ok t' /\ word id /\
      (id ∉ tm_allocated t) /\ tm_allocated t' = (id :: tm_allocated t) /\ tm_capacity t' = tm_capacity t;
  tm_alloc_id_full v t : tm_ok t -> tm_capacity t <= Z.of_nat (length (tm_allocated t)) ->
    exists err v' t', tm_alloc_id v t = (err, v', t') /\ err <> 0 /\ tm_ok t' /\
      tm_allocated t' = tm_allocated t /\ tm_capacity t' = tm_capacity t;
  tm_register_periodic_cb_spec p s id t : tm_ok t -> id ∈ tm_allocated t ->
    exists t', tm_register_periodic_cb p s id t = (0, t') /\ tm_ok t' /\
      tm_allocated t' = tm_allocated t /\ tm_capacity t' = tm_capacity t /\ tm_registered id t' = true;
  tm_register_rel_cb_spec time id t : tm_ok t -> id ∈ tm_allocated t ->
    exists t', tm_register_rel_cb time id t = (0, t') /\ tm_ok t' /\
      tm_allocated t' = tm_allocated t /\ tm_capacity t' = tm_capacity t /\ tm_registered id t' = true;
  tm_deregister_cb_spec id t : tm_ok t -> id ∈ tm_allocated t ->
    exists t', tm_deregister_cb id t = (0, t') /\ tm_ok t' /\
      tm_allocated t' = tm_allocated t /\ tm_capacity t' = tm_capacity t /\ tm_registered id t' = false;
  tm_update_spec t : tm_ok t -> exists ids t', tm_update t = (0, ids, t') /\ tm_ok t' /\
      tm_allocated t' = tm_allocated t /\ tm_capacity t' = tm_capacity t;
  tm_expire_ok id t : tm_ok t -> id ∈ tm_allocated t -> tm_ok (tm_expire id t) /\
    tm_allocated (tm_expire id t) = tm_allocated t /\ tm_capacity (tm_expire id t) = tm_capacity t /\
    tm_registered id (tm_expire id t) = false;
}.

(** ** Small implementations *)

(** A mutex is whether it is held. *)
#[export] Instance bool_mutex : SyncMutex bool := {|
  sync_mutex_lock (x : bool) := if x then None else Some (0, true);
  sync_mutex_unlock _ := (0, false);
  mutex_free x := x = false;
  mutex_held x := x = true;
|}.

#[export] Instance bool_mutex_spec : SyncMutexSpec bool.
Proof. split; intros x ->; first [done|by eexists]. Qed.

(** A recursive mutex is its holder and count; two locks are enough for a call
    in a call. *)
#[export] Instance counting_mutex : RecMutex (option (nat * nat)) := {|
  sync_recursive_mutex_lock i x :=
    match x with
    | None => Some (0, Some (i, 1%nat))
    | Some (j, n) => if decide (i = j) then
        Some (if decide (n < 2)%nat then (0, Some (j, S n)) else (-1, x)) else None
    end;
  sync_recursive_mutex_unlock i x :=
    match x with Some (j, S (S n)) => (0, Some (j, S n)) | _ => (0, None) end;
  rec_holder x := x;
  rec_limit := 2;
|}.

#[export] Instance counting_mutex_spec : RecMutexSpec (option (nat * nat)).
Proof.
  split; cbn.
  - intros i x ->. by eexists.
  - intros i n x -> Hn. rewrite !decide_True by done. by eexists.
  - intros i j n x -> Hij. by rewrite decide_False.
  - intros i [|n] x ->; by eexists.
Qed.

(** A manager whose ids count up from 0: the clock, the number of ids it was
    made for and the number handed out, the relative timeouts as ids with
    their times, the periodic ones as ids. *)
Record small_tm := mk_tm {
  st_clock : Z; st_size : Z; st_next : nat; st_rel : list (Z * Z); st_periodic : list Z }.

Definition EINVAL : Z := 22.
Definition ENOMEM : Z := 12.
Definition st_ids (t : small_tm) : list Z := rev (map Z.of_nat (seq 0 (st_next t))).
Definition st_off (id : Z) (t : small_tm) : small_tm :=
  mk_tm (st_clock t) (st_size t) (st_next t) (filter (fun e : Z * Z => e.1 <> id) (st_rel t))
    (filter (fun i => i <> id) (st_periodic t)).
Definition st_known (id : Z) (t : small_tm) (t' : small_tm) : Z * small_tm :=
  if bool_decide (id ∈ st_ids t) then (0, t') else (EINVAL, t).
Definition st_due (t : small_tm) : list Z :=
  map fst (filter (fun e : Z * Z => e.2 <= st_clock t) (st_rel t)) ++ st_periodic t.

#[export] Instance small_time_manager : TimeManager small_tm := {|
  tm_init n _ := (0, mk_tm 0 n 0 [] []);
  tm_get_time _ t := (0, st_clock t,
    mk_tm (u64 (st_clock t + 1)) (st_size t) (st_next t) (st_rel t) (st_periodic t));
  tm_alloc_id v t :=
    if Z.of_nat (st_next t) <? st_size t
    then (0, Z.of_nat (st_next t),
      mk_tm (st_clock t) (st_size t) (S (st_next t)) (st_rel t) (st_periodic t))
    else (ENOMEM, v, t);
  tm_register_periodic_cb _ _ id t :=
    st_known id t (mk_tm (st_clock t) (st_size t) (st_next t) (st_rel t) (id :: st_periodic t));
  tm_register_rel_cb time id t :=
    st_known id t (mk_tm (st_clock t) (st_size t) (st_next t)
      ((id, st_clock t + time) :: st_rel t) (st_periodic t));
  tm_deregister_cb id t := st_known id t (st_off id t);
  tm_update t := (0, st_due t, mk_tm (u64 (st_clock t + 1)) (st_size t) (st_next t)
    (filter (fun e : Z * Z => st_clock t < e.2) (st_rel t)) (st_periodic t));
  tm_expire id t := st_off id t;
  tm_allocated t := st_ids t;
  tm_registered id t := bool_decide (id ∈ map fst (st_rel t) ++ st_periodic t);
  tm_capacity t := st_size t;
|}.

Lemma st_off_registered id t : bool_decide (id ∈ map fst (st_rel (st_off id t)) ++ st_periodic (st_off id t)) = false.
Proof.
  apply bool_decide_eq_false_2. cbn. rewrite elem_of_app, list_elem_of_filter.
  intros [Hin|[? _]]; [|done]. apply list_elem_of_fmap in Hin as (e & -> & He).
  by apply list_elem_of_filter in He as [? _].
Qed.

Lemma st_ids_next t : st_ids (mk_tm (st_clock t) (st_size t) (S (st_next t)) (st_rel t) (st_periodic t)) =
  Z.of_nat (st_next t) :: st_ids t.
Proof. unfold st_ids. cbn [st_next]. by rewrite seq_S, map_app, rev_app_distr. Qed.

Lemma length_st_ids t : length (st_ids t) = st_next t.
Proof. unfold st_ids. by rewrite length_rev, length_map, length_seq. Qed.

Lemma st_fresh t : Z.of_nat (st_next t) ∉ st_ids t.
Proof.
  unfold st_ids. rewrite list_elem_of_In, <- in_rev, in_map_iff.
  intros (n & Hn & Hin). apply in_seq in Hin. lia.
Qed.

Definition small_tm_ok (t : small_tm) : Prop :=
  0 <= st_clock t < 2 ^ 64 /\ Z.of_nat (st_next t) <= st_size t < 2 ^ 32.

Lemma st_known_run id t t' : id ∈ st_ids t -> st_known id t t' = (0, t').
Proof. intros Hid. unfold st_known. by rewrite bool_decide_eq_true_2. Qed.

Lemma st_registered id (l l' : list Z) : id ∈ l \/ id ∈ l' -> bool_decide (id ∈ l ++ l') = true.
Proof. intros Hin. by apply bool_decide_eq_true_2, elem_of_app. Qed.

#[export] Instance small_time_manager_spec : TimeManagerSpec small_tm.
Proof.
  refine {| tm_ok := small_tm_ok |}.
  - intros n t t' Hn [= <-]. split; [split; cbn; lia|done].
  - intros v t [Hc Hs]. do 2 eexists. split; [reflexivity|].
    split; [split; [apply u64_range|done]|done].
  - intros v t [Hc Hs]. cbn. rewrite length_st_ids. intros Hlt.
    rewrite (proj2 (Z.ltb_lt _ _)) by done. do 2 eexists. split; [reflexivity|].
    split; [split; cbn; lia|]. split; [unfold word; lia|]. split; [apply st_fresh|].
    split; [apply st_ids_next|done].
  - intros v t Ht. cbn. rewrite length_st_ids. intros Hge.
    rewrite (proj2 (Z.ltb_ge _ _)) by done. by do 3 eexists.
  - intros p s id t Ht Hid. cbn. rewrite st_known_run by done. eexists. split; [reflexivity|].
    do 3 (split; [done|]). apply st_registered. right. cbn. left.
  - intros time id t Ht Hid. cbn. rewrite st_known_run by done. eexists. split; [reflexivity|].
    do 3 (split; [done|]). apply st_registered. left. cbn. left.
  - intros id t Ht Hid. cbn. rewrite st_known_run by done. eexists. split; [reflexivity|].
    do 3 (split; [done|]). apply st_off_registered.
  - intros t [Hc Hs]. do 2 eexists. split; [reflexivity|].
    split; [split; [apply u64_range|done]|done].
  - intros id t Ht _. do 3 (split; [done|]). apply st_off_registered.
Defined.
