(* ===== verification/TimeServer.v ===== *)
(** The time server (modules/time_server/src/time_server_module.c): its calls
    are the time manager's, each one between a lock and an unlock of the
    server's mutex; its thread runs the timeouts that are due.  The callers run
    concurrently: their calls are interleaved, step by step, at the end of the
    file. *)
From stdpp Require Import relations.
From S2P Require Import Prelude Services Sync.

Module TimeServer.

(** ** The module *)
Section module.
Context `{LogPolicy} {X T : Type} `{!SyncMutex X} `{!TimeManager T}.

Record ts_s := mk_ts { g_tm_mutex : X; g_tm : T }.
#[local] Abbreviation TS := (M ts_s).

Definition mutex_lock : TS Z := fun s =>
  match sync_mutex_lock (g_tm_mutex s) with
  | Some (err, x) => (Done err, mk_ts x (g_tm s))
  | None => (Stop Blocked, s)
  end.
Definition mutex_unlock : TS Z := fun s =>
  let '(err, x) := sync_mutex_unlock (g_tm_mutex s) in (Done err, mk_ts x (g_tm s)).

Definition tm_lock : TS unit := err ← mutex_lock; ZF_LOGF_IF (negb (err =? 0)).
Definition tm_unlock : TS unit := err ← mutex_unlock; ZF_LOGF_IF (negb (err =? 0)).

(** A call on the time manager, with or without a variable of the caller. *)
Definition on_tm {A} (f : T -> A * T) : TS A := fun s =>
  let '(a, t) := f (g_tm s) in (Done a, mk_ts (g_tm_mutex s) t).

(** The thread's reaction to an interrupt of the timer; [callback] is what a
    due timeout's owner runs. *)
Definition time_server_iteration (callback : Z -> TS unit) : TS unit :=
  tm_lock;;
  '(err, due) ← on_tm tm_update;
  foldr (fun id k => callback id;; k) (mret tt) due;;
  ZF_LOGF_IF (negb (err =? 0));;
  tm_unlock.
Fixpoint time_server_thread_fn (callback : Z -> TS unit) (n : nat) : TS unit :=
  match n with
  | O => mret tt
  | S n => time_server_iteration callback;; time_server_thread_fn callback n
  end.

(** The calls; the first argument of the first two is the caller's variable,
    and so is their result. *)
Definition time_server_get_time (time : Z) : TS Z :=
  tm_lock;;
  '(err, time) ← on_tm (tm_get_time time);
  ZF_LOGF_IF (negb (err =? 0));;
  tm_unlock;;
  mret time.

Definition time_server_alloc_id (id : Z) : TS Z :=
  tm_lock;;
  '(err, tm_id) ← on_tm (tm_alloc_id 0);
  ZF_LOGF_IF (negb (err =? 0));;
  tm_unlock;;
  mret (if err =? 0 then u32 tm_id else id).

Definition time_server_register_periodic_cb (period start id : Z) : TS unit :=
  tm_lock;;
  err ← on_tm (tm_register_periodic_cb period start id);
  ZF_LOGF_IF (negb (err =? 0));;
  tm_unlock.

Definition time_server_register_rel_cb (time id : Z) : TS unit :=
  tm_lock;;
  err ← on_tm (tm_register_rel_cb time id);
  ZF_LOGF_IF (negb (err =? 0));;
  tm_unlock.

Definition time_server_deregister_cb (id : Z) : TS unit :=
  tm_lock;;
  err ← on_tm (tm_deregister_cb id);
  ZF_LOGF_IF (negb (err =? 0));;
  tm_unlock.
End module.
Arguments ts_s : clear implicits.

(** ** The calls of the module's clients *)
Section calls.
Context `{LogPolicy} {X T : Type} `{!SyncMutex X} `{!SyncMutexSpec X} `{!TimeManager T}.
#[local] Abbreviation S := (ts_s X T).
Implicit Types s : S.

Lemma wp_tm_lock Q E s : mutex_free (g_tm_mutex s) ->
  (forall x, mutex_held x -> Q tt (mk_ts x (g_tm s))) -> wp tm_lock Q E s.
Proof.
  intros Hf HQ. unfold tm_lock. wp_step. unfold wp at 1, mutex_lock.
  destruct (lock_free _ Hf) as (x & -> & Hx). change (wp (mret tt) Q E (mk_ts x (g_tm s))).
  wp_step. by apply HQ.
Qed.

Lemma wp_tm_unlock Q E s : mutex_held (g_tm_mutex s) ->
  (forall x, mutex_free x -> Q tt (mk_ts x (g_tm s))) -> wp tm_unlock Q E s.
Proof.
  intros Hf HQ. unfold tm_unlock. wp_step. unfold wp at 1, mutex_unlock.
  destruct (unlock_held _ Hf) as (x & -> & Hx). change (wp (mret tt) Q E (mk_ts x (g_tm s))).
  wp_step. by apply HQ.
Qed.

Lemma wp_on_tm {A} (f : T -> A * T) Q E s a t : f (g_tm s) = (a, t) ->
  Q a (mk_ts (g_tm_mutex s) t) -> wp (on_tm f) Q E s.
Proof. intros Hf HQ. unfold wp, on_tm. by rewrite Hf. Qed.

(** ** The module as the time server of its clients *)
Context `{!TimeManagerSpec T}.

(** Between calls: nobody holds the mutex, the manager is set up. *)
Definition ts_ok s : Prop :=
  mutex_free (g_tm_mutex s) /\ tm_ok (g_tm s) /\ tm_capacity (g_tm s) = Z.of_nat MAX_TIMEOUTS.

#[export] Instance ts_time_server : TimeServer S := {|
  Services.time_server_get_time := time_server_get_time 0;
  Services.time_server_alloc_id := time_server_alloc_id 0;
  Services.time_server_register_rel_cb := time_server_register_rel_cb;
  Services.time_server_register_periodic_cb := time_server_register_periodic_cb;
  Services.time_server_deregister_cb := time_server_deregister_cb;
  allocated s := tm_allocated (g_tm s);
  cb_registered id s := tm_registered id (g_tm s);
  cb_expire id s := mk_ts (g_tm_mutex s) (tm_expire id (g_tm s));
|}.

(** A call takes the mutex, and gives it back when the manager had no error. *)
Lemma call_enter {A B} (f : T -> A * T) (k : A -> M S B) a t (Q : B -> S -> Prop) E s :
  mutex_free (g_tm_mutex s) -> f (g_tm s) = (a, t) ->
  (forall x, mutex_held x -> wp (k a) Q E (mk_ts x t)) ->
  wp (tm_lock;; a ← on_tm f; k a) Q E s.
Proof.
  intros Hm Hf HQ. wp_step. apply wp_tm_lock; [done|]. intros x Hx. wp_step.
  eapply wp_on_tm; [exact Hf|]. by apply HQ.
Qed.

Lemma call_leave (Q : unit -> S -> Prop) E s : mutex_held (g_tm_mutex s) ->
  (forall x, mutex_free x -> Q tt (mk_ts x (g_tm s))) ->
  wp (ZF_LOGF_IF (negb (0 =? 0));; tm_unlock) Q E s.
Proof. intros Hx HQ. do 2 wp_step; [done|]. by apply wp_tm_unlock. Qed.

Lemma call_leave_with {A} (v : A) (Q : A -> S -> Prop) E s : mutex_held (g_tm_mutex s) ->
  (forall x, mutex_free x -> Q v (mk_ts x (g_tm s))) ->
  wp (ZF_LOGF_IF (negb (0 =? 0));; tm_unlock;; mret v) Q E s.
Proof.
  intros Hx HQ. do 2 wp_step; [done|]. wp_step. apply wp_tm_unlock; [done|].
  intros x Hf. wp_step. by apply HQ.
Qed.

(** A call that leaves a manager in order. *)
Definition tm_kept (t t' : T) : Prop :=
  tm_ok t' /\ tm_allocated t' = tm_allocated t /\ tm_capacity t' = tm_capacity t.
Lemma ts_ok_kept s x t : ts_ok s -> mutex_free x -> tm_kept (g_tm s) t ->
  ts_ok (mk_ts x t) /\ allocated (mk_ts x t) = allocated s.
Proof. intros (_ & _ & Hc) Hx (Ht & Ha & Hc'). split; [|done]. split; [done|]. split; [done|]. by etrans. Qed.

Lemma get_time_run s : ts_ok s ->
  wp (time_server_get_time 0) (fun v s' => (ts_ok s' /\ allocated s' = allocated s) /\
    0 <= v < 2 ^ 64 /\ forall id, cb_registered id s' = cb_registered id s) total s.
Proof.
  intros Hs. pose proof Hs as (Hm & Ht & _).
  destruct (tm_get_time_spec 0 _ Ht) as (v & t & Hrun & Hk1 & Hv & Hk2 & Hk3 & Hr).
  eapply call_enter; [done|exact Hrun|]. intros x Hx. apply call_leave_with; [done|].
  intros x' Hx'. split; [by apply ts_ok_kept|done].
Qed.

Lemma alloc_id_run s : ts_ok s -> ids_left s ->
  wp (time_server_alloc_id 0) (fun id s' => ts_ok s' /\ (id ∉ allocated s) /\
    allocated s' = id :: allocated s) total s.
Proof.
  intros (Hm & Ht & Hc) Hids. unfold ids_left in Hids.
  destruct (tm_alloc_id_spec 0 _ Ht) as (id & t & Hrun & Ht' & Hid & Hnew & Ha & Hc').
  { rewrite Hc. cbn in Hids. lia. }
  eapply call_enter; [done|exact Hrun|]. intros x Hx. cbn iota. rewrite Z.eqb_refl.
  assert (u32 id = id) as -> by by apply Z.mod_small.
  apply call_leave_with; [done|]. intros x' Hx'. split; [|done].
  split; [done|]. split; [done|]. cbn. by rewrite Hc'.
Qed.

(** A call with nothing but an error. *)
Lemma locked_run (f : T -> Z * T) t s : ts_ok s -> f (g_tm s) = (0, t) -> tm_kept (g_tm s) t ->
  wp (tm_lock;; err ← on_tm f; ZF_LOGF_IF (negb (err =? 0));; tm_unlock)
    (fun _ s' => (ts_ok s' /\ allocated s' = allocated s) /\ g_tm s' = t) total s.
Proof.
  intros Hs Hrun Hk. eapply call_enter; [apply Hs|exact Hrun|]. intros x Hx.
  apply call_leave; [done|]. intros x' Hx'. split; [by apply ts_ok_kept|done].
Qed.

#[export] Instance ts_time_server_spec : TimeServerSpec S.
Proof.
  refine {| time_ok := ts_ok |}.
  - intros s Hs. wp_use ltac:(by apply get_time_run); [|done]. intros v s' ([??] & ? & ?). done.
  - intros s Hs Hids. by apply alloc_id_run.
  - intros period start id s Hs Hid. pose proof Hs as (_ & Ht & _).
    destruct (tm_register_periodic_cb_spec period start id _ Ht Hid) as (t & Hrun & Hk1 & Hk2 & Hk3 & Hr).
    wp_use ltac:(by apply (locked_run _ t)); [|done]. intros _ s' ([? ?] & Hg). cbn in *. by subst.
Defined.

#[export] Instance ts_timer_spec : TimerSpec S.
Proof.
  constructor.
  - intros s Hs id. pose proof (get_time_run s Hs) as Hw.
    apply wp_done in Hw as (v & s' & Hrun & _ & _ & Hr). cbn in *. by rewrite Hrun.
  - intros time id s Hs Hid. pose proof Hs as (_ & Ht & _).
    destruct (tm_register_rel_cb_spec time id _ Ht Hid) as (t & Hrun & Hk1 & Hk2 & Hk3 & Hr).
    wp_use ltac:(by apply (locked_run _ t)); [|done]. intros _ s' ([? ?] & Hg). cbn in *. by subst.
  - intros id s Hs Hid. pose proof Hs as (_ & Ht & _).
    destruct (tm_deregister_cb_spec id _ Ht Hid) as (t & Hrun & Hk1 & Hk2 & Hk3 & Hr).
    wp_use ltac:(by apply (locked_run _ t)); [|done]. intros _ s' ([? ?] & Hg). cbn in *. by subst.
  - intros id s Hs Hid. destruct (tm_expire_ok id (g_tm s)) as (Hk1 & Hk2 & Hk3 & Hr); [apply Hs|done|].
    destruct (ts_ok_kept s (g_tm_mutex s) (tm_expire id (g_tm s)) Hs) as [? ?]; [apply Hs|done|].
    by cbn in *.
Defined.
(** The thread's iteration, when the callbacks leave the time server alone. *)
Lemma iteration_run (callback : Z -> M S unit) s : ts_ok s ->
  (forall id x t, mutex_held x -> tm_kept (g_tm s) t ->
    wp (callback id) (fun _ s' => s' = mk_ts x t) total (mk_ts x t)) ->
  wp (time_server_iteration callback) (fun _ s' => ts_ok s' /\ allocated s' = allocated s) total s.
Proof.
  intros Hs Hcb. pose proof Hs as (Hm & Ht & _).
  destruct (tm_update_spec _ Ht) as (due & t & Hrun & Hk).
  unfold time_server_iteration. eapply call_enter; [done|exact Hrun|]. intros x Hx. cbn iota.
  assert (wp (foldr (fun id k => callback id;; k) (mret tt) due) (fun _ s1 => s1 = mk_ts x t) total
    (mk_ts x t)) as Hrun'.
  { clear Hrun. induction due as [|id due IH]; cbn [foldr]; [by wp_step|].
    wp_step. wp_use ltac:(by apply Hcb); [|done]. intros _ s1 ->. apply IH. }
  wp_step. wp_use ltac:(exact Hrun'); [|done].
  intros _ s1 ->. apply call_leave; [done|]. intros x' Hx'. by apply ts_ok_kept.
Qed.
End calls.

(** ** Concurrent callers

    A call is three segments: taking the mutex, the manager's work, giving the
    mutex back.  The callers are interleaved between the segments. *)
Section concurrency.
Context `{LogPolicy} {X T : Type} `{!SyncMutex X} `{!SyncMutexSpec X} `{!TimeManager T}.
#[local] Abbreviation S := (ts_s X T).
Implicit Types s : S.

Inductive request :=
| GetTime
| AllocId
| RegisterPeriodic (period start id : Z)
| RegisterRel (time id : Z)
| Deregister (id : Z)
| Interrupt.

(** The calls, and the server's own thread, whose callbacks stay away from the
    server. *)
Definition serve (r : request) : M S Z :=
  match r with
  | GetTime => time_server_get_time 0
  | AllocId => time_server_alloc_id 0
  | RegisterPeriodic period start id => time_server_register_periodic_cb period start id;; mret 0
  | RegisterRel time id => time_server_register_rel_cb time id;; mret 0
  | Deregister id => time_server_deregister_cb id;; mret 0
  | Interrupt => time_server_iteration (fun _ => mret tt);; mret 0
  end.
Fixpoint serve_all (rs : list request) : M S unit :=
  match rs with [] => mret tt | r :: rs => serve r;; serve_all rs end.

(** What the manager does in a call: its error, the call's result. *)
Definition work (r : request) (t : T) : Z * Z * T :=
  match r with
  | GetTime => tm_get_time 0 t
  | AllocId => let '(err, id, t) := tm_alloc_id 0 t in (err, if err =? 0 then u32 id else 0, t)
  | RegisterPeriodic period start id =>
      let '(err, t) := tm_register_periodic_cb period start id t in (err, 0, t)
  | RegisterRel time id => let '(err, t) := tm_register_rel_cb time id t in (err, 0, t)
  | Deregister id => let '(err, t) := tm_deregister_cb id t in (err, 0, t)
  | Interrupt => let '(err, _, t) := tm_update t in (err, 0, t)
  end.
Definition body (r : request) : M S Z :=
  '(err, v) ← on_tm (work r); ZF_LOGF_IF (negb (err =? 0));; mret v.

Lemma no_callbacks (due : list Z) s :
  foldr (fun (_ : Z) (k : M S unit) s => k s) (fun s => (Done tt, s)) due s = (Done tt, s).
Proof. by induction due. Qed.

(** The code's calls are these segments. *)
Lemma serve_segments r s : serve r s = (tm_lock;; v ← body r; tm_unlock;; mret v) s.
Proof.
  unfold body, serve, time_server_get_time, time_server_alloc_id, time_server_register_periodic_cb,
    time_server_register_rel_cb, time_server_deregister_cb, time_server_iteration, on_tm.
  destruct r; unfold mbind, M_bind, mret, M_ret; destruct (tm_lock s) as [[[]|k] [x t]]; try done;
    cbn [g_tm g_tm_mutex work]; repeat (case_match; simplify_eq; try done);
    try (rewrite no_callbacks in *; simplify_eq); congruence.
Qed.
(** Where a thread is: outside of the server, before the mutex, inside with a
    request, behind its work, or stopped by a fatal check. *)
Inductive phase := Outside | Waiting (r : request) | Inside (r : request) | Leaving | Stopped.

(** The server, the callers, and the requests the manager has worked on. *)
Record sys := mk_sys { shared : S; phases : list phase; history : list request }.
Implicit Types c : sys.

Inductive advance : sys -> sys -> Prop :=
| adv_lock s s' ps h i r : ps !! i = Some (Waiting r) -> tm_lock s = (Done tt, s') ->
    advance (mk_sys s ps h) (mk_sys s' (<[i := Inside r]> ps) h)
| adv_work s s' ps h i r v : ps !! i = Some (Inside r) -> body r s = (Done v, s') ->
    advance (mk_sys s ps h) (mk_sys s' (<[i := Leaving]> ps) (h ++ [r]))
| adv_stop s s' ps h i r k : ps !! i = Some (Inside r) -> body r s = (Stop k, s') ->
    advance (mk_sys s ps h) (mk_sys s' (<[i := Stopped]> ps) (h ++ [r]))
| adv_unlock s s' ps h i : ps !! i = Some Leaving -> tm_unlock s = (Done tt, s') ->
    advance (mk_sys s ps h) (mk_sys s' (<[i := Outside]> ps) h).

Inductive step : sys -> sys -> Prop :=
| step_call s ps h i r : ps !! i = Some Outside ->
    step (mk_sys s ps h) (mk_sys s (<[i := Waiting r]> ps) h)
| step_advance c c' : advance c c' -> step c c'.

(** At first [n] threads are outside. *)
Definition idle (s : S) (n : nat) : sys := mk_sys s (replicate n Outside) [].

Definition critical (p : phase) : bool :=
  match p with Inside _ | Leaving | Stopped => true | _ => false end.

(** The mutex is held exactly when a thread is critical, and by one thread. *)
Definition exclusive c : Prop :=
  (mutex_free (g_tm_mutex (shared c)) /\ forall i p, phases c !! i = Some p -> critical p = false) \/
  (mutex_held (g_tm_mutex (shared c)) /\ exists i, is_Some (phases c !! i) /\
     forall j p, phases c !! j = Some p -> critical p = bool_decide (i = j)).

Lemma lock_run s s' : tm_lock s = (Done tt, s') ->
  ~ mutex_held (g_tm_mutex s) /\ g_tm s' = g_tm s /\
  (mutex_free (g_tm_mutex s) -> mutex_held (g_tm_mutex s')).
Proof.
  intros Hrun. unfold tm_lock, mutex_lock, mbind, M_bind in Hrun.
  destruct (sync_mutex_lock (g_tm_mutex s)) as [[err x]|] eqn:E; [|done].
  assert (s' = mk_ts x (g_tm s)) as ->.
  { unfold ZF_LOGF_IF, when, ZF_LOGF, stop_with, mret, M_ret in Hrun. by repeat case_match; simplify_eq. }
  split; [|split; [done|]].
  - intros Hh. by rewrite (lock_held _ Hh) in E.
  - intros Hf. destruct (lock_free _ Hf) as (x' & E' & Hx'). by simplify_eq.
Qed.

Lemma unlock_run s s' : mutex_held (g_tm_mutex s) -> tm_unlock s = (Done tt, s') ->
  g_tm s' = g_tm s /\ mutex_free (g_tm_mutex s').
Proof.
  intros Hh Hrun. unfold tm_unlock, mutex_unlock, mbind, M_bind in Hrun.
  destruct (unlock_held _ Hh) as (x' & E & Hx'). rewrite E in Hrun.
  by injection Hrun as <-.
Qed.

(** The manager's work does not depend on the mutex and leaves it alone. *)
Lemma body_run r t : exists o t', forall x', body r (mk_ts x' t) = (o, mk_ts x' t').
Proof.
  unfold body, on_tm, mbind, M_bind. cbn. destruct (work r t) as [[err v] t'].
  unfold ZF_LOGF_IF, when, ZF_LOGF. destruct (negb _); [destruct logf_aborts|]; by do 2 eexists.
Qed.

(** A body that ran, seen from the manager. *)
Lemma body_at r s o s' : body r s = (o, s') ->
  g_tm_mutex s' = g_tm_mutex s /\ forall x, body r (mk_ts x (g_tm s)) = (o, mk_ts x (g_tm s')).
Proof.
  destruct s as [x t]. destruct (body_run r t) as (o' & t' & Hb). rewrite Hb.
  intros [= <- <-]. done.
Qed.

Lemma exclusive_advance c c' : exclusive c -> advance c c' -> exclusive c'.
Proof.
  intros Hex Hadv. destruct Hadv as [s s' ps h i r Hi Hrun|s s' ps h i r v Hi Hrun|s s' ps h i r k Hi Hrun|s s' ps h i Hi Hrun];
    unfold exclusive in *; cbn [shared phases] in *.
  - apply lock_run in Hrun as (Hnh & _ & Hfh). destruct Hex as [[Hf Hall]|[Hh _]]; [|done].
    right. split; [by apply Hfh|]. exists i. split; [by apply (moved_some _ _ _ _ i Hi)|]. intros j p. rewrite (moved _ _ _ _ _ Hi).
    case_decide; [intros [= <-]; by rewrite bool_decide_eq_true_2|].
    intros Hj. rewrite bool_decide_eq_false_2 by done. by eapply Hall.
  - destruct Hex as [[_ Hall]|[Hh (i' & Hi' & Hall)]]; [by specialize (Hall _ _ Hi)|].
    apply body_at in Hrun as [-> _]. right. split; [done|]. exists i'. split; [by apply (moved_some _ _ _ _ i' Hi)|]. intros j p.
    rewrite (moved _ _ _ _ _ Hi). case_decide; [intros [= <-]; subst; by apply (Hall _ _ Hi)|apply Hall].
  - destruct Hex as [[_ Hall]|[Hh (i' & Hi' & Hall)]]; [by specialize (Hall _ _ Hi)|].
    apply body_at in Hrun as [-> _]. right. split; [done|]. exists i'. split; [by apply (moved_some _ _ _ _ i' Hi)|]. intros j p.
    rewrite (moved _ _ _ _ _ Hi). case_decide; [intros [= <-]; subst; by apply (Hall _ _ Hi)|apply Hall].
  - destruct Hex as [[_ Hall]|[Hh (i' & Hi' & Hall)]]; [by specialize (Hall _ _ Hi)|].
    apply unlock_run in Hrun as [_ Hf]; [|done]. left. split; [done|]. intros j p.
    pose proof (Hall _ _ Hi) as Hii. symmetry in Hii. apply bool_decide_eq_true_1 in Hii as ->.
    rewrite (moved _ _ _ _ _ Hi). case_decide; [by intros [= <-]|].
    intros Hj. rewrite (Hall _ _ Hj). by apply bool_decide_eq_false_2.
Qed.

Lemma exclusive_step c c' : exclusive c -> step c c' -> exclusive c'.
Proof.
  intros Hex Hst. destruct Hst as [s ps h i r Hi|c1 c2 Hadv]; [|by eapply exclusive_advance].
  destruct Hex as [[Hf Hall]|[Hh (i' & Hi' & Hall)]]; [left|right]; (split; [done|]).
  - intros j p. cbn [phases]. rewrite (moved _ _ _ _ _ Hi). case_decide; [by intros [= <-]|apply Hall].
  - exists i'. split; [by apply (moved_some _ _ _ _ i' Hi)|]. intros j p. cbn [phases]. rewrite (moved _ _ _ _ _ Hi).
    case_decide; [intros [= <-]; subst; by apply (Hall _ _ Hi)|apply Hall].
Qed.

Lemma idle_phases n i p : replicate n Outside !! i = Some p -> p = Outside.
Proof. intros Hi. by apply lookup_replicate in Hi as [-> _]. Qed.

Lemma exclusive_idle s n : mutex_free (g_tm_mutex s) -> exclusive (idle s n).
Proof. intros Hf. left. split; [done|]. intros i p Hi. by apply idle_phases in Hi as ->. Qed.

(** The requests worked on, one call after the other. *)
Definition explained (s0 : S) c : Prop :=
  (exists i, phases c !! i = Some Stopped) \/
  exists s, serve_all (history c) s0 = (Done tt, s) /\ mutex_free (g_tm_mutex s) /\
    g_tm s = g_tm (shared c).

Lemma serve_all_app rs1 rs2 s : serve_all (rs1 ++ rs2) s = (serve_all rs1;; serve_all rs2) s.
Proof.
  revert s. induction rs1 as [|r rs1 IH]; intros s; [done|]. cbn [app serve_all].
  unfold mbind, M_bind in *. destruct (serve r s) as [[v|k] s1]; [apply IH|done].
Qed.

Lemma serve_done r s x v t : mutex_free (g_tm_mutex s) ->
  body r (mk_ts x (g_tm s)) = (Done v, mk_ts x t) ->
  exists s', serve r s = (Done v, s') /\ mutex_free (g_tm_mutex s') /\ g_tm s' = t.
Proof.
  intros Hf Hb. rewrite serve_segments. apply body_at in Hb as [_ Hb].
  enough (wp (tm_lock;; v ← body r; tm_unlock;; mret v) (fun v' s' => v' = v /\
    mutex_free (g_tm_mutex s') /\ g_tm s' = t) (fun _ _ => False) s) as Hw.
  { apply wp_done in Hw as (v' & s' & -> & -> & Hs'). by exists s'. }
  wp_step. apply wp_tm_lock; [done|]. intros x1 Hx1. wp_step.
  eapply wp_run; [apply Hb|]. wp_step. apply wp_tm_unlock; [done|]. intros x2 Hx2. by wp_step.
Qed.

Lemma explained_advance s0 c c' : exclusive c -> explained s0 c -> advance c c' -> explained s0 c'.
Proof.
  intros Hex Hexp Hadv. destruct Hadv as [s s' ps h i r Hi Hrun|s s' ps h i r v Hi Hrun|s s' ps h i r k Hi Hrun|s s' ps h i Hi Hrun].
  all: try (left; exists i; cbn [phases]; by rewrite (moved _ _ _ _ _ Hi), decide_True).
  all: destruct Hexp as [[j Hj]|(s1 & Hall & Hf1 & Hg1)];
    [left; exists j; cbn [phases] in *; rewrite (moved _ _ _ _ _ Hi); case_decide; [by simplify_eq|done]|right];
    cbn [shared phases history] in *.
  - exists s1. split; [done|]. split; [done|]. by apply lock_run in Hrun as (_ & -> & _).
  - destruct s as [x t]. destruct (body_run r t) as (o & t' & Hb). rewrite Hb in Hrun.
    injection Hrun as -> <-. cbn in Hg1. subst t.
    destruct (serve_done r s1 x v t' Hf1 (Hb x)) as (s2 & Hrun2 & Hf2 & Hg2).
    exists s2. split; [|done]. rewrite serve_all_app. unfold mbind, M_bind. rewrite Hall. cbn.
    unfold mbind, M_bind. by rewrite Hrun2.
  - exists s1. split; [done|]. split; [done|].
    destruct Hex as [[_ Hno]|[Hh _]]; [by specialize (Hno _ _ Hi)|].
    by apply unlock_run in Hrun as [-> _].
Qed.

Lemma explained_step s0 c c' : exclusive c -> explained s0 c -> step c c' -> explained s0 c'.
Proof.
  intros Hex Hexp Hst. destruct Hst as [s ps h i r Hi|c1 c2 Hadv]; [|by eapply explained_advance].
  destruct Hexp as [[j Hj]|Hs]; [left|by right]. exists j. cbn [phases] in *.
  rewrite (moved _ _ _ _ _ Hi). case_decide; [by simplify_eq|done].
Qed.

Lemma reachable_inv s n c : mutex_free (g_tm_mutex s) -> rtc step (idle s n) c ->
  exclusive c /\ explained s c.
Proof.
  intros Hf. revert c. apply rtc_ind_r.
  - split; [by apply exclusive_idle|]. right. by exists s.
  - intros c c' _ Hst [Hex Hexp]. split; [by eapply exclusive_step|by eapply explained_step].
Qed.

(** What a thread still has to do. *)
Definition weight (p : phase) : nat :=
  match p with Waiting _ => 3 | Inside _ => 2 | Leaving => 1 | _ => 0 end.
Definition left_to_do (ps : list phase) : nat := sum_list_with weight ps.

Lemma left_to_do_bound ps : (left_to_do ps <= 3 * length ps)%nat.
Proof. apply sum_bound. intros []; cbn; lia. Qed.

Lemma advance_less c c' : advance c c' ->
  (left_to_do (phases c') < left_to_do (phases c))%nat /\ length (phases c') = length (phases c).
Proof.
  intros Hadv. destruct Hadv as [s s' ps h i r Hi|s s' ps h i r v Hi|s s' ps h i r k Hi|s s' ps h i Hi];
    cbn [phases]; rewrite length_insert; (split; [|done]);
    pose proof (fun q => sum_moved weight ps i _ q Hi) as Hins; unfold left_to_do.
  - specialize (Hins (Inside r)). cbn in Hins. lia.
  - specialize (Hins Leaving). cbn in Hins. lia.
  - specialize (Hins Stopped). cbn in Hins. lia.
  - specialize (Hins Outside). cbn in Hins. lia.
Qed.

(** No fatal check stops a call: the log library goes on, or the manager has
    no errors. *)
Definition never_stops : Prop := logf_aborts = false \/ forall r t, (work r t).1.1 = 0.

Lemma body_returns r s : never_stops -> exists v s', body r s = (Done v, s').
Proof.
  intros Hns. unfold body, on_tm, mbind, M_bind.
  destruct (work r (g_tm s)) as [[err v] t'] eqn:E.
  assert (ZF_LOGF_IF (negb (err =? 0)) (mk_ts (g_tm_mutex s) t') = (Done tt, mk_ts (g_tm_mutex s) t'))
    as Hl.
  { unfold ZF_LOGF_IF, when, ZF_LOGF. destruct Hns as [->|H0]; [by destruct (negb _)|].
    specialize (H0 r (g_tm s)). rewrite E in H0. cbn in H0. by subst. }
  rewrite Hl. by do 2 eexists.
Qed.

Definition none_stopped c : Prop := forall i, phases c !! i <> Some Stopped.

Lemma none_stopped_step c c' : never_stops -> none_stopped c -> step c c' -> none_stopped c'.
Proof.
  intros Hns Hno Hst j. specialize (Hno j).
  destruct Hst as [s ps h i r Hi|c1 c2 [s s' ps h i r Hi|s s' ps h i r v Hi|s s' ps h i r k Hi Hrun|s s' ps h i Hi]];
    cbn [phases] in *; try (rewrite (moved _ _ _ _ _ Hi); case_decide; congruence).
  destruct (body_returns r s Hns) as (v & s1 & E). congruence.
Qed.

(** A system that cannot advance has nobody inside. *)
Lemma advance_or_idle c : never_stops -> exclusive c -> none_stopped c ->
  (forall c', ~ advance c c') -> forall i p, phases c !! i = Some p -> p = Outside.
Proof.
  intros Hns Hex Hno Hstuck i p Hi. destruct c as [s ps h]. cbn [phases] in *.
  assert (forall j q, ps !! j = Some q -> critical q = false) as Hnc.
  { intros j [|r|r| |] Hj; try done.
    - destruct (body_returns r s Hns) as (v & s' & Hrun).
      by destruct (Hstuck _ (adv_work s s' ps h j r v Hj Hrun)).
    - destruct Hex as [[_ Hall]|[Hh _]]; [by apply (Hall _ _ Hj)|].
      assert (wp tm_unlock (fun _ _ => True) (fun _ _ => False) s) as Hw by by apply wp_tm_unlock.
      apply wp_done in Hw as ([] & s' & Hrun & _).
      by destruct (Hstuck _ (adv_unlock s s' ps h j Hj Hrun)).
    - by destruct (Hno j). }
  destruct p as [|r|r| |]; try by specialize (Hnc _ _ Hi). exfalso.
  destruct Hex as [[Hf _]|[_ (k & Hk & Hall)]].
  - assert (wp tm_lock (fun _ _ => True) (fun _ _ => False) s) as Hw by by apply wp_tm_lock.
    apply wp_done in Hw as ([] & s' & Hrun & _).
    by apply (Hstuck _ (adv_lock s s' ps h i r Hi Hrun)).
  - destruct Hk as [q Hq]. specialize (Hnc _ _ Hq). rewrite (Hall _ _ Hq) in Hnc.
    by rewrite bool_decide_eq_true_2 in Hnc.
Qed.


End concurrency.

(** ** The ids, and callbacks that call back *)
Section properties.
Context `{LogPolicy} {X T : Type} `{!SyncMutex X} `{!SyncMutexSpec X} `{!TimeManager T}.
Context `{!TimeManagerSpec T}.
#[local] Abbreviation S := (ts_s X T).
Implicit Types s : S.

(** Whoever finds the mutex held waits. *)
Lemma held_blocks r s : mutex_held (g_tm_mutex s) -> serve r s = (Stop Blocked, s).
Proof.
  intros Hh. rewrite serve_segments. unfold tm_lock, mutex_lock, mbind, M_bind.
  by rewrite (lock_held _ Hh).
Qed.

Lemma alloc_three s : ts_ok s -> allocated s = [] ->
  wp (a ← time_server_alloc_id 0; b ← time_server_alloc_id 0; c ← time_server_alloc_id 0; mret (a, b, c))
    (fun '(a, b, c) s' => ts_ok s' /\ NoDup [a; b; c] /\ allocated s' = [c; b; a]) total s.
Proof.
  intros Hs Ha. wp_step.
  wp_use ltac:(apply alloc_id_run; [done|unfold ids_left; rewrite Ha; apply Nat.ltb_lt; done]); [|done].
  intros a s1 (Hs1 & _ & Ha1). wp_step. rewrite Ha in Ha1.
  wp_use ltac:(apply alloc_id_run; [done|unfold ids_left; rewrite Ha1; apply Nat.ltb_lt; done]); [|done].
  intros b s2 (Hs2 & Hb & Ha2). wp_step. rewrite Ha1 in Ha2, Hb.
  wp_use ltac:(apply alloc_id_run; [done|unfold ids_left; rewrite Ha2; apply Nat.ltb_lt; done]); [|done].
  intros c s3 (Hs3 & Hc & Ha3). wp_step. rewrite Ha2 in Ha3, Hc.
  split; [done|]. split; [|done].
  apply not_elem_of_cons in Hb as [Hba _]. apply not_elem_of_cons in Hc as [Hcb [Hca _]%not_elem_of_cons].
  repeat (apply NoDup_cons_2; [rewrite ?not_elem_of_cons; split_and?; (congruence || apply not_elem_of_nil)|]).
  apply NoDup_nil_2.
Qed.

(** There are exactly as many ids as the modules that ask for one (MMC, HOBD
    and system): on the manager the module creates, the first three requests
    get different ids.  A fourth gets none: where the fatal check aborts, the
    thread stops with the mutex held, and every later call of anybody waits for
    ever; where it does not, the caller's variable is left alone and the mutex
    is free again. *)
Theorem ids_exhausted (x : X) (t0 t : T) (id : Z) :
  mutex_free x -> tm_init (Z.of_nat MAX_TIMEOUTS) t0 = (0, t) ->
  exists a b c s,
    (a ← time_server_alloc_id 0; b ← time_server_alloc_id 0; c ← time_server_alloc_id 0; mret (a, b, c))
      (mk_ts x t) = (Done (a, b, c), s) /\ NoDup [a; b; c] /\
    exists s', time_server_alloc_id id s = (if logf_aborts then Stop Halted else Done id, s') /\
      if logf_aborts then forall r, serve r s' = (Stop Blocked, s')
      else ts_ok s'.
Proof.
  intros Hx Hinit. destruct (tm_init_spec (Z.of_nat MAX_TIMEOUTS) t0 t ltac:(by vm_compute) Hinit) as (Ht & Ha & Hc).
  pose proof (alloc_three (mk_ts x t) (conj Hx (conj Ht Hc)) Ha) as Hw.
  apply wp_done in Hw as ([[a b] c] & s & Hrun & Hs & Hnd & Hids). exists a, b, c, s.
  split; [done|]. split; [done|]. destruct Hs as (Hf & Hok & Hcap).
  destruct (tm_alloc_id_full 0 _ Hok) as (err & v & t' & Hfull & Herr & Hk1 & Hk2 & Hk3).
  { rewrite Hcap. cbn in Hids. by rewrite Hids. }
  destruct (lock_free _ Hf) as (x1 & Hl & Hh). destruct (unlock_held _ Hh) as (x2 & Hu & Hx2).
  assert (tm_lock s = (Done tt, mk_ts x1 (g_tm s))) as Hlock.
  { unfold tm_lock, mutex_lock, mbind, M_bind. by rewrite Hl. }
  assert (tm_unlock (mk_ts x1 t') = (Done tt, mk_ts x2 t')) as Hunlock.
  { unfold tm_unlock, mutex_unlock, mbind, M_bind. cbn [g_tm_mutex]. by rewrite Hu. }
  assert (on_tm (tm_alloc_id 0) (mk_ts x1 (g_tm s)) = (Done (err, v), mk_ts x1 t')) as Hcall.
  { unfold on_tm. cbn [g_tm]. by rewrite Hfull. }
  unfold time_server_alloc_id. rewrite (bind_done _ _ _ _ _ Hlock), (bind_done _ _ _ _ _ Hcall).
  apply Z.eqb_neq in Herr. rewrite Herr. unfold ZF_LOGF_IF, when, ZF_LOGF. cbn [negb].
  destruct logf_aborts.
  - eexists. split; [reflexivity|]. intros r. by apply held_blocks.
  - unfold mbind at 1, M_bind at 1. cbn. rewrite (bind_done _ _ _ _ _ Hunlock).
    eexists. split; [reflexivity|]. split; [done|]. split; [done|]. cbn. congruence.
Qed.

(** Callbacks run with the mutex held, so a callback may not use the time
    server: when the owner of a timeout that is due makes any of its calls, the
    server's thread waits for itself, and every later call of anybody waits for
    ever. *)
Theorem callbacks_must_not_call (callback : Z -> M S unit) r id due t s :
  ts_ok s -> tm_update (g_tm s) = (0, id :: due, t) ->
  (forall s1, callback id s1 = (serve r;; mret tt) s1) ->
  exists s', time_server_iteration callback s = (Stop Blocked, s') /\
    forall r', serve r' s' = (Stop Blocked, s').
Proof.
  intros (Hf & _) Hup Hcb. destruct (lock_free _ Hf) as (x1 & Hl & Hh).
  exists (mk_ts x1 t). split; [|intros r'; by apply held_blocks].
  unfold time_server_iteration, tm_lock, mutex_lock, on_tm, mbind, M_bind. rewrite Hl.
  cbn -[foldr]. rewrite Hup. cbn [foldr]. unfold mbind, M_bind. rewrite Hcb. unfold mbind, M_bind.
  by rewrite held_blocks.
Qed.
End properties.

(** *** The properties at concrete inputs *)
#[local] Existing Instance log_continues.
Abbreviation demo_ts := (ts_s bool small_tm).

(** One id handed out, and one for the second thread. *)
Definition demo_server : demo_ts := mk_ts false (mk_tm 100 3 1 [] []).

(** Two threads call at the same time; the second gets the mutex first, and the
    first is still inside. *)
Definition demo_calls : sys (X := bool) (T := small_tm) :=
  mk_sys (mk_ts true (mk_tm 101 3 2 [] [])) [Leaving; Outside] [AllocId; GetTime].

Lemma demo_reachable : rtc step (idle demo_server 2) demo_calls.
Proof.
  eapply rtc_l; [by apply (step_call _ _ _ 0 GetTime)|].
  eapply rtc_l; [by apply (step_call _ _ _ 1 AllocId)|].
  eapply rtc_l; [by apply step_advance, (adv_lock _ (mk_ts true (mk_tm 100 3 1 [] [])) _ _ 1 AllocId)|].
  eapply rtc_l; [by apply step_advance, (adv_work _ (mk_ts true (mk_tm 100 3 2 [] [])) _ _ 1 AllocId 1)|].
  eapply rtc_l; [by apply step_advance, (adv_unlock _ (mk_ts false (mk_tm 100 3 2 [] [])) _ _ 1)|].
  eapply rtc_l; [by apply step_advance, (adv_lock _ (mk_ts true (mk_tm 100 3 2 [] [])) _ _ 0 GetTime)|].
  eapply rtc_l; [by apply step_advance, (adv_work _ (mk_ts true (mk_tm 101 3 2 [] [])) _ _ 0 GetTime 100)|].
  apply rtc_refl.
Qed.


(** From there the second call still has to give the mutex back. *)
Definition demo_returned : sys (X := bool) (T := small_tm) :=
  mk_sys (mk_ts false (mk_tm 101 3 2 [] [])) [Outside; Outside] [AllocId; GetTime].


#[local] Existing Instance log_aborts.

Lemma ids_exhausted_witness :
  exists a b c s,
    (a ← time_server_alloc_id 0; b ← time_server_alloc_id 0; c ← time_server_alloc_id 0; mret (a, b, c))
      (mk_ts false (mk_tm 0 3 0 [] [])) = (Done (a, b, c), s) /\ NoDup [a; b; c] /\
    exists s', time_server_alloc_id 7 s = (Stop Halted, s') /\
      forall r, serve r s' = (Stop Blocked, s').
Proof.
  pose proof (ids_exhausted false (mk_tm 0 0 0 [] []) (mk_tm 0 3 0 [] []) 7 eq_refl eq_refl) as Hw.
  exact Hw.
Defined.

(** The owner of timeout 0 asks for the time when it runs. *)
Lemma callbacks_must_not_call_witness :
  exists s', time_server_iteration (fun _ => serve GetTime;; mret tt)
      (mk_ts false (mk_tm 100 3 1 [(0, 90)] [])) = (Stop Blocked, s') /\
    forall r', serve r' s' = (Stop Blocked, s').
Proof.
  refine (callbacks_must_not_call _ GetTime 0 [] (mk_tm 101 3 1 [] []) _ _ _ _); [|done|done].
  split; [done|]. split; [split; cbn; lia|done].
Defined.
End TimeServer.
