(* ===== verification/Ipc.v ===== *)
(** The conventions of inter-process communication: message labels and badges
    (include/ipc_util.h, the base badges of include/config.h) and the transfer
    of words through message registers and the shared message area
    (include/sel4_mr.h). *)
From S2P Require Import Prelude.

Module Ipc.

Definition IPC_MSG_TYPE_ID (base id : Z) : Z := Z.shiftl base 8 + id.
Definition IPC_ENDPOINT_BADGE (base : Z) : Z := base.
Definition IPC_FAULT_ENDPOINT_BADGE (base : Z) : Z := Z.shiftl base 4 + 1.
Definition IPC_NOTIFICATION_BADGE (base : Z) : Z := Z.shiftl base 4 + 0xA.

Definition TMSERVERMOD_BASE_BADGE : Z := 0x20.
Definition SYSMOD_BASE_BADGE : Z := 0x21.
Definition MMCMOD_BASE_BADGE : Z := 0x22.
Definition HOBDMOD_BASE_BADGE : Z := 0x23.
Definition CONSOLEMOD_BASE_BADGE : Z := 0x24.

(** A message as its receiver sees it: the badge of the capability it was sent
    through, its label, its length in words, and the words that travel in
    registers.  Badge 0 is no message: what the kernel leaves in the badge
    register when a non-blocking receive finds none. *)
Record ipc_msg := Msg { msg_badge : Z; msg_label : Z; msg_length : Z; msg_words : list Z }.

#[export] Instance ipc_msg_eq_dec : EqDecision ipc_msg.
Proof. solve_decision. Defined.

(** What a thread works on: its four message registers, and the [msg] array of
    the IPC buffer of the module it talks to, which has 120 words.  The first
    four words of a message travel in the registers.  The others are written
    to and read from the array directly: all the threads share one address
    space, and the buffer the module's pointer is to is not the frame the
    kernel was given for the thread (src/thread.c allocates them separately). *)
Record regs := Regs { mr : list Z; ipc_area : list Z }.
Definition seL4_MsgMaxLength : nat := 120.

Definition seL4_SetMR (i v : Z) (r : regs) : option regs :=
  mr' ← store (mr r) i (u32 v); Some (Regs mr' (ipc_area r)).
Definition seL4_GetMR (i : Z) (r : regs) : option Z := load (mr r) i.
Definition set_area (i v : Z) (r : regs) : option regs :=
  a ← store (ipc_area r) i (u32 v); Some (Regs (mr r) a).

(** The loops over [idx]; the count is the number of iterations left. *)
Fixpoint mr_recv_loop (n : nat) (idx : Z) (r : regs) : option (list Z) :=
  match n with
  | O => Some []
  | S n =>
      w ← (if idx <=? 3 then seL4_GetMR idx r else load (ipc_area r) idx);
      ws ← mr_recv_loop n (u32 (idx + 1)) r;
      Some (u32 w :: ws)
  end.
Definition sel4_mr_recv (size_words : Z) (r : regs) : option (list Z) :=
  mr_recv_loop (Z.to_nat size_words) 0 r.

Fixpoint mr_send_loop (n : nat) (idx : Z) (buffer : list Z) (r : regs) : option regs :=
  match n with
  | O => Some r
  | S n =>
      w ← load buffer idx;
      r ← (if idx <=? 3 then seL4_SetMR idx w r else set_area idx w r);
      mr_send_loop n (u32 (idx + 1)) buffer r
  end.
Definition sel4_mr_send (size_words : Z) (buffer : list Z) (r : regs) : option regs :=
  mr_send_loop (Z.to_nat size_words) 0 buffer r.

(** *** The words a receiver reads *)

Definition regs_ok (r : regs) : Prop :=
  length (mr r) = 4%nat /\ length (ipc_area r) = seL4_MsgMaxLength.

(** The message as one sequence: the registers, then the area behind them. *)
Definition words (r : regs) : list Z := mr r ++ drop 4 (ipc_area r).

Lemma words_lookup r (i : nat) : regs_ok r ->
  words r !! i = if decide (i < 4)%nat then mr r !! i else ipc_area r !! i.
Proof.
  intros [Hm Ha]. unfold words. case_decide.
  - apply lookup_app_l. lia.
  - rewrite lookup_app_r, lookup_drop by lia. f_equal. lia.
Qed.

Lemma length_words r : regs_ok r -> length (words r) = seL4_MsgMaxLength.
Proof.
  intros [Hm Ha]. unfold words. rewrite length_app, length_drop, Hm, Ha. done.
Qed.

Lemma mr_recv_loop_run r n : forall i, regs_ok r -> (i + n <= seL4_MsgMaxLength)%nat ->
  Forall word (take n (drop i (words r))) ->
  mr_recv_loop n (Z.of_nat i) r = Some (take n (drop i (words r))).
Proof.
  induction n as [|n IH]; intros i Hr Hl Hw; [by rewrite take_0|].
  cbn [mr_recv_loop]. pose proof (length_words r Hr) as Hlw.
  destruct (lookup_lt_is_Some_2 (words r) i) as [w Hi]; [lia|].
  assert ((if Z.of_nat i <=? 3 then seL4_GetMR (Z.of_nat i) r
           else load (ipc_area r) (Z.of_nat i)) = Some w) as ->.
  { rewrite words_lookup in Hi by done. unfold seL4_GetMR.
    destruct (Z.leb_spec (Z.of_nat i) 3); rewrite load_nat; case_decide; (done || lia). }
  cbn [mbind option_bind].
  assert (u32 (Z.of_nat i + 1) = Z.of_nat (S i)) as ->.
  { unfold u32, seL4_MsgMaxLength in *. rewrite Z.mod_small; lia. }
  rewrite (drop_S _ _ _ Hi) in Hw |- *. cbn [take] in Hw |- *.
  pose proof (Forall_inv Hw) as Hwd. unfold word in Hwd.
  rewrite IH by (done || lia || by apply Forall_inv_tail in Hw).
  cbn [mbind option_bind]. do 2 f_equal. unfold u32. by apply Z.mod_small.
Qed.

Lemma mr_recv_run r n : regs_ok r -> 0 <= n <= 120 ->
  Forall word (take (Z.to_nat n) (words r)) ->
  sel4_mr_recv n r = Some (take (Z.to_nat n) (words r)).
Proof.
  intros Hr Hn Hw. unfold sel4_mr_recv.
  pose proof (mr_recv_loop_run r (Z.to_nat n) 0 Hr) as Hrun. cbn [drop] in Hrun.
  apply Hrun; [unfold seL4_MsgMaxLength; lia|done].
Qed.

(** *** Sending *)

Lemma mr_send_loop_run n : forall i buffer r, regs_ok r ->
  (i + n <= length buffer)%nat -> (i + n <= seL4_MsgMaxLength)%nat -> Forall word buffer ->
  exists r', mr_send_loop n (Z.of_nat i) buffer r = Some r' /\ regs_ok r' /\
    words r' = take i (words r) ++ take n (drop i buffer) ++ drop (i + n) (words r).
Proof.
  induction n as [|n IH]; intros i buffer r Hr Hb Hm Hw.
  { exists r. rewrite Nat.add_0_r, take_0. cbn [app]. by rewrite take_drop. }
  cbn [mr_send_loop]. pose proof (length_words r Hr) as Hlw.
  destruct (lookup_lt_is_Some_2 buffer i) as [w Hi]; [lia|].
  rewrite load_nat, Hi. cbn [mbind option_bind].
  pose proof (Forall_lookup_1 _ _ _ _ Hw Hi) as Hwd. unfold word in Hwd.
  assert (u32 w = w) as Hu by (unfold u32; by apply Z.mod_small).
  assert (exists r1, (if Z.of_nat i <=? 3 then seL4_SetMR (Z.of_nat i) w r
      else set_area (Z.of_nat i) w r) = Some r1 /\ regs_ok r1 /\ words r1 = <[i := w]> (words r))
    as (r1 & -> & Hr1 & Hw1).
  { destruct Hr as [Hm4 Ha]. unfold seL4_MsgMaxLength, words, seL4_SetMR, set_area in *.
    rewrite Hu. destruct (Z.leb_spec (Z.of_nat i) 3).
    - rewrite store_nat by lia. eexists. split; [done|]. split; [by split; cbn; rewrite ?length_insert|].
      cbn. by rewrite insert_app_l by lia.
    - rewrite store_nat by lia. eexists. split; [done|]. split; [by split; cbn; rewrite ?length_insert|].
      cbn. rewrite insert_app_r_alt, Hm4 by lia. f_equal.
      rewrite drop_insert_ge by lia. done. }
  cbn [mbind option_bind].
  assert (u32 (Z.of_nat i + 1) = Z.of_nat (S i)) as ->.
  { unfold u32, seL4_MsgMaxLength in *. rewrite Z.mod_small; lia. }
  destruct (IH (S i) buffer r1) as (r' & -> & Hr' & Hw'); [done|lia|lia|done|].
  exists r'. split; [done|]. split; [done|]. rewrite Hw', Hw1.
  rewrite (drop_S _ _ _ Hi). cbn [take].
  rewrite take_S_insert by lia. rewrite drop_insert_lt by lia.
  rewrite <- app_assoc. cbn [app]. by replace (S i + n)%nat with (i + S n)%nat by lia.
Qed.

Lemma mr_send_run n buffer r : regs_ok r -> 0 <= n <= Z.of_nat (length buffer) -> n <= 120 ->
  Forall word buffer ->
  exists r', sel4_mr_send n buffer r = Some r' /\ regs_ok r' /\
    words r' = take (Z.to_nat n) buffer ++ drop (Z.to_nat n) (words r).
Proof.
  intros Hr Hn Hm Hw. unfold sel4_mr_send.
  destruct (mr_send_loop_run (Z.to_nat n) 0 buffer r) as (r' & H1 & H2 & H3);
    [done|lia|unfold seL4_MsgMaxLength; lia|done|]. by exists r'.
Qed.

(** *** The kernel's transfer

    [deliver ws mrs] is the receiver's registers after a message whose words in
    registers are [ws] was received into [mrs]. *)
Class Kernel := { deliver : list Z -> list Z -> list Z }.
Class KernelSpec `{!Kernel} := {
  deliver_length ws mrs : length mrs = 4%nat -> length (deliver ws mrs) = 4%nat;
  deliver_words ws mrs : length mrs = 4%nat -> (length ws <= 4)%nat ->
    take (length ws) (deliver ws mrs) = ws;
  deliver_word ws mrs : Forall word ws -> Forall word mrs -> Forall word (deliver ws mrs);
}.

(** A kernel, to evaluate the clients on. *)
#[export] Instance copy_kernel : Kernel := {| deliver ws mrs := take 4 (ws ++ drop (length ws) mrs) |}.

#[export] Instance copy_kernel_spec : KernelSpec.
Proof.
  split; intros ws mrs Hm; cbn.
  - autorewrite with len. lia.
  - intros Hl. rewrite take_take, Nat.min_l by done. by apply take_app_length.
  - intros Hr. by apply Forall_take, Forall_app; split; [|apply Forall_drop].
Qed.

Section receiving.
Context `{!Kernel}.
Definition receive_regs (ws : list Z) (r : regs) : regs := Regs (deliver ws (mr r)) (ipc_area r).

Context `{!KernelSpec}.
Lemma receive_ok ws r : regs_ok r -> regs_ok (receive_regs ws r).
Proof. intros [Hm Ha]. split; [by apply deliver_length|done]. Qed.

Lemma receive_words ws r : regs_ok r -> (length ws <= 4)%nat ->
  exists l, words (receive_regs ws r) = ws ++ l.
Proof.
  intros [Hm Ha] Hl. exists (drop (length ws) (deliver ws (mr r)) ++ drop 4 (ipc_area r)).
  unfold words. cbn. rewrite (assoc_L (++)). f_equal.
  rewrite <- (deliver_words ws (mr r) Hm Hl) at 2. by rewrite take_drop.
Qed.
(** The first [n] words, sent in registers as far as they fit. *)
Lemma receive_take n mrs r : length mrs = 4%nat -> regs_ok r ->
  take n (words (receive_regs (take n mrs) r)) = take n (mrs ++ drop 4 (ipc_area r)).
Proof.
  intros Hm [Hr _]. unfold words. cbn [receive_regs mr ipc_area]. rewrite !take_app.
  assert (length (take n mrs) = n `min` 4)%nat as Hl by (rewrite length_take; lia).
  pose proof (deliver_words (take n mrs) (mr r) Hr ltac:(lia)) as Hd. rewrite Hl in Hd.
  pose proof (deliver_length (take n mrs) (mr r) Hr) as Hdl. rewrite Hdl, Hm. f_equal.
  destruct (decide (n <= 4)%nat).
  - by replace n with (n `min` 4)%nat at 1 by lia.
  - rewrite take_ge by lia. rewrite Nat.min_r, take_ge in Hd by lia. done.
Qed.
End receiving.

(** *** Calls

    A client thread: its registers and the peer behind the endpoint.  [call] is
    what the peer does with a message, and its reply. *)
Record client (P : Type) := mk_client { c_regs : regs; c_peer : P }.
Arguments mk_client {P}.
Arguments c_regs {P}.
Arguments c_peer {P}.

Section client.
Context `{!Kernel} {P : Type} (call : ipc_msg -> M P (Z * list Z)).

(** The label and the length of the reply; its words are in the registers (no
    call of this system has a longer request or reply). *)
Definition seL4_Call (badge label len : Z) : M (client P) (Z * Z) :=
  r ← gets c_regs;
  '(resp_label, ws) ← zoom c_peer (fun p c => mk_client (c_regs c) p)
    (call (Msg badge label len (take (Z.to_nat len) (mr r))));
  modify (fun c => mk_client (receive_regs ws (c_regs c)) (c_peer c));;
  mret (resp_label, Z.of_nat (length ws)).

Definition client_SetMR (i v : Z) : M (client P) unit :=
  r ← gets c_regs; r ← or_fault (seL4_SetMR i v r);
  modify (fun c => mk_client r (c_peer c)).
Definition client_GetMR (i : Z) : M (client P) Z :=
  r ← gets c_regs; or_fault (seL4_GetMR i r).
Definition client_mr_recv (n : Z) : M (client P) (list Z) :=
  r ← gets c_regs; or_fault (sel4_mr_recv n r).
End client.

Lemma get_mr_words r (i : nat) : regs_ok r -> (i < 4)%nat ->
  seL4_GetMR (Z.of_nat i) r = words r !! i.
Proof. intros Hr Hi. rewrite words_lookup, decide_True by done. apply load_nat. Qed.

Lemma set_mr_run r (i : nat) v : regs_ok r -> (i < 4)%nat ->
  exists r', seL4_SetMR (Z.of_nat i) v r = Some r' /\ regs_ok r' /\
    words r' = <[i := u32 v]> (words r).
Proof.
  intros [Hm Ha] Hi. unfold seL4_SetMR. rewrite store_nat by lia.
  eexists. split; [done|]. split; [by split; cbn; rewrite ?length_insert|].
  unfold words. cbn. by rewrite insert_app_l by lia.
Qed.

(** The call as a client sees it: what the peer does to its state, and the
    reply in front of the registers. *)
Lemma call_run `{!Kernel} `{!KernelSpec} {P} (call : ipc_msg -> M P (Z * list Z))
    badge label len (c : client P) rl ws p' :
  regs_ok (c_regs c) -> (length ws <= 4)%nat ->
  call (Msg badge label len (take (Z.to_nat len) (mr (c_regs c)))) (c_peer c) =
    (Done (rl, ws), p') ->
  exists r' l, seL4_Call call badge label len c =
      (Done (rl, Z.of_nat (length ws)), mk_client r' p') /\
    regs_ok r' /\ words r' = ws ++ l.
Proof.
  intros Hr Hl Hc. destruct (receive_words ws (c_regs c) Hr Hl) as [l Hw].
  exists (receive_regs ws (c_regs c)), l. unfold seL4_Call, zoom, mbind, M_bind, gets. rewrite Hc.
  split; [done|]. split; [by apply receive_ok|done].
Qed.

(** The first register and the words. *)
Lemma words_mr0 r w l : regs_ok r -> words r = w :: l -> exists l', mr r = w :: l'.
Proof.
  intros [Hm _] Hw. unfold words in Hw. destruct (mr r) as [|w' l']; [done|].
  injection Hw as -> _. by exists l'.
Qed.

(** *** Structures as words

    The 32-bit words of a structure whose bytes are given, for the casts of a
    structure's address to [uint32_t*]. *)
Fixpoint words_of_bytes (l : list Z) : list Z :=
  match l with
  | b0 :: b1 :: b2 :: b3 :: l => le_val [b0; b1; b2; b3] :: words_of_bytes l
  | _ => []
  end.
Definition bytes_of_words (ws : list Z) : list Z := ws ≫= le_bytes 4.

Lemma length_bytes_of_words ws : length (bytes_of_words ws) = (4 * length ws)%nat.
Proof.
  induction ws as [|w ws IH]; [done|].
  change (bytes_of_words (w :: ws)) with (le_bytes 4 w ++ bytes_of_words ws).
  rewrite length_app, IH. cbn. lia.
Qed.

Lemma bytes_bytes_of_words ws : bytes (bytes_of_words ws).
Proof.
  induction ws as [|w ws IH]; [constructor|].
  change (bytes_of_words (w :: ws)) with (le_bytes 4 w ++ bytes_of_words ws).
  apply bytes_app. split; [apply bytes_le_bytes|done].
Qed.

Lemma bytes_of_words_of_bytes n : forall l, length l = (4 * n)%nat -> bytes l ->
  bytes_of_words (words_of_bytes l) = l.
Proof.
  induction n as [|n IH]; intros l Hl Hb; [by destruct l|].
  destruct l as [|b0 [|b1 [|b2 [|b3 l]]]]; cbn in Hl; try lia.
  cbn [words_of_bytes]. change (bytes_of_words (?w :: ?ws)) with (le_bytes 4 w ++ bytes_of_words ws).
  pose proof (le_bytes_val [b0; b1; b2; b3] (bytes_take 4 _ Hb)) as H4.
  cbn [length] in H4. rewrite H4. cbn [app]. do 4 f_equal.
  apply IH; [lia|]. exact (bytes_drop 4 _ Hb).
Qed.

Lemma length_words_of_bytes n : forall l, length l = (4 * n)%nat ->
  length (words_of_bytes l) = n.
Proof.
  induction n as [|n IH]; intros l Hl; [by destruct l|].
  destruct l as [|b0 [|b1 [|b2 [|b3 l]]]]; cbn in Hl; try lia.
  cbn. by rewrite IH by lia.
Qed.

Lemma words_of_bytes_word l : bytes l -> Forall word (words_of_bytes l).
Proof.
  remember (length l) as n eqn:Hn. revert l Hn.
  induction n as [n IH] using lt_wf_ind. intros l Hn Hb.
  destruct l as [|b0 [|b1 [|b2 [|b3 l]]]]; cbn [words_of_bytes]; try constructor.
  - inversion_clear Hb as [|? ? H0 Hb1]. inversion_clear Hb1 as [|? ? H1 Hb2].
    inversion_clear Hb2 as [|? ? H2 Hb3]. inversion_clear Hb3 as [|? ? H3 _].
    unfold byte, word in *. cbn. lia.
  - eapply IH; [|done|exact (bytes_drop 4 _ Hb)]. cbn in Hn. lia.
Qed.

(** *** Properties *)

(** The words a thread sends with [sel4_mr_send] are the words the receiver
    reads with [sel4_mr_recv], for every message length the kernel allows: the
    first four through the registers, by the kernel, the others through the
    message area both of them address. *)
Theorem mr_roundtrip `{!Kernel} `{!KernelSpec} n buffer r mrs :
  regs_ok r -> length mrs = 4%nat -> 0 <= n <= 120 -> n <= Z.of_nat (length buffer) ->
  Forall word buffer ->
  exists r1, sel4_mr_send n buffer r = Some r1 /\
    sel4_mr_recv n (receive_regs (take (Z.to_nat n) (mr r1)) (Regs mrs (ipc_area r1))) =
      Some (take (Z.to_nat n) buffer).
Proof.
  intros Hr Hm Hn Hb Hw.
  destruct (mr_send_run n buffer r) as (r1 & Hs & Hr1 & Hw1); [done|lia|lia|done|].
  exists r1. split; [done|]. pose proof Hr1 as [Hm1 Ha1]. set (r2 := Regs mrs (ipc_area r1)).
  assert (regs_ok r2) as Hr2 by by split.
  assert (take (Z.to_nat n) (words (receive_regs (take (Z.to_nat n) (mr r1)) r2)) =
    take (Z.to_nat n) buffer) as Heq.
  { rewrite receive_take by done. change (mr r1 ++ drop 4 (ipc_area r2)) with (words r1).
    rewrite Hw1. apply take_app_length'. rewrite length_take. lia. }
  rewrite mr_recv_run; [by rewrite Heq|by apply receive_ok|lia|].
  rewrite Heq. by apply Forall_take.
Qed.

Lemma mr_roundtrip_witness :
  let r := Regs (replicate 4 0) (replicate 120 0) in
  exists r1, sel4_mr_send 6 [1; 2; 3; 4; 5; 6; 7] r = Some r1 /\
    sel4_mr_recv 6 (receive_regs (take (Z.to_nat 6) (mr r1)) (Regs [9; 9; 9; 9] (ipc_area r1)))
      = Some [1; 2; 3; 4; 5; 6].
Proof.
  intros r. apply (mr_roundtrip 6 [1; 2; 3; 4; 5; 6; 7] r); try decide_now; by split.
Defined.

(** Every endpoint, fault endpoint and notification has a badge of its own. *)
Definition base_badges : list Z :=
  [TMSERVERMOD_BASE_BADGE; SYSMOD_BASE_BADGE; MMCMOD_BASE_BADGE; HOBDMOD_BASE_BADGE;
   CONSOLEMOD_BASE_BADGE].

Example badges_distinct :
  NoDup (0 :: (IPC_ENDPOINT_BADGE <$> base_badges) ++
         (IPC_FAULT_ENDPOINT_BADGE <$> base_badges) ++ (IPC_NOTIFICATION_BADGE <$> base_badges)).
Proof. decide_now. Qed.

End Ipc.
