(* ===== verification/MmcEntry.v ===== *)
(** The entries of the log file, modules/mmc/include/mmc_entry.h: constants and
    the packed little-endian layout. *)
From S2P Require Import Prelude Services.

Definition MMC_ENTRY_HEADER_SIZE : Z := 12.
Definition MMC_ENTRY_SIZE_MIN : Z := MMC_ENTRY_HEADER_SIZE.
Definition MMC_ENTRY_SIZE_MAX : Z := 120 * 4.
Definition MMC_ENTRY_DATA_SIZE_MAX : Z := MMC_ENTRY_SIZE_MAX - MMC_ENTRY_HEADER_SIZE.

Definition MMC_ENTRY_TYPE_INVALID : Z := 0x0000.
Definition MMC_ENTRY_TYPE_BEGIN_FLAG : Z := 0xABFE.
Definition MMC_ENTRY_TYPE_FAULT : Z := 0x0010.
Definition MMC_ENTRY_TYPE_HEARTBEAT : Z := 0x0020.
Definition MMC_ENTRY_TYPE_HOBD_MSG : Z := 0x0100.

(** [mmc_entry_header_s] over bytes: its fields at offsets 0, 2 and 4. *)
Definition entry_header_type (entry : list Z) : option Z := le_val <$> read_at entry 0 2.
Definition entry_header_size (entry : list Z) : option Z := le_val <$> read_at entry 2 2.
Definition entry_header_timestamp (entry : list Z) : option Z := le_val <$> read_at entry 4 8.

Definition mmc_entry_total_size (entry : list Z) : option Z :=
  size ← entry_header_size entry; Some (u16 (size + MMC_ENTRY_HEADER_SIZE)).

(** An entry as it lies in memory and in the file. *)
Definition entry_header (ty size time : Z) : list Z :=
  le_bytes 2 ty ++ le_bytes 2 size ++ le_bytes 8 time.
Definition entry_bytes (e : log_entry) : list Z :=
  entry_header (entry_type e) (Z.of_nat (length (entry_data e))) (entry_time e) ++ entry_data e.

Definition entry_ok (e : log_entry) : Prop :=
  0 <= entry_type e < 65536 /\ 0 <= entry_time e < 2 ^ 64 /\ bytes (entry_data e) /\
  Z.of_nat (length (entry_data e)) < 65524.

#[export] Instance entry_ok_dec e : Decision (entry_ok e).
Proof. unfold entry_ok. apply _. Defined.

Lemma length_entry_header ty size time : length (entry_header ty size time) = 12%nat.
Proof. unfold entry_header. by rewrite !length_app, !length_le_bytes. Qed.

Lemma entry_header_fields ty size time rest :
  0 <= ty < 65536 -> 0 <= size < 65536 -> 0 <= time < 2 ^ 64 ->
  entry_header_type (entry_header ty size time ++ rest) = Some ty /\
  entry_header_size (entry_header ty size time ++ rest) = Some size /\
  entry_header_timestamp (entry_header ty size time ++ rest) = Some time.
Proof.
  intros Ht Hs Hm. pose proof (length_entry_header ty size time) as Hl.
  assert (forall a b c : list Z, read_at (a ++ b ++ c) (Z.of_nat (length a))
    (Z.of_nat (length b)) = Some b) as Hread.
  { intros a b c. unfold read_at. rewrite decide_True by (rewrite !length_app; lia).
    by rewrite !Nat2Z.id, drop_app_length, take_app_length. }
  unfold entry_header_type, entry_header_size, entry_header_timestamp, entry_header.
  rewrite <- !app_assoc.
  pose proof (Hread [] (le_bytes 2 ty) (le_bytes 2 size ++ le_bytes 8 time ++ rest)) as H1.
  pose proof (Hread (le_bytes 2 ty) (le_bytes 2 size) (le_bytes 8 time ++ rest)) as H2.
  pose proof (Hread (le_bytes 2 ty ++ le_bytes 2 size) (le_bytes 8 time) rest) as H3.
  rewrite <- app_assoc in H3.
  autorewrite with len in H1, H2, H3.
  cbn [app length] in H1. change (Z.of_nat 0) with 0 in H1.
  change (Z.of_nat (2 + 2)) with 4 in H3. change (Z.of_nat 2) with 2 in *.
  change (Z.of_nat 8) with 8 in *.
  rewrite H1, H2, H3. cbn [fmap option_fmap option_map].
  rewrite !le_val_bytes by (cbn; lia). done.
Qed.

(** The entries of a file, up to the first that is not complete; [fuel] bounds
    their number. *)
Fixpoint entries_from (fuel : nat) (l : list Z) : list log_entry :=
  match fuel with
  | O => []
  | S fuel =>
      match entry_header_type l, entry_header_size l, entry_header_timestamp l with
      | Some ty, Some size, Some time =>
          match read_at l 12 size with
          | Some data => Entry ty time data :: entries_from fuel (drop (12 + Z.to_nat size) l)
          | None => []
          end
      | _, _, _ => []
      end
  end.
Definition entries_of (l : list Z) : list log_entry := entries_from (length l) l.

Lemma length_entry_bytes e : length (entry_bytes e) = (12 + length (entry_data e))%nat.
Proof. unfold entry_bytes. by rewrite length_app, length_entry_header. Qed.

Lemma entries_from_concat es : forall fuel, Forall entry_ok es -> (length es <= fuel)%nat ->
  entries_from fuel (concat (map entry_bytes es)) = es.
Proof.
  induction es as [|e es IH]; intros [|fuel] Hes Hf; try done; [cbn in Hf; lia|].
  apply Forall_cons_iff in Hes as [(Ht & Hm & Hb & Hl) Hes]. cbn [map concat entries_from].
  destruct (entry_header_fields (entry_type e) (Z.of_nat (length (entry_data e))) (entry_time e)
    (entry_data e ++ concat (map entry_bytes es))) as (E1 & E2 & E3); [done|lia|done|].
  unfold entry_bytes at 1 3 5 7 9. rewrite <- app_assoc. rewrite E1, E2, E3.
  set (rest := concat _). pose proof (length_entry_header (entry_type e)
    (Z.of_nat (length (entry_data e))) (entry_time e)) as Hh.
  set (h := entry_header _ _ _) in *.
  assert (read_at (h ++ entry_data e ++ rest) 12 (Z.of_nat (length (entry_data e))) =
    Some (entry_data e)) as ->.
  { unfold read_at. rewrite decide_True by (rewrite !length_app; lia).
    change (Z.to_nat 12) with 12%nat. rewrite <- Hh, drop_app_length, Nat2Z.id.
    by rewrite take_app_length. }
  rewrite Nat2Z.id, <- drop_drop, <- Hh, drop_app_length, drop_app_length.
  unfold rest. rewrite IH; [|done|cbn in Hf; lia]. by destruct e.
Qed.

(** The entries of a file are the entries that were written to it. *)
Lemma entries_of_concat es : Forall entry_ok es ->
  entries_of (concat (map entry_bytes es)) = es.
Proof.
  intros Hes. apply entries_from_concat; [done|]. clear Hes.
  induction es as [|e es IH]; [done|]. cbn [map concat length]. rewrite length_app, length_entry_bytes. lia.
Qed.
