(* ===== verification/SystemModule.v ===== *)
(** The system module (modules/system/src/system_module.c): the barrier the
    other modules wait at until the system is up, and the heartbeat that is
    logged from then on.  The same non-blocking log request is made by the root
    task's loop for every fault it receives (src/main.c), which is here, too. *)
From stdpp Require Import relations.
From S2P Require Import Prelude Services Sync Ipc MmcEntry.

Module SystemModule.
Import Ipc.

Definition HEARTBEAT_DELAY_SEC : Z := 4.
(** The library's milliseconds per second and nanoseconds per millisecond. *)
Definition HEARTBEAT_TIMEOUT_NS (MS_IN_S NS_IN_MS : Z) : Z := HEARTBEAT_DELAY_SEC * MS_IN_S * NS_IN_MS.
Definition ENDPOINT_BADGE : Z := IPC_ENDPOINT_BADGE SYSMOD_BASE_BADGE.
Definition IPC_MSG_TYPE_TIMEOUT : Z := IPC_MSG_TYPE_ID SYSMOD_BASE_BADGE 1.

(** ** The module *)
Section module.
Context `{LogPolicy} {X W : Type} `{!SyncMutex X} `{!Services W}.

(** The module's variables, the messages at its endpoint, and the modules it
    calls. *)
Record sys_s := mk_sys {
  g_is_init : Z;
  g_sys_ready_mutex : X;
  g_timeout_id : Z;
  ep : list ipc_msg;
  services : W;
}.
#[local] Abbreviation T := (M sys_s).

Definition set_is_init v s := mk_sys v (g_sys_ready_mutex s) (g_timeout_id s) (ep s) (services s).
Definition set_mutex x s := mk_sys (g_is_init s) x (g_timeout_id s) (ep s) (services s).
Definition set_timeout_id id s := mk_sys (g_is_init s) (g_sys_ready_mutex s) id (ep s) (services s).
Definition set_ep l s := mk_sys (g_is_init s) (g_sys_ready_mutex s) (g_timeout_id s) l (services s).
Definition set_services w s := mk_sys (g_is_init s) (g_sys_ready_mutex s) (g_timeout_id s) (ep s) w.
Definition svc {A} (m : M W A) : T A := zoom services set_services m.

(** Taking the mutex and giving it back, with the check that follows. *)
Definition lock_ready : T unit :=
  err ← (fun s => match sync_mutex_lock (g_sys_ready_mutex s) with
    | Some (err, x) => (Done err, set_mutex x s)
    | None => (Stop Blocked, s)
    end);
  ZF_LOGF_IF (negb (err =? 0)).
Definition signal_ready_to_start : T unit :=
  err ← (fun s => let '(err, x) := sync_mutex_unlock (g_sys_ready_mutex s) in
    (Done err, set_mutex x s));
  ZF_LOGF_IF (negb (err =? 0)).

(** The callback of the heartbeat's timeout: what it sends is delivered to a
    thread that waits, and dropped otherwise. *)
Definition timeout_cb (waiting : bool) : T Z :=
  when waiting (modify (fun s =>
    set_ep (ep s ++ [Msg ENDPOINT_BADGE IPC_MSG_TYPE_TIMEOUT 0 []]) s));;
  mret 0.

(** The thread's start. *)
Definition close_barrier : T unit :=
  init ← gets g_is_init;
  when (init =? 0) (lock_ready;; modify (set_is_init 1)).
Definition alloc_timeout : T unit :=
  id ← svc time_server_alloc_id;
  modify (set_timeout_id id).
Definition register_heartbeat (MS_IN_S NS_IN_MS : Z) : T unit :=
  id ← gets g_timeout_id;
  svc (time_server_register_periodic_cb (HEARTBEAT_TIMEOUT_NS MS_IN_S NS_IN_MS) 0 id).
Definition sys_start (MS_IN_S NS_IN_MS : Z) : T unit :=
  close_barrier;;
  alloc_timeout;;
  register_heartbeat MS_IN_S NS_IN_MS;;
  signal_ready_to_start.

(** One iteration of its loop; without a message it waits. *)
Definition seL4_Recv : T ipc_msg := fun s =>
  match ep s with
  | [] => (Stop Blocked, s)
  | m :: l => (Done m, set_ep l s)
  end.
Definition sys_iteration : T unit :=
  m ← seL4_Recv;
  ZF_LOGF_IF (negb (msg_badge m =? ENDPOINT_BADGE));;
  when (msg_label m =? IPC_MSG_TYPE_TIMEOUT)
    (svc (mmc_log_entry_data MMC_ENTRY_TYPE_HEARTBEAT 0 None [] 1)).
Fixpoint sys_loop (n : nat) : T unit :=
  match n with
  | O => mret tt
  | S n => sys_iteration;; sys_loop n
  end.
Definition sys_thread_fn (MS_IN_S NS_IN_MS : Z) (n : nat) : T unit :=
  sys_start MS_IN_S NS_IN_MS;;
  sys_loop n.

(** What the other modules call: polling the flag at most [n] times, then a
    pass through the mutex. *)
Definition pass_barrier : T unit := lock_ready;; signal_ready_to_start.
Fixpoint system_module_wait_for_start (n : nat) : T unit :=
  init ← gets g_is_init;
  if init =? 0 then
    match n with
    | O => stop_with Blocked
    | S n => system_module_wait_for_start n
    end
  else pass_barrier.
End module.
Arguments sys_s : clear implicits.

(** ** The root task's loop (src/main.c): a fault arrives, a fault is logged *)
Section faults.
Context {W : Type} `{!Services W}.
Fixpoint fault_loop (n : nat) : M W unit :=
  match n with
  | O => mret tt
  | S n => mmc_log_entry_data MMC_ENTRY_TYPE_FAULT 0 None [] 1;; fault_loop n
  end.
End faults.

(** ** The thread *)
Section thread.
Context `{LogPolicy} {X W : Type} `{!SyncMutex X} `{!SyncMutexSpec X} `{!Services W} `{!ServicesSpec W}.
#[local] Abbreviation S := (sys_s X W).
Implicit Types s : S.

Lemma wp_sys_svc {A} (m : M W A) Q E s :
  wp m (fun a w => Q a (set_services w s)) (fun k w => E k (set_services w s)) (services s) ->
  wp (svc m) Q E s.
Proof. intros Hm. by apply wp_zoom. Qed.

(** What the thread's loop leaves alone. *)
Definition kept s s' : Prop :=
  g_is_init s' = g_is_init s /\ g_sys_ready_mutex s' = g_sys_ready_mutex s /\ g_timeout_id s' = g_timeout_id s.
#[export] Instance kept_preorder : PreOrder kept.
Proof. split; [done|]. intros s1 s2 s3 (?&?&?) (?&?&?). repeat split; by etrans. Qed.

Lemma sys_loop_kept n : respects kept (sys_loop n).
Proof.
  induction n as [|n IH]; cbn [sys_loop]; [respects_steps|]. apply respects_bind; [apply _| |done].
  unfold sys_iteration. apply respects_bind; [apply _| |].
  - intros s. unfold seL4_Recv. by destruct (ep s).
  - intros m. apply respects_bind; [apply _|respects_steps|intros _].
    apply respects_when; [apply _|]. intros _. by apply respects_zoom.
Qed.

(** How often the thread was woken up for a heartbeat. *)
Definition timeouts (l : list ipc_msg) : nat :=
  length (filter (fun m => msg_label m = IPC_MSG_TYPE_TIMEOUT) l).

Lemma sys_loop_run n : forall s, services_ok (services s) -> (n <= length (ep s))%nat ->
  Forall (fun m => msg_badge m = ENDPOINT_BADGE) (ep s) ->
  wp (sys_loop n) (fun _ s' => ep s' = drop n (ep s) /\ services_ok (services s') /\
    allocated (services s') = allocated (services s) /\
    (forall id, cb_registered id (services s') = cb_registered id (services s)) /\
    at_most MMC_ENTRY_TYPE_HEARTBEAT (timeouts (take n (ep s))) (services s) (services s')) total s.
Proof.
  induction n as [|n IH]; intros s Hs Hn Hb; cbn [sys_loop].
  { wp_step. do 4 (split; [done|]). by apply at_most_refl. }
  destruct (ep s) as [|m l] eqn:Hep; [cbn in Hn; lia|]. apply Forall_cons_iff in Hb as [Hbm Hbl].
  wp_step. unfold sys_iteration. wp_step. unfold wp at 1, seL4_Recv. rewrite Hep. wp_step.
  rewrite Hbm, Z.eqb_refl. wp_step; [done|]. cbn [drop take]. unfold timeouts. rewrite filter_cons.
  assert (forall s1 k, services_ok (services s1) -> ep s1 = l ->
    allocated (services s1) = allocated (services s) ->
    (forall id, cb_registered id (services s1) = cb_registered id (services s)) ->
    at_most MMC_ENTRY_TYPE_HEARTBEAT k (services s) (services s1) ->
    wp (sys_loop n) (fun _ s' => ep s' = drop n l /\ services_ok (services s') /\
      allocated (services s') = allocated (services s) /\
      (forall id, cb_registered id (services s') = cb_registered id (services s)) /\
      at_most MMC_ENTRY_TYPE_HEARTBEAT (k + timeouts (take n l)) (services s) (services s'))
      total s1) as Hrest.
  { intros s1 k Hs1 Hl Ha Hcb Hlog. wp_use ltac:(apply IH; [done|rewrite Hl; cbn in Hn; lia|by rewrite Hl]); [|done].
    rewrite Hl. intros _ s2 (Hep2 & Hs2 & Ha2 & Hcb2 & Hlog2). split; [done|]. split; [done|].
    split; [congruence|]. split; [intros id; by rewrite Hcb2, Hcb|]. by eapply at_most_trans. }
  destruct (msg_label m =? IPC_MSG_TYPE_TIMEOUT) eqn:E; wp_step; try done; intros _.
  - apply Z.eqb_eq in E. rewrite decide_True by done. apply wp_sys_svc.
    wp_use ltac:(by apply log_marker); [|done]. intros _ w (Hw & Ha & Hcb & Hlog).
    by apply (Hrest (set_services w (set_ep l s)) 1%nat).
  - apply Z.eqb_neq in E. rewrite decide_False by done.
    apply (Hrest (set_ep l s) 0%nat); try done. by apply at_most_refl.
Qed.

Lemma fault_loop_run n : forall w, services_ok w ->
  wp (fault_loop n) (fun _ w' => services_ok w' /\ at_most MMC_ENTRY_TYPE_FAULT n w w') total w.
Proof.
  induction n as [|n IH]; intros w Hw; cbn [fault_loop].
  { wp_step. split; [done|]. by apply at_most_refl. }
  wp_step. wp_use ltac:(by apply log_marker); [|done]. intros _ w1 (Hw1 & _ & _ & H1).
  wp_use ltac:(by apply IH); [|done]. intros _ w2 [Hw2 H2]. split; [done|].
  by apply (at_most_trans _ 1 n _ w1).
Qed.
End thread.

(** ** The barrier

    The system thread and any number of threads that wait for the start, their
    steps interleaved, while other threads use the time server. *)
Section barrier.
Context `{LogPolicy} {X W : Type} `{!SyncMutex X} `{!SyncMutexSpec X} `{!Services W} `{!ServicesSpec W}.
Context (MS_IN_S NS_IN_MS : Z).
#[local] Abbreviation S := (sys_s X W).
Implicit Types s : S.

(** Where the system thread is: not created (nor is the mutex), created, with
    the mutex, with the flag set, with its id, with its timeout, in its loop. *)
Inductive sys_phase := SysAbsent | SysCreated | SysLocked | SysFlagged | SysAllocated | SysRegistered | SysUp.
(** Where a waiting thread is: at the flag, before the mutex, with the mutex,
    returned. *)
Inductive wait_phase := Polling | Locking | Holding | Started.

#[export] Instance sys_phase_eq_dec : EqDecision sys_phase.
Proof. solve_decision. Defined.
#[export] Instance wait_phase_eq_dec : EqDecision wait_phase.
Proof. solve_decision. Defined.

Record boot := mk_boot { shared : S; sys : sys_phase; waiters : list wait_phase }.
Implicit Types b : boot.

(** What the other threads do to the services: they keep the invariant of the
    time server, leave an id of the system module and its timeout alone, and
    leave it an id until it has one. *)
Definition others (p : sys_phase) (id : Z) (w w' : W) : Prop :=
  services_ok w' /\
  (id ∈ allocated w -> id ∈ allocated w' /\ (cb_registered id w = true -> cb_registered id w' = true)) /\
  (p ∈ [SysAbsent; SysCreated; SysLocked; SysFlagged] -> ids_left w').

(** Steps of the system thread, of the waiting threads, and of the others.  The
    start of the thread is that of [sys_start], one statement per step. *)
Inductive sys_step : boot -> boot -> Prop :=
| sys_create s x ws : mutex_free x -> sys_step (mk_boot s SysAbsent ws) (mk_boot (set_mutex x s) SysCreated ws)
| sys_lock s s' ws : g_is_init s = 0 -> lock_ready s = (Done tt, s') ->
    sys_step (mk_boot s SysCreated ws) (mk_boot s' SysLocked ws)
| sys_flag s ws : sys_step (mk_boot s SysLocked ws) (mk_boot (set_is_init 1 s) SysFlagged ws)
| sys_alloc s s' ws : alloc_timeout s = (Done tt, s') ->
    sys_step (mk_boot s SysFlagged ws) (mk_boot s' SysAllocated ws)
| sys_register s s' ws : register_heartbeat MS_IN_S NS_IN_MS s = (Done tt, s') ->
    sys_step (mk_boot s SysAllocated ws) (mk_boot s' SysRegistered ws)
| sys_signal s s' ws : signal_ready_to_start s = (Done tt, s') ->
    sys_step (mk_boot s SysRegistered ws) (mk_boot s' SysUp ws).

Inductive wait_step : boot -> boot -> Prop :=
| wait_flag s p ws i : ws !! i = Some Polling -> g_is_init s <> 0 ->
    wait_step (mk_boot s p ws) (mk_boot s p (<[i := Locking]> ws))
| wait_lock s s' p ws i : ws !! i = Some Locking -> lock_ready s = (Done tt, s') ->
    wait_step (mk_boot s p ws) (mk_boot s' p (<[i := Holding]> ws))
| wait_unlock s s' p ws i : ws !! i = Some Holding -> signal_ready_to_start s = (Done tt, s') ->
    wait_step (mk_boot s p ws) (mk_boot s' p (<[i := Started]> ws)).

Inductive boot_step : boot -> boot -> Prop :=
| step_sys b b' : sys_step b b' -> boot_step b b'
| step_wait b b' : wait_step b b' -> boot_step b b'
| step_others s p ws w : others p (g_timeout_id s) (services s) w ->
    boot_step (mk_boot s p ws) (mk_boot (set_services w s) p ws).

(** Before the system module is initialized. *)
Definition powered_on s (n : nat) : boot := mk_boot s SysAbsent (replicate n Polling).

(** The code's calls are these steps. *)
Lemma sys_start_segments s :
  sys_start MS_IN_S NS_IN_MS s = (if g_is_init s =? 0
    then (lock_ready;; modify (set_is_init 1);; alloc_timeout;; register_heartbeat MS_IN_S NS_IN_MS;;
          signal_ready_to_start) s
    else (alloc_timeout;; register_heartbeat MS_IN_S NS_IN_MS;; signal_ready_to_start) s).
Proof.
  unfold sys_start, close_barrier, mbind, M_bind, gets. destruct (g_is_init s =? 0); cbn [when]; [|done].
  unfold mbind, M_bind. by destruct (lock_ready s) as [[[]|k] s1].
Qed.

Lemma lock_ready_run s s' : lock_ready s = (Done tt, s') ->
  ~ mutex_held (g_sys_ready_mutex s) /\ exists x, s' = set_mutex x s /\
  (mutex_free (g_sys_ready_mutex s) -> mutex_held x).
Proof.
  intros Hrun. unfold lock_ready, mbind, M_bind in Hrun.
  destruct (sync_mutex_lock (g_sys_ready_mutex s)) as [[err x]|] eqn:E; [|done].
  assert (s' = set_mutex x s) as ->.
  { unfold ZF_LOGF_IF, when, ZF_LOGF, stop_with, mret, M_ret in Hrun. by repeat case_match; simplify_eq. }
  split; [intros Hh; by rewrite (lock_held _ Hh) in E|]. exists x. split; [done|].
  intros Hf. destruct (lock_free _ Hf) as (x' & E' & Hx'). by simplify_eq.
Qed.

Lemma signal_run s s' : mutex_held (g_sys_ready_mutex s) -> signal_ready_to_start s = (Done tt, s') ->
  exists x, s' = set_mutex x s /\ mutex_free x.
Proof.
  intros Hh Hrun. unfold signal_ready_to_start, mbind, M_bind in Hrun.
  destruct (unlock_held _ Hh) as (x' & E & Hx'). rewrite E in Hrun. injection Hrun as <-. by exists x'.
Qed.

(** The steps that never wait. *)
Lemma lock_ready_free s : mutex_free (g_sys_ready_mutex s) -> exists s', lock_ready s = (Done tt, s').
Proof.
  intros Hf. destruct (lock_free _ Hf) as (x & E & _). exists (set_mutex x s).
  unfold lock_ready, mbind, M_bind. by rewrite E.
Qed.
Lemma signal_held s : mutex_held (g_sys_ready_mutex s) -> exists s', signal_ready_to_start s = (Done tt, s').
Proof.
  intros Hh. destruct (unlock_held _ Hh) as (x & E & _). exists (set_mutex x s).
  unfold signal_ready_to_start, mbind, M_bind. by rewrite E.
Qed.

Lemma alloc_run s s' : services_ok (services s) -> ids_left (services s) ->
  alloc_timeout s = (Done tt, s') ->
  exists w, s' = set_timeout_id (g_timeout_id s') (set_services w s) /\ services_ok w /\
    g_timeout_id s' ∈ allocated w.
Proof.
  intros Hok Hids Hrun.
  assert (wp alloc_timeout (fun _ s' => exists id w, s' = set_timeout_id id (set_services w s) /\
    services_ok w /\ id ∈ allocated w) total s) as Hw.
  { unfold alloc_timeout. wp_step. apply wp_sys_svc. wp_use ltac:(by apply alloc_id_spec); [|done].
    intros id w (Hw & _ & Ha). wp_step. exists id, w. split; [done|]. split; [done|]. rewrite Ha. by left. }
  unfold wp in Hw. rewrite Hrun in Hw. destruct Hw as (id & w & -> & Hw). by exists w.
Qed.

Lemma register_run s s' : services_ok (services s) -> g_timeout_id s ∈ allocated (services s) ->
  register_heartbeat MS_IN_S NS_IN_MS s = (Done tt, s') ->
  exists w, s' = set_services w s /\ services_ok w /\ g_timeout_id s ∈ allocated w /\
    cb_registered (g_timeout_id s) w = true.
Proof.
  intros Hok Hid Hrun.
  assert (wp (register_heartbeat MS_IN_S NS_IN_MS) (fun _ s' => exists w, s' = set_services w s /\
    services_ok w /\ g_timeout_id s ∈ allocated w /\ cb_registered (g_timeout_id s) w = true) total s) as Hw.
  { unfold register_heartbeat. do 2 wp_step. apply wp_sys_svc.
    wp_use ltac:(by apply register_periodic_cb_spec); [|done]. intros _ w (Hw & _ & Ha & Hr).
    exists w. split; [done|]. split; [done|]. by rewrite Ha. }
  unfold wp in Hw. by rewrite Hrun in Hw.
Qed.

(** How far the system thread is. *)
Definition rank (p : sys_phase) : nat :=
  match p with
  | SysAbsent => 0 | SysCreated => 1 | SysLocked => 2 | SysFlagged => 3
  | SysAllocated => 4 | SysRegistered => 5 | SysUp => 6
  end.

(** What a waiting thread may have reached, and who has the mutex. *)
Definition waits_ok (p : sys_phase) (ws : list wait_phase) : Prop := forall i q, ws !! i = Some q ->
  ((rank p <= 2)%nat -> q = Polling) /\ ((rank p <= 5)%nat -> q = Polling \/ q = Locking).
Definition mutex_ok (p : sys_phase) (x : X) (ws : list wait_phase) : Prop :=
  match p with
  | SysAbsent => True
  | SysCreated => mutex_free x
  | SysUp =>
      (mutex_free x /\ forall i, ws !! i <> Some Holding) \/
      (mutex_held x /\ exists i, ws !! i = Some Holding /\ forall j, ws !! j = Some Holding -> i = j)
  | _ => mutex_held x
  end.
Definition services_set_up (p : sys_phase) (id : Z) (w : W) : Prop :=
  services_ok w /\ ((rank p <= 3)%nat -> ids_left w) /\
  ((4 <= rank p)%nat -> id ∈ allocated w) /\ ((5 <= rank p)%nat -> cb_registered id w = true).

Record boot_inv b : Prop := {
  inv_services : services_set_up (sys b) (g_timeout_id (shared b)) (services (shared b));
  inv_flag : g_is_init (shared b) = if decide (rank (sys b) <= 2)%nat then 0 else 1;
  inv_waits : waits_ok (sys b) (waiters b);
  inv_mutex : mutex_ok (sys b) (g_sys_ready_mutex (shared b)) (waiters b);
}.

Local Ltac no_rank := intros; exfalso; cbn in *; lia.

Lemma inv_powered_on s n : services_ok (services s) -> ids_left (services s) -> g_is_init s = 0 ->
  boot_inv (powered_on s n).
Proof.
  intros Hs Hids Hi. split; cbn; [split; [done|split; [done|split; no_rank]]|done| |done].
  intros i q Hq. apply lookup_replicate in Hq as [-> _]. by auto.
Qed.

(** A later phase allows the waiting threads more. *)
Lemma waits_later p p' ws : waits_ok p ws -> (rank p <= rank p')%nat -> waits_ok p' ws.
Proof. intros Hw Hr i q Hq. destruct (Hw i q Hq) as [H1 H2]. split; intros; [apply H1|apply H2]; lia. Qed.

Lemma services_early p p' id w : services_set_up p id w -> (rank p <= 3)%nat -> (rank p' <= 3)%nat ->
  services_set_up p' id w.
Proof. intros (Hok & Hids & _) Hp Hp'. split; [done|]. split; [auto|split; no_rank]. Qed.

Lemma inv_sys_step b b' : boot_inv b -> sys_step b b' -> boot_inv b'.
Proof.
  intros [Hsv Hf Hw Hm] Hst. pose proof Hsv as (Hok & Hids & Hid & Hcb).
  destruct Hst as [s x ws Hx|s s' ws Hi Hrun|s ws|s s' ws Hrun|s s' ws Hrun|s s' ws Hrun];
    cbn [sys shared waiters] in *.
  - split; cbn [sys shared waiters]; [eapply services_early; [done|..]; cbn; lia|done| |done].
    eapply waits_later; [done|cbn; lia].
  - apply lock_ready_run in Hrun as (_ & x & -> & Hh).
    split; cbn [sys shared waiters]; [eapply services_early; [done|..]; cbn; lia|done| |by apply Hh].
    eapply waits_later; [done|cbn; lia].
  - split; cbn [sys shared waiters]; [eapply services_early; [done|..]; cbn; lia|done| |done].
    eapply waits_later; [done|cbn; lia].
  - apply alloc_run in Hrun as (w & -> & Hw' & Hid'); [|done|apply Hids; cbn; lia].
    split; cbn [sys shared waiters]; [split; [done|split; [no_rank|split; [done|no_rank]]]|done| |done].
    eapply waits_later; [done|cbn; lia].
  - apply register_run in Hrun as (w & -> & Hw' & Hid' & Hcb'); [|done|apply Hid; cbn; lia].
    split; cbn [sys shared waiters]; [split; [done|split; [no_rank|done]]|done| |done].
    eapply waits_later; [done|cbn; lia].
  - apply signal_run in Hrun as (x & -> & Hx); [|done].
    split; cbn [sys shared waiters]; [|done| |].
    + split; [done|]. split; [no_rank|split; intros _; [apply Hid|apply Hcb]; cbn; lia].
    + eapply waits_later; [done|cbn; lia].
    + left. split; [done|]. intros i Hi. destruct (Hw i _ Hi) as [_ H5].
      by destruct H5; [cbn; lia|..].
Qed.

Lemma waits_move p ws i q q' : waits_ok p ws -> ws !! i = Some q ->
  ((rank p <= 2)%nat -> q' = Polling) -> ((rank p <= 5)%nat -> q' = Polling \/ q' = Locking) ->
  waits_ok p (<[i := q']> ws).
Proof.
  intros Hw Hi H2 H5 j r. rewrite (moved _ _ _ _ _ Hi). case_decide; [by intros [= <-]|apply Hw].
Qed.

(** Only a system that is up lets a waiting thread past the mutex. *)
Lemma not_up_held p x ws : mutex_ok p x ws -> (3 <= rank p)%nat -> p <> SysUp -> mutex_held x.
Proof. destruct p; cbn; intros; (done || lia). Qed.

(** A waiting thread moves on while the system thread has the mutex, or between
    the steps of the others. *)
Lemma mutex_move p x ws i q q' : mutex_ok p x ws -> ws !! i = Some q -> q <> Holding -> q' <> Holding ->
  mutex_ok p x (<[i := q']> ws).
Proof.
  intros Hm Hi Hq Hq'. destruct p; cbn in *; try done.
  destruct Hm as [[Hx Hno]|[Hx (k & Hk & Hall)]]; [left|right]; (split; [done|]).
  - intros j. rewrite (moved _ _ _ _ _ Hi). case_decide; [congruence|apply Hno].
  - exists k. rewrite (moved _ _ _ _ _ Hi). split; [rewrite decide_False; congruence|].
    intros j. rewrite (moved _ _ _ _ _ Hi). case_decide; [congruence|apply Hall].
Qed.

Lemma past_flag p ws i q : waits_ok p ws -> ws !! i = Some q -> q <> Polling -> (3 <= rank p)%nat.
Proof.
  intros Hw Hi Hq. destruct (Hw i q Hi) as [H2 _]. destruct (decide (rank p <= 2)%nat); [|lia].
  by destruct Hq, H2.
Qed.

Lemma past_mutex p ws i q : waits_ok p ws -> ws !! i = Some q -> q <> Polling -> q <> Locking -> p = SysUp.
Proof.
  intros Hw Hi Hq Hq'. destruct (Hw i q Hi) as [_ H5].
  destruct p; try done; by destruct (H5 ltac:(cbn; lia)).
Qed.

Lemma inv_wait_step b b' : boot_inv b -> wait_step b b' -> boot_inv b'.
Proof.
  intros [Hsv Hf Hw Hm] Hst.
  destruct Hst as [s p ws i Hi Hflag|s s' p ws i Hi Hrun|s s' p ws i Hi Hrun];
    cbn [sys shared waiters] in *.
  - case_decide as Hr; [done|]. split; cbn [sys shared waiters]; [done|by rewrite decide_False| |].
    + apply (waits_move _ _ _ _ _ Hw Hi); [lia|by right].
    + by apply (mutex_move _ _ _ _ _ _ Hm Hi).
  - apply lock_ready_run in Hrun as (Hnh & x & -> & Hh).
    assert (p = SysUp) as ->.
    { destruct (decide (p = SysUp)) as [|Hp]; [done|]. destruct Hnh.
      apply (not_up_held _ _ _ Hm); [by eapply past_flag|done]. }
    destruct Hm as [[Hx Hno]|[Hx _]]; [|done].
    split; cbn [sys shared waiters]; [done|done| |].
    + apply (waits_move _ _ _ _ _ Hw Hi); no_rank.
    + clear Hf. right. split; [by apply Hh|]. exists i. rewrite (moved _ _ _ _ _ Hi), decide_True by done. split; [done|].
      intros j. rewrite (moved _ _ _ _ _ Hi). case_decide; [done|]. intros Hj. by destruct (Hno j).
  - assert (p = SysUp) as -> by by eapply past_mutex.
    destruct Hm as [[Hx Hno]|[Hx (k & Hk & Hall)]]; [by destruct (Hno i)|].
    apply signal_run in Hrun as (x & -> & Hx'); [|done].
    split; cbn [sys shared waiters]; [done|done| |].
    + apply (waits_move _ _ _ _ _ Hw Hi); no_rank.
    + clear Hf. left. split; [done|]. intros j. rewrite (moved _ _ _ _ _ Hi). case_decide; [done|].
      intros Hj. pose proof (Hall _ Hj). pose proof (Hall _ Hi). congruence.
Qed.

Lemma inv_step b b' : boot_inv b -> boot_step b b' -> boot_inv b'.
Proof.
  intros Hb Hst. destruct Hst as [b b' Hst|b b' Hst|s p ws w (Hok & Hmine & Hleft)].
  - by eapply inv_sys_step.
  - by eapply inv_wait_step.
  - destruct Hb as [(Hok0 & Hids & Hid & Hcb) Hf Hw Hm]. split; cbn [sys shared waiters] in *; [|done..].
    split; [done|]. split; [|split].
    + intros Hr. apply Hleft. destruct p; cbn in Hr; first [lia|rewrite !elem_of_cons; tauto].
    + intros Hr. by apply Hmine, Hid.
    + intros Hr. apply Hmine; [apply Hid; lia|by apply Hcb].
Qed.

Lemma boot_reachable_inv s n b : services_ok (services s) -> ids_left (services s) -> g_is_init s = 0 ->
  rtc boot_step (powered_on s n) b -> boot_inv b.
Proof.
  intros Hs Hids Hi. revert b. apply rtc_ind_r; [by apply inv_powered_on|].
  intros b b' _ Hst Hb. by eapply inv_step.
Qed.

(** What is left to do: for the system thread, and for the others. *)
Definition weight (q : wait_phase) : nat :=
  match q with Polling => 3 | Locking => 2 | Holding => 1 | Started => 0 end.
Definition left_to_do b : nat := 6 - rank (sys b) + sum_list_with weight (waiters b).

Definition boot_advance b b' : Prop := sys_step b b' \/ wait_step b b'.

Lemma boot_advance_less b b' : boot_advance b b' ->
  (left_to_do b' < left_to_do b)%nat /\ length (waiters b') = length (waiters b).
Proof.
  unfold left_to_do. intros [[]|[s p ws i Hi|s s' p ws i Hi|s s' p ws i Hi]];
    cbn [sys waiters shared]; rewrite ?length_insert; (split; [|done]); try (cbn [rank]; lia).
  - pose proof (sum_moved weight ws i _ Locking Hi) as Hs. cbn in Hs. lia.
  - pose proof (sum_moved weight ws i _ Holding Hi) as Hs. cbn in Hs. lia.
  - pose proof (sum_moved weight ws i _ Started Hi) as Hs. cbn in Hs. lia.
Qed.

(** The system thread gets through to its loop. *)
Lemma sys_advances b : boot_inv b -> (exists x : X, mutex_free x) ->
  sys b <> SysUp -> exists b', sys_step b b'.
Proof.
  intros [(Hok & Hids & Hid & Hcb) Hf Hw Hm] Hx Hup. destruct b as [s p ws]. cbn [sys shared waiters] in *.
  destruct p; cbn in *.
  - destruct Hx as [x Hx']. eexists. by apply (sys_create s x).
  - destruct (lock_ready_free s Hm) as [s' Hrun]. eexists. by apply (sys_lock s s').
  - eexists. apply sys_flag.
  - assert (wp alloc_timeout (fun _ _ => True) (fun _ _ => False) s) as Hrun.
    { unfold alloc_timeout. wp_step. apply wp_sys_svc.
      wp_use ltac:(apply alloc_id_spec; [done|apply Hids; lia]); [|done]. intros id w _. by wp_step. }
    apply wp_done in Hrun as ([] & s' & Hrun & _). eexists. by apply (sys_alloc s s').
  - assert (wp (register_heartbeat MS_IN_S NS_IN_MS) (fun _ _ => True) (fun _ _ => False) s) as Hrun.
    { unfold register_heartbeat. do 2 wp_step. apply wp_sys_svc.
      wp_use ltac:(apply register_periodic_cb_spec; [done|apply Hid; lia]); done. }
    apply wp_done in Hrun as ([] & s' & Hrun & _). eexists. by apply (sys_register s s').
  - destruct (signal_held s Hm) as [s' Hrun]. eexists. by apply (sys_signal s s').
  - done.
Qed.

(** Once it is there, so does everybody else. *)
Lemma waiters_advance b i q : boot_inv b -> sys b = SysUp -> waiters b !! i = Some q -> q <> Started ->
  exists b', wait_step b b'.
Proof.
  intros [_ Hf Hw Hm] Hup Hi Hq. destruct b as [s p ws]. cbn [sys shared waiters] in *. subst p.
  assert ((exists k, ws !! k = Some Holding) \/ forall k, ws !! k <> Some Holding) as Hold.
  { destruct Hm as [[_ Hno]|[_ (k & Hk & _)]]; [by right|left; by exists k]. }
  destruct Hold as [[k Hk]|Hno].
  - destruct Hm as [[_ Hno]|[Hx _]]; [by destruct (Hno k)|].
    destruct (signal_held s Hx) as [s' Hrun]. eexists. by apply (wait_unlock s s' _ ws k).
  - destruct Hm as [[Hx _]|[_ (k & Hk & _)]]; [|by destruct (Hno k)].
    destruct q; [| |by destruct (Hno i)|done].
    + eexists. apply (wait_flag s _ ws i); [done|]. by rewrite Hf.
    + destruct (lock_ready_free s Hx) as [s' Hrun]. eexists. by apply (wait_lock s s' _ ws i).
Qed.


End barrier.

(** ** The thread from its start *)
Section thread_fn.
Context `{LogPolicy} {X W : Type} `{!SyncMutex X} `{!SyncMutexSpec X} `{!Services W} `{!ServicesSpec W}.
Context (MS_IN_S NS_IN_MS : Z).
#[local] Abbreviation S := (sys_s X W).
Implicit Types s : S.

Lemma wp_lock_ready (Q : unit -> S -> Prop) E s : mutex_free (g_sys_ready_mutex s) ->
  (forall x, mutex_held x -> Q tt (set_mutex x s)) -> wp lock_ready Q E s.
Proof.
  intros Hf HQ. destruct (lock_ready_free s Hf) as [s' Hrun]. eapply wp_run; [exact Hrun|].
  apply lock_ready_run in Hrun as (_ & x & -> & Hx). by apply HQ, Hx.
Qed.
Lemma wp_signal (Q : unit -> S -> Prop) E s : mutex_held (g_sys_ready_mutex s) ->
  (forall x, mutex_free x -> Q tt (set_mutex x s)) -> wp signal_ready_to_start Q E s.
Proof.
  intros Hh HQ. destruct (signal_held s Hh) as [s' Hrun]. eapply wp_run; [exact Hrun|].
  apply signal_run in Hrun as (x & -> & Hx); [|done]. by apply HQ.
Qed.

Lemma sys_start_run s : services_ok (services s) -> ids_left (services s) -> g_is_init s = 0 ->
  mutex_free (g_sys_ready_mutex s) ->
  wp (sys_start MS_IN_S NS_IN_MS) (fun _ s' => services_ok (services s') /\ g_is_init s' = 1 /\
    mutex_free (g_sys_ready_mutex s') /\ ep s' = ep s /\ logged (services s') = logged (services s) /\
    allocated (services s') = g_timeout_id s' :: allocated (services s) /\
    cb_registered (g_timeout_id s') (services s') = true) total s.
Proof.
  intros Hs Hids Hi Hf. unfold sys_start, close_barrier. do 3 wp_step. rewrite Hi. change (0 =? 0) with true. unfold when. cbn iota. wp_step.
  apply wp_lock_ready; [done|]. intros x Hx. wp_step. wp_step. unfold alloc_timeout. wp_step.
  apply wp_sys_svc. wp_use ltac:(by apply alloc_id_spec); [|done]. intros id w (Hw & Hl & Ha). wp_step. wp_step.
  unfold register_heartbeat. do 2 wp_step. apply wp_sys_svc. cbn.
  wp_use ltac:(apply register_periodic_cb_spec; [done|rewrite Ha; by left]); [|done].
  intros _ w' (Hw' & Hl' & Ha' & Hr). apply wp_signal; [done|]. intros x' Hx'. cbn in *.
  do 4 (split; [done|]). split; [congruence|]. split; [congruence|done].
Qed.

(** C37: the heartbeat.  The system thread starts, opens the barrier behind it
    with its timeout registered, and then logs for every wake-up of the timeout
    at most one heartbeat, an entry without data under the time of its logging;
    any other message changes nothing.  It never blocks and never stops while
    there is a message. *)
Theorem heartbeats_logged n s : services_ok (services s) -> ids_left (services s) ->
  g_is_init s = 0 -> mutex_free (g_sys_ready_mutex s) -> (n <= length (ep s))%nat ->
  Forall (fun m => msg_badge m = ENDPOINT_BADGE) (ep s) ->
  exists s', sys_thread_fn MS_IN_S NS_IN_MS n s = (Done tt, s') /\
    g_is_init s' = 1 /\ mutex_free (g_sys_ready_mutex s') /\
    cb_registered (g_timeout_id s') (services s') = true /\ ep s' = drop n (ep s) /\
    at_most MMC_ENTRY_TYPE_HEARTBEAT (timeouts (take n (ep s))) (services s) (services s').
Proof.
  intros Hs Hids Hi Hf Hn Hb.
  assert (wp (sys_thread_fn MS_IN_S NS_IN_MS n) (fun _ s' => g_is_init s' = 1 /\
    mutex_free (g_sys_ready_mutex s') /\ cb_registered (g_timeout_id s') (services s') = true /\
    ep s' = drop n (ep s) /\
    at_most MMC_ENTRY_TYPE_HEARTBEAT (timeouts (take n (ep s))) (services s) (services s')) total s) as Hw.
  { unfold sys_thread_fn. wp_step. wp_use ltac:(by apply sys_start_run); [|done].
    intros _ s1 (Hs1 & Hi1 & Hf1 & Hep1 & Hl1 & _ & Hr1).
    wp_use ltac:(apply wp_conj; [apply (sys_loop_run n s1); rewrite ?Hep1; done|
      apply (wp_respects kept (sys_loop n) (kept s1) s1 (sys_loop_kept n)); done]); [|by intros ? ? []].
    intros _ s2 [(Hep & _ & _ & Hcb & Hlog) (Ei & Em & Et)].
    rewrite Ei, Em, Et, Hcb, Hep, Hep1. do 4 (split; [done|]).
    destruct Hlog as (es & He & Hes). exists es. rewrite He, Hl1. by rewrite Hep1 in Hes. }
  apply wp_done in Hw as ([] & s' & Hrun & Hs'). by exists s'.
Qed.
End thread_fn.

(** *** The properties at concrete inputs *)
#[local] Existing Instance log_aborts.
Abbreviation demo_sys := (sys_s bool toy).
Definition demo_on (msgs : list ipc_msg) : demo_sys := mk_sys 0 false 0 msgs (Toy 1000 [] []).
Lemma demo_on_ok msgs : toy_ok (services (demo_on msgs)) /\ ids_left (services (demo_on msgs)).
Proof. split; [by apply Toy_ok|]. apply Nat.ltb_lt. reflexivity. Qed.

(** Two threads wait; one of them is through, one has seen the flag. *)
Definition demo_boot : boot (X := bool) (W := toy) :=
  mk_boot (mk_sys 1 false 2 [] (mk_toy 1000 [2; 1] [2] [])) SysUp [Started; Locking].

Lemma demo_boot_reachable : rtc (boot_step 1000 1000000) (powered_on (demo_on []) 2) demo_boot.
Proof.
  eapply rtc_l; [by apply step_sys, (sys_create _ _ _ false)|].
  eapply rtc_l; [by apply step_sys, (sys_lock _ _ _ (mk_sys 0 true 0 [] (Toy 1000 [] [])))|].
  eapply rtc_l; [apply step_sys, sys_flag|].
  eapply rtc_l; [by apply step_wait, (wait_flag _ _ _ 1)|].
  eapply rtc_l; [by apply step_sys, (sys_alloc _ _ _ (mk_sys 1 true 2 [] (mk_toy 1000 [2; 1] [] [])))|].
  eapply rtc_l; [by apply step_sys, (sys_register _ _ _ (mk_sys 1 true 2 [] (mk_toy 1000 [2; 1] [2] [])))|].
  eapply rtc_l; [by apply step_wait, (wait_flag _ _ _ 0)|].
  eapply rtc_l; [by apply step_sys, (sys_signal _ _ _ (mk_sys 1 false 2 [] (mk_toy 1000 [2; 1] [2] [])))|].
  eapply rtc_l; [by apply step_wait, (wait_lock _ (mk_sys 1 true 2 [] (mk_toy 1000 [2; 1] [2] [])) _ _ 0)|].
  eapply rtc_l; [by apply step_wait, (wait_unlock _ (mk_sys 1 false 2 [] (mk_toy 1000 [2; 1] [2] [])) _ _ 0)|].
  apply rtc_refl.
Qed.


(** The last thread needs two more steps. *)
Definition demo_booted : boot (X := bool) (W := toy) :=
  mk_boot (mk_sys 1 false 2 [] (mk_toy 1000 [2; 1] [2] [])) SysUp [Started; Started].


(** Two wake-ups and a message the thread does not know. *)
Definition demo_wakeups : list ipc_msg :=
  [Msg ENDPOINT_BADGE IPC_MSG_TYPE_TIMEOUT 0 []; Msg ENDPOINT_BADGE 7 0 []; Msg ENDPOINT_BADGE IPC_MSG_TYPE_TIMEOUT 0 []].

Lemma heartbeats_logged_witness :
  exists s', sys_thread_fn 1000 1000000 3 (demo_on demo_wakeups) = (Done tt, s') /\
    g_is_init s' = 1 /\ mutex_free (g_sys_ready_mutex s') /\
    cb_registered (g_timeout_id s') (services s') = true /\ ep s' = [] /\
    at_most MMC_ENTRY_TYPE_HEARTBEAT 2 (Toy 1000 [] []) (services s').
Proof.
  destruct (demo_on_ok demo_wakeups) as [Hs Hids].
  exact (heartbeats_logged 1000 1000000 3 (demo_on demo_wakeups) Hs Hids eq_refl eq_refl
    ltac:(cbn; lia) ltac:(by repeat constructor)).
Defined.

(** In front of a module that logs what it is asked to: two heartbeats. *)
Example heartbeats_logged_here :
  toy_log (services (sys_thread_fn 1000 1000000 3 (demo_on demo_wakeups)).2) =
    [Entry MMC_ENTRY_TYPE_HEARTBEAT 1000 []; Entry MMC_ENTRY_TYPE_HEARTBEAT 1001 []].
Proof. by vm_compute. Qed.
End SystemModule.
