(* ===== verification/Boot.v ===== *)
(** The start of the system: the creation of a thread (src/thread.c), the
    initialization of the modules (the init functions of every *_module.c) and
    of the root task (src/root_task.c, src/platform.c), in the order of main
    (src/main.c).  The kernel and the platform's libraries answer the calls; the
    model records every call with its answer. *)
From stdpp Require Import strings.
From S2P Require Import Prelude Ipc.

Module Boot.
Import Ipc.

(** ** The calls

    Objects and slots are named by capabilities. *)
Inductive call :=
| vka_alloc_tcb
| vka_alloc_frame (size_bits : Z)
| vspace_new_ipc_buffer
| vka_alloc_endpoint
| vka_alloc_notification
| vka_cspace_alloc
| seL4_CNode_Mint (dest src badge : Z)
| seL4_TCB_Configure (tcb fault_ep buffer buffer_frame : Z)
| seL4_TCB_WriteRegisters (tcb pc sp arg0 : Z)
| seL4_TCB_SetPriority (tcb prio : Z)
| seL4_TCB_SetAffinity (tcb core : Z)
| seL4_TCB_BindNotification (tcb ntfn : Z)
| seL4_TCB_Resume (tcb : Z)
| seL4_IRQHandler_SetNotification (handler ntfn : Z)
| seL4_IRQHandler_Ack (handler : Z)
| library (name : string).

(** The error code, or 0; the capability, address or number that is returned, 0
    being [NULL]; and the frame of a new IPC buffer. *)
Record answer := Answer { err : Z; value : Z; buffer_frame : Z }.

(** The rest of the world, and the build: the first thread's capability, the
    highest priority, whether there is more than one core, where the stack and
    the function of the thread of a module are, and the constants that are
    compared with answers of the libraries. *)
Class Platform (W : Type) := { ask : call -> W -> answer * W }.
Class Image := {
  seL4_CapInitThreadTCB : Z;
  seL4_MaxPrio : Z;
  smp : bool;
  g_thread_stack : Z -> Z;
  thread_fn : Z -> Z;
  FAT_SECTOR_SIZE : Z;
  IMX6_MAX_FREQ : Z;
}.

(** *** config.h *)
Section config.
Context `{!Image}.
Definition DEFAULT_STACK_SIZE : Z := 512.
Definition DEFAULT_THREAD_PRIORITY : Z := seL4_MaxPrio - 5.
Definition ROOT_THREAD_AFFINITY : Z := 0.
Definition ROOT_THREAD_PRIORITY : Z := seL4_MaxPrio.
Definition TMSERVERMOD_THREAD_AFFINITY : Z := 1.
Definition TMSERVERMOD_THREAD_PRIORITY : Z := seL4_MaxPrio - 1.
Definition TMSERVERMOD_STACK_SIZE : Z := DEFAULT_STACK_SIZE.
Definition SYSMOD_THREAD_AFFINITY : Z := 0.
Definition SYSMOD_THREAD_PRIORITY : Z := DEFAULT_THREAD_PRIORITY.
Definition SYSMOD_STACK_SIZE : Z := DEFAULT_STACK_SIZE.
Definition MMCMOD_THREAD_AFFINITY : Z := 2.
Definition MMCMOD_THREAD_PRIORITY : Z := DEFAULT_THREAD_PRIORITY + 1.
Definition MMCMOD_STACK_SIZE : Z := DEFAULT_STACK_SIZE.
Definition HOBDMOD_THREAD_AFFINITY : Z := 3.
Definition HOBDMOD_THREAD_PRIORITY : Z := DEFAULT_THREAD_PRIORITY + 2.
Definition HOBDMOD_STACK_SIZE : Z := 2 * DEFAULT_STACK_SIZE.
Definition CONSOLEMOD_THREAD_AFFINITY : Z := 0.
Definition CONSOLEMOD_THREAD_PRIORITY : Z := DEFAULT_THREAD_PRIORITY.
Definition CONSOLEMOD_STACK_SIZE : Z := 2 * DEFAULT_STACK_SIZE.
End config.

(** ** The state: the calls so far with their answers, the fault endpoint of the
    root task, the two flags of the HOBD module, and the world. *)
Record boot_s (W : Type) := mk_boot {
  trace : list (call * answer);
  global_fault_ep : Z;
  comm_enabled : Z;
  comm_listen_only : Z;
  world : W;
}.
Arguments mk_boot {W}.
Arguments trace {W}.
Arguments global_fault_ep {W}.
Arguments comm_enabled {W}.
Arguments comm_listen_only {W}.
Arguments world {W}.

Section boot.
Context `{LogPolicy} `{!Image} {W : Type} `{!Platform W}.
#[local] Abbreviation T := (M (boot_s W)).

Definition do (c : call) : T answer := fun s =>
  let '(a, w) := ask c (world s) in
  (Done a, mk_boot (trace s ++ [(c, a)]) (global_fault_ep s) (comm_enabled s) (comm_listen_only s) w).

(** The check of the error code, and of a pointer. *)
Definition must (c : call) : T Z :=
  a ← do c;
  ZF_LOGF_IF (negb (err a =? 0));;
  mret (value a).
Definition must_have (c : call) : T Z :=
  a ← do c;
  ZF_LOGF_IF (value a =? 0);;
  mret (value a).

(** *** src/thread.c *)
Definition THREAD_IPC_BUFFER_FRAME_SIZE_BITS : Z := 12.
Record thread_s := mk_thread {
  tcb_object : Z;
  ipc_frame_object : Z;
  ipc_buffer : Z;
  ipc_ep : Z;
  ipc_ep_cap : Z;
}.

(** The stack's size is in bytes; a word is 4 bytes on the target. *)
Definition thread_create (ipc_badge stack_size stack fn : Z) : T thread_s :=
  tcb ← must vka_alloc_tcb;
  frame ← must (vka_alloc_frame THREAD_IPC_BUFFER_FRAME_SIZE_BITS);
  buffer ← do vspace_new_ipc_buffer;
  c_assert (negb (value buffer =? 0));;
  ep ← must vka_alloc_endpoint;
  ep_cap ← must vka_cspace_alloc;
  must (seL4_CNode_Mint ep_cap ep ipc_badge);;
  fault_ep ← must vka_cspace_alloc;
  global ← gets global_fault_ep;
  must (seL4_CNode_Mint fault_ep global (IPC_FAULT_ENDPOINT_BADGE ipc_badge));;
  must (seL4_TCB_Configure tcb fault_ep (value buffer) frame);;
  let thread_stack_top := u32 (stack + stack_size) in
  ZF_LOGF_IF (negb (thread_stack_top mod (4 * 2) =? 0));;
  must (seL4_TCB_WriteRegisters tcb fn thread_stack_top ep_cap);;
  mret (mk_thread tcb frame (value buffer) ep ep_cap).

Definition thread_set_priority (priority : Z) (thread : thread_s) : T unit :=
  must (seL4_TCB_SetPriority (tcb_object thread) priority);; mret tt.
Definition thread_set_affinity (affinity : Z) (thread : thread_s) : T unit :=
  when smp (must (seL4_TCB_SetAffinity (tcb_object thread) affinity);; mret tt).
Definition thread_start (thread : thread_s) : T unit :=
  must (seL4_TCB_Resume (tcb_object thread));; mret tt.

(** *** The modules; each returns the record of its thread *)
Definition lib (name : string) : T unit := must (library name);; mret tt.

Definition init_timer : T Z :=
  ntfn ← must vka_alloc_notification;
  lib "sel4platsupport_init_default_timer_ops";;
  lib "ltimer_reset";;
  mret ntfn.
Definition init_tm : T unit := lib "tm_init";; lib "tm_get_time".
(** The timer's notification is bound to the thread, and the time manager set
    up. *)
Definition set_up_timer (g_thread : thread_s) (g_timer_ntfn : Z) : T unit :=
  must (seL4_TCB_BindNotification (tcb_object g_thread) g_timer_ntfn);;
  init_tm.
Definition time_server_module_init : T thread_s :=
  g_timer_ntfn ← init_timer;
  lib "sync_mutex_new";;
  lib "sync_mutex_lock";;
  g_thread ← thread_create (IPC_ENDPOINT_BADGE TMSERVERMOD_BASE_BADGE) (8 * TMSERVERMOD_STACK_SIZE)
    (g_thread_stack TMSERVERMOD_BASE_BADGE) (thread_fn TMSERVERMOD_BASE_BADGE);
  set_up_timer g_thread g_timer_ntfn;;
  thread_set_priority TMSERVERMOD_THREAD_PRIORITY g_thread;;
  thread_set_affinity TMSERVERMOD_THREAD_AFFINITY g_thread;;
  thread_start g_thread;;
  lib "sync_mutex_unlock";;
  mret g_thread.

Definition init_sdio : T unit := lib "sdio_init".
Definition init_mmc : T unit := lib "mmc_init".
Definition mmc_module_init : T thread_s :=
  init_sdio;;
  init_mmc;;
  size ← do (library "mmc_block_size");
  ZF_LOGF_IF (negb (FAT_SECTOR_SIZE =? value size));;
  lib "sync_recursive_mutex_new";;
  g_thread ← thread_create (IPC_ENDPOINT_BADGE MMCMOD_BASE_BADGE) (8 * MMCMOD_STACK_SIZE)
    (g_thread_stack MMCMOD_BASE_BADGE) (thread_fn MMCMOD_BASE_BADGE);
  thread_set_priority MMCMOD_THREAD_PRIORITY g_thread;;
  thread_set_affinity MMCMOD_THREAD_AFFINITY g_thread;;
  thread_start g_thread;;
  mret g_thread.

(** The notification of the port's interrupt. *)
Definition init_cdev : T Z :=
  must_have (library "ps_cdev_init");;
  ntfn ← must vka_alloc_notification;
  handler ← must (library "sel4platsupport_copy_irq_cap");
  badged ← must vka_cspace_alloc;
  must (seL4_CNode_Mint badged ntfn (IPC_NOTIFICATION_BADGE CONSOLEMOD_BASE_BADGE));;
  must (seL4_IRQHandler_SetNotification handler badged);;
  must (seL4_IRQHandler_Ack handler);;
  mret ntfn.
Definition console_module_init : T thread_s :=
  g_cdev_ntfn ← init_cdev;
  g_thread ← thread_create (IPC_ENDPOINT_BADGE CONSOLEMOD_BASE_BADGE) (8 * CONSOLEMOD_STACK_SIZE)
    (g_thread_stack CONSOLEMOD_BASE_BADGE) (thread_fn CONSOLEMOD_BASE_BADGE);
  must (seL4_TCB_BindNotification (tcb_object g_thread) g_cdev_ntfn);;
  thread_set_priority CONSOLEMOD_THREAD_PRIORITY g_thread;;
  thread_set_affinity CONSOLEMOD_THREAD_AFFINITY g_thread;;
  thread_start g_thread;;
  mret g_thread.

Definition init_gpio : T unit := lib "mux_sys_init";; lib "gpio_sys_init".
Definition init_uart : T unit := must_have (library "ps_cdev_init");; mret tt.
Definition hobd_module_init : T thread_s :=
  modify (fun s => mk_boot (trace s) (global_fault_ep s) 0 1 (world s));;
  init_gpio;;
  init_uart;;
  g_thread ← thread_create (IPC_ENDPOINT_BADGE HOBDMOD_BASE_BADGE) (8 * HOBDMOD_STACK_SIZE)
    (g_thread_stack HOBDMOD_BASE_BADGE) (thread_fn HOBDMOD_BASE_BADGE);
  thread_set_priority HOBDMOD_THREAD_PRIORITY g_thread;;
  thread_set_affinity HOBDMOD_THREAD_AFFINITY g_thread;;
  thread_start g_thread;;
  mret g_thread.

Definition system_module_init : T thread_s :=
  lib "sync_mutex_new";;
  g_thread ← thread_create (IPC_ENDPOINT_BADGE SYSMOD_BASE_BADGE) (8 * SYSMOD_STACK_SIZE)
    (g_thread_stack SYSMOD_BASE_BADGE) (thread_fn SYSMOD_BASE_BADGE);
  thread_set_priority SYSMOD_THREAD_PRIORITY g_thread;;
  thread_set_affinity SYSMOD_THREAD_AFFINITY g_thread;;
  thread_start g_thread;;
  mret g_thread.

(** *** The root task *)
Definition init_clock : T unit :=
  lib "clock_sys_init";;
  must_have (library "clk_get_clock");;
  freq ← do (library "clk_set_freq");
  ZF_LOGF_IF (negb (value freq =? IMX6_MAX_FREQ)).
Definition platform_init : T unit :=
  do (library "platsupport_serial_setup_simple");;
  lib "sel4platsupport_new_io_ops";;
  lib "sel4platsupport_new_arch_ops";;
  lib "sel4platsupport_new_io_mapper";;
  lib "sel4platsupport_new_malloc_ops";;
  lib "sel4utils_new_page_dma_alloc";;
  init_clock;;
  do (library "ps_cpufreq_hint");;
  mret tt.
Definition root_task_init : T unit :=
  must_have (library "platsupport_get_bootinfo");;
  do (library "simple_default_init_bootinfo");;
  must_have (library "bootstrap_use_current_simple");;
  do (library "allocman_make_vka");;
  lib "sel4utils_bootstrap_vspace_with_bootinfo_leaky";;
  must_have (library "vspace_reserve_range");;
  do (library "bootstrap_configure_virtual_pool");;
  platform_init;;
  ep ← must vka_alloc_endpoint;
  modify (fun s => mk_boot (trace s) ep (comm_enabled s) (comm_listen_only s) (world s)).

(** main up to its loop: the five threads, in the order of their start. *)
Definition main_boot : T (list thread_s) :=
  root_task_init;;
  time_server ← time_server_module_init;
  mmc ← mmc_module_init;
  console ← console_module_init;
  hobd ← hobd_module_init;
  system ← system_module_init;
  must (seL4_TCB_SetPriority seL4_CapInitThreadTCB ROOT_THREAD_PRIORITY);;
  must (seL4_TCB_SetAffinity seL4_CapInitThreadTCB ROOT_THREAD_AFFINITY);;
  mret [time_server; mmc; console; hobd; system].
End boot.

(** ** What the trace shows *)

(** The call was made and succeeded. *)
Definition has (c : call) (l : list (call * answer)) : Prop := exists a, (c, a) ∈ l /\ err a = 0.

(** The threads that were started, in order. *)
Definition resume_of (e : call * answer) : option Z :=
  match e.1 with seL4_TCB_Resume tcb => Some tcb | _ => None end.
Definition resumed (l : list (call * answer)) : list Z := omap resume_of l.

(** A module of config.h: its base badge, the words of its stack, its priority
    and its core. *)
Record module := Module' { base_badge : Z; stack_words : Z; priority : Z; core : Z }.
Section modules.
Context `{!Image}.
Definition modules : list module := [
  Module' TMSERVERMOD_BASE_BADGE TMSERVERMOD_STACK_SIZE TMSERVERMOD_THREAD_PRIORITY TMSERVERMOD_THREAD_AFFINITY;
  Module' MMCMOD_BASE_BADGE MMCMOD_STACK_SIZE MMCMOD_THREAD_PRIORITY MMCMOD_THREAD_AFFINITY;
  Module' CONSOLEMOD_BASE_BADGE CONSOLEMOD_STACK_SIZE CONSOLEMOD_THREAD_PRIORITY CONSOLEMOD_THREAD_AFFINITY;
  Module' HOBDMOD_BASE_BADGE HOBDMOD_STACK_SIZE HOBDMOD_THREAD_PRIORITY HOBDMOD_THREAD_AFFINITY;
  Module' SYSMOD_BASE_BADGE SYSMOD_STACK_SIZE SYSMOD_THREAD_PRIORITY SYSMOD_THREAD_AFFINITY ].

(** The thread was created for the module: its endpoint carries the badge, its
    faults go to the root task's endpoint with the badge of its faults, and it
    will run the module's function with its endpoint, on its own stack. *)
Definition created (gfe : Z) (m : module) (th : thread_s) (l : list (call * answer)) : Prop :=
  let badge := IPC_ENDPOINT_BADGE (base_badge m) in
  let top := u32 (g_thread_stack (base_badge m) + 8 * stack_words m) in
  has (seL4_CNode_Mint (ipc_ep_cap th) (ipc_ep th) badge) l /\
  (exists fault_ep, has (seL4_CNode_Mint fault_ep gfe (IPC_FAULT_ENDPOINT_BADGE badge)) l /\
     has (seL4_TCB_Configure (tcb_object th) fault_ep (ipc_buffer th) (ipc_frame_object th)) l) /\
  top mod 8 = 0 /\
  has (seL4_TCB_WriteRegisters (tcb_object th) (thread_fn (base_badge m)) top (ipc_ep_cap th)) l.
(** And it has its priority and its core. *)
Definition set_up (gfe : Z) (m : module) (th : thread_s) (l : list (call * answer)) : Prop :=
  created gfe m th l /\ has (seL4_TCB_SetPriority (tcb_object th) (priority m)) l /\
  (smp = true -> has (seL4_TCB_SetAffinity (tcb_object th) (core m)) l).

(** Whatever was started had been set up before, as the thread of a module. *)
Definition ready (gfe : Z) (l : list (call * answer)) : Prop :=
  forall i tcb a, l !! i = Some (seL4_TCB_Resume tcb, a) ->
  exists m th, m ∈ modules /\ tcb_object th = tcb /\ set_up gfe m th (take i l).

Lemma has_app c l k : has c l -> has c (l ++ k).
Proof. intros (a & Hin & Ha). exists a. split; [|done]. apply elem_of_app. by left. Qed.
Lemma has_last c a l : err a = 0 -> has c (l ++ [(c, a)]).
Proof. intros Ha. exists a. split; [|done]. apply elem_of_app. right. by left. Qed.
Lemma created_app gfe m th l k : created gfe m th l -> created gfe m th (l ++ k).
Proof.
  intros (H1 & (fe & H2 & H3) & H4 & H5). split; [by apply has_app|].
  split; [exists fe; split; by apply has_app|]. split; [done|by apply has_app].
Qed.
Lemma set_up_app gfe m th l k : set_up gfe m th l -> set_up gfe m th (l ++ k).
Proof.
  intros (H1 & H2 & H3). split; [by apply created_app|].
  split; [by apply has_app|]. intros Hs. by apply has_app, H3.
Qed.

Lemma resumed_app l k : resumed (l ++ k) = resumed l ++ resumed k.
Proof. apply omap_app. Qed.

Lemma ready_quiet gfe l k : ready gfe l -> resumed k = [] -> ready gfe (l ++ k).
Proof.
  intros Hl Hk i tcb a Hi. apply lookup_app_Some in Hi as [Hi|[Hlen Hi]].
  - destruct (Hl i tcb a Hi) as (m & th & Hm & E & Hs). exists m, th. split; [done|]. split; [done|].
    rewrite take_app_le; [done|]. by apply Nat.lt_le_incl, lookup_lt_is_Some_1.
  - exfalso. apply list_elem_of_lookup_2 in Hi. 
    assert (tcb ∈ resumed k) as Hin by (apply list_elem_of_omap; by exists (seL4_TCB_Resume tcb, a)).
    rewrite Hk in Hin. by apply not_elem_of_nil in Hin.
Qed.

Lemma ready_start gfe l m th a : ready gfe l -> m ∈ modules -> set_up gfe m th l ->
  ready gfe (l ++ [(seL4_TCB_Resume (tcb_object th), a)]).
Proof.
  intros Hl Hm Hs i tcb b Hi. apply lookup_app_Some in Hi as [Hi|[Hlen Hi]].
  - destruct (Hl i tcb b Hi) as (m' & th' & Hm' & E & Hs'). exists m', th'. split; [done|]. split; [done|].
    rewrite take_app_le; [done|]. by apply Nat.lt_le_incl, lookup_lt_is_Some_1.
  - apply list_lookup_singleton_Some in Hi as [Hi [= <- <-]]. exists m, th.
    assert (i = length l) as -> by lia. by rewrite take_app_length.
Qed.
End modules.

Section start.
Context `{LogPolicy} `{!Image} {W : Type} `{!Platform W}.
Hypothesis aborts : logf_aborts = true.
Implicit Types s : boot_s W.

(** *** Steps that start nothing *)
Definition quiet s s' : Prop := global_fault_ep s' = global_fault_ep s /\
  exists k, trace s' = trace s ++ k /\ resumed k = [].
#[local] Instance quiet_preorder : PreOrder quiet.
Proof.
  split.
  - intros s. split; [done|]. exists []. by rewrite app_nil_r.
  - intros s1 s2 s3 [E1 (k1 & T1 & R1)] [E2 (k2 & T2 & R2)]. split; [by rewrite E2|].
    exists (k1 ++ k2). by rewrite T2, T1, app_assoc, resumed_app, R1, R2.
Qed.

Lemma quiet_do c : (forall a, resume_of (c, a) = None) -> respects quiet (do (W := W) c).
Proof.
  intros Hc s. unfold do. destruct (ask c (world s)) as [a w]. split; [done|].
  exists [(c, a)]. split; [done|]. cbn. by rewrite Hc.
Qed.

Ltac quiet_steps := repeat first
  [ progress respects_steps
  | progress unfold must, must_have, lib, c_assert
  | apply quiet_do; by intros ?
  | apply respects_modify; intros ?; split; [done|exists []; by rewrite app_nil_r] ].

Lemma quiet_create badge size stack fn : respects quiet (thread_create (W := W) badge size stack fn).
Proof. unfold thread_create. quiet_steps. Qed.
Lemma quiet_priority p th : respects quiet (thread_set_priority (W := W) p th).
Proof. unfold thread_set_priority. quiet_steps. Qed.
Lemma quiet_affinity c th : respects quiet (thread_set_affinity (W := W) c th).
Proof. unfold thread_set_affinity. quiet_steps. Qed.

(** *** A call and its record *)
Definition after c a w s : boot_s W :=
  mk_boot (trace s ++ [(c, a)]) (global_fault_ep s) (comm_enabled s) (comm_listen_only s) w.
Lemma wp_do_eq c s (Q : answer -> boot_s W -> Prop) X :
  (forall a w, ask c (world s) = (a, w) -> Q a (after c a w s)) -> wp (do c) Q X s.
Proof. intros HQ. unfold wp, do. destruct (ask c (world s)) as [a w]. by apply HQ. Qed.
Lemma wp_must_eq c s (Q : Z -> boot_s W -> Prop) (X : stop -> boot_s W -> Prop) :
  (forall a w, X Halted (after c a w s)) ->
  (forall a w, ask c (world s) = (a, w) -> err a = 0 -> Q (value a) (after c a w s)) ->
  wp (must c) Q X s.
Proof.
  intros HX HQ. unfold must. wp_step. apply wp_do_eq. intros a w Ea. wp_step.
  apply wp_logf_abort; [done|apply HX|]. intros Ha%negb_false_iff%Z.eqb_eq. wp_step. by apply HQ.
Qed.
Lemma wp_do c s (Q : answer -> boot_s W -> Prop) X :
  (forall a w, Q a (after c a w s)) -> wp (do c) Q X s.
Proof. intros HQ. apply wp_do_eq. intros a w _. apply HQ. Qed.
Lemma wp_must c s (Q : Z -> boot_s W -> Prop) (X : stop -> boot_s W -> Prop) :
  (forall a w, X Halted (after c a w s)) ->
  (forall a w, err a = 0 -> Q (value a) (after c a w s)) -> wp (must c) Q X s.
Proof. intros HX HQ. apply wp_must_eq; [done|]. intros a w _. apply HQ. Qed.

Ltac recorded := cbn [trace after]; repeat first [apply has_last; done | apply has_app].

Lemma create_run m s : wp (thread_create (IPC_ENDPOINT_BADGE (base_badge m)) (8 * stack_words m)
    (g_thread_stack (base_badge m)) (thread_fn (base_badge m)))
  (fun th s' => created (global_fault_ep s) m th (trace s')) (fun _ _ => True) s.
Proof.
  unfold thread_create. wp_step. apply wp_must; [done|]. intros tcb w1 E1.
  wp_step. apply wp_must; [done|]. intros fr w2 E2. wp_step. apply wp_do. intros b w3.
  wp_step. unfold c_assert. destruct (negb _); [|by apply wp_stop]. wp_step.
  wp_step. apply wp_must; [done|]. intros ep w4 E4. wp_step. apply wp_must; [done|]. intros epc w5 E5.
  wp_step. apply wp_must; [done|]. intros a6 w6 E6. wp_step. apply wp_must; [done|]. intros fe w7 E7.
  do 2 wp_step. cbn [global_fault_ep after]. wp_step. apply wp_must; [done|]. intros a8 w8 E8.
  wp_step. apply wp_must; [done|]. intros a9 w9 E9. cbn zeta. wp_step.
  apply wp_logf_abort; [done|done|]. intros Hal%negb_false_iff%Z.eqb_eq.
  wp_step. apply wp_must; [done|]. intros a10 w10 E10. wp_step.
  split; [cbn; recorded|]. split; [exists (value fe); split; cbn; recorded|]. split; [exact Hal|].
  cbn. recorded.
Qed.

(** The frames a thread is created with. *)
Lemma create_frames badge size stack fn s :
  (forall w, let '(a, w1) := ask (vka_alloc_frame THREAD_IPC_BUFFER_FRAME_SIZE_BITS) w in
     err a = 0 -> buffer_frame (ask vspace_new_ipc_buffer w1).1 <> value a) ->
  wp (thread_create badge size stack fn) (fun th s' => exists b fault_ep,
    (vspace_new_ipc_buffer, b) ∈ trace s' /\ ipc_buffer th = value b /\
    has (seL4_TCB_Configure (tcb_object th) fault_ep (value b) (ipc_frame_object th)) (trace s') /\
    buffer_frame b <> ipc_frame_object th) (fun _ _ => True) s.
Proof.
  intros Hfresh. unfold thread_create. wp_step. apply wp_must; [done|]. intros tcb w1 _.
  wp_step. apply wp_must_eq; [done|]. intros fr w2 Efr E. cbn [world after] in Efr.
  wp_step. apply wp_do_eq. intros b w3 Eb. cbn [world after] in Eb.
  assert (buffer_frame b <> value fr) as Hne.
  { specialize (Hfresh w1). rewrite Efr, Eb in Hfresh. by apply Hfresh. }
  wp_step. unfold c_assert. destruct (negb _); [|by apply wp_stop]. wp_step.
  do 3 (wp_step; apply wp_must; [done|]; intros ? ? _).
  wp_step. apply wp_must; [done|]. intros fe w7 _. do 2 wp_step. wp_step.
  apply wp_must; [done|]. intros a8 w8 _. wp_step. apply wp_must; [done|]. intros a9 w9 E9.
  cbn zeta. wp_step. apply wp_logf_abort; [done|done|]. intros _.
  wp_step. apply wp_must; [done|]. intros a10 w10 _. wp_step.
  exists b, (value fe). cbn [trace after ipc_buffer ipc_frame_object tcb_object]. split.
  - repeat (apply elem_of_app; first [by right; left|left]).
  - split; [done|]. split; [|done]. apply has_app. by apply has_last.
Qed.

(** A step of which both are known. *)
Lemma wp_quiet {A} (m : M (boot_s W) A) (P : A -> boot_s W -> Prop) s : respects quiet m ->
  wp m P (fun _ _ => True) s ->
  wp m (fun a s' => quiet s s' /\ P a s') (fun _ s' => quiet s s') s.
Proof.
  intros Hm Hp. wp_use ltac:(apply wp_conj; [apply (wp_respects quiet m (quiet s) s Hm)|exact Hp]).
  - intros s' Hs'. exact Hs'.
  - by intros a s' [? ?].
  - by intros k s' [? ?].
Qed.

Lemma create_wp m s : wp (thread_create (IPC_ENDPOINT_BADGE (base_badge m)) (8 * stack_words m)
    (g_thread_stack (base_badge m)) (thread_fn (base_badge m)))
  (fun th s' => quiet s s' /\ created (global_fault_ep s') m th (trace s')) (fun _ s' => quiet s s') s.
Proof.
  wp_use ltac:(apply wp_quiet; [apply quiet_create|apply create_run]); [|done].
  intros th s' [Hq Hc]. split; [done|]. by rewrite (proj1 Hq).
Qed.
Lemma quiet_wp {A} (m : M (boot_s W) A) s : respects quiet m ->
  wp m (fun _ s' => quiet s s') (fun _ s' => quiet s s') s.
Proof. intros Hm. by apply (wp_respects quiet). Qed.

(** The thread as it is when it is started, and after. *)
Lemma launch_wp m th s (k : M (boot_s W) thread_s) (Q : thread_s -> boot_s W -> Prop) X :
  m ∈ modules -> created (global_fault_ep s) m th (trace s) -> ready (global_fault_ep s) (trace s) ->
  (forall s', global_fault_ep s' = global_fault_ep s -> ready (global_fault_ep s') (trace s') -> X Halted s') ->
  (forall s', global_fault_ep s' = global_fault_ep s -> ready (global_fault_ep s') (trace s') ->
     set_up (global_fault_ep s') m th (trace s') -> has (seL4_TCB_Resume (tcb_object th)) (trace s') ->
     resumed (trace s') = resumed (trace s) ++ [tcb_object th] -> wp k Q X s') ->
  wp (thread_set_priority (priority m) th;; thread_set_affinity (core m) th;; thread_start th;; k) Q X s.
Proof.
  intros Hm Hc Hr HX HQ.
  assert (forall c a, resume_of (c, a) = None -> ready (global_fault_ep s) (trace s ++ [(c, a)])) as Hq.
  { intros c a Hn. apply ready_quiet; [done|]. cbn. by rewrite Hn. }
  unfold thread_set_priority. wp_step. wp_step. apply wp_must; [intros a w; by apply HX, Hq|].
  intros a w Ha. wp_step. set (s1 := after _ a w s).
  assert (ready (global_fault_ep s) (trace s1)) as Hr1 by by apply Hq.
  assert (wp (thread_set_affinity (core m) th) (fun _ s' => global_fault_ep s' = global_fault_ep s /\
    ready (global_fault_ep s) (trace s') /\ set_up (global_fault_ep s) m th (trace s') /\
    resumed (trace s') = resumed (trace s)) (fun k s' => X Halted s' /\ k = Halted) s1) as Haff.
  { unfold thread_set_affinity. wp_step; intros Hsmp.
    - wp_step. apply wp_must.
      + intros b v. split; [|done]. apply HX; [done|]. by apply ready_quiet.
      + intros b v Hb. wp_step. split; [done|]. split; [by apply ready_quiet|]. split.
        * split; [by apply created_app, created_app|]. split; [recorded|]. intros _. recorded.
        * cbn [trace after s1]. by rewrite !resumed_app, !app_nil_r.
    - split; [done|]. split; [done|]. split.
      * split; [by apply created_app|]. split; [recorded|]. by rewrite Hsmp.
      * cbn [trace after s1]. by rewrite resumed_app, app_nil_r. }
  wp_step. wp_use ltac:(exact Haff); [|by intros kk s' [Hx ->]].
  intros _ s2 (E2 & Hr2 & Hu2 & R2). unfold thread_start. wp_step. wp_step.
  apply wp_must.
  - intros b v. apply HX; [done|]. cbn [global_fault_ep trace after]. rewrite E2. by eapply ready_start.
  - intros b v Hb. wp_step. apply HQ; cbn [global_fault_ep trace after]; rewrite ?E2; [done|..].
    + by eapply ready_start.
    + by apply set_up_app.
    + recorded.
    + by rewrite resumed_app, R2.
Qed.

(** *** A module *)
Definition launched m s (th : thread_s) s' : Prop :=
  global_fault_ep s' = global_fault_ep s /\ ready (global_fault_ep s') (trace s') /\
  set_up (global_fault_ep s') m th (trace s') /\ has (seL4_TCB_Resume (tcb_object th)) (trace s') /\
  resumed (trace s') = resumed (trace s) ++ [tcb_object th].
Definition safe_stop s s' : Prop :=
  global_fault_ep s' = global_fault_ep s /\ ready (global_fault_ep s') (trace s').

Lemma quiet_ready s s' : quiet s s' -> ready (global_fault_ep s) (trace s) -> safe_stop s s'.
Proof. intros [E (k & Et & Hk)] Hr. split; [done|]. rewrite E, Et. by apply ready_quiet. Qed.
Lemma quiet_resumed s s' : quiet s s' -> resumed (trace s') = resumed (trace s).
Proof. intros [_ (k & -> & Hk)]. by rewrite resumed_app, Hk, app_nil_r. Qed.
Lemma quiet_has s s' c : quiet s s' -> has c (trace s) -> has c (trace s').
Proof. intros [_ (k & -> & _)]. apply has_app. Qed.
Lemma quiet_created s s' m th : quiet s s' -> created (global_fault_ep s) m th (trace s) ->
  created (global_fault_ep s') m th (trace s').
Proof. intros [E (k & Et & _)] Hc. rewrite E, Et. by apply created_app. Qed.
Lemma quiet_launched m s th s1 s2 : launched m s th s1 -> quiet s1 s2 -> launched m s th s2.
Proof.
  intros (E & Hr & Hs & Hh & R) Hq. destruct (quiet_ready _ _ Hq Hr) as [E2 Hr2].
  pose proof (quiet_resumed _ _ Hq) as R2. pose proof (quiet_has _ _ _ Hq Hh) as Hh2.
  split; [by rewrite E2|]. split; [done|]. split; [|split; [done|by rewrite R2]].
  destruct Hq as [Eq (k & Et & _)]. rewrite Eq, Et. by apply set_up_app.
Qed.
Lemma launched_after m s s0 th s' : quiet s s0 -> launched m s0 th s' -> launched m s th s'.
Proof.
  intros Hq (E & Hr & Hs & Hh & R). split; [by rewrite E; apply Hq|].
  do 3 (split; [done|]). by rewrite R, (quiet_resumed _ _ Hq).
Qed.
Lemma stop_after s s0 s' : quiet s s0 -> safe_stop s0 s' -> safe_stop s s'.
Proof. intros [E _] [E2 Hr]. split; [by rewrite E2|done]. Qed.

(** Quiet steps before, between and after. *)
Lemma before {A} m s (q : M (boot_s W) A) k : respects quiet q -> ready (global_fault_ep s) (trace s) ->
  (forall a s0, ready (global_fault_ep s0) (trace s0) ->
     wp (k a) (launched m s0) (fun _ => safe_stop s0) s0) ->
  wp (q ≫= k) (launched m s) (fun _ => safe_stop s) s.
Proof.
  intros Hq Hr Hk. wp_step. wp_use ltac:(by apply quiet_wp); [|by intros kk s' ?; apply quiet_ready].
  intros a s0 Hs0. destruct (quiet_ready _ _ Hs0 Hr) as [_ Hr0].
  wp_use ltac:(by apply Hk); [intros th s'; by apply launched_after|intros kk s'; by apply stop_after].
Qed.

(** The creation of the thread, quiet steps, the start, and quiet steps. *)
Lemma start_module {A B} m s (q : thread_s -> M (boot_s W) A) (r : M (boot_s W) B) :
  m ∈ modules -> ready (global_fault_ep s) (trace s) ->
  (forall th, respects quiet (q th)) -> respects quiet r ->
  wp (th ← thread_create (IPC_ENDPOINT_BADGE (base_badge m)) (8 * stack_words m)
        (g_thread_stack (base_badge m)) (thread_fn (base_badge m));
      q th;; thread_set_priority (priority m) th;; thread_set_affinity (core m) th;; thread_start th;;
      r;; mret th) (launched m s) (fun _ => safe_stop s) s.
Proof.
  intros Hm Hr Hq Hrest. wp_step. wp_use ltac:(apply create_wp); [|by intros k s' ?; apply quiet_ready].
  intros th s1 [Hq1 Hc1]. destruct (quiet_ready _ _ Hq1 Hr) as [E1 Hr1].
  wp_step. wp_use ltac:(by apply quiet_wp, Hq);
    [|intros k s' Hs'; by eapply stop_after; [exact Hq1|apply quiet_ready]].
  intros a s2 Hq2. destruct (quiet_ready _ _ Hq2 Hr1) as [E2 Hr2].
  apply launch_wp; [done|by eapply quiet_created|done| |].
  - intros s' E Hr'. split; [by rewrite E, E2|done].
  - intros s3 E3 Hr3 Hs3 Hh3 R3.
    assert (launched m s th s3) as Hl.
    { split; [by rewrite E3, E2|]. do 3 (split; [done|]).
      by rewrite R3, (quiet_resumed _ _ Hq2), (quiet_resumed _ _ Hq1). }
    wp_step. wp_use ltac:(by apply quiet_wp).
    + intros b s4 Hq4. wp_step. by eapply quiet_launched.
    + intros k s4 Hq4. destruct (quiet_ready _ _ Hq4 Hr3) as [E4 Hr4]. split; [|done].
      by rewrite E4, E3, E2.
Qed.

(** *** The modules of main, each from a trace that is fine *)
Lemma time_server_run s : ready (global_fault_ep s) (trace s) ->
  wp time_server_module_init (launched (Module' TMSERVERMOD_BASE_BADGE TMSERVERMOD_STACK_SIZE
    TMSERVERMOD_THREAD_PRIORITY TMSERVERMOD_THREAD_AFFINITY) s) (fun _ => safe_stop s) s.
Proof.
  intros Hr. unfold time_server_module_init. apply before; [unfold init_timer; quiet_steps|done|].
  intros ntfn s1 Hr1. apply before; [quiet_steps|done|]. intros _ s2 Hr2.
  apply before; [quiet_steps|done|]. intros _ s3 Hr3.
  apply (start_module (Module' _ _ _ _) s3 (fun th => set_up_timer th ntfn) (lib "sync_mutex_unlock"));
    [by left|done|intros th; unfold set_up_timer, init_tm; quiet_steps|quiet_steps].
Qed.

Lemma mmc_run s : ready (global_fault_ep s) (trace s) ->
  wp mmc_module_init (launched (Module' MMCMOD_BASE_BADGE MMCMOD_STACK_SIZE
    MMCMOD_THREAD_PRIORITY MMCMOD_THREAD_AFFINITY) s) (fun _ => safe_stop s) s.
Proof.
  intros Hr. unfold mmc_module_init. apply before; [unfold init_sdio; quiet_steps|done|].
  intros _ s1 Hr1. apply before; [unfold init_mmc; quiet_steps|done|]. intros _ s2 Hr2.
  apply before; [quiet_steps|done|]. intros a s3 Hr3. apply before; [quiet_steps|done|]. intros _ s4 Hr4.
  apply before; [quiet_steps|done|]. intros _ s5 Hr5.
  pose proof (start_module (Module' MMCMOD_BASE_BADGE MMCMOD_STACK_SIZE MMCMOD_THREAD_PRIORITY
    MMCMOD_THREAD_AFFINITY) s5 (fun _ => mret tt) (mret tt)) as Hst.
  apply Hst; [by right; left|done|intros th|]; quiet_steps.
Qed.

Lemma console_run s : ready (global_fault_ep s) (trace s) ->
  wp console_module_init (launched (Module' CONSOLEMOD_BASE_BADGE CONSOLEMOD_STACK_SIZE
    CONSOLEMOD_THREAD_PRIORITY CONSOLEMOD_THREAD_AFFINITY) s) (fun _ => safe_stop s) s.
Proof.
  intros Hr. unfold console_module_init. apply before; [unfold init_cdev; quiet_steps|done|].
  intros ntfn s1 Hr1.
  pose proof (start_module (Module' CONSOLEMOD_BASE_BADGE CONSOLEMOD_STACK_SIZE CONSOLEMOD_THREAD_PRIORITY
    CONSOLEMOD_THREAD_AFFINITY) s1 (fun th => must (seL4_TCB_BindNotification (tcb_object th) ntfn))
    (mret tt)) as Hst.
  apply Hst; [by do 2 right; left|done|intros th|]; quiet_steps.
Qed.

Lemma hobd_run s : ready (global_fault_ep s) (trace s) ->
  wp hobd_module_init (launched (Module' HOBDMOD_BASE_BADGE HOBDMOD_STACK_SIZE
    HOBDMOD_THREAD_PRIORITY HOBDMOD_THREAD_AFFINITY) s) (fun _ => safe_stop s) s.
Proof.
  intros Hr. unfold hobd_module_init. apply before; [quiet_steps|done|]. intros _ s1 Hr1.
  apply before; [unfold init_gpio; quiet_steps|done|]. intros _ s2 Hr2.
  apply before; [unfold init_uart; quiet_steps|done|]. intros _ s3 Hr3.
  pose proof (start_module (Module' HOBDMOD_BASE_BADGE HOBDMOD_STACK_SIZE HOBDMOD_THREAD_PRIORITY
    HOBDMOD_THREAD_AFFINITY) s3 (fun _ => mret tt) (mret tt)) as Hst.
  apply Hst; [by do 3 right; left|done|intros th|]; quiet_steps.
Qed.

Lemma system_run s : ready (global_fault_ep s) (trace s) ->
  wp system_module_init (launched (Module' SYSMOD_BASE_BADGE SYSMOD_STACK_SIZE
    SYSMOD_THREAD_PRIORITY SYSMOD_THREAD_AFFINITY) s) (fun _ => safe_stop s) s.
Proof.
  intros Hr. unfold system_module_init. apply before; [quiet_steps|done|]. intros _ s1 Hr1.
  pose proof (start_module (Module' SYSMOD_BASE_BADGE SYSMOD_STACK_SIZE SYSMOD_THREAD_PRIORITY
    SYSMOD_THREAD_AFFINITY) s1 (fun _ => mret tt) (mret tt)) as Hst.
  apply Hst; [by do 4 right; left|done|intros th|]; quiet_steps.
Qed.

(** *** One module after the other *)
Definition grows s s' : Prop := exists k, trace s' = trace s ++ k.
#[local] Instance grows_preorder : PreOrder grows.
Proof.
  split.
  - intros s. exists []. by rewrite app_nil_r.
  - intros s1 s2 s3 [k1 T1] [k2 T2]. exists (k1 ++ k2). by rewrite T2, T1, app_assoc.
Qed.
Lemma grows_do c : respects grows (do (W := W) c).
Proof. intros s. unfold do. destruct (ask c (world s)) as [a w]. by eexists. Qed.
Ltac grow_steps := repeat first
  [ progress respects_steps
  | progress unfold must, must_have, lib, c_assert, thread_create, thread_set_priority,
      thread_set_affinity, thread_start
  | apply grows_do
  | apply respects_modify; intros ?; exists []; by rewrite app_nil_r ].

(** The modules [ms] were launched, as the threads [ths], and nothing else. *)
Definition all_launched (ms : list module) (ths : list thread_s) s : Prop :=
  ready (global_fault_ep s) (trace s) /\
  Forall2 (fun m th => set_up (global_fault_ep s) m th (trace s) /\
    has (seL4_TCB_Resume (tcb_object th)) (trace s)) ms ths /\
  resumed (trace s) = map tcb_object ths.

Lemma next_module m ms ths s (init : M (boot_s W) thread_s) (k : thread_s -> M (boot_s W) (list thread_s)) Q :
  (forall s, ready (global_fault_ep s) (trace s) -> wp init (launched m s) (fun _ => safe_stop s) s) ->
  respects grows init -> all_launched ms ths s ->
  (forall th s', all_launched (ms ++ [m]) (ths ++ [th]) s' ->
     wp (k th) Q (fun _ s' => ready (global_fault_ep s') (trace s')) s') ->
  wp (init ≫= k) Q (fun _ s' => ready (global_fault_ep s') (trace s')) s.
Proof.
  intros Hinit Hg (Hr & Hms & Hres) Hk. wp_step.
  wp_use ltac:(apply wp_conj; [by apply Hinit|apply (wp_respects grows init (grows s) s Hg); by intros s'; exact id]).
  - intros th s' [(E & Hr' & Hs & Hh & R) [l T]]. apply Hk. split; [done|]. split.
    + apply Forall2_app; [|by constructor; [split|constructor]]. eapply Forall2_impl; [|exact Hms].
      intros m' th' [Hs' Hh']. rewrite E, T. split; [by apply set_up_app|by apply has_app].
    + by rewrite R, Hres, map_app.
  - intros kk s' [[_ Hr'] _]. exact Hr'.
Qed.

(** The root task starts nothing. *)
Definition nothing_started s s' : Prop := resumed (trace s') = resumed (trace s).
#[local] Instance nothing_preorder : PreOrder nothing_started.
Proof. split; unfold nothing_started; [done|congruence]. Qed.
Lemma root_task_quiet : respects nothing_started (root_task_init (W := W)).
Proof.
  assert (forall c, (forall a, resume_of (c, a) = None) -> respects nothing_started (do (W := W) c)) as Hdo.
  { intros c Hc s. unfold do, nothing_started. destruct (ask c (world s)) as [a w]. cbn [trace snd].
    rewrite resumed_app. cbn. by rewrite Hc, app_nil_r. }
  unfold root_task_init, platform_init, init_clock. repeat first
    [ progress respects_steps | progress unfold must, must_have, lib | apply Hdo; by intros ?
    | by apply respects_modify ].
Qed.

Lemma nothing_ready s : resumed (trace s) = [] -> ready (global_fault_ep s) (trace s).
Proof.
  intros Hn i tcb a Hi. exfalso. apply list_elem_of_lookup_2 in Hi.
  assert (tcb ∈ resumed (trace s)) as Hin by (apply list_elem_of_omap; by exists (seL4_TCB_Resume tcb, a)).
  rewrite Hn in Hin. by apply not_elem_of_nil in Hin.
Qed.

Lemma main_run s : trace s = [] ->
  wp main_boot (all_launched modules) (fun _ s' => ready (global_fault_ep s') (trace s')) s.
Proof.
  intros Ht. unfold main_boot. wp_step.
  assert (forall s', nothing_started s s' -> resumed (trace s') = []) as Hn.
  { intros s' E. unfold nothing_started in E. by rewrite E, Ht. }
  wp_use ltac:(apply (wp_respects nothing_started _ (nothing_started s) s root_task_quiet); by intros s'; exact id);
    [|by intros k s' Hs'; apply nothing_ready, Hn].
  intros _ s0 Hs0. pose proof (Hn _ Hs0) as R0.
  assert (all_launched [] [] s0) as Hl0 by (split; [by apply nothing_ready|by split]).
  eapply next_module; [apply time_server_run|unfold time_server_module_init, init_timer, set_up_timer,
    init_tm; grow_steps|exact Hl0|]. intros th1 s1 Hl1.
  eapply next_module; [apply mmc_run|unfold mmc_module_init, init_sdio, init_mmc; grow_steps|exact Hl1|].
  intros th2 s2 Hl2.
  eapply next_module; [apply console_run|unfold console_module_init, init_cdev; grow_steps|exact Hl2|].
  intros th3 s3 Hl3.
  eapply next_module; [apply hobd_run|unfold hobd_module_init, init_gpio, init_uart; grow_steps|exact Hl3|].
  intros th4 s4 Hl4.
  eapply next_module; [apply system_run|unfold system_module_init; grow_steps|exact Hl4|].
  intros th5 s5 (Hr & Hms & R).
  wp_step. apply wp_must; [intros a w; by apply ready_quiet|]. intros a w _.
  wp_step. apply wp_must; [intros b v; by do 2 (apply ready_quiet; [|done])|]. intros b v _. wp_step.
  split; [by do 2 (apply ready_quiet; [|done])|]. split.
  - eapply Forall2_impl; [|exact Hms]. intros m th [Hs Hh]. cbn [trace global_fault_ep after].
    split; [by do 2 apply set_up_app|by do 2 apply has_app].
  - cbn [trace after]. by rewrite !resumed_app, !app_nil_r.
Qed.
End start.

(** ** A platform on which every call succeeds *)
Section success.
Context `{LogPolicy} `{!Image} {W : Type} `{!Platform W}.

Definition platform_works : Prop :=
  (forall c w, err (ask c w).1 = 0 /\ value (ask c w).1 <> 0) /\
  (forall w, value (ask (library "mmc_block_size") w).1 = FAT_SECTOR_SIZE) /\
  (forall w, value (ask (library "clk_set_freq") w).1 = IMX6_MAX_FREQ).
(** The stacks are arrays of 64-bit words. *)
Definition stacks_aligned : Prop := forall b, g_thread_stack b mod 8 = 0.
Hypothesis works : platform_works.
Hypothesis aligned : stacks_aligned.

Definition succeeds {A} (m : M (boot_s W) A) : Prop := forall s, exists a s', m s = (Done a, s').
Lemma succeeds_bind {A B} (m : M (boot_s W) A) (k : A -> M (boot_s W) B) :
  succeeds m -> (forall a, succeeds (k a)) -> succeeds (m ≫= k).
Proof.
  intros Hm Hk s. destruct (Hm s) as (a & s1 & E1). destruct (Hk a s1) as (b & s2 & E2).
  exists b, s2. by rewrite (bind_done _ _ _ _ _ E1).
Qed.
Lemma succeeds_ret {A} (a : A) : succeeds (mret a).
Proof. intros s. by do 2 eexists. Qed.
Lemma succeeds_gets {A} (f : boot_s W -> A) : succeeds (gets f).
Proof. intros s. by do 2 eexists. Qed.
Lemma succeeds_modify f : succeeds (modify f).
Proof. intros s. by do 2 eexists. Qed.
Lemma succeeds_when b m : succeeds m -> succeeds (when b m).
Proof. destruct b; [done|intros _; apply succeeds_ret]. Qed.
Lemma succeeds_do c {A} (k : answer -> M (boot_s W) A) :
  (forall w, succeeds (k (ask c w).1)) -> succeeds (a ← do c; k a).
Proof.
  intros Hk s. specialize (Hk (world s)). unfold do, mbind, M_bind.
  destruct (ask c (world s)) as [a w]. apply Hk.
Qed.
Lemma succeeds_must c : succeeds (must c).
Proof.
  unfold must. apply succeeds_do. intros w. destruct (proj1 works c w) as [-> _]. apply succeeds_ret.
Qed.
Lemma succeeds_must_have c : succeeds (must_have c).
Proof.
  unfold must_have. apply succeeds_do. intros w. destruct (proj1 works c w) as [_ Hv].
  rewrite (proj2 (Z.eqb_neq _ _) Hv). apply succeeds_ret.
Qed.
Ltac success_steps := repeat first
  [ apply succeeds_must | apply succeeds_must_have | apply succeeds_ret | apply succeeds_gets
  | apply succeeds_modify | (apply succeeds_when) | (apply succeeds_bind; [|intros ?]) | progress unfold lib ].

Lemma succeeds_create badge words b fn :
  succeeds (thread_create badge (8 * words) (g_thread_stack b) fn).
Proof.
  unfold thread_create. do 2 (apply succeeds_bind; [apply succeeds_must|intros ?]).
  apply succeeds_do. intros w. destruct (proj1 works vspace_new_ipc_buffer w) as [_ Hv].
  rewrite (proj2 (Z.eqb_neq _ _) Hv). cbn [negb c_assert].
  assert (u32 (g_thread_stack b + 8 * words) mod (4 * 2) = 0) as Hal.
  { unfold u32. pose proof (aligned b) as Hb. apply Z.mod_divide in Hb as [q Hq]; [|done].
    apply Z.mod_divide; [done|]. rewrite Hq, Z.mod_eq by lia.
    exists (q + words - 536870912 * ((q * 8 + 8 * words) / 4294967296)). lia. }
  cbn zeta. rewrite Hal. cbn [Z.eqb negb]. unfold ZF_LOGF_IF, when. success_steps.
Qed.

Lemma succeeds_check b : b = true -> succeeds (ZF_LOGF_IF (negb b)).
Proof. intros ->. apply succeeds_ret. Qed.

Lemma boot_succeeds : succeeds main_boot.
Proof.
  repeat lazymatch goal with
  | |- succeeds (must _) => apply succeeds_must
  | |- succeeds (must_have _) => apply succeeds_must_have
  | |- succeeds (mret _) => apply succeeds_ret
  | |- succeeds (gets _) => apply succeeds_gets
  | |- succeeds (modify _) => apply succeeds_modify
  | |- succeeds (when _ _) => apply succeeds_when
  | |- succeeds (thread_create _ _ _ _) => apply succeeds_create
  | |- succeeds (ZF_LOGF_IF (negb _)) => apply succeeds_check, Z.eqb_eq; destruct works as (_ & E1 & E2);
      first [by rewrite E1|by rewrite E2]
  | |- succeeds (do _ ≫= _) => apply succeeds_do; intros ?
  | |- succeeds (_ ≫= _) => apply succeeds_bind; [|intros ?]
  | |- succeeds (lib _) => unfold lib
  | |- succeeds ?m => let h := get_head m in unfold h
  end.
Qed.
End success.
(** ** Properties *)
Section properties.
Context `{LogPolicy} `{!Image} {W : Type} `{!Platform W}.

(** C14: no thread runs before it is set up.  Whatever the kernel and the
    libraries answer, in a build whose fatal checks abort, every thread that the
    boot starts is the thread of one of the five modules and was set up before:
    its endpoint minted with the module's badge, its faults directed to the root
    task's endpoint with the badge of its faults, its registers pointing to the
    module's function, its endpoint and the aligned top of its stack, its
    priority and - with more than one core - its core those of config.h.  If the
    boot completes, the five threads were started, each once and in main's order;
    and it does complete when the calls succeed. *)
Theorem threads_start_ready (s : boot_s W) : logf_aborts = true -> trace s = [] ->
  match main_boot s with
  | (Done ths, s') => all_launched modules ths s'
  | (Stop _, s') => ready (global_fault_ep s') (trace s')
  end /\
  (platform_works -> stacks_aligned -> exists ths s', main_boot s = (Done ths, s')).
Proof.
  intros Ha Ht. split.
  - pose proof (main_run Ha s Ht) as Hm. unfold wp in Hm. by destruct (main_boot s) as [[ths|k] s'].
  - intros Hw Hs. by apply boot_succeeds.
Qed.

(** A thread's IPC buffer is not in the frame the kernel is told of.
    thread_create gives seL4_TCB_Configure the address of the buffer that
    vspace_new_ipc_buffer made, together with the frame it allocated on its own
    before; where two allocations give two frames, the one the buffer was mapped
    from is another, and is dropped. *)
Theorem ipc_buffer_frame_mismatch badge size stack fn (s : boot_s W) th s' :
  logf_aborts = true ->
  (forall w, let '(a, w1) := ask (vka_alloc_frame THREAD_IPC_BUFFER_FRAME_SIZE_BITS) w in
     err a = 0 -> buffer_frame (ask vspace_new_ipc_buffer w1).1 <> value a) ->
  thread_create badge size stack fn s = (Done th, s') ->
  exists b fault_ep, (vspace_new_ipc_buffer, b) ∈ trace s' /\ ipc_buffer th = value b /\
    has (seL4_TCB_Configure (tcb_object th) fault_ep (value b) (ipc_frame_object th)) (trace s') /\
    buffer_frame b <> ipc_frame_object th.
Proof.
  intros Ha Hfresh Hrun.
  pose proof (create_frames Ha badge size stack fn s Hfresh) as Hwp.
  unfold wp in Hwp. by rewrite Hrun in Hwp.
Qed.
End properties.

(** *** The properties at concrete inputs *)
#[local] Existing Instance log_aborts.

(** A machine that hands out numbered objects; stacks at distinct addresses. *)
Definition demo_image : Image := {|
  seL4_CapInitThreadTCB := 1; seL4_MaxPrio := 255; smp := true;
  g_thread_stack b := 65536 * b; thread_fn b := 1048576 + b;
  FAT_SECTOR_SIZE := 512; IMX6_MAX_FREQ := 996000000 |}.
#[local] Existing Instance demo_image.
Definition demo_answer (c : call) (n : positive) : answer :=
  match c with
  | library "mmc_block_size" => Answer 0 512 0
  | library "clk_set_freq" => Answer 0 996000000 0
  | _ => Answer 0 (Zpos n) (Zpos n + 1)
  end.
#[local] Instance demo_platform : Platform positive := {|
  ask c n := (demo_answer c n, (n + 2)%positive) |}.
Definition demo_start : boot_s positive := mk_boot [] 0 0 0 16%positive.

Lemma demo_answers c n : err (demo_answer c n) = 0 /\ value (demo_answer c n) <> 0.
Proof. unfold demo_answer. destruct c; try done. repeat (case_match; try done). Qed.
Lemma demo_works : platform_works /\ stacks_aligned.
Proof.
  split; [split; [apply demo_answers|by split]|]. intros b. unfold g_thread_stack, demo_image.
  replace (65536 * b) with (b * 8192 * 8) by ring. by apply Z.mod_mul.
Qed.

Lemma threads_start_ready_witness : exists ths s',
  main_boot demo_start = (Done ths, s') /\ all_launched modules ths s'.
Proof.
  destruct (threads_start_ready demo_start eq_refl eq_refl) as [Hm Hs].
  destruct (Hs (proj1 demo_works) (proj2 demo_works)) as (ths & s' & E). exists ths, s'.
  split; [exact E|]. rewrite E in Hm. exact Hm.
Defined.

(** The five threads of that boot: the badge of each is its module's. *)
Example boot_here :
  let '(o, s') := main_boot demo_start in
  length (trace s') = 110%nat /\
  omap (fun e => match e.1 with seL4_CNode_Mint _ _ badge => Some badge | _ => None end) (trace s') =
    [0x20; 0x201; 0x22; 0x221; 0x24A; 0x24; 0x241; 0x23; 0x231; 0x21; 0x211].
Proof. vm_compute. done. Qed.

Lemma ipc_buffer_frame_mismatch_witness : exists th s' b fault_ep,
  thread_create 0x20 4096 65536 7 demo_start = (Done th, s') /\
  (vspace_new_ipc_buffer, b) ∈ trace s' /\ ipc_buffer th = value b /\
  has (seL4_TCB_Configure (tcb_object th) fault_ep (value b) (ipc_frame_object th)) (trace s') /\
  buffer_frame b <> ipc_frame_object th.
Proof.
  destruct (thread_create 0x20 4096 65536 7 demo_start) as [[th|k] s'] eqn:E; [|vm_compute in E; discriminate].
  destruct (ipc_buffer_frame_mismatch 0x20 4096 65536 7 demo_start th s' eq_refl) as (b & fe & Hb).
  - intros w. cbn. intros _. lia.
  - exact E.
  - by exists th, s', b, fe.
Defined.

End Boot.
