(* ===== verification/Comm.v ===== *)
(** The K-line communication layer, modules/hobd/src/comm.c.

    [hobd_s] is the state of the HOBD thread: the globals of hobd_module.c the
    layer is handed pointers to, what the UART will deliver, what was done to
    the line, and the shared services.  The UART input is a script of [poll]s:
    the [int] each [ps_cdev_getchar] returns, and whether the time server runs
    the timeout callback before the receive loop next reads the flag it sets.
    The flag is only read there, so this covers every interleaving of the
    time server's thread with the loop. *)
From S2P Require Import Prelude Kline Parser Msg Services.

Module Comm.

Inductive comm_state_kind :=
| COMM_STATE_GPIO_INIT
| COMM_STATE_SEND_ECU_INIT
| COMM_STATE_SEND_REQ0
| COMM_STATE_SEND_REQ1.

#[export] Instance comm_state_eq_dec : EqDecision comm_state_kind.
Proof. solve_decision. Defined.

(** [comm_s] without the handles of the device drivers. *)
Record comm_s := mk_comm {
  enabled : Z;
  listen_only : Z;
  state : comm_state_kind;
  timeout_id : Z;
  timeout_signaled : Z;
  comm_gpio_retry_count : Z;
  comm_init_retry_count : Z;
}.

Definition set_enabled v c := mk_comm v (listen_only c) (state c) (timeout_id c)
  (timeout_signaled c) (comm_gpio_retry_count c) (comm_init_retry_count c).
Definition set_listen_only v c := mk_comm (enabled c) v (state c) (timeout_id c)
  (timeout_signaled c) (comm_gpio_retry_count c) (comm_init_retry_count c).
Definition set_state v c := mk_comm (enabled c) (listen_only c) v (timeout_id c)
  (timeout_signaled c) (comm_gpio_retry_count c) (comm_init_retry_count c).
Definition set_timeout_id v c := mk_comm (enabled c) (listen_only c) (state c) v
  (timeout_signaled c) (comm_gpio_retry_count c) (comm_init_retry_count c).
Definition set_timeout_signaled v c := mk_comm (enabled c) (listen_only c) (state c)
  (timeout_id c) v (comm_gpio_retry_count c) (comm_init_retry_count c).

(** What the thread does to the line and to its drivers, in order. *)
Inductive line_event :=
| GpioNew
| GpioClr
| GpioSet
| DelayMs (ms : Z)
| SerialConfigure (baud char_size parity stop_bits : Z)
| Putchar (c : Z).

(** The results of the driver calls, as functions of what was done before, and
    the constants of the libraries. *)
Class Hw := {
  gpio_new : list line_event -> Z;
  gpio_clr : list line_event -> Z;
  gpio_set : list line_event -> Z;
  serial_configure : list line_event -> Z;
  PARITY_NONE : Z;
  NS_IN_MS : Z;
}.

Record poll := Poll { poll_data : Z; poll_timeout : bool }.

(** [hobd_stats_s] of modules/hobd/include/hobd.h. *)
Record hobd_stats_s := mk_stats {
  timestamp : Z;
  valid_rx_count : Z;
  invalid_rx_count : Z;
  gpio_retry_count : Z;
  init_retry_count : Z;
}.

Record hobd_s (W : Type) := mk_hobd {
  g_comm : comm_s;
  g_msg_parser : Parser.hobd_parser_s;
  g_msg_tx_buffer : list Z;
  stats : hobd_stats_s;
  rx_line : list poll;
  timeout_due : bool;
  line : list line_event;
  services : W;
}.
Arguments mk_hobd {W}.
Arguments g_comm {W}.
Arguments g_msg_parser {W}.
Arguments g_msg_tx_buffer {W}.
Arguments stats {W}.
Arguments rx_line {W}.
Arguments timeout_due {W}.
Arguments line {W}.
Arguments services {W}.

Section setters.
Context {W : Type}.
Implicit Types s : hobd_s W.
Definition set_comm v s := mk_hobd v (g_msg_parser s) (g_msg_tx_buffer s) (stats s)
  (rx_line s) (timeout_due s) (line s) (services s).
Definition set_parser v s := mk_hobd (g_comm s) v (g_msg_tx_buffer s) (stats s)
  (rx_line s) (timeout_due s) (line s) (services s).
Definition set_tx v s := mk_hobd (g_comm s) (g_msg_parser s) v (stats s)
  (rx_line s) (timeout_due s) (line s) (services s).
Definition set_stats v s := mk_hobd (g_comm s) (g_msg_parser s) (g_msg_tx_buffer s) v
  (rx_line s) (timeout_due s) (line s) (services s).
Definition set_rx v due s := mk_hobd (g_comm s) (g_msg_parser s) (g_msg_tx_buffer s)
  (stats s) v due (line s) (services s).
Definition set_line v s := mk_hobd (g_comm s) (g_msg_parser s) (g_msg_tx_buffer s)
  (stats s) (rx_line s) (timeout_due s) v (services s).
Definition set_services (v : W) s := mk_hobd (g_comm s) (g_msg_parser s) (g_msg_tx_buffer s)
  (stats s) (rx_line s) (timeout_due s) (line s) v.
End setters.

Section comm.
Context `{LogPolicy} `{Hw} {W : Type} `{!Services W}.
Abbreviation T := (M (hobd_s W)).

(** An operation of the services, run from the thread. *)
Definition svc {A} (m : M W A) : T A := zoom services set_services m.
Definition on_comm (f : comm_s -> comm_s) : T unit :=
  modify (fun s => set_comm (f (g_comm s)) s).
Definition emit (e : line_event) : T unit := modify (fun s => set_line (line s ++ [e]) s).
Definition driver (e : line_event) (result : list line_event -> Z) : T Z :=
  h ← gets line; emit e;; mret (result h).

Definition COMM_RX_NO_DATA_TIMEOUT_NS : Z := u64 (400 * NS_IN_MS).

(** Its token is the address of [g_comm], so its check for 0 never fires. *)
Definition timeout_cb : T unit := on_comm (set_timeout_signaled 1).

(** The time server's thread runs, if it was due to and the callback is
    registered: a relative callback is removed as it is run. *)
Definition time_server_runs : T unit :=
  s ← gets (fun s => s);
  let id := timeout_id (g_comm s) in
  when (timeout_due s && cb_registered id (services s))
    (modify (fun s => set_services (cb_expire id (services s)) s);; timeout_cb).

Definition comm_get_timeout : T Z := gets (fun s => u32 (timeout_signaled (g_comm s))).

Definition comm_stop_timeout : T unit :=
  id ← gets (fun s => timeout_id (g_comm s));
  svc (time_server_deregister_cb id);;
  on_comm (set_timeout_signaled 0).

Definition comm_start_timeout : T unit :=
  comm_stop_timeout;;
  id ← gets (fun s => timeout_id (g_comm s));
  svc (time_server_register_rel_cb COMM_RX_NO_DATA_TIMEOUT_NS id).

Definition comm_gpio_init_seq : T unit :=
  c ← gets g_comm;
  when (listen_only c =? 0)
    (err ← driver GpioClr gpio_clr; ZF_LOGF_IF (negb (err =? 0)));;
  emit (DelayMs 70);;
  c ← gets g_comm;
  when (listen_only c =? 0)
    (err ← driver GpioSet gpio_set; ZF_LOGF_IF (negb (err =? 0)));;
  emit (DelayMs 120).

Definition comm_ecu_init_seq : T unit :=
  comm_gpio_init_seq;;
  err ← driver (SerialConfigure HOBD_KLINE_BAUD 8 PARITY_NONE 1) serial_configure;
  ZF_LOGF_IF (negb (err =? 0)).

(** The transmit loop; the message is the transmit buffer. *)
Fixpoint send_loop (fuel : nat) (idx : Z) : T unit :=
  match fuel with
  | O => stop_with Blocked
  | S fuel =>
      msg ← gets g_msg_tx_buffer;
      size ← or_fault (header_size msg);
      if idx <? size
      then c ← or_fault (load msg idx);
           emit (Putchar c);;
           send_loop fuel (u16 (idx + 1))
      else mret tt
  end.

Definition comm_send_msg : T unit :=
  c ← gets g_comm;
  when (listen_only c =? 0) (send_loop 256 0).

Definition ps_cdev_getchar : T Z := fun s =>
  match rx_line s with
  | [] => (Stop Blocked, s)
  | Poll d due :: rx => (Done d, set_rx rx due s)
  end.

(** The receive loop of [comm_recv_msg]: [msg] is whether the pointer to the
    receive buffer was taken.  [fuel] bounds the iterations; each of them
    consumes a poll. *)
Fixpoint recv_loop (fuel : nat) (use_timeout : Z) (msg : bool) (timeout_fired : Z) : T bool :=
  if negb msg && (timeout_fired =? 0) then
    match fuel with
    | O => stop_with Blocked
    | S fuel =>
        data ← ps_cdev_getchar;
        msg ← (if 0 <=? data then
                 p ← gets g_msg_parser;
                 '(status, p) ← or_fault (Parser.hobd_parser_parse_byte (u8 data) p);
                 modify (set_parser p);;
                 mret (if status =? Parser.HOBD_ERROR_NONE then true else msg)
               else mret msg);
        timeout_fired ← (if negb (use_timeout =? 0)
                         then time_server_runs;; comm_get_timeout
                         else mret timeout_fired);
        recv_loop fuel use_timeout msg timeout_fired
    end
  else mret msg.

(** [true] is the address of the receive buffer, [false] is [NULL]. *)
Definition comm_recv_msg (use_timeout : Z) : T bool :=
  when (negb (use_timeout =? 0)) comm_start_timeout;;
  n ← gets (fun s => length (rx_line s));
  msg ← recv_loop (S n) use_timeout false 0;
  when (negb (use_timeout =? 0)) comm_stop_timeout;;
  mret msg.

Fixpoint wait_loop (fuel : nat) (subtype use_timeout resp_found timeout_fired : Z) : T Z :=
  if (resp_found =? 0) && (timeout_fired =? 0) then
    match fuel with
    | O => stop_with Blocked
    | S fuel =>
        msg ← comm_recv_msg use_timeout;
        if msg : bool then
          buf ← gets (fun s => Parser.rx_buffer (g_msg_parser s));
          ty ← or_fault (header_type buf);
          st ← or_fault (header_subtype buf);
          wait_loop fuel subtype use_timeout
            (if (ty =? HOBD_MSG_TYPE_RESPONSE) && (st =? subtype) then 1 else resp_found)
            timeout_fired
        else wait_loop fuel subtype use_timeout resp_found 1
    end
  else mret resp_found.

(** The result, and the time stamp if it was stored. *)
Definition comm_wait_for_resp (subtype use_timeout : Z) (rx_timestamp : bool) :
    T (Z * option Z) :=
  n ← gets (fun s => length (rx_line s));
  resp_found ← wait_loop (S n) subtype use_timeout 0 0;
  if negb (resp_found =? 0) && rx_timestamp
  then t ← svc time_server_get_time; mret (resp_found, Some t)
  else mret (resp_found, None).

End comm.

(** [sizeof] of a pointer on the 32-bit ARM target. *)
Definition SIZEOF_POINTER : Z := 4.

Definition fill_query (table offset count : Z) (msg : list Z) : option (list Z) :=
  msg ← set_data 0 table msg;
  msg ← set_data 1 offset msg;
  msg ← set_data 2 count msg;
  '(_, msg) ← Msg.hobd_msg HOBD_MSG_TYPE_QUERY HOBD_MSG_SUBTYPE_TABLE_SUBGROUP
                (u8 SIZEOF_POINTER) msg;
  Some msg.

Definition comm_fill_msg_subgroub_10_query : list Z -> option (list Z) :=
  fill_query HOBD_TABLE_10 0 0x80.
Definition comm_fill_msg_subgroub_d1_query : list Z -> option (list Z) :=
  fill_query HOBD_TABLE_D1 0 0x06.

(** *** The reference receiver

    What the layer promises, over the framer instead of the parser: polls are
    consumed until a frame is complete or, with a timeout armed, until a poll
    after which the timeout has fired. *)
Inductive recv_result := RMsg (f : list Z) | RTimeout | RBlocked.

Definition framer_poll (pend : list Z) (p : poll) : Parser.verdict * list Z :=
  if 0 <=? poll_data p then Parser.framer_step pend (u8 (poll_data p))
  else (Parser.Pending, pend).

Fixpoint recv_spec (armed : bool) (pend : list Z) (rx : list poll) :
    recv_result * list Z * list poll :=
  match rx with
  | [] => (RBlocked, pend, [])
  | p :: rx =>
      match framer_poll pend p with
      | (Parser.Framed f, pend) => (RMsg f, pend, rx)
      | (_, pend) => if armed && poll_timeout p then (RTimeout, pend, rx)
                     else recv_spec armed pend rx
      end
  end.

(** A response of the given subtype. *)
Definition is_resp (subtype : Z) (f : list Z) : bool :=
  match f with
  | ty :: _ :: st :: _ => (ty =? HOBD_MSG_TYPE_RESPONSE) && (st =? subtype)
  | _ => false
  end.

(** Receiving until such a response; the timeout starts anew with every
    message that is not one. *)
Fixpoint wait_spec (armed : bool) (subtype : Z) (pend : list Z) (rx : list poll) :
    recv_result * list Z * list poll :=
  match rx with
  | [] => (RBlocked, pend, [])
  | p :: rx =>
      match framer_poll pend p with
      | (Parser.Framed f, pend) =>
          if is_resp subtype f then (RMsg f, pend, rx)
          else wait_spec armed subtype pend rx
      | (_, pend) => if armed && poll_timeout p then (RTimeout, pend, rx)
                     else wait_spec armed subtype pend rx
      end
  end.

Lemma wait_spec_recv armed subtype rx : forall pend,
  wait_spec armed subtype pend rx =
  match recv_spec armed pend rx with
  | (RMsg f, pend', rx') =>
      if is_resp subtype f then (RMsg f, pend', rx') else wait_spec armed subtype pend' rx'
  | res => res
  end.
Proof.
  induction rx as [|p rx IH]; intros pend; cbn; [done|].
  destruct (framer_poll pend p) as [[| | |f] pend1]; try done;
    (destruct (_ && _); [done|apply IH]).
Qed.

Lemma recv_spec_shorter armed rx : forall pend f pend' rx',
  recv_spec armed pend rx = (RMsg f, pend', rx') -> (length rx' < length rx)%nat.
Proof.
  induction rx as [|p rx IH]; intros pend f pend' rx'; cbn; [done|].
  destruct (framer_poll pend p) as [[| | |g] pend1];
    try (intros [= <- <- <-]; lia);
    (destruct (_ && _); [done|]; intros ?%IH; lia).
Qed.

Section recv.
Context `{LogPolicy} `{Hw} {W : Type} `{!Services W} `{!ServicesSpec W}.
Implicit Types s : hobd_s W.

Lemma wp_svc {A} (m : M W A) Q X s :
  wp m (fun a w => Q a (set_services w s)) (fun k w => X k (set_services w s)) (services s) ->
  wp (svc m) Q X s.
Proof. unfold wp, svc, zoom. by destruct (m (services s)) as [[a|k] w]. Qed.

(** The thread's invariant: the parser holds the pending bytes,
    and the timeout's id is one the time server handed out. *)
Definition inv (pend : list Z) s : Prop :=
  Parser.repr (g_msg_parser s) pend /\ Parser.counts_ok (g_msg_parser s) /\
  serves (timeout_id (g_comm s)) (services s).

(** What receiving does not touch. *)
Definition kept s s' : Prop :=
  g_msg_tx_buffer s' = g_msg_tx_buffer s /\ stats s' = stats s /\ line s' = line s /\
  logged (services s') = logged (services s) /\
  set_timeout_signaled 0 (g_comm s') = set_timeout_signaled 0 (g_comm s).

#[export] Instance kept_preorder : PreOrder kept.
Proof.
  split; [done|]. intros s1 s2 s3 (?&?&?&?&?) (?&?&?&?&?).
  repeat split; by etrans.
Qed.

Lemma kept_timeout_id s s' : kept s s' -> timeout_id (g_comm s') = timeout_id (g_comm s).
Proof. intros (_&_&_&_&E). by apply (f_equal timeout_id) in E. Qed.
Lemma kept_listen_only s s' : kept s s' -> listen_only (g_comm s') = listen_only (g_comm s).
Proof. intros (_&_&_&_&E). by apply (f_equal listen_only) in E. Qed.
Lemma kept_enabled s s' : kept s s' -> enabled (g_comm s') = enabled (g_comm s).
Proof. intros (_&_&_&_&E). by apply (f_equal enabled) in E. Qed.
Lemma kept_state s s' : kept s s' -> state (g_comm s') = state (g_comm s).
Proof. intros (_&_&_&_&E). by apply (f_equal state) in E. Qed.

(** The timeout is registered and has not fired; it is off. *)
Definition timer_on s : Prop :=
  timeout_signaled (g_comm s) = 0 /\ cb_registered (timeout_id (g_comm s)) (services s) = true.
Definition timer_off s : Prop :=
  timeout_signaled (g_comm s) = 0 /\ cb_registered (timeout_id (g_comm s)) (services s) = false.

(** The receive buffer starts with the frame [f]. *)
Definition holds (f : list Z) s : Prop :=
  frame_ok f /\ take (length f) (Parser.rx_buffer (g_msg_parser s)) = f.

Lemma wp_on_comm f Q X s : Q tt (set_comm (f (g_comm s)) s) -> wp (on_comm f) Q X s.
Proof. done. Qed.

Lemma stop_timeout_spec pend s : inv pend s ->
  wp comm_stop_timeout (fun _ s' => inv pend s' /\ kept s s' /\ timer_off s' /\
    g_msg_parser s' = g_msg_parser s /\ rx_line s' = rx_line s) total s.
Proof.
  intros (Hp & Hc & Hs). unfold comm_stop_timeout. wp_steps. apply wp_svc.
  wp_use ltac:(by apply serves_deregister_cb); [|done].
  intros _ w (Hok & Hlog & Hcb). apply wp_on_comm. by split_and!.
Qed.

Lemma start_timeout_spec pend s : inv pend s ->
  wp comm_start_timeout (fun _ s' => inv pend s' /\ kept s s' /\ timer_on s' /\
    g_msg_parser s' = g_msg_parser s /\ rx_line s' = rx_line s) total s.
Proof.
  intros Hi. unfold comm_start_timeout. wp_step.
  wp_use ltac:(by apply stop_timeout_spec); [|done].
  intros _ s1 ((Hp & Hc & Hs) & Hk & (Hsig & _) & Hpa & Hrx). wp_steps. apply wp_svc.
  wp_use ltac:(by apply serves_register_rel_cb); [|done].
  intros _ w (Hok & Hlog & Hcb). destruct Hk as (?&?&?&?&?).
  split_and!; try done. split_and!; try done. by etrans.
Qed.

Lemma time_server_runs_spec pend s : inv pend s -> timer_on s ->
  wp time_server_runs (fun _ s' => inv pend s' /\ kept s s' /\
    g_msg_parser s' = g_msg_parser s /\ rx_line s' = rx_line s /\
    if timeout_due s then timeout_signaled (g_comm s') = 1 else timer_on s') total s.
Proof.
  intros (Hp & Hc & Hs) [Hsig Hcb]. unfold time_server_runs. wp_step. wp_step.
  rewrite Hcb, andb_true_r. destruct (timeout_due s); cbn [when].
  - wp_steps. apply wp_on_comm.
    destruct (serves_cb_expire (timeout_id (g_comm s)) (services s) Hs) as (? & ? & ?).
    by split_and!.
  - by wp_steps.
Qed.

Lemma wp_getchar d due rx Q X s :
  rx_line s = Poll d due :: rx -> Q d (set_rx rx due s) -> wp ps_cdev_getchar Q X s.
Proof. unfold wp, ps_cdev_getchar. by intros ->. Qed.

(** The parse of a poll's byte, as the loop writes it. *)
Lemma poll_parse_spec d due pend v pend' s : inv pend s ->
  framer_poll pend (Poll d due) = (v, pend') ->
  wp (if 0 <=? d then
        p ← gets g_msg_parser;
        '(status, p) ← or_fault (Parser.hobd_parser_parse_byte (u8 d) p);
        modify (set_parser p);;
        mret (if status =? Parser.HOBD_ERROR_NONE then true else false)
      else mret false)
    (fun b s' => inv pend' s' /\ (exists p, s' = set_parser p s) /\
      b = (if v is Parser.Framed _ then true else false) /\
      forall f, v = Parser.Framed f -> holds f s') total s.
Proof.
  intros (Hp & Hc & Hs) Hv. unfold framer_poll in Hv. cbn [poll_data] in Hv.
  destruct (0 <=? d).
  - pose proof (Parser.parse_step (u8 d) _ _ (u8_range d) Hp) as Hstep.
    unfold Parser.step_refines in Hstep. rewrite Hv in Hstep.
    destruct Hstep as (p' & Hparse & Hr & Hcnt & _ & _ & Hf).
    wp_steps. eapply wp_or_fault; [done|]. wp_steps. split_and!.
    + split_and!; [done| |done]. by eapply Parser.count_verdict_ok.
    + by exists p'.
    + by destruct v.
    + done.
  - injection Hv as <- <-. wp_steps. split_and!; [done|by exists (g_msg_parser s); destruct s|done..].
Qed.

Definition armed (use_timeout : Z) : bool := negb (use_timeout =? 0).

Lemma recv_loop_exit fuel use msg tf s :
  negb msg && (tf =? 0) = false -> recv_loop fuel use msg tf s = (Done msg, s).
Proof. intros E. destruct fuel; cbn; by rewrite E. Qed.

(** The timeout part of an iteration. *)
Lemma timer_step_spec use pend s : inv pend s -> (armed use = true -> timer_on s) ->
  wp (if negb (use =? 0) then time_server_runs;; comm_get_timeout else mret 0)
    (fun tf s' => inv pend s' /\ kept s s' /\ g_msg_parser s' = g_msg_parser s /\
       rx_line s' = rx_line s /\ (tf =? 0) = negb (armed use && timeout_due s) /\
       (armed use && negb (timeout_due s) = true -> timer_on s')) total s.
Proof.
  intros Hi Ht. unfold armed in *. destruct (negb (use =? 0)); cbn [andb].
  - wp_step. wp_use ltac:(by apply time_server_runs_spec; [|apply Ht]); [|done].
    intros _ s' (Hi' & Hk & Hp & Hrx & Hsig). unfold comm_get_timeout. wp_step.
    split_and!; try done; destruct (timeout_due s); try done.
    + by rewrite Hsig.
    + by destruct Hsig as [-> _].
  - wp_steps. by split_and!.
Qed.

(** The receive loop implements the reference receiver. *)
Lemma recv_loop_spec use rx : forall s pend fuel r pend' rx',
  rx_line s = rx -> (length rx < fuel)%nat -> inv pend s ->
  (armed use = true -> timer_on s) ->
  recv_spec (armed use) pend rx = (r, pend', rx') ->
  wp (recv_loop fuel use false 0)
    (fun b s' => inv pend' s' /\ kept s s' /\ rx_line s' = rx' /\
       match r with RMsg f => b = true /\ holds f s' | RTimeout => b = false | RBlocked => False end)
    (fun k _ => k = Blocked /\ r = RBlocked) s.
Proof.
  induction rx as [|[d due] rx IH]; intros s pend fuel r pend' rx' Hrx Hf Hi Ht Hspec;
    destruct fuel as [|fuel]; [cbn in Hf; lia| |cbn in Hf; lia|];
    cbn [recv_loop negb andb]; change (0 =? 0) with true; cbn iota.
  { cbn in Hspec. simplify_eq. wp_step. unfold wp, ps_cdev_getchar. by rewrite Hrx. }
  cbn [recv_spec] in Hspec.
  destruct (framer_poll pend (Poll d due)) as [v pend1] eqn:Hv.
  wp_step. eapply wp_getchar; [done|]. wp_step.
  set (s1 := set_rx rx due s).
  wp_use ltac:(by apply (poll_parse_spec d due pend v pend1)); [|done].
  intros msg s2 (Hi2 & [p Hs2] & Hmsg & Hh).
  assert (kept s s2) as Hk2 by by subst s2.
  assert (rx_line s2 = rx /\ timeout_due s2 = due) as [Hrx2 Hdue2] by by subst s2.
  assert (armed use = true -> timer_on s2) as Ht2 by by subst s2.
  wp_step. wp_use ltac:(by apply (timer_step_spec use pend1)); [|done].
  intros tf s3 (Hi3 & Hk3 & Hp3 & Hrx3 & Htf & Ht3). rewrite Hdue2 in Htf, Ht3.
  assert (kept s s3) as Hk by by etrans.
  assert ((exists f, v = Parser.Framed f) \/ ~ exists f, v = Parser.Framed f)
    as [[f ->]|Hnf] by by destruct v as [| | |f]; [right; intros []..|left; exists f].
  { simplify_eq. eapply wp_run; [by apply recv_loop_exit|].
    destruct (Hh f eq_refl). split_and!; try done.
    split; [done|]. by rewrite Hp3. }
  assert (msg = false) as -> by by destruct v; [..|destruct Hnf; eauto].
  assert ((if armed use && due then (RTimeout, pend1, rx) else recv_spec (armed use) pend1 rx)
    = (r, pend', rx')) as Hspec' by by destruct v; [..|destruct Hnf; eauto].
  destruct (armed use && due) eqn:Hfire.
  - injection Hspec' as <- <- <-. eapply wp_run; [by apply recv_loop_exit; rewrite Htf|].
    by split_and!; [| |congruence|].
  - assert (tf = 0) as -> by by apply Z.eqb_eq.
    wp_use ltac:(eapply (IH s3 pend1 fuel); [congruence|cbn in Hf; lia|done| |done]); [| |done].
    + intros Ha. apply Ht3. rewrite Ha in *. by destruct due.
    + cbn. intros b s4 (?&?&?&?). split_and!; try done. by etrans.
Qed.

Lemma holds_header f s (n : nat) :
  holds f s -> (n < 4)%nat ->
  load (Parser.rx_buffer (g_msg_parser s)) (Z.of_nat n) = f !! n.
Proof.
  intros [(_ & Hl & _) Ht] Hn. rewrite load_nat.
  rewrite <- (lookup_take_lt _ (length f)) by lia. by rewrite Ht.
Qed.

Lemma recv_msg_spec use s pend r pend' rx' :
  inv pend s -> recv_spec (armed use) pend (rx_line s) = (r, pend', rx') ->
  wp (comm_recv_msg use)
    (fun b s' => inv pend' s' /\ kept s s' /\ rx_line s' = rx' /\
       (armed use = true -> timer_off s') /\
       match r with RMsg f => b = true /\ holds f s' | RTimeout => b = false | RBlocked => False end)
    (fun k _ => k = Blocked /\ r = RBlocked) s.
Proof.
  intros Hi Hspec. unfold comm_recv_msg. fold (armed use).
  assert (wp (when (armed use) comm_start_timeout) (fun _ s1 => inv pend s1 /\ kept s s1 /\
    rx_line s1 = rx_line s /\ (armed use = true -> timer_on s1)) total s) as Hstart.
  { destruct (armed use); [|by apply wp_ret].
    wp_use ltac:(by apply start_timeout_spec); [|done]. by intros _ s1 (?&?&?&_&?). }
  wp_step. wp_use ltac:(exact Hstart); [|done]. intros _ s1 (Hi1 & Hk1 & Hrx1 & Ht1).
  wp_steps. rewrite <- Hrx1 in Hspec.
  wp_use ltac:(by apply (recv_loop_spec use (rx_line s1) s1 pend _ r pend' rx'); [done|lia|..]); [|done].
  intros b s2 (Hi2 & Hk2 & Hrx2 & Hb). wp_step.
  assert (kept s s2) as Hk by by etrans.
  destruct (armed use); cbn [when].
  - wp_use ltac:(by apply stop_timeout_spec); [|done].
    intros _ s3 (Hi3 & Hk3 & Hoff & Hp3 & Hrx3). wp_steps.
    split_and!; try done; [by etrans|congruence|].
    destruct r; try done. destruct Hb as [-> [? Hh]]. split; [done|].
    split; [done|]. by rewrite Hp3.
  - wp_steps. by split_and!.
Qed.

Lemma wait_loop_spec fuel : forall use subtype s pend r pend' rx',
  inv pend s -> (length (rx_line s) < fuel)%nat ->
  wait_spec (armed use) subtype pend (rx_line s) = (r, pend', rx') ->
  wp (wait_loop fuel subtype use 0 0)
    (fun found s' => inv pend' s' /\ kept s s' /\ rx_line s' = rx' /\
       (armed use = true -> timer_off s') /\
       match r with
       | RMsg f => found = 1 /\ holds f s' /\ is_resp subtype f = true
       | RTimeout => found = 0
       | RBlocked => False
       end)
    (fun k _ => k = Blocked /\ r = RBlocked) s.
Proof.
  induction fuel as [|fuel IH]; intros use subtype s pend r pend' rx' Hi Hf Hspec; [lia|].
  cbn [wait_loop]. change ((0 =? 0) && (0 =? 0)) with true. cbn iota.
  rewrite wait_spec_recv in Hspec.
  destruct (recv_spec (armed use) pend (rx_line s)) as [[r1 pend1] rx1] eqn:Hrecv.
  wp_step. wp_use ltac:(by eapply recv_msg_spec).
  2: { cbn. intros k _ [-> ->]. by simplify_eq. }
  intros b s1 (Hi1 & Hk1 & Hrx1 & Hoff & Hb).
  destruct r1 as [f| |]; [destruct Hb as [-> Hh]|subst b; cbn iota|done].
  - wp_steps.
    pose proof (holds_header f s1 0 Hh ltac:(lia)) as H0'.
    pose proof (holds_header f s1 2 Hh ltac:(lia)) as H2'.
    destruct Hh as [Hfok Htk]. pose proof Hfok as (_ & Hl & _).
    destruct f as [|ty [|sz [|st f]]]; cbn in Hl; try lia.
    eapply wp_or_fault; [exact H0'|]. cbn beta. wp_step. eapply wp_or_fault; [exact H2'|].
    cbn beta. cbn [is_resp] in Hspec.
    destruct (_ && _) eqn:E.
    + simplify_eq. eapply wp_run; [by destruct fuel|].
      split_and!; try done.
    + subst rx1. pose proof (recv_spec_shorter _ _ _ _ _ _ Hrecv).
      wp_use ltac:(by eapply IH; [done|lia|]); [|done].
      intros found s2 (?&?&?&?&?). split_and!; try done. by etrans.
  - simplify_eq. eapply wp_run; [by destruct fuel|]. by split_and!.
Qed.

Lemma wait_for_resp_run use subtype stamp s pend r pend' rx' :
  inv pend s -> wait_spec (armed use) subtype pend (rx_line s) = (r, pend', rx') ->
  wp (comm_wait_for_resp subtype use stamp)
    (fun '(found, ts) s' => inv pend' s' /\ kept s s' /\ rx_line s' = rx' /\
       (armed use = true -> timer_off s') /\
       match r with
       | RMsg f => found = 1 /\ holds f s' /\ is_resp subtype f = true /\
           (if stamp then exists t, ts = Some t /\ 0 <= t < 2 ^ 64 else ts = None)
       | RTimeout => found = 0 /\ ts = None
       | RBlocked => False
       end)
    (fun k _ => k = Blocked /\ r = RBlocked) s.
Proof.
  intros Hi Hspec. unfold comm_wait_for_resp. wp_steps.
  wp_use ltac:(by eapply wait_loop_spec; [done|lia|done]); [|done].
  intros found s1 (Hi1 & Hk1 & Hrx1 & Hoff & Hr). destruct r as [f| |]; [|subst found|done].
  - destruct Hr as (-> & Hh & Hresp). destruct stamp; cbn [Z.eqb negb andb]; wp_steps.
    2: { by split_and!. }
    apply wp_svc. destruct Hi1 as (? & ? & Hs1).
    wp_use ltac:(by apply serves_get_time); [|done].
    intros t w (Hok & Ht & Hlog & Hcb). wp_steps.
    destruct Hk1 as (?&?&?&?&?). split_and!; try done.
    + split_and!; try done. by etrans.
    + intros Ha. destruct (Hoff Ha) as [? Hoff']. split; [done|]. cbn. by rewrite Hcb.
    + by exists t.
  - wp_steps. by split_and!.
Qed.

(** *** Transmission *)

Lemma send_loop_run fuel : forall idx size s,
  header_size (g_msg_tx_buffer s) = Some size -> 0 <= idx <= size -> size <= 255 ->
  size <= Z.of_nat (length (g_msg_tx_buffer s)) -> (Z.to_nat (size - idx) < fuel)%nat ->
  send_loop fuel idx s =
  (Done tt, set_line (line s ++
     (Putchar <$> take (Z.to_nat (size - idx)) (drop (Z.to_nat idx) (g_msg_tx_buffer s)))) s).
Proof.
  induction fuel as [|fuel IH]; intros idx size s Hsz Hi H255 Hl Hf; [lia|].
  cbn [send_loop]. erewrite bind_done by done.
  erewrite bind_done by by rewrite Hsz.
  destruct (Z.ltb_spec idx size).
  - destruct (lookup_lt_is_Some_2 (g_msg_tx_buffer s) (Z.to_nat idx)) as [c Hc]; [lia|].
    assert (load (g_msg_tx_buffer s) idx = Some c) as Hld.
    { unfold load. by rewrite decide_True, Hc by lia. }
    erewrite bind_done by by rewrite Hld.
    erewrite bind_done by done.
    assert (u16 (idx + 1) = idx + 1) as -> by (unfold u16; apply Z.mod_small; lia).
    rewrite (IH (idx + 1) size) by (done || lia). f_equal. cbn.
    rewrite (drop_S _ _ _ Hc).
    replace (Z.to_nat (size - idx)) with (S (Z.to_nat (size - (idx + 1)))) by lia.
    replace (Z.to_nat (idx + 1)) with (S (Z.to_nat idx)) by lia.
    cbn. unfold set_line. cbn. by rewrite <- app_assoc.
  - replace (size - idx) with 0 by lia. cbn. rewrite app_nil_r. by destruct s.
Qed.

Lemma send_frame f rest s :
  g_msg_tx_buffer s = f ++ rest -> f !! 1%nat = Some (Z.of_nat (length f)) ->
  (length f <= 255)%nat ->
  comm_send_msg s =
  (Done tt, if listen_only (g_comm s) =? 0
            then set_line (line s ++ (Putchar <$> f)) s else s).
Proof.
  intros Htx Hsz Hl. unfold comm_send_msg. erewrite bind_done by done.
  destruct (_ =? 0); cbn [when]; [|done].
  rewrite (send_loop_run 256 0 (Z.of_nat (length f))).
  - rewrite Htx. replace (Z.to_nat (Z.of_nat (length f) - 0)) with (length f) by lia.
    change (Z.to_nat 0) with 0%nat. by rewrite drop_0, take_app_length.
  - unfold header_size. rewrite Htx. change 1 with (Z.of_nat 1). rewrite load_nat.
    by apply lookup_app_l_Some.
  - lia.
  - lia.
  - rewrite Htx, length_app. lia.
  - lia.
Qed.

Lemma driver_ok e r s : r (line s) = 0 ->
  (err ← driver e r; ZF_LOGF_IF (negb (err =? 0))) s =
  (Done tt, set_line (line s ++ [e]) s).
Proof. intros Hr. apply run_of_wp. unfold driver, emit. wp_steps. by rewrite Hr. Qed.

Lemma gpio_init_seq_run s : (forall h, gpio_clr h = 0) -> (forall h, gpio_set h = 0) ->
  comm_gpio_init_seq s =
  (Done tt, set_line (line s ++
     (if listen_only (g_comm s) =? 0
      then [GpioClr; DelayMs 70; GpioSet; DelayMs 120] else [DelayMs 70; DelayMs 120])) s).
Proof.
  intros H1 H2. unfold comm_gpio_init_seq. erewrite bind_done by done.
  destruct (listen_only (g_comm s) =? 0) eqn:E; cbn [when].
  - erewrite bind_done by by apply driver_ok. erewrite bind_done by done.
    erewrite bind_done by done. cbn [g_comm set_line]. rewrite E. cbn [when].
    erewrite bind_done by by apply driver_ok. cbn.
    unfold emit, modify, set_line. cbn. by rewrite <- !app_assoc.
  - erewrite bind_done by done. erewrite bind_done by done.
    erewrite bind_done by done. cbn [g_comm set_line]. rewrite E. cbn [when].
    erewrite bind_done by done. cbn.
    unfold emit, modify, set_line. cbn. by rewrite <- !app_assoc.
Qed.

Lemma ecu_init_seq_run s :
  (forall h, gpio_clr h = 0) -> (forall h, gpio_set h = 0) -> (forall h, serial_configure h = 0) ->
  comm_ecu_init_seq s =
  (Done tt, set_line (line s ++
     (if listen_only (g_comm s) =? 0
      then [GpioClr; DelayMs 70; GpioSet; DelayMs 120] else [DelayMs 70; DelayMs 120]) ++
     [SerialConfigure 10400 8 PARITY_NONE 1]) s).
Proof.
  intros H1 H2 H3. unfold comm_ecu_init_seq.
  erewrite bind_done by by apply gpio_init_seq_run.
  rewrite driver_ok by done. cbn. by rewrite <- app_assoc.
Qed.

(** *** Properties *)

(** [comm_recv_msg] with a timeout always returns once the timeout fires
    after some poll of the input, whatever else arrives.  It returns either
    [NULL] or a receive buffer that starts with a well-formed frame, it leaves
    the timeout deregistered and its flag clear, and it sends nothing and logs
    nothing. *)
Theorem comm_recv_msg_returns use s pend :
  inv pend s -> use <> 0 -> existsb poll_timeout (rx_line s) = true ->
  exists b s' pend', comm_recv_msg use s = (Done b, s') /\ inv pend' s' /\
    (b = true -> exists f, holds f s') /\ timer_off s' /\
    line s' = line s /\ logged (services s') = logged (services s).
Proof.
  intros Hi Hu Hx. destruct (recv_spec (armed use) pend (rx_line s)) as [[r pend'] rx'] eqn:E.
  pose proof (recv_msg_spec use s pend r pend' rx' Hi E) as Hwp.
  assert (armed use = true) as Ha by by apply negb_true_iff, Z.eqb_neq.
  unfold wp in Hwp. destruct (comm_recv_msg use s) as [[b|k] s'].
  - destruct Hwp as (Hi' & (_ & _ & Hl & Hlog & _) & _ & Hoff & Hr).
    exists b, s', pend'. split_and!; try done; [|by apply Hoff].
    intros ->. destruct r as [f| |]; [|done..]. exists f. apply Hr.
  - destruct Hwp as [_ ->]. exfalso. rewrite Ha in E. clear Hi. revert pend E Hx.
    induction (rx_line s) as [|p rx IH]; intros pend; cbn; [done|].
    destruct (framer_poll pend p) as [v pend1]. destruct (poll_timeout p).
    + by destruct v.
    + intros E Hx. apply (IH pend1); [by destruct v|done].
Qed.

(** C21: [comm_wait_for_resp] implements the reference receiver [wait_spec]: it
    returns 1 exactly when the polls complete a well-formed response of the
    wanted subtype before the timeout of the message before it fires, with that
    frame in the receive buffer and a time stamp, and 0 without one when the
    timeout fires first; it consumes exactly the polls the reference does. *)
Theorem comm_wait_for_resp_refines use subtype s pend :
  inv pend s ->
  let '(r, pend', rx') := wait_spec (armed use) subtype pend (rx_line s) in
  exists o s', comm_wait_for_resp subtype use true s = (o, s') /\
    match r with
    | RMsg f => (exists t, o = Done (1, Some t) /\ 0 <= t < 2 ^ 64) /\ holds f s' /\
        header_type f = Some HOBD_MSG_TYPE_RESPONSE /\ header_subtype f = Some subtype /\
        inv pend' s' /\ rx_line s' = rx'
    | RTimeout => o = Done (0, None) /\ inv pend' s' /\ rx_line s' = rx'
    | RBlocked => o = Stop Blocked
    end.
Proof.
  intros Hi. destruct (wait_spec (armed use) subtype pend (rx_line s)) as [[r pend'] rx'] eqn:E.
  pose proof (wait_for_resp_run use subtype true s pend r pend' rx' Hi E) as Hwp.
  unfold wp in Hwp. destruct (comm_wait_for_resp subtype use true s) as [[[found ts]|k] s'].
  - destruct Hwp as (Hi' & _ & Hrx & _ & Hr). eexists _, s'. split; [done|].
    destruct r as [f| |]; [|by destruct Hr as [-> ->]|done].
    destruct Hr as (-> & Hh & Hresp & t & -> & Ht).
    split; [by exists t|]. split; [done|].
    destruct f as [|ty [|sz [|st f]]]; try done. cbn in Hresp.
    by apply andb_true_iff in Hresp as [->%Z.eqb_eq ->%Z.eqb_eq].
  - destruct Hwp as [-> ->]. by eexists _, s'.
Qed.

(** With K-line access the initialisation sequence is low for 70 ms, high
    for 120 ms, then the serial port at the K-line rate; in listen-only mode it
    waits for the same time without touching the line.  Nothing else of the
    thread's state changes. *)
Theorem comm_ecu_init_seq_spec s :
  (forall h, gpio_clr h = 0) -> (forall h, gpio_set h = 0) -> (forall h, serial_configure h = 0) ->
  comm_ecu_init_seq s =
  (Done tt, set_line (line s ++
     (if listen_only (g_comm s) =? 0
      then [GpioClr; DelayMs 70; GpioSet; DelayMs 120] else [DelayMs 70; DelayMs 120]) ++
     [SerialConfigure 10400 8 PARITY_NONE 1]) s).
Proof. exact (ecu_init_seq_run s). Qed.

End recv.

(** *** The table queries *)

Lemma fill_query_run table offset count buf stale :
  byte table -> byte offset -> byte count -> (8 <= length buf)%nat ->
  buf !! 6%nat = Some stale ->
  fill_query table offset count buf =
  Some (mk_frame HOBD_MSG_TYPE_QUERY HOBD_MSG_SUBTYPE_TABLE_SUBGROUP
          [table; offset; count; stale] ++ drop 8 buf).
Proof.
  intros Ht Ho Hc Hl Hs.
  destruct buf as [|b0 [|b1 [|b2 [|b3 [|b4 [|b5 [|b6 [|b7 buf]]]]]]]]; cbn in Hl; try lia.
  cbn in Hs. injection Hs as ->.
  unfold fill_query, set_data.
  change (3 + 0) with (Z.of_nat 3). change (3 + 1) with (Z.of_nat 4).
  change (3 + 2) with (Z.of_nat 5).
  do 3 (rewrite store_nat by (cbn; lia); cbn -[Z.of_nat store Msg.hobd_msg mk_frame]).
  unfold byte, u8 in *. rewrite !Z.mod_small by (done || lia).
  pose proof (Msg.hobd_msg_run HOBD_MSG_TYPE_QUERY HOBD_MSG_SUBTYPE_TABLE_SUBGROUP
    [table; offset; count; stale] b7 buf [b0; b1; b2] eq_refl) as Hrun.
  change (Z.of_nat (length _)) with SIZEOF_POINTER in Hrun.
  cbn [app] in Hrun. rewrite Hrun; [done|done|done|cbn; lia].
Qed.

(** Both table queries are 8-byte messages, one byte longer than header,
    query structure and checksum: the payload is as long as a pointer, and its
    last byte is whatever byte 6 of the transmit buffer held before.  The
    message is still a well-formed frame. *)
Theorem table_query_carries_stale_byte buf stale :
  bytes buf -> (8 <= length buf)%nat -> buf !! 6%nat = Some stale ->
  let q10 := mk_frame HOBD_MSG_TYPE_QUERY HOBD_MSG_SUBTYPE_TABLE_SUBGROUP
               [HOBD_TABLE_10; 0; 0x80; stale] in
  let qd1 := mk_frame HOBD_MSG_TYPE_QUERY HOBD_MSG_SUBTYPE_TABLE_SUBGROUP
               [HOBD_TABLE_D1; 0; 0x06; stale] in
  comm_fill_msg_subgroub_10_query buf = Some (q10 ++ drop 8 buf) /\
  comm_fill_msg_subgroub_d1_query buf = Some (qd1 ++ drop 8 buf) /\
  length q10 = 8%nat /\ length qd1 = 8%nat /\ frame_ok q10 /\ frame_ok qd1.
Proof.
  intros Hb Hl Hs. pose proof (bytes_lookup _ _ _ Hb Hs) as Hst.
  split_and!; try (by apply fill_query_run); try done;
    (apply mk_frame_ok; [done..| |cbn; lia]); by repeat apply Forall_cons_2.
Qed.

(** *** The properties at concrete inputs *)

Definition demo_hw : Hw := {|
  gpio_new _ := 0; gpio_clr _ := 0; gpio_set _ := 0; serial_configure _ := 0;
  PARITY_NONE := 0; NS_IN_MS := 1000000 |}.

#[local] Existing Instance demo_hw.
#[local] Existing Instance log_aborts.

(** A thread that talks on the line, over a given input. *)
Definition demo_state (rx : list poll) : hobd_s toy :=
  mk_hobd (mk_comm 1 0 COMM_STATE_GPIO_INIT 1 0 0 0) Parser.zero_parser (replicate 256 0x55)
    (mk_stats 0 0 0 0 0) rx false [] (Toy 1000 [] []).

(** Polls that deliver bytes without a timeout. *)
Definition polls (bs : list Z) : list poll := map (fun b => Poll b false) bs.

Lemma demo_inv rx : inv [] (demo_state rx).
Proof.
  split; [|split; [|by apply toy_serves]].
  - apply Parser.repr_nil; [|done]. cbn [demo_state g_msg_parser Parser.zero_parser
      Parser.rx_buffer]. rewrite length_replicate. lia.
  - split; reflexivity.
Qed.

Lemma comm_recv_msg_returns_witness :
  let s := demo_state (polls [0x02; 0x04] ++ [Poll (-1) true]) in
  exists b s' pend', comm_recv_msg 1 s = (Done b, s') /\
    inv pend' s' /\ (b = true -> exists f, holds f s') /\ timer_off s' /\
    line s' = line s /\ logged (services s') = logged (services s).
Proof.
  intros s. refine (comm_recv_msg_returns 1 s [] (demo_inv _) _ _); [discriminate | reflexivity].
Defined.

(** An unrelated message, then the response. *)
Lemma comm_wait_for_resp_refines_witness :
  let s := demo_state (polls ([0xFE; 0x04; 0xFF; 0xFF] ++ [0x02; 0x04; 0x00; 0xFA; 0x72])) in
  exists o s', comm_wait_for_resp HOBD_MSG_SUBTYPE_INIT 1 true s
      = (o, s') /\
    (exists t, o = Done (1, Some t) /\ 0 <= t < 2 ^ 64) /\
    holds [0x02; 0x04; 0x00; 0xFA] s' /\
    Some 0x02 = Some HOBD_MSG_TYPE_RESPONSE /\ Some 0x00 = Some HOBD_MSG_SUBTYPE_INIT /\
    inv [] s' /\ rx_line s' = polls [0x72].
Proof.
  intros s. exact (comm_wait_for_resp_refines 1 HOBD_MSG_SUBTYPE_INIT s [] (demo_inv _)).
Defined.

Lemma comm_ecu_init_seq_spec_witness :
  comm_ecu_init_seq (demo_state []) =
  (Done tt, set_line [GpioClr; DelayMs 70; GpioSet; DelayMs 120;
                      SerialConfigure 10400 8 0 1] (demo_state [])).
Proof.
  exact (comm_ecu_init_seq_spec (demo_state [])
    (fun _ => eq_refl) (fun _ => eq_refl) (fun _ => eq_refl)).
Defined.

Lemma table_query_carries_stale_byte_witness :
  let q10 := [0x72; 0x08; 0x72; 0x10; 0x00; 0x80; 0x55; 0x2F] in
  let qd1 := [0x72; 0x08; 0x72; 0xD1; 0x00; 0x06; 0x55; 0xE8] in
  comm_fill_msg_subgroub_10_query (replicate 10 0x55) = Some (q10 ++ [0x55; 0x55]) /\
  comm_fill_msg_subgroub_d1_query (replicate 10 0x55) = Some (qd1 ++ [0x55; 0x55]) /\
  length q10 = 8%nat /\ length qd1 = 8%nat /\ frame_ok q10 /\ frame_ok qd1.
Proof.
  refine (table_query_carries_stale_byte (replicate 10 0x55) 0x55 _ _ eq_refl).
  - decide_now.
  - cbn. lia.
Defined.

End Comm.
