(* ===== verification/HobdModule.v ===== *)
(** The HOBD module, modules/hobd/src/hobd_module.c: the thread that talks to
    the ECU, its diagnostic state machine, the messages it answers, and the
    calls the other modules make to it (modules/hobd/include/hobd.h). *)
From S2P Require Import Prelude Kline Parser Msg Services Ipc MmcEntry Comm.

Module HobdModule.
Import Ipc Comm.

Definition ENDPOINT_BADGE : Z := IPC_ENDPOINT_BADGE HOBDMOD_BASE_BADGE.

Definition IPC_MSG_TYPE_STATS_REQ : Z := IPC_MSG_TYPE_ID HOBDMOD_BASE_BADGE 1.
Definition IPC_MSG_TYPE_STATS_RESP : Z := IPC_MSG_TYPE_ID HOBDMOD_BASE_BADGE 2.
Definition IPC_MSG_TYPE_COMM_STATE_REQ : Z := IPC_MSG_TYPE_ID HOBDMOD_BASE_BADGE 3.
Definition IPC_MSG_TYPE_COMM_STATE_SET_REQ : Z := IPC_MSG_TYPE_ID HOBDMOD_BASE_BADGE 4.
Definition IPC_MSG_TYPE_COMM_STATE_RESP : Z := IPC_MSG_TYPE_ID HOBDMOD_BASE_BADGE 5.
Definition IPC_MSG_TYPE_LISTEN_ONLY_REQ : Z := IPC_MSG_TYPE_ID HOBDMOD_BASE_BADGE 6.
Definition IPC_MSG_TYPE_LISTEN_ONLY_SET_REQ : Z := IPC_MSG_TYPE_ID HOBDMOD_BASE_BADGE 7.
Definition IPC_MSG_TYPE_LISTEN_ONLY_RESP : Z := IPC_MSG_TYPE_ID HOBDMOD_BASE_BADGE 8.

Definition MSG_RX_BUFFER_SIZE : Z := 512.
Definition MSG_TX_BUFFER_SIZE : Z := HOBD_MSG_SIZE_MAX + 1.

(** [hobd_stats_s] as it lies in memory, and the updates of its fields. *)
Definition stats_bytes (st : hobd_stats_s) : list Z :=
  le_bytes 8 (timestamp st) ++ le_bytes 2 (valid_rx_count st) ++
  le_bytes 2 (invalid_rx_count st) ++ le_bytes 2 (gpio_retry_count st) ++
  le_bytes 2 (init_retry_count st).
Definition SIZEOF_STATS : Z := 16.
Definition stats_of_bytes (l : list Z) : hobd_stats_s :=
  mk_stats (le_val (take 8 l)) (le_val (take 2 (drop 8 l))) (le_val (take 2 (drop 10 l)))
    (le_val (take 2 (drop 12 l))) (le_val (take 2 (drop 14 l))).

Definition count_gpio_retry (st : hobd_stats_s) : hobd_stats_s :=
  mk_stats (timestamp st) (valid_rx_count st) (invalid_rx_count st)
    (u16 (gpio_retry_count st + 1)) (init_retry_count st).
Definition count_init_retry (st : hobd_stats_s) : hobd_stats_s :=
  mk_stats (timestamp st) (valid_rx_count st) (invalid_rx_count st)
    (gpio_retry_count st) (u16 (init_retry_count st + 1)).
Definition sample_stats (t valid invalid : Z) (st : hobd_stats_s) : hobd_stats_s :=
  mk_stats t valid invalid (gpio_retry_count st) (init_retry_count st).

Section comm_thread.
Context `{LogPolicy} `{Hw} {W : Type} `{!Services W}.
Abbreviation T := (M (hobd_s W)).

(** A message builder, applied to the transmit buffer. *)
Definition on_tx (f : list Z -> option (list Z)) : T unit :=
  b ← gets g_msg_tx_buffer; b ← or_fault (f b); modify (set_tx b).

Definition new_hobd_msg_callback (rx_timestamp : Z) : T unit :=
  msg ← gets (fun s => Parser.rx_buffer (g_msg_parser s));
  size ← or_fault (header_size msg);
  svc (mmc_log_entry_data MMC_ENTRY_TYPE_HOBD_MSG (u16 size) (Some rx_timestamp) msg 0).

(** A message of the transmit buffer, logged under the time of the call. *)
Definition log_tx (size : Z) : T unit :=
  msg ← gets g_msg_tx_buffer;
  svc (mmc_log_entry_data MMC_ENTRY_TYPE_HOBD_MSG size None msg 0).

Definition send_ecu_diag_messages : T unit :=
  modify (fun s => set_parser (Parser.hobd_parser_reset (g_msg_parser s)) s);;
  on_tx (fun b => snd <$> Msg.hobd_msg_no_data HOBD_MSG_TYPE_WAKE_UP HOBD_MSG_SUBTYPE_WAKE_UP b);;
  comm_send_msg;;
  log_tx HOBD_MSG_HEADERCS_SIZE;;
  emit (DelayMs 1);;
  on_tx (set_data 0 HOBD_INIT_DATA);;
  on_tx (fun b => snd <$> Msg.hobd_msg HOBD_MSG_TYPE_QUERY HOBD_MSG_SUBTYPE_INIT 1 b);;
  comm_send_msg;;
  log_tx (HOBD_MSG_HEADERCS_SIZE + 1).

Definition send_table_req (table : Z) : T unit :=
  (if table =? HOBD_TABLE_10 then on_tx comm_fill_msg_subgroub_10_query
   else if table =? HOBD_TABLE_D1 then on_tx comm_fill_msg_subgroub_d1_query
   else c_assert false);;
  comm_send_msg;;
  size ← (msg ← gets g_msg_tx_buffer; or_fault (header_size msg));
  log_tx (u16 size).

(** The wait that ends every branch: the response is passed on and the state
    is [found], or it is [lost].  The time stamp is only read when the wait
    stored it. *)
Definition await_resp (subtype : Z) (found lost : comm_state_kind) : T unit :=
  '(msg_found, rx_timestamp) ← comm_wait_for_resp subtype 1 true;
  if msg_found =? 1
  then rx_timestamp ← or_fault rx_timestamp;
       new_hobd_msg_callback rx_timestamp;;
       on_comm (set_state found)
  else on_comm (set_state lost).

Definition comm_update_state : T unit :=
  c ← gets g_comm;
  match state c with
  | COMM_STATE_GPIO_INIT =>
      comm_ecu_init_seq;;
      on_comm (set_state COMM_STATE_SEND_ECU_INIT);;
      modify (fun s => set_stats (count_gpio_retry (stats s)) s)
  | COMM_STATE_SEND_ECU_INIT =>
      send_ecu_diag_messages;;
      modify (fun s => set_stats (count_init_retry (stats s)) s);;
      await_resp HOBD_MSG_SUBTYPE_INIT COMM_STATE_SEND_REQ0 COMM_STATE_GPIO_INIT
  | COMM_STATE_SEND_REQ0 =>
      send_table_req HOBD_TABLE_10;;
      await_resp HOBD_MSG_SUBTYPE_TABLE_SUBGROUP COMM_STATE_SEND_REQ1 COMM_STATE_SEND_ECU_INIT
  | COMM_STATE_SEND_REQ1 =>
      send_table_req HOBD_TABLE_D1;;
      await_resp HOBD_MSG_SUBTYPE_TABLE_SUBGROUP COMM_STATE_SEND_REQ0 COMM_STATE_SEND_ECU_INIT
  end.

(** The thread up to its loop: [rx_buffer] is the static receive buffer. *)
Definition thread_init (rx_buffer : list Z) : T unit :=
  svc system_module_wait_for_start;;
  id ← svc time_server_alloc_id;
  on_comm (set_timeout_id id);;
  zoom g_msg_parser set_parser (Parser.hobd_parser_init rx_buffer MSG_RX_BUFFER_SIZE);;
  err ← driver GpioNew gpio_new;
  ZF_LOGF_IF (negb (err =? 0));;
  c ← gets g_comm;
  when (negb (listen_only c =? 0))
    (err ← driver (SerialConfigure HOBD_KLINE_BAUD 8 PARITY_NONE 1) serial_configure;
     ZF_LOGF_IF (negb (err =? 0)));;
  on_comm (set_state COMM_STATE_GPIO_INIT).

(** The communication half of an iteration with comms enabled: in listen-only
    mode, messages seen on the K-line are logged. *)
Definition listen_step : T unit :=
  hobd_msg ← comm_recv_msg 1;
  when hobd_msg
    (timestamp ← svc time_server_get_time; new_hobd_msg_callback timestamp).
Definition comm_step : T unit :=
  c ← gets g_comm;
  if listen_only c =? 0 then comm_update_state else listen_step.

End comm_thread.

(** ** The endpoint

    The thread with its message registers, what its receives will find (the
    script [ep], in which badge 0 is a non-blocking receive that finds
    nothing) and what it replied. *)
Record thread_s (W : Type) := mk_thread {
  hobd : hobd_s W;
  g_regs : regs;
  ep : list ipc_msg;
  replies : list (Z * list Z);
}.
Arguments mk_thread {W}.
Arguments hobd {W}.
Arguments g_regs {W}.
Arguments ep {W}.
Arguments replies {W}.

Section endpoint.
Context `{LogPolicy} `{Hw} {W : Type} `{!Services W} `{!Kernel}.
Abbreviation T := (M (thread_s W)).

Definition on_hobd {A} (m : M (hobd_s W) A) : T A :=
  zoom hobd (fun h t => mk_thread h (g_regs t) (ep t) (replies t)) m.

(** The message's words are in the registers when a receive returns. *)
Definition received (m : ipc_msg) (rest : list ipc_msg) (t : thread_s W) : thread_s W :=
  mk_thread (hobd t) (if msg_badge m =? 0 then g_regs t else receive_regs (msg_words m) (g_regs t))
    rest (replies t).

Definition seL4_NBRecv : T ipc_msg := fun t =>
  match ep t with
  | [] => (Done (Msg 0 0 0 []), t)
  | m :: rest => (Done m, received m rest t)
  end.

(** The blocking receive waits for a message. *)
Fixpoint next_msg (l : list ipc_msg) : option (ipc_msg * list ipc_msg) :=
  match l with
  | [] => None
  | m :: l => if msg_badge m =? 0 then next_msg l else Some (m, l)
  end.
Definition seL4_Recv : T ipc_msg := fun t =>
  match next_msg (ep t) with
  | None => (Stop Blocked, t)
  | Some (m, rest) => (Done m, received m rest t)
  end.

Definition seL4_Reply (label length : Z) : T unit := modify (fun t =>
  mk_thread (hobd t) (g_regs t) (ep t)
    (replies t ++ [(label, take (Z.to_nat length) (words (g_regs t)))])).

(** [seL4_SetMR(0, v)], [seL4_GetMR(0)] and the transfer of a structure. *)
Definition on_regs (f : regs -> option regs) : T unit :=
  r ← gets g_regs; r ← or_fault (f r);
  modify (fun t => mk_thread (hobd t) r (ep t) (replies t)).
Definition get_mr0 : T Z := r ← gets g_regs; or_fault (seL4_GetMR 0 r).

Definition handle_stats_req : T unit :=
  t ← on_hobd (svc time_server_get_time);
  on_hobd (modify (fun s => set_stats
    (sample_stats t (Parser.valid_count (g_msg_parser s)) (Parser.invalid_count (g_msg_parser s))
       (stats s)) s));;
  st ← on_hobd (gets stats);
  on_regs (sel4_mr_send (SIZEOF_STATS / 4) (words_of_bytes (stats_bytes st)));;
  seL4_Reply IPC_MSG_TYPE_STATS_RESP (SIZEOF_STATS / 4).

Definition handle_comm_state_req : T unit :=
  c ← on_hobd (gets g_comm);
  on_regs (seL4_SetMR 0 (enabled c));;
  seL4_Reply IPC_MSG_TYPE_COMM_STATE_RESP 1.

(** Both [SET_REQ] branches set the flag from the request's word, reset the
    parser and restart the state machine. *)
Definition handle_comm_state_set_req : T unit :=
  desired_state ← get_mr0;
  on_hobd (on_comm (set_enabled (if desired_state =? 0 then 0 else 1)));;
  on_hobd (modify (fun s => set_parser (Parser.hobd_parser_reset (g_msg_parser s)) s));;
  on_hobd (on_comm (set_state COMM_STATE_GPIO_INIT));;
  c ← on_hobd (gets g_comm);
  on_regs (seL4_SetMR 0 (enabled c));;
  seL4_Reply IPC_MSG_TYPE_COMM_STATE_RESP 1.

Definition handle_listen_only_req : T unit :=
  c ← on_hobd (gets g_comm);
  on_regs (seL4_SetMR 0 (listen_only c));;
  seL4_Reply IPC_MSG_TYPE_LISTEN_ONLY_RESP 1.

Definition handle_listen_only_set_req : T unit :=
  desired_state ← get_mr0;
  on_hobd (on_comm (set_listen_only (if desired_state =? 0 then 0 else 1)));;
  on_hobd (modify (fun s => set_parser (Parser.hobd_parser_reset (g_msg_parser s)) s));;
  on_hobd (on_comm (set_state COMM_STATE_GPIO_INIT));;
  c ← on_hobd (gets g_comm);
  on_regs (seL4_SetMR 0 (listen_only c));;
  seL4_Reply IPC_MSG_TYPE_LISTEN_ONLY_RESP 1.

Definition dispatch (msg_label : Z) : T unit :=
  if msg_label =? IPC_MSG_TYPE_STATS_REQ then handle_stats_req
  else if msg_label =? IPC_MSG_TYPE_COMM_STATE_REQ then handle_comm_state_req
  else if msg_label =? IPC_MSG_TYPE_COMM_STATE_SET_REQ then handle_comm_state_set_req
  else if msg_label =? IPC_MSG_TYPE_LISTEN_ONLY_REQ then handle_listen_only_req
  else if msg_label =? IPC_MSG_TYPE_LISTEN_ONLY_SET_REQ then handle_listen_only_set_req
  else ZF_LOGF.

(** The second half of an iteration: the message that was received, if any. *)
Definition handle_ipc (m : ipc_msg) : T unit :=
  if negb (msg_badge m =? 0) && negb (msg_label m =? 0) then
    ZF_LOGF_IF (negb (msg_badge m =? ENDPOINT_BADGE));;
    dispatch (msg_label m)
  else mret tt.

Definition thread_iteration : T unit :=
  c ← on_hobd (gets g_comm);
  m ← (if negb (enabled c =? 0) then on_hobd comm_step;; seL4_NBRecv else seL4_Recv);
  handle_ipc m.

(** [n] iterations of the loop, and the whole thread. *)
Fixpoint thread_loop (n : nat) : T unit :=
  match n with O => mret tt | S n => thread_iteration;; thread_loop n end.
Definition obd_comm_thread_fn (rx_buffer : list Z) (n : nat) : T unit :=
  on_hobd (thread_init rx_buffer);; thread_loop n.

(** The flags [hobd_module_init] sets before the thread starts. *)
Definition hobd_module_init (c : comm_s) : comm_s := set_listen_only 1 (set_enabled 0 c).

End endpoint.

(** ** The calls of the other modules *)

Section rpc.
Context `{LogPolicy} `{!Kernel} {P : Type} (call : ipc_msg -> M P (Z * list Z)).
Abbreviation T := (M (client P)).

(** The request of a word and the reply of a word. *)
Definition check_resp (label len expected_label expected_len : Z) : T unit :=
  ZF_LOGF_IF (negb (label =? expected_label));;
  ZF_LOGF_IF (negb (len =? expected_len)).

Definition hobd_get_stats : T hobd_stats_s :=
  ZF_LOGF_IF (negb (SIZEOF_STATS mod 4 =? 0));;
  '(label, len) ← seL4_Call call ENDPOINT_BADGE IPC_MSG_TYPE_STATS_REQ 0;
  check_resp label len IPC_MSG_TYPE_STATS_RESP (SIZEOF_STATS / 4);;
  ws ← client_mr_recv (SIZEOF_STATS / 4);
  mret (stats_of_bytes (bytes_of_words ws)).

Definition hobd_set_comm_state (state : Z) : T Z :=
  client_SetMR 0 state;;
  '(label, len) ← seL4_Call call ENDPOINT_BADGE IPC_MSG_TYPE_COMM_STATE_SET_REQ 1;
  check_resp label len IPC_MSG_TYPE_COMM_STATE_RESP 1;;
  client_GetMR 0.

Definition hobd_get_comm_state : T Z :=
  '(label, len) ← seL4_Call call ENDPOINT_BADGE IPC_MSG_TYPE_COMM_STATE_REQ 0;
  check_resp label len IPC_MSG_TYPE_COMM_STATE_RESP 1;;
  client_GetMR 0.

Definition hobd_set_listen_only (state : Z) : T Z :=
  client_SetMR 0 state;;
  '(label, len) ← seL4_Call call ENDPOINT_BADGE IPC_MSG_TYPE_LISTEN_ONLY_SET_REQ 1;
  check_resp label len IPC_MSG_TYPE_LISTEN_ONLY_RESP 1;;
  client_GetMR 0.

Definition hobd_get_listen_only : T Z :=
  '(label, len) ← seL4_Call call ENDPOINT_BADGE IPC_MSG_TYPE_LISTEN_ONLY_REQ 0;
  check_resp label len IPC_MSG_TYPE_LISTEN_ONLY_RESP 1;;
  client_GetMR 0.
End rpc.

(** The thread as the peer of a call: it receives the message, handles it, and
    the caller waits for the reply. *)
Definition serve `{LogPolicy} `{Hw} {W} `{!Services W} `{!Kernel} (m : ipc_msg) :
    M (thread_s W) (Z * list Z) :=
  n ← gets (fun t => length (replies t));
  modify (fun t => received m (ep t) t);;
  handle_ipc m;;
  rs ← gets replies;
  match rs !! n with Some reply => mret reply | None => stop_with Blocked end.

(** ** The state machine *)

(** The messages the thread sends. *)
Definition wake_up_frame : list Z := mk_frame HOBD_MSG_TYPE_WAKE_UP HOBD_MSG_SUBTYPE_WAKE_UP [].
Definition init_frame : list Z :=
  mk_frame HOBD_MSG_TYPE_QUERY HOBD_MSG_SUBTYPE_INIT [HOBD_INIT_DATA].
Definition query_frame (table count : Z) : list Z :=
  mk_frame HOBD_MSG_TYPE_QUERY HOBD_MSG_SUBTYPE_TABLE_SUBGROUP [table; 0; count; 0].

(** What a state sends, does to the line, and its successors. *)
Definition sends (st : comm_state_kind) : list (list Z) :=
  match st with
  | COMM_STATE_GPIO_INIT => []
  | COMM_STATE_SEND_ECU_INIT => [wake_up_frame; init_frame]
  | COMM_STATE_SEND_REQ0 => [query_frame HOBD_TABLE_10 0x80]
  | COMM_STATE_SEND_REQ1 => [query_frame HOBD_TABLE_D1 0x06]
  end.
Definition traffic `{Hw} (st : comm_state_kind) : list line_event :=
  match st with
  | COMM_STATE_GPIO_INIT =>
      [GpioClr; DelayMs 70; GpioSet; DelayMs 120; SerialConfigure 10400 8 PARITY_NONE 1]
  | COMM_STATE_SEND_ECU_INIT =>
      (Putchar <$> wake_up_frame) ++ [DelayMs 1] ++ (Putchar <$> init_frame)
  | COMM_STATE_SEND_REQ0 => Putchar <$> query_frame HOBD_TABLE_10 0x80
  | COMM_STATE_SEND_REQ1 => Putchar <$> query_frame HOBD_TABLE_D1 0x06
  end.
Definition next_state (st : comm_state_kind) (answered : bool) : comm_state_kind :=
  match st, answered with
  | COMM_STATE_GPIO_INIT, _ => COMM_STATE_SEND_ECU_INIT
  | COMM_STATE_SEND_ECU_INIT, true => COMM_STATE_SEND_REQ0
  | COMM_STATE_SEND_ECU_INIT, false => COMM_STATE_GPIO_INIT
  | COMM_STATE_SEND_REQ0, true => COMM_STATE_SEND_REQ1
  | COMM_STATE_SEND_REQ1, true => COMM_STATE_SEND_REQ0
  | _, false => COMM_STATE_SEND_ECU_INIT
  end.
Definition answered (r : recv_result) : bool := if r is RMsg _ then true else false.
Definition received_frames (r : recv_result) : list (list Z) := if r is RMsg f then [f] else [].
Definition count_retry (st : comm_state_kind) : hobd_stats_s -> hobd_stats_s :=
  match st with
  | COMM_STATE_GPIO_INIT => count_gpio_retry
  | COMM_STATE_SEND_ECU_INIT => count_init_retry
  | _ => id
  end.

(** What a state receives: the connection request resets the parser before it
    waits, the table requests do not. *)
Definition state_receives (st : comm_state_kind) (pend : list Z) (rx : list poll) :
    recv_result * list Z * list poll :=
  match st with
  | COMM_STATE_GPIO_INIT => (RTimeout, pend, rx)
  | COMM_STATE_SEND_ECU_INIT => wait_spec true HOBD_MSG_SUBTYPE_INIT [] rx
  | _ => wait_spec true HOBD_MSG_SUBTYPE_TABLE_SUBGROUP pend rx
  end.

Section machine.
Context `{LogPolicy} `{Hw} {W : Type} `{!Services W} `{!ServicesSpec W}.
Implicit Types s : hobd_s W.

(** The transmit buffer: its size, and the byte of it no message sets. *)
Definition tx_ok (tx : list Z) : Prop :=
  length tx = Z.to_nat MSG_TX_BUFFER_SIZE /\ bytes tx /\ tx !! 6%nat = Some 0.

Definition entry_of (f : list Z) (e : log_entry) : Prop :=
  entry_type e = MMC_ENTRY_TYPE_HOBD_MSG /\ 0 <= entry_time e < 2 ^ 64 /\ entry_data e = f.

(** The log grew by an entry for each of the frames [fs]. *)
Definition logs (fs : list (list Z)) s s' : Prop :=
  exists es, logged (services s') = logged (services s) ++ es /\ Forall2 entry_of fs es.

Lemma logs_nil s s' : logged (services s') = logged (services s) -> logs [] s s'.
Proof. intros E. exists []. by rewrite app_nil_r. Qed.

Lemma logs_app fs1 fs2 s1 s2 s3 : logs fs1 s1 s2 -> logs fs2 s2 s3 -> logs (fs1 ++ fs2) s1 s3.
Proof.
  intros (es1 & H1 & F1) (es2 & H2 & F2). exists (es1 ++ es2).
  rewrite H2, H1, <- app_assoc. split; [done|]. by apply Forall2_app.
Qed.

Lemma wp_on_tx f b Q X s : f (g_msg_tx_buffer s) = Some b -> Q tt (set_tx b s) ->
  wp (on_tx f) Q X s.
Proof. intros Hf HQ. unfold on_tx. wp_steps. eapply wp_or_fault; [done|]. by wp_steps. Qed.

(** Logging a message: only the services change. *)
Lemma log_frame_spec ts msg f s :
  serves (timeout_id (g_comm s)) (services s) -> frame_ok f -> take (length f) msg = f ->
  (forall t, ts = Some t -> 0 <= t < 2 ^ 64) ->
  wp (svc (mmc_log_entry_data MMC_ENTRY_TYPE_HOBD_MSG (Z.of_nat (length f)) ts msg 0))
    (fun _ s' => exists w, s' = set_services w s /\ serves (timeout_id (g_comm s)) w /\ logs [f] s s' /\
       forall id, cb_registered id w = cb_registered id (services s)) total s.
Proof.
  intros Hs Hf Ht Hts. pose proof Hf as (Hb & Hl & _). apply wp_svc.
  assert (length f <= length msg)%nat.
  { rewrite <- Ht at 1. rewrite length_take. lia. }
  wp_use ltac:(apply serves_log); try done; try lia.
  - by rewrite Nat2Z.id, Ht.
  - intros _ w (Hok & Hcb & t & Htr & _ & Hlog). exists w. split_and!; try done.
    rewrite Nat2Z.id, Ht in Hlog. eexists. split; [exact Hlog|].
    constructor; [by split|constructor].
Qed.

Lemma log_tx_spec f rest s :
  serves (timeout_id (g_comm s)) (services s) -> frame_ok f -> g_msg_tx_buffer s = f ++ rest ->
  wp (log_tx (Z.of_nat (length f))) (fun _ s' => exists w, s' = set_services w s /\
    serves (timeout_id (g_comm s)) w /\ logs [f] s s') total s.
Proof.
  intros Hs Hf Htx. unfold log_tx. wp_steps.
  wp_use ltac:(apply log_frame_spec); try done.
  - by rewrite Htx, take_app_length.
  - intros _ s' (w & -> & ? & ? & _). by exists w.
Qed.

(** Transmitting the frame of the transmit buffer and logging it. *)
Lemma send_and_log f rest s :
  serves (timeout_id (g_comm s)) (services s) -> frame_ok f -> g_msg_tx_buffer s = f ++ rest ->
  listen_only (g_comm s) = 0 ->
  wp (comm_send_msg;; log_tx (Z.of_nat (length f))) (fun _ s' => exists w,
    s' = set_services w (set_line (line s ++ (Putchar <$> f)) s) /\
    serves (timeout_id (g_comm s)) w /\ logs [f] s s') total s.
Proof.
  intros Hs Hf Htx Hlo. pose proof Hf as (_ & Hl & Hsz & _). wp_step.
  eapply wp_run; [eapply send_frame; [done|done|lia]|]. rewrite Hlo.
  wp_use ltac:(by eapply log_tx_spec); [|done]. intros _ s' (w & -> & Hok & Hlg).
  by exists w.
Qed.

(** The payload of the connection messages, over any transmit buffer. *)
Lemma wake_up_run tx : tx_ok tx ->
  exists rest, Msg.hobd_msg_no_data HOBD_MSG_TYPE_WAKE_UP HOBD_MSG_SUBTYPE_WAKE_UP tx =
    Some (4, wake_up_frame ++ rest) /\ tx_ok (wake_up_frame ++ rest).
Proof.
  intros (Hl & Hb & H6). change (Z.to_nat MSG_TX_BUFFER_SIZE) with 256%nat in Hl.
  destruct (Msg.buffer_split tx 0) as (hd & data & old & rest & -> & Hhd & Hdl & _ & _); [lia|].
  destruct data; [|done]. exists rest.
  destruct hd as [|h0 [|h1 [|h2 [|]]]]; try done. rewrite !bytes_app in Hb.
  split; [by apply (Msg.hobd_msg_no_data_run _ _ [h0; h1; h2])|].
  split_and!; [by cbn in Hl |- *|apply bytes_app; split; [decide_now|tauto]|exact H6].
Qed.

Lemma init_msg_run tx : tx_ok tx ->
  exists tx1 rest, set_data 0 HOBD_INIT_DATA tx = Some tx1 /\
    Msg.hobd_msg HOBD_MSG_TYPE_QUERY HOBD_MSG_SUBTYPE_INIT 1 tx1 = Some (5, init_frame ++ rest) /\
    tx_ok (init_frame ++ rest).
Proof.
  intros (Hl & Hb & H6). change (Z.to_nat MSG_TX_BUFFER_SIZE) with 256%nat in Hl.
  destruct (Msg.buffer_split tx 1) as (hd & data & old & rest & -> & Hhd & Hdl & _ & _); [lia|].
  destruct hd as [|h0 [|h1 [|h2 [|]]]]; try done. destruct data as [|d [|]]; try done.
  rewrite !bytes_app in Hb. exists ([h0; h1; h2] ++ [HOBD_INIT_DATA] ++ [old] ++ rest), rest.
  split; [unfold set_data; change (3 + 0) with (Z.of_nat 3); by rewrite store_nat by (cbn; lia)|].
  split. 2: split_and!; [by cbn in Hl |- *|apply bytes_app; split; [decide_now|tauto]|exact H6].
  by apply (Msg.hobd_msg_run _ _ [HOBD_INIT_DATA] old rest [h0; h1; h2]); [..|cbn; lia].
Qed.

Lemma query_run table count tx : tx_ok tx -> byte table -> byte count ->
  exists rest, fill_query table 0 count tx = Some (query_frame table count ++ rest) /\
    tx_ok (query_frame table count ++ rest) /\ frame_ok (query_frame table count).
Proof.
  intros (Hl & Hb & H6) Ht Hc. change (Z.to_nat MSG_TX_BUFFER_SIZE) with 256%nat in Hl.
  assert (frame_ok (query_frame table count)) as Hok.
  { apply mk_frame_ok; [done..| |cbn; lia]. by repeat apply Forall_cons_2. }
  exists (drop 8 tx). split_and!; [by apply fill_query_run; [..|lia|]| |done].
  split_and!; [rewrite length_app, length_drop, Hl; done| |done].
  apply bytes_app. split; [apply Hok|by apply bytes_drop].
Qed.

(** After the messages [fs] were sent and logged, with [ev] done to the line. *)
Definition sent (pend : list Z) (fs : list (list Z)) (ev : list line_event) s s' : Prop :=
  inv pend s' /\ tx_ok (g_msg_tx_buffer s') /\ rx_line s' = rx_line s /\
  g_comm s' = g_comm s /\ stats s' = stats s /\ line s' = line s ++ ev /\ logs fs s s'.

Lemma sent_trans p1 p2 fs1 fs2 ev1 ev2 s1 s2 s3 :
  sent p1 fs1 ev1 s1 s2 -> sent p2 fs2 ev2 s2 s3 -> sent p2 (fs1 ++ fs2) (ev1 ++ ev2) s1 s3.
Proof.
  intros (_&_&?&?&?&E1&?) (?&?&?&?&?&E2&?). split_and!; try done; try congruence.
  - by rewrite E2, E1, <- app_assoc.
  - by eapply logs_app.
Qed.

(** Filling the buffer with [f], sending and logging it. *)
Lemma send_filled pend fill f rest s :
  inv pend s -> listen_only (g_comm s) = 0 -> frame_ok f -> tx_ok (f ++ rest) ->
  fill (g_msg_tx_buffer s) = Some (f ++ rest) ->
  wp (on_tx fill;; comm_send_msg;; log_tx (Z.of_nat (length f)))
    (fun _ s' => sent pend [f] (Putchar <$> f) s s' /\ g_msg_tx_buffer s' = f ++ rest) total s.
Proof.
  intros (Hp & Hc & Hs) Hlo Hf Htx Hfill. wp_step. eapply wp_on_tx; [done|].
  wp_use ltac:(by eapply (send_and_log f rest)); [|done].
  intros _ s' (w & -> & Hok & Hlg). done.
Qed.

Lemma diag_messages_spec pend s :
  inv pend s -> tx_ok (g_msg_tx_buffer s) -> listen_only (g_comm s) = 0 ->
  wp send_ecu_diag_messages (fun _ s' =>
    sent [] [wake_up_frame; init_frame] (traffic COMM_STATE_SEND_ECU_INIT) s s') total s.
Proof.
  intros (Hp & Hc & Hs) Htx Hlo. unfold send_ecu_diag_messages. do 2 wp_step.
  set (s0 := set_parser _ s).
  assert (inv [] s0) as Hi0.
  { split_and!; [|done|done]. apply Parser.repr_nil; [|done]. apply Hp. }
  destruct (wake_up_run _ Htx) as (rest & Hw & Htxw). apply wp_seq3.
  wp_use ltac:(eapply (send_filled [] _ wake_up_frame rest s0);
    [done|done|decide_now|done|cbn [s0 set_parser g_msg_tx_buffer]; by rewrite Hw]); [|done].
  intros _ s1 (Hs1 & _). pose proof Hs1 as (Hi1 & Htx1 & _ & Hc1 & _).
  destruct (init_msg_run _ Htx1) as (tx & rest1 & Hset & Hmsg & Htxi).
  unfold emit. do 3 wp_step. eapply wp_on_tx; [exact Hset|].
  set (s2 := set_tx _ _).
  wp_use ltac:(eapply (send_filled [] _ init_frame rest1 s2);
    [done| |decide_now|done|cbn [s2 set_tx g_msg_tx_buffer]; by rewrite Hmsg]); [| |done].
  - cbn. by rewrite Hc1.
  - intros _ s3 (Hs3 & _). change [wake_up_frame; init_frame] with ([wake_up_frame] ++ [init_frame]).
    eapply (sent_trans [] _ _ _ _ _ s s1); [exact Hs1|].
    destruct Hs3 as (?&?&?&?&?&E&?). split_and!; try done.
    rewrite E. cbn. by rewrite <- app_assoc.
Qed.

Lemma table_req_spec table count pend s :
  (table = HOBD_TABLE_10 /\ count = 0x80 \/ table = HOBD_TABLE_D1 /\ count = 0x06) ->
  inv pend s -> tx_ok (g_msg_tx_buffer s) -> listen_only (g_comm s) = 0 ->
  wp (send_table_req table) (fun _ s' =>
    sent pend [query_frame table count] (Putchar <$> query_frame table count) s s') total s.
Proof.
  intros Ht Hi Htx Hlo. unfold send_table_req.
  assert (byte table /\ byte count) as [Hbt Hbc] by by destruct Ht as [[-> ->]|[-> ->]].
  destruct (query_run table count _ Htx Hbt Hbc) as (rest & Hq & Htxq & Hf).
  assert ((if table =? HOBD_TABLE_10 then on_tx comm_fill_msg_subgroub_10_query
           else if table =? HOBD_TABLE_D1 then on_tx comm_fill_msg_subgroub_d1_query
           else c_assert false) = on_tx (fill_query table 0 count) :> M (hobd_s W) unit) as ->.
  { by destruct Ht as [[-> ->]|[-> ->]]. }
  pose proof Hf as (_ & Hl & Hsz & _). destruct Hi as (Hp & Hc & Hs).
  wp_step. eapply wp_on_tx; [done|]. wp_step.
  eapply wp_run; [eapply send_frame; [done|done|lia]|]. cbn [g_comm set_tx]. rewrite Hlo.
  do 3 wp_step. cbn [g_msg_tx_buffer set_line set_tx Z.eqb].
  eapply wp_or_fault.
  { unfold header_size. change 1 with (Z.of_nat 1). rewrite load_nat.
    by apply lookup_app_l_Some. }
  cbn beta. unfold u16. rewrite Z.mod_small by lia.
  wp_use ltac:(by eapply (log_tx_spec _ rest)); [|done]. by intros _ s' (w & -> & Hok & Hlg).
Qed.

(** The flags no communication changes. *)
Definition same_flags s s' : Prop :=
  enabled (g_comm s') = enabled (g_comm s) /\ listen_only (g_comm s') = listen_only (g_comm s).

Lemma callback_spec t f s : serves (timeout_id (g_comm s)) (services s) -> 0 <= t < 2 ^ 64 -> holds f s ->
  wp (new_hobd_msg_callback t) (fun _ s' => exists w, s' = set_services w s /\ serves (timeout_id (g_comm s)) w /\
    logs [f] s s' /\ forall id, cb_registered id w = cb_registered id (services s)) total s.
Proof.
  intros Hs Ht Hh. pose proof Hh as [Hf Htk]. pose proof Hf as (_ & Hl & Hsz & _).
  unfold new_hobd_msg_callback. do 3 wp_step. eapply wp_or_fault.
  { change (header_size _) with (load (Parser.rx_buffer (g_msg_parser s)) (Z.of_nat 1)).
    by rewrite (holds_header f s 1 Hh), Hsz by lia. }
  cbn beta. unfold u16. rewrite Z.mod_small by lia.
  wp_use ltac:(apply log_frame_spec); try done. by intros ? [= <-].
Qed.

Lemma await_resp_spec subtype found lost pend s r pend' rx' :
  inv pend s -> wait_spec true subtype pend (rx_line s) = (r, pend', rx') ->
  wp (await_resp subtype found lost) (fun _ s' =>
    inv pend' s' /\ rx_line s' = rx' /\ g_msg_tx_buffer s' = g_msg_tx_buffer s /\
    stats s' = stats s /\ line s' = line s /\ logs (received_frames r) s s' /\
    state (g_comm s') = (if answered r then found else lost) /\ same_flags s s' /\
    Forall frame_ok (received_frames r) /\ r <> RBlocked)
  (fun k _ => k = Blocked /\ r = RBlocked) s.
Proof.
  intros Hi Hw. unfold await_resp. wp_step.
  wp_use ltac:(by eapply (wait_for_resp_run 1 subtype true)); [|done].
  intros [f ts] s1 (Hi1 & Hk & Hrx & _ & Hr).
  pose proof (kept_enabled _ _ Hk). pose proof (kept_listen_only _ _ Hk).
  destruct Hk as (Ht & Hst & Hl & Hlog & _).
  destruct r as [m| |]; [|destruct Hr as [-> ->]|done].
  - destruct Hr as (-> & Hh & _ & t & -> & Htr). change (1 =? 1) with true. cbn iota.
    wp_step. eapply wp_or_fault; [done|]. cbn beta. wp_step. destruct Hi1 as (Hp & Hc & Hs).
    wp_use ltac:(by apply callback_spec); [|done]. intros _ s2 (w & -> & Hok & Hlg & _).
    apply wp_on_comm. split_and!; try done.
    { destruct Hlg as (es & E & F). exists es. by rewrite Hlog in E. }
    constructor; [apply Hh|constructor].
  - change (0 =? 1) with false. cbn iota. apply wp_on_comm.
    split_and!; try done. by apply logs_nil.
Qed.

(** One step of the state machine. *)
Definition stepped st pend' rx' r s s' : Prop :=
  state (g_comm s') = next_state st (answered r) /\ inv pend' s' /\
  tx_ok (g_msg_tx_buffer s') /\ rx_line s' = rx' /\ line s' = line s ++ traffic st /\
  logs (sends st ++ received_frames r) s s' /\ stats s' = count_retry st (stats s) /\
  same_flags s s' /\ Forall frame_ok (received_frames r) /\ r <> RBlocked.

Lemma send_await pend fs ev s1 r s2 pend' rx' subtype found lost s st :
  sent pend fs ev s s1 -> sends st = fs -> traffic st = ev ->
  inv pend s2 -> g_msg_tx_buffer s2 = g_msg_tx_buffer s1 -> rx_line s2 = rx_line s1 ->
  g_comm s2 = g_comm s1 -> line s2 = line s1 -> stats s2 = count_retry st (stats s1) ->
  services s2 = services s1 -> next_state st (answered r) = (if answered r then found else lost) ->
  wait_spec true subtype pend (rx_line s) = (r, pend', rx') ->
  wp (await_resp subtype found lost) (fun _ s' => stepped st pend' rx' r s s')
    (fun k _ => k = Blocked /\ r = RBlocked) s2.
Proof.
  intros (Hi1&Htx&Hrx&Hc&Hst&Hl&Hlg) Hfs Hev Hi2 E1 E2 E3 E4 E5 E6 Hn Hw.
  wp_use ltac:(eapply await_resp_spec; [done|by rewrite E2, Hrx]); [|done].
  intros _ s' (?&?&Ht&Hss&Hll&Hlog&Hstate&[He Hlo]&?&?). unfold stepped, same_flags.
  rewrite Hn, Ht, Hss, Hll, He, Hlo, E1, E3, E4, E5, Hc, Hst, Hl, Hfs, Hev.
  split_and!; try done. eapply logs_app; [exact Hlg|].
  destruct Hlog as (es & Hes & HF). exists es. by rewrite E6 in Hes.
Qed.

(** The drivers succeed. *)
Definition drivers_ok : Prop :=
  forall h, gpio_clr h = 0 /\ gpio_set h = 0 /\ serial_configure h = 0.

Lemma update_state_run pend s r pend' rx' :
  (state (g_comm s) = COMM_STATE_GPIO_INIT -> drivers_ok) ->
  inv pend s -> tx_ok (g_msg_tx_buffer s) -> listen_only (g_comm s) = 0 ->
  state_receives (state (g_comm s)) pend (rx_line s) = (r, pend', rx') ->
  wp comm_update_state (fun _ s' => stepped (state (g_comm s)) pend' rx' r s s')
    (fun k _ => k = Blocked /\ r = RBlocked) s.
Proof.
  intros Hd Hi Htx Hlo Hr. unfold comm_update_state. do 2 wp_step.
  destruct (state (g_comm s)) eqn:Hst; cbn [state_receives] in Hr.
  - injection Hr as <- <- <-. wp_step. eapply wp_run; [apply ecu_init_seq_run; intros h; by apply (Hd eq_refl h)|].
    wp_step. apply wp_on_comm. wp_step. rewrite Hlo. cbn [Z.eqb app].
    split_and!; try done. by apply logs_nil.
  - wp_step. wp_use ltac:(by eapply diag_messages_spec); [|done]. intros _ s1 Hs1.
    do 2 wp_step. pose proof Hs1 as (Hi1 & _).
    by eapply (send_await [] [wake_up_frame; init_frame]).
  - wp_step. wp_use ltac:(eapply table_req_spec; [by left|done..]); [|done].
    intros _ s1 Hs1. pose proof Hs1 as (Hi1 & _).
    by eapply (send_await pend [query_frame HOBD_TABLE_10 0x80]).
  - wp_step. wp_use ltac:(eapply table_req_spec; [by right|done..]); [|done].
    intros _ s1 Hs1. pose proof Hs1 as (Hi1 & _).
    by eapply (send_await pend [query_frame HOBD_TABLE_D1 0x06]).
Qed.

(** *** Safety, whatever the drivers return *)

Definition no_fault {S} : stop -> S -> Prop := fun k _ => k <> Fault.

(** The log only grew, by well-formed messages. *)
Definition logs_frames s s' : Prop := exists fs, Forall frame_ok fs /\ logs fs s s'.

#[export] Instance logs_frames_preorder : PreOrder logs_frames.
Proof.
  split.
  - intros s. exists []. split; [constructor|by apply logs_nil].
  - intros s1 s2 s3 (fs1 & F1 & L1) (fs2 & F2 & L2). exists (fs1 ++ fs2).
    split; [by apply Forall_app|by eapply logs_app].
Qed.

Lemma sends_ok st : Forall frame_ok (sends st).
Proof. destruct st; decide_now. Qed.

Definition comm_ok s : Prop := (exists pend, inv pend s) /\ tx_ok (g_msg_tx_buffer s).

(** The operations that only touch the line, or halt. *)
Definition drives {A} (m : M (hobd_s W) A) : Prop := forall s,
  wp m (fun _ s' => exists ev, s' = set_line (line s ++ ev) s) no_fault s.

Lemma drives_bind {A B} (m : M (hobd_s W) A) (f : A -> M (hobd_s W) B) :
  drives m -> (forall a, drives (f a)) -> drives (m ≫= f).
Proof.
  intros Hm Hf s. wp_step. wp_use ltac:(apply Hm); [|done]. intros a s1 [ev ->].
  wp_use ltac:(apply Hf); [|done]. intros b s2 [ev2 ->]. exists (ev ++ ev2).
  cbn. by rewrite app_assoc.
Qed.
Lemma drives_gets {A} (f : hobd_s W -> A) : drives (gets f).
Proof. intros s. wp_step. exists []. rewrite app_nil_r. by destruct s. Qed.
Lemma drives_ret {A} (a : A) : drives (mret a).
Proof. exact (drives_gets (fun _ => a)). Qed.
Lemma drives_emit e : drives (emit e).
Proof. intros s. unfold emit. wp_step. by exists [e]. Qed.
Lemma drives_driver e res : drives (driver e res).
Proof. apply drives_bind; [apply drives_gets|intros h]. apply drives_bind; [apply drives_emit|]. intros _. apply drives_ret. Qed.
Lemma drives_when b m : drives m -> drives (when b m).
Proof. destruct b; [done|]. intros _. apply drives_ret. Qed.
Lemma drives_logf_if b : drives (ZF_LOGF_IF b).
Proof. intros s. wp_step; [done|]. apply (drives_ret tt s). Qed.

Ltac drives_steps :=
  repeat first [ apply drives_bind; [|intros ?] | apply drives_gets | apply drives_emit
    | apply drives_driver | apply drives_logf_if | apply drives_ret | apply drives_when ].

Lemma ecu_init_seq_drives : drives comm_ecu_init_seq.
Proof. unfold comm_ecu_init_seq, comm_gpio_init_seq. drives_steps. Qed.

Lemma update_state_safe s : comm_ok s -> listen_only (g_comm s) = 0 ->
  wp comm_update_state (fun _ s' => comm_ok s' /\ logs_frames s s' /\ same_flags s s')
    no_fault s.
Proof.
  intros [[pend Hi] Htx] Hlo.
  destruct (state_receives (state (g_comm s)) pend (rx_line s)) as [[r pend'] rx'] eqn:Hr.
  destruct (decide (state (g_comm s) = COMM_STATE_GPIO_INIT)) as [Hst|Hst].
  - unfold comm_update_state. do 2 wp_step. rewrite Hst. wp_step.
    wp_use ltac:(apply ecu_init_seq_drives); [|done]. intros _ s1 [ev ->]. wp_step.
    apply wp_on_comm. wp_step. split; [by split; [exists pend|]|]. split; [|done].
    exists []. split; [constructor|by apply logs_nil].
  - wp_use ltac:(by eapply update_state_run).
    + intros _ s' (_ & Hi' & Htx' & _ & _ & Hlg & _ & Hfl & Hfr & _).
      split; [by split; [exists pend'|]|]. split; [|done].
      exists (sends (state (g_comm s)) ++ received_frames r). split; [|done].
      apply Forall_app. split; [apply sends_ok|done].
    + by intros k s' [-> _].
Qed.

Lemma listen_step_safe s : comm_ok s -> listen_only (g_comm s) <> 0 ->
  wp comm_step (fun _ s' => comm_ok s' /\ logs_frames s s' /\ same_flags s s') no_fault s.
Proof.
  intros [[pend Hi] Htx] Hlo. unfold comm_step, listen_step. do 2 wp_step.
  rewrite (proj2 (Z.eqb_neq _ _)) by done. wp_step.
  destruct (recv_spec (armed 1) pend (rx_line s)) as [[r pend'] rx'] eqn:Hr.
  wp_use ltac:(by eapply recv_msg_spec); [|by intros k s' [-> _]].
  intros b s1 (Hi1 & Hk & _ & _ & Hb).
  assert (same_flags s s1) as Hfl by (split; [by apply kept_enabled|by apply kept_listen_only]).
  destruct Hk as (Htx1 & _ & _ & Hlog & _). rewrite <- Htx1 in Htx.
  wp_step; [intros ->|intros ->].
  - destruct r as [f| |]; [destruct Hb as [_ Hh]|done..]. wp_step. apply wp_svc.
    destruct Hi1 as (Hp & Hc & Hs). wp_use ltac:(by apply serves_get_time); [|done].
    intros t w (Hok & Ht & Hlog2 & _).
    wp_use ltac:(by apply (callback_spec t f (set_services w s1))); [|done].
    intros _ s2 (w2 & -> & Hok2 & (es & He & HF) & _).
    split; [by split; [exists pend'|]|]. split; [|done]. exists [f].
    split; [by constructor; [apply Hh|]|]. exists es. split; [|done].
    cbn in He |- *. by rewrite He, Hlog2, Hlog.
  - split; [by split; [exists pend'|]|]. split; [|done]. exists [].
    split; [constructor|by apply logs_nil].
Qed.

Lemma comm_step_safe s : comm_ok s ->
  wp comm_step (fun _ s' => comm_ok s' /\ logs_frames s s' /\ same_flags s s') no_fault s.
Proof.
  intros Hs. destruct (Z.eq_dec (listen_only (g_comm s)) 0) as [E|E].
  - unfold comm_step. do 2 wp_step. rewrite E. by apply update_state_safe.
  - by apply listen_step_safe.
Qed.
End machine.

(** ** The thread *)

Section thread.
Context `{LogPolicy} `{Hw} {W : Type} `{!Services W} `{!ServicesSpec W}.
Context `{!Kernel} `{!KernelSpec}.
Implicit Types t : thread_s W.

Definition msg_ok (m : ipc_msg) : Prop :=
  (length (msg_words m) <= 4)%nat /\ Forall word (msg_words m).
Definition thread_ok t : Prop :=
  comm_ok (hobd t) /\ regs_ok (g_regs t) /\ Forall msg_ok (ep t).

Lemma wp_on_hobd {A} (m : M (hobd_s W) A) Q X t :
  wp m (fun a h => Q a (mk_thread h (g_regs t) (ep t) (replies t)))
       (fun k h => X k (mk_thread h (g_regs t) (ep t) (replies t))) (hobd t) ->
  wp (on_hobd m) Q X t.
Proof. intros Hm. unfold on_hobd. by apply wp_zoom. Qed.

Lemma wp_on_regs f r Q X t : f (g_regs t) = Some r ->
  Q tt (mk_thread (hobd t) r (ep t) (replies t)) -> wp (on_regs f) Q X t.
Proof. intros Hf HQ. unfold on_regs. do 2 wp_step. wp_step. by eapply wp_or_fault. Qed.

(** The state after a [SET_REQ]: everything but the flag, the parser's progress
    and the state machine is kept. *)
Definition restart (f : comm_s -> comm_s) (s : hobd_s W) : hobd_s W :=
  set_comm (set_state COMM_STATE_GPIO_INIT (f (g_comm s)))
    (set_parser (Parser.hobd_parser_reset (g_msg_parser s)) s).

Lemma restart_ok f s : (forall c, timeout_id (f c) = timeout_id c) ->
  comm_ok s -> comm_ok (restart f s).
Proof.
  intros Hf [[pend (Hp & Hc & Hs)] Htx]. split; [|done]. exists [].
  split; [apply Parser.repr_nil; [apply Hp|done]|]. split; [done|]. cbn. by rewrite Hf.
Qed.

(** A reply of one word. *)
Lemma reply_word label v t (Q : unit -> thread_s W -> Prop) X : regs_ok (g_regs t) ->
  (forall r, regs_ok r -> Q tt (mk_thread (hobd t) r (ep t) (replies t ++ [(label, [u32 v])]))) ->
  wp (on_regs (seL4_SetMR 0 v);; seL4_Reply label 1) Q X t.
Proof.
  intros Hr HQ. destruct (set_mr_run (g_regs t) 0 v Hr) as (r & Hset & Hr' & Hw); [lia|].
  wp_step. eapply wp_on_regs; [exact Hset|]. unfold seL4_Reply. wp_step. cbn [g_regs hobd ep replies].
  rewrite Hw. pose proof (length_words _ Hr) as Hl.
  destruct (words (g_regs t)) as [|w ws]; [done|]. cbn. by apply HQ.
Qed.

Lemma wp_get_mr0 v l t (Q : Z -> thread_s W -> Prop) X :
  regs_ok (g_regs t) -> words (g_regs t) = v :: l -> Q v t -> wp get_mr0 Q X t.
Proof.
  intros Hr Hw HQ. unfold get_mr0. do 2 wp_step. eapply wp_or_fault; [|done].
  by rewrite (get_mr_words _ 0), Hw by (done || lia).
Qed.

Lemma comm_state_set_spec v l t (Q : unit -> thread_s W -> Prop) X :
  regs_ok (g_regs t) -> words (g_regs t) = v :: l ->
  (let b := if v =? 0 then 0 else 1 in
   forall r, regs_ok r -> Q tt (mk_thread (restart (set_enabled b) (hobd t)) r (ep t)
     (replies t ++ [(IPC_MSG_TYPE_COMM_STATE_RESP, [b])]))) ->
  wp handle_comm_state_set_req Q X t.
Proof.
  intros Hr Hw HQ. unfold handle_comm_state_set_req. wp_step.
  eapply wp_get_mr0; [done|exact Hw|]. do 4 (wp_step; apply wp_on_hobd; first [wp_step | apply wp_on_comm]).
  apply reply_word; [done|]. intros r Hr'. cbn. specialize (HQ r Hr'). by destruct (v =? 0).
Qed.

Lemma listen_only_set_spec v l t (Q : unit -> thread_s W -> Prop) X :
  regs_ok (g_regs t) -> words (g_regs t) = v :: l ->
  (let b := if v =? 0 then 0 else 1 in
   forall r, regs_ok r -> Q tt (mk_thread (restart (set_listen_only b) (hobd t)) r (ep t)
     (replies t ++ [(IPC_MSG_TYPE_LISTEN_ONLY_RESP, [b])]))) ->
  wp handle_listen_only_set_req Q X t.
Proof.
  intros Hr Hw HQ. unfold handle_listen_only_set_req. wp_step.
  eapply wp_get_mr0; [done|exact Hw|]. do 4 (wp_step; apply wp_on_hobd; first [wp_step | apply wp_on_comm]).
  apply reply_word; [done|]. intros r Hr'. cbn. specialize (HQ r Hr'). by destruct (v =? 0).
Qed.

(** The words of the statistics. *)
Lemma length_stats_bytes st : length (stats_bytes st) = 16%nat.
Proof. unfold stats_bytes. by autorewrite with len. Qed.
Lemma bytes_stats_bytes st : bytes (stats_bytes st).
Proof. unfold stats_bytes. rewrite !bytes_app. auto with bytes. Qed.

Definition sampled (tm : Z) (s : hobd_s W) : hobd_s W :=
  set_stats (sample_stats tm (Parser.valid_count (g_msg_parser s))
    (Parser.invalid_count (g_msg_parser s)) (stats s)) s.

Lemma stats_spec t (Q : unit -> thread_s W -> Prop) X :
  regs_ok (g_regs t) -> services_ok (services (hobd t)) ->
  (forall r w tm, regs_ok r -> services_ok w -> allocated w = allocated (services (hobd t)) ->
     0 <= tm < 2 ^ 64 ->
     logged w = logged (services (hobd t)) ->
     let s := sampled tm (set_services w (hobd t)) in
     Q tt (mk_thread s r (ep t)
       (replies t ++ [(IPC_MSG_TYPE_STATS_RESP, words_of_bytes (stats_bytes (stats s)))]))) ->
  wp handle_stats_req Q X t.
Proof.
  intros Hr Hs HQ. unfold handle_stats_req. wp_step. apply wp_on_hobd, wp_svc.
  wp_use ltac:(by apply get_time_spec); [|done]. intros tm w (Hok & Htm & Hlog & Hids & _).
  do 2 (wp_step; apply wp_on_hobd; wp_step). cbn [hobd g_regs ep replies].
  set (s := set_stats _ _). change (SIZEOF_STATS / 4) with 4.
  pose proof (length_words_of_bytes 4 _ (length_stats_bytes (stats s))) as Hlw.
  pose proof (words_of_bytes_word _ (bytes_stats_bytes (stats s))) as Hww.
  destruct (mr_send_run 4 (words_of_bytes (stats_bytes (stats s))) (g_regs t))
    as (r & Hsend & Hr1 & Hw1); [done|lia|lia|done|].
  wp_step. eapply wp_on_regs; [exact Hsend|]. unfold seL4_Reply. wp_step.
  cbn [hobd g_regs ep replies]. rewrite Hw1.
  rewrite take_app_length' by (rewrite length_take; lia).
  rewrite take_ge by lia. by apply HQ.
Qed.

(** Every message leaves the thread well-formed, changes nothing on the line
    and takes nothing from it. *)
Lemma handle_ipc_safe m t : thread_ok t ->
  wp (handle_ipc m) (fun _ t' => thread_ok t' /\ logs_frames (hobd t) (hobd t')) no_fault t.
Proof.
  intros (Hc & Hr & Hep). unfold handle_ipc.
  assert (forall r rs h, regs_ok r -> comm_ok h ->
    logged (services h) = logged (services (hobd t)) ->
    thread_ok (mk_thread h r (ep t) rs) /\
    logs_frames (hobd t) (hobd (mk_thread h r (ep t) rs))) as Hkeep.
  { intros r rs h Hr' Hh Hlog. split; [done|]. exists [].
    split; [constructor|by apply logs_nil]. }
  pose proof (length_words _ Hr) as Hlw.
  destruct (words (g_regs t)) as [|w0 ws] eqn:Hws; [done|].
  destruct (_ && _); [|by apply wp_ret; destruct t; apply Hkeep].
  wp_step. wp_step; [done|]. unfold dispatch. repeat case_match.
  - destruct Hc as [(pend & Hp & Hcn & Hs & Hid) Htx]. apply stats_spec; [done..|].
    intros r w tm Hr' Hw Hids _ Hlog. cbn. apply Hkeep; [done| |done]. split; [|done].
    exists pend. do 3 (split; [done|]). cbn. by rewrite Hids.
  - unfold handle_comm_state_req. wp_step. apply wp_on_hobd. wp_step.
    apply reply_word; [done|]. intros r Hr'. by apply Hkeep.
  - eapply comm_state_set_spec; [done|exact Hws|]. intros b r Hr'. apply Hkeep; [done| |done].
    by apply restart_ok.
  - unfold handle_listen_only_req. wp_step. apply wp_on_hobd. wp_step.
    apply reply_word; [done|]. intros r Hr'. by apply Hkeep.
  - eapply listen_only_set_spec; [done|exact Hws|]. intros b r Hr'. apply Hkeep; [done| |done].
    by apply restart_ok.
  - unfold ZF_LOGF. destruct logf_aborts; [by apply wp_stop|apply wp_ret].
    destruct t. by apply Hkeep.
Qed.

Lemma next_msg_ok l m rest : Forall msg_ok l -> next_msg l = Some (m, rest) ->
  msg_ok m /\ Forall msg_ok rest.
Proof.
  induction 1 as [|m1 l Hm Hl IH]; cbn; [done|].
  destruct (_ =? 0); [done|]. by intros [= <- <-].
Qed.

Lemma received_ok m rest t : thread_ok t -> msg_ok m -> Forall msg_ok rest ->
  thread_ok (received m rest t).
Proof.
  intros (?&?&?) Hm Hrest. split_and!; try done. cbn.
  destruct (_ =? 0); [done|by apply receive_ok].
Qed.

Lemma iteration_safe t : thread_ok t ->
  wp thread_iteration (fun _ t' => thread_ok t' /\ logs_frames (hobd t) (hobd t')) no_fault t.
Proof.
  intros Ht. unfold thread_iteration. wp_step. apply wp_on_hobd. wp_step.
  assert (forall t1 m rest, thread_ok t1 -> logs_frames (hobd t) (hobd t1) -> msg_ok m ->
    Forall msg_ok rest -> wp (handle_ipc m) (fun _ t' => thread_ok t' /\
      logs_frames (hobd t) (hobd t')) no_fault (received m rest t1)) as Hhandle.
  { intros t1 m rest Ht1 Hlg Hm Hrest.
    wp_use ltac:(by apply handle_ipc_safe, received_ok); [|done].
    intros _ t2 [Ht2 Hlg2]. split; [done|]. by etrans. }
  destruct t as [h r l rs]. pose proof Ht as (Hc & Hr & Hep). cbn [hobd g_regs ep replies] in *.
  wp_step. destruct (negb _).
  - wp_step. apply wp_on_hobd. wp_use ltac:(by apply comm_step_safe); [|done].
    intros _ h1 (Hc1 & Hlg & _). cbn [g_regs ep replies hobd].
    unfold wp at 1, seL4_NBRecv. cbn [ep].
    destruct l as [|m rest].
    + wp_use ltac:(by apply handle_ipc_safe); [|done]. intros _ t2 [? Hlg2].
      split; [done|]. by etrans.
    + pose proof (Forall_inv Hep). pose proof (Forall_inv_tail Hep). by apply Hhandle.
  - unfold wp at 1, seL4_Recv. cbn [ep]. destruct (next_msg l) as [[m rest]|] eqn:E; [|done].
    destruct (next_msg_ok l m rest Hep E). by apply Hhandle.
Qed.

Lemma loop_safe n : forall t, thread_ok t ->
  wp (thread_loop n) (fun _ t' => thread_ok t' /\ logs_frames (hobd t) (hobd t')) no_fault t.
Proof.
  induction n as [|n IH]; intros t Ht; cbn [thread_loop]; [by apply wp_ret|].
  wp_step. wp_use ltac:(by apply iteration_safe); [|done]. intros _ t1 [Ht1 Hlg1].
  wp_use ltac:(by apply IH); [|done]. intros _ t2 [Ht2 Hlg2]. split; [done|]. by etrans.
Qed.

Lemma thread_init_safe buf s :
  length buf = Z.to_nat MSG_RX_BUFFER_SIZE -> tx_ok (g_msg_tx_buffer s) ->
  services_ok (services s) -> ids_left (services s) ->
  wp (thread_init buf) (fun _ s' => comm_ok s' /\ logs_frames s s' /\ same_flags s s') no_fault s.
Proof.
  intros Hl Htx Hs Hids. change (Z.to_nat MSG_RX_BUFFER_SIZE) with 512%nat in Hl.
  unfold thread_init. wp_step. apply wp_svc.
  wp_use ltac:(by apply wait_for_start_spec); [|done]. intros _ w1 (Hw1 & Hlog1 & Hids1).
  wp_step. apply wp_svc.
  wp_use ltac:(apply alloc_id_spec; [done|unfold ids_left; cbn; by rewrite Hids1]); [|done].
  intros id w2 (Hw2 & Hlog2 & Hids2). wp_step. apply wp_on_comm. wp_step. apply wp_zoom.
  eapply wp_run; [apply Parser.init_run; [by intros ->|done]|].
  assert (forall s1 A (m : M (hobd_s W) A) (Q : A -> hobd_s W -> Prop), drives m ->
    (forall a ev, Q a (set_line (line s1 ++ ev) s1)) -> wp m Q no_fault s1) as Hdrive.
  { intros s1 A m Q Hm HQ. wp_use ltac:(apply Hm); [|done]. by intros a s2 [ev ->]. }
  wp_step. apply Hdrive; [apply drives_driver|]. intros err ev.
  wp_step. apply Hdrive; [apply drives_logf_if|]. intros _ ev1. do 3 wp_step.
  apply Hdrive.
  { apply drives_when, drives_bind; [apply drives_driver|intros e; apply drives_logf_if]. }
  intros _ ev2.
  apply wp_on_comm. cbn. split; [split; [exists []|done]|split; [|done]].
  - split; [apply Parser.repr_nil; cbn; (done || lia)|]. split; [done|]. split; [done|].
    cbn. rewrite Hids2. by left.
  - exists []. split; [constructor|]. apply logs_nil. by etrans.
Qed.

(** *** The session with the ECU

    [n] steps of the state machine over what the line delivers: where they
    lead, the messages logged (sent and received) and what is done to the line;
    [None] if the line runs dry. *)
Fixpoint session (n : nat) (st : comm_state_kind) (pend : list Z) (rx : list poll) :
    option (comm_state_kind * list Z * list poll * list (list Z) * list line_event) :=
  match n with
  | O => Some (st, pend, rx, [], [])
  | S n =>
      match state_receives st pend rx with
      | (RBlocked, _, _) => None
      | (r, pend, rx) =>
          '(st', pend, rx, fs, ev) ← session n (next_state st (answered r)) pend rx;
          Some (st', pend, rx, sends st ++ received_frames r ++ fs, traffic st ++ ev)
      end
  end.

(** An iteration of a thread that talks on the line and finds no message. *)
Lemma iteration_idle t h' Q X :
  enabled (g_comm (hobd t)) <> 0 -> listen_only (g_comm (hobd t)) = 0 -> ep t = [] ->
  comm_update_state (hobd t) = (Done tt, h') ->
  Q tt (mk_thread h' (g_regs t) [] (replies t)) -> wp thread_iteration Q X t.
Proof.
  intros He Hl Hep Hrun HQ. unfold thread_iteration. wp_step. apply wp_on_hobd. wp_step.
  wp_step. rewrite (proj2 (Z.eqb_neq _ _)) by done. cbn [negb]. wp_step. apply wp_on_hobd.
  unfold comm_step. cbn [hobd]. do 2 wp_step. rewrite Hl. eapply wp_run; [exact Hrun|].
  cbn [g_regs ep replies hobd]. rewrite Hep. exact HQ.
Qed.

Lemma session_run n : forall t pend st' pend' rx' fs ev, drivers_ok ->
  inv pend (hobd t) -> tx_ok (g_msg_tx_buffer (hobd t)) ->
  enabled (g_comm (hobd t)) <> 0 -> listen_only (g_comm (hobd t)) = 0 -> ep t = [] ->
  session n (state (g_comm (hobd t))) pend (rx_line (hobd t)) = Some (st', pend', rx', fs, ev) ->
  wp (thread_loop n) (fun _ t' => state (g_comm (hobd t')) = st' /\ inv pend' (hobd t') /\
    rx_line (hobd t') = rx' /\ line (hobd t') = line (hobd t) ++ ev /\
    logs fs (hobd t) (hobd t') /\ replies t' = replies t) total t.
Proof.
  induction n as [|n IH]; intros t pend st' pend' rx' fs ev Hd Hi Htx He Hl Hep Hs.
  { cbn in Hs. simplify_eq. apply wp_ret. split_and!; try done.
    - by rewrite app_nil_r.
    - by apply logs_nil. }
  cbn [session] in Hs. cbn [thread_loop].
  destruct (state_receives (state (g_comm (hobd t))) pend (rx_line (hobd t)))
    as [[r p1] rx1] eqn:Hr.
  pose proof (update_state_run pend (hobd t) r p1 rx1 (fun _ => Hd) Hi Htx Hl Hr) as Hup.
  assert (r <> RBlocked) as Hnb by by destruct r.
  unfold wp in Hup. destruct (comm_update_state (hobd t)) as [[[]|k] h'] eqn:Hrun;
    [|by destruct Hup].
  destruct Hup as (Hst & Hi1 & Htx1 & Hrx1 & Hline1 & Hlg1 & _ & [He1 Hl1] & _).
  assert (('(st', pend, rx, fs, ev) ← session n (next_state (state (g_comm (hobd t)))
    (answered r)) p1 rx1; Some (st', pend, rx, sends (state (g_comm (hobd t))) ++
    received_frames r ++ fs, traffic (state (g_comm (hobd t))) ++ ev))
    = Some (st', pend', rx', fs, ev)) as Hs' by by destruct r.
  destruct (session n _ p1 rx1) as [[[[[st2 p2] rx2] fs2] ev2]|] eqn:Hs2; [|done].
  cbn in Hs'. simplify_eq. wp_step. eapply iteration_idle; [done..|].
  wp_use ltac:(eapply (IH (mk_thread h' (g_regs t) [] (replies t)));
    cbn [hobd]; [done|done|done|by rewrite He1|by rewrite Hl1|done|by rewrite Hst]); [|done].
  intros _ t' (?&?&?&Hline2&Hlg2&?). split_and!; try done.
  - rewrite Hline2. cbn. by rewrite Hline1, <- app_assoc.
  - rewrite (assoc_L (++)). by eapply logs_app.
Qed.

End thread.

(** ** What no message and no ECU can make the thread do *)

Section silence.
Context `{LogPolicy} `{Hw} {W : Type} `{!Services W} `{!Kernel}.
Implicit Types s : hobd_s W.
Implicit Types t : thread_s W.

(** The line is not driven and the flags are kept. *)
Definition undriven s s' : Prop := line s' = line s /\ same_flags s s'.
#[local] Instance undriven_preorder : PreOrder undriven.
Proof.
  split; [done|]. intros s1 s2 s3 (E1&E2&E3) (F1&F2&F3). repeat split; by etrans.
Qed.

Lemma svc_undriven {A} (m : M W A) : respects undriven (svc m).
Proof. by apply respects_zoom. Qed.

Lemma recv_loop_undriven fuel : forall use msg fired, respects undriven (recv_loop fuel use msg fired).
Proof.
  assert (respects undriven (ps_cdev_getchar (W := W))) as Hget.
  { intros s. unfold ps_cdev_getchar. by destruct (rx_line s) as [|[]]. }
  induction fuel as [|fuel IH]; intros use msg fired; cbn [recv_loop]; respects_steps; try apply IH;
    try apply Hget; try (by apply respects_modify); unfold time_server_runs, comm_get_timeout;
    respects_steps; by apply respects_modify.
Qed.

Lemma recv_msg_undriven use : respects undriven (comm_recv_msg use).
Proof.
  unfold comm_recv_msg, comm_start_timeout, comm_stop_timeout.
  respects_steps; first [apply svc_undriven | apply recv_loop_undriven | by apply respects_modify].
Qed.

Lemma listen_step_undriven : respects undriven listen_step.
Proof.
  unfold listen_step, new_hobd_msg_callback.
  respects_steps; first [apply recv_msg_undriven | apply svc_undriven].
Qed.

(** What a message other than the two [SET_REQ]s keeps. *)
Definition unheard t t' : Prop :=
  line (hobd t') = line (hobd t) /\ rx_line (hobd t') = rx_line (hobd t) /\ ep t' = ep t.
#[local] Instance unheard_preorder : PreOrder unheard.
Proof. split; [done|]. intros t1 t2 t3 (?&?&?) (?&?&?). repeat split; by etrans. Qed.

Definition keeps_flag (flag : comm_s -> Z) t t' : Prop :=
  unheard t t' /\ flag (g_comm (hobd t')) = flag (g_comm (hobd t)).
#[local] Instance keeps_flag_preorder flag : PreOrder (keeps_flag flag).
Proof. split; [done|]. intros t1 t2 t3 [? ?] [? ?]. split; by etrans. Qed.

Lemma on_hobd_modify_keeps flag f :
  (forall s, line (f s) = line s /\ rx_line (f s) = rx_line s /\ flag (g_comm (f s)) = flag (g_comm s)) ->
  respects (keeps_flag flag) (on_hobd (modify f)).
Proof. intros Hf t. destruct (Hf (hobd t)) as (?&?&?). done. Qed.
Lemma on_hobd_gets_keeps flag {A} (f : hobd_s W -> A) : respects (keeps_flag flag) (on_hobd (gets f)).
Proof. intros t. done. Qed.
Lemma on_hobd_svc_keeps flag {A} (m : M W A) : respects (keeps_flag flag) (on_hobd (svc m)).
Proof. intros t. unfold on_hobd, svc, zoom. by destruct (m (services (hobd t))). Qed.

Lemma handle_ipc_keeps flag m :
  (flag = listen_only /\ msg_label m <> IPC_MSG_TYPE_LISTEN_ONLY_SET_REQ \/
   flag = enabled /\ msg_label m <> IPC_MSG_TYPE_COMM_STATE_SET_REQ) ->
  respects (keeps_flag flag) (handle_ipc m).
Proof.
  intros Hflag. unfold handle_ipc, dispatch, handle_stats_req, handle_comm_state_req,
    handle_comm_state_set_req, handle_listen_only_req, handle_listen_only_set_req,
    on_regs, get_mr0, seL4_Reply.
  destruct (Z.eqb_spec (msg_label m) IPC_MSG_TYPE_LISTEN_ONLY_SET_REQ);
    destruct (Z.eqb_spec (msg_label m) IPC_MSG_TYPE_COMM_STATE_SET_REQ);
    destruct Hflag as [[-> ?]|[-> ?]]; try done; respects_steps;
    first [apply on_hobd_svc_keeps | apply on_hobd_gets_keeps
          | apply on_hobd_modify_keeps; done | by apply respects_modify].
Qed.

(** A message leaves the line and the endpoint alone, and so does a client. *)
Lemma handle_ipc_unheard m : respects unheard (handle_ipc m).
Proof.
  intros t. destruct (decide (msg_label m = IPC_MSG_TYPE_LISTEN_ONLY_SET_REQ)) as [E|E].
  - apply (handle_ipc_keeps enabled m). right. split; [done|]. by rewrite E.
  - by apply (handle_ipc_keeps listen_only m); left.
Qed.
Lemma serve_unheard m : respects unheard (serve m).
Proof.
  unfold serve. respects_steps; [by apply respects_modify|apply handle_ipc_unheard].
Qed.
Definition peer_unheard (c c' : client (thread_s W)) : Prop := unheard (c_peer c) (c_peer c').
#[local] Instance peer_unheard_preorder : PreOrder peer_unheard.
Proof. split; unfold peer_unheard; [done|]. intros c1 c2 c3. apply transitivity. Qed.
Lemma call_unheard badge label len : respects peer_unheard (seL4_Call serve badge label len).
Proof.
  unfold seL4_Call. respects_steps; [|by apply respects_modify]. intros c. unfold zoom.
  pose proof (serve_unheard (Msg badge label len (take (Z.to_nat len) (mr a))) (c_peer c)) as Hs.
  by destruct (serve _ (c_peer c)).
Qed.
Ltac call_unheard_steps :=
  unfold check_resp, client_SetMR, client_GetMR, client_mr_recv;
  respects_steps; first [apply call_unheard | by apply respects_modify].
Lemma get_stats_unheard : respects peer_unheard (hobd_get_stats serve).
Proof. unfold hobd_get_stats. call_unheard_steps. Qed.
Lemma get_comm_state_unheard : respects peer_unheard (hobd_get_comm_state serve).
Proof. unfold hobd_get_comm_state. call_unheard_steps. Qed.
Lemma set_comm_state_unheard v : respects peer_unheard (hobd_set_comm_state serve v).
Proof. unfold hobd_set_comm_state. call_unheard_steps. Qed.
Lemma get_listen_only_unheard : respects peer_unheard (hobd_get_listen_only serve).
Proof. unfold hobd_get_listen_only. call_unheard_steps. Qed.
Lemma set_listen_only_unheard v : respects peer_unheard (hobd_set_listen_only serve v).
Proof. unfold hobd_set_listen_only. call_unheard_steps. Qed.

(** The two ways the thread leaves the line alone. *)
Definition hushed (l : list line_event) t : Prop :=
  listen_only (g_comm (hobd t)) <> 0 /\ line (hobd t) = l /\
  Forall (fun m => msg_label m <> IPC_MSG_TYPE_LISTEN_ONLY_SET_REQ) (ep t).
Definition disabled (l : list line_event) (rx : list poll) t : Prop :=
  enabled (g_comm (hobd t)) = 0 /\ line (hobd t) = l /\ rx_line (hobd t) = rx /\
  Forall (fun m => msg_label m <> IPC_MSG_TYPE_COMM_STATE_SET_REQ) (ep t).

Lemma next_msg_forall (P : ipc_msg -> Prop) l m rest : Forall P l ->
  next_msg l = Some (m, rest) -> P m /\ Forall P rest.
Proof.
  induction 1 as [|m1 l Hm Hl IH]; cbn; [done|].
  destruct (_ =? 0); [done|]. by intros [= <- <-].
Qed.

Lemma handle_hushed l m rest t : hushed l t -> msg_label m <> IPC_MSG_TYPE_LISTEN_ONLY_SET_REQ ->
  Forall (fun m => msg_label m <> IPC_MSG_TYPE_LISTEN_ONLY_SET_REQ) rest ->
  wp (handle_ipc m) (fun _ => hushed l) (fun _ => hushed l) (received m rest t).
Proof.
  intros (Hlo & Hl & _) Hm Hrest.
  apply (wp_respects (keeps_flag listen_only)); [apply handle_ipc_keeps; by left|].
  intros t' [(E1 & E2 & E3) E4]. unfold hushed. by rewrite E1, E3, E4.
Qed.

Lemma iteration_hushed l t : hushed l t ->
  wp thread_iteration (fun _ => hushed l) (fun _ => hushed l) t.
Proof.
  intros Ht. pose proof Ht as (Hlo & Hl & Hep). unfold thread_iteration.
  wp_step. apply wp_on_hobd. wp_step. wp_step. destruct (negb _).
  - wp_step. apply wp_on_hobd.
    assert (forall s', undriven (hobd t) s' ->
      hushed l (mk_thread s' (g_regs t) (ep t) (replies t))) as Hkeep.
    { intros s' (E1 & _ & E2). unfold hushed. cbn. by rewrite E1, E2. }
    unfold comm_step. cbn [hobd g_regs ep replies]. do 2 wp_step.
    rewrite (proj2 (Z.eqb_neq _ _)) by done.
    apply (wp_mono _ (fun _ => undriven (hobd t)) _ (fun _ => undriven (hobd t))).
    { by apply (wp_respects undriven); [apply listen_step_undriven|]. }
    + intros _ s' Hs'. pose proof (Hkeep s' Hs') as Hh. unfold wp at 1, seL4_NBRecv. cbn [ep].
      destruct (ep t) as [|m rest] eqn:E.
      * apply (wp_respects (keeps_flag listen_only)).
        { apply handle_ipc_keeps. by left. }
        intros t' [(E1 & E2 & E3) E4]. unfold hushed. rewrite E1, E3, E4. exact Hh.
      * apply handle_hushed; [done|by apply (Forall_inv Hep)|by apply Forall_inv_tail in Hep].
    + intros k s' Hs'. by apply Hkeep.
  - unfold wp at 1, seL4_Recv. cbn [ep].
    destruct (next_msg (ep t)) as [[m rest]|] eqn:E; [|by destruct t].
    destruct (next_msg_forall _ _ _ _ Hep E). by apply (handle_hushed l m rest).
Qed.

Lemma iteration_disabled l rx t : disabled l rx t ->
  wp thread_iteration (fun _ => disabled l rx) (fun _ => disabled l rx) t.
Proof.
  intros Ht. pose proof Ht as (He & Hl & Hrx & Hep). unfold thread_iteration.
  wp_step. apply wp_on_hobd. wp_step. wp_step. rewrite He. cbn [negb Z.eqb].
  unfold wp at 1, seL4_Recv. cbn [ep].
  destruct (next_msg (ep t)) as [[m rest]|] eqn:E; [|by destruct t].
  destruct (next_msg_forall _ _ _ _ Hep E).
  apply (wp_respects (keeps_flag enabled)); [apply handle_ipc_keeps; by right|].
  intros t' [(E1 & E2 & E3) E4]. unfold disabled. by rewrite E1, E2, E3, E4.
Qed.

(** An invariant of the iteration holds whenever the loop is left. *)
Lemma loop_invariant (I : thread_s W -> Prop) :
  (forall t, I t -> wp thread_iteration (fun _ => I) (fun _ => I) t) ->
  forall n t, I t -> I (thread_loop n t).2.
Proof.
  intros HI. induction n as [|n IH]; intros t Ht; [done|].
  cbn [thread_loop]. specialize (HI t Ht). unfold wp, mbind, M_bind in *.
  destruct (thread_iteration t) as [[[]|k] t1]; [by apply IH|done].
Qed.

End silence.

(** ** The calls, served *)

Section served.
Context `{LogPolicy} `{Hw} {W : Type} `{!Services W} `{!ServicesSpec W}.
Context `{!Kernel} `{!KernelSpec}.
Implicit Types t : thread_s W.
Implicit Types c : client (thread_s W).

Lemma serve_run m reply (h : hobd_s W) t : regs_ok (g_regs t) ->
  (forall (Q : unit -> thread_s W -> Prop),
     (forall r, regs_ok r -> Q tt (mk_thread h r (ep t) (replies t ++ [reply]))) ->
     wp (handle_ipc m) Q total (received m (ep t) t)) ->
  exists t', serve m t = (Done reply, t') /\ hobd t' = h /\ regs_ok (g_regs t').
Proof.
  intros Hr Hm.
  assert (wp (serve m) (fun reply' t' => reply' = reply /\ hobd t' = h /\ regs_ok (g_regs t'))
    total t) as Hwp.
  { unfold serve. do 5 wp_step. apply Hm. intros r Hr'. do 2 wp_step. cbn [replies].
    rewrite lookup_app_r, Nat.sub_diag by done. cbn. by apply wp_ret. }
  unfold wp in Hwp. destruct (serve m t) as [[reply'|k] t']; [|done].
  destruct Hwp as (-> & ? & ?). by exists t'.
Qed.

Lemma handle_label m t Q X : msg_badge m = ENDPOINT_BADGE -> msg_label m <> 0 ->
  wp (dispatch (msg_label m)) Q X t -> wp (handle_ipc m) Q X t.
Proof.
  intros Hb Hl Hd. unfold handle_ipc. rewrite Hb, (proj2 (Z.eqb_neq _ _) Hl). exact Hd.
Qed.

Lemma check_resp_run label len (X : stop -> client (thread_s W) -> Prop) Q c :
  Q tt c -> wp (check_resp label len label len) Q X c.
Proof. intros HQ. unfold check_resp. rewrite !Z.eqb_refl. exact HQ. Qed.

(** A client's call that is answered by one word, and the word it returns. *)
Lemma call_word label resp len v (h : hobd_s W) c (Q : Z -> client (thread_s W) -> Prop) X :
  regs_ok (c_regs c) ->
  (exists t', serve (Msg ENDPOINT_BADGE label len (take (Z.to_nat len) (mr (c_regs c)))) (c_peer c)
     = (Done (resp, [v]), t') /\ hobd t' = h /\ regs_ok (g_regs t')) ->
  (forall c', regs_ok (c_regs c') -> regs_ok (g_regs (c_peer c')) -> hobd (c_peer c') = h ->
     Q v c') ->
  wp ('(label, len) ← seL4_Call serve ENDPOINT_BADGE label len;
      check_resp label len resp 1;; client_GetMR 0) Q X c.
Proof.
  intros Hr (t' & Hserve & Hh & Hrt) HQ.
  destruct (call_run serve ENDPOINT_BADGE label len c resp [v] t' Hr) as (r' & l & Hcall & Hr' & Hw);
    [cbn; lia|done|].
  wp_step. eapply wp_run; [exact Hcall|]. cbn beta iota.
  wp_step. apply check_resp_run.
  unfold client_GetMR. do 2 wp_step. cbn [c_regs]. eapply wp_or_fault; [|by apply HQ].
  by rewrite (get_mr_words _ 0), Hw by (done || lia).
Qed.

Definition flag_of (state : Z) : Z := if u32 state =? 0 then 0 else 1.
Lemma u32_flag state : u32 (flag_of state) = flag_of state.
Proof. unfold flag_of. by destruct (_ =? 0). Qed.

Lemma words_received m t v l : regs_ok (g_regs t) -> msg_badge m <> 0 ->
  msg_words m = v :: l -> (length l < 4)%nat ->
  exists l', regs_ok (g_regs (received m (ep t) t)) /\
    words (g_regs (received m (ep t) t)) = v :: l'.
Proof.
  intros Hr Hb Hm Hl. cbn. rewrite (proj2 (Z.eqb_neq _ _)) by done. rewrite Hm.
  destruct (receive_words (v :: l) (g_regs t) Hr) as [l' Hw]; [cbn; lia|].
  exists (l ++ l'). by split; [apply receive_ok|].
Qed.

Lemma client_set_mr0 v c (Q : unit -> client (thread_s W) -> Prop) X : regs_ok (c_regs c) ->
  (forall r l, regs_ok r -> words r = u32 v :: l -> Q tt (mk_client r (c_peer c))) ->
  wp (client_SetMR 0 v) Q X c.
Proof.
  intros Hr HQ. destruct (set_mr_run (c_regs c) 0 v Hr) as (r & Hset & Hr' & Hw); [lia|].
  unfold client_SetMR. do 2 wp_step. wp_step. eapply wp_or_fault; [exact Hset|]. wp_step.
  pose proof (length_words _ Hr). destruct (words (c_regs c)); [done|]. by eapply HQ.
Qed.

(** The two set calls, as a client sees them, and the two get calls. *)
Lemma set_comm_state_wp state c (Q : Z -> client (thread_s W) -> Prop) X :
  regs_ok (c_regs c) -> regs_ok (g_regs (c_peer c)) ->
  (forall c', regs_ok (c_regs c') -> regs_ok (g_regs (c_peer c')) ->
     hobd (c_peer c') = restart (set_enabled (flag_of state)) (hobd (c_peer c)) ->
     Q (flag_of state) c') ->
  wp (hobd_set_comm_state serve state) Q X c.
Proof.
  intros Hr Hrt HQ. unfold hobd_set_comm_state. wp_step. apply client_set_mr0; [done|].
  intros r l Hr1 Hw. eapply call_word; [done| |exact HQ]. cbn [c_regs c_peer].
  destruct (words_mr0 _ _ _ Hr1 Hw) as [l1 ->].
  apply serve_run; [done|]. intros Q' HQ'. apply handle_label; [done..|].
  edestruct (words_received (Msg ENDPOINT_BADGE
    IPC_MSG_TYPE_COMM_STATE_SET_REQ 1 (take (Z.to_nat 1) (u32 state :: l1))) (c_peer c))
    as (l' & Hr2 & Hw2); [done..|cbn; lia|].
  eapply comm_state_set_spec; [exact Hr2|exact Hw2|]. intros b r2 Hr'. by apply HQ'.
Qed.

Lemma set_listen_only_wp state c (Q : Z -> client (thread_s W) -> Prop) X :
  regs_ok (c_regs c) -> regs_ok (g_regs (c_peer c)) ->
  (forall c', regs_ok (c_regs c') -> regs_ok (g_regs (c_peer c')) ->
     hobd (c_peer c') = restart (set_listen_only (flag_of state)) (hobd (c_peer c)) ->
     Q (flag_of state) c') ->
  wp (hobd_set_listen_only serve state) Q X c.
Proof.
  intros Hr Hrt HQ. unfold hobd_set_listen_only. wp_step. apply client_set_mr0; [done|].
  intros r l Hr1 Hw. eapply call_word; [done| |exact HQ]. cbn [c_regs c_peer].
  destruct (words_mr0 _ _ _ Hr1 Hw) as [l1 ->].
  apply serve_run; [done|]. intros Q' HQ'. apply handle_label; [done..|].
  edestruct (words_received (Msg ENDPOINT_BADGE
    IPC_MSG_TYPE_LISTEN_ONLY_SET_REQ 1 (take (Z.to_nat 1) (u32 state :: l1))) (c_peer c))
    as (l' & Hr2 & Hw2); [done..|cbn; lia|].
  eapply listen_only_set_spec; [exact Hr2|exact Hw2|]. intros b r2 Hr'. by apply HQ'.
Qed.

Lemma get_comm_state_wp c (Q : Z -> client (thread_s W) -> Prop) X :
  regs_ok (c_regs c) -> regs_ok (g_regs (c_peer c)) ->
  (forall c', regs_ok (c_regs c') -> regs_ok (g_regs (c_peer c')) ->
     hobd (c_peer c') = hobd (c_peer c) -> Q (u32 (enabled (g_comm (hobd (c_peer c))))) c') ->
  wp (hobd_get_comm_state serve) Q X c.
Proof.
  intros Hr Hrt HQ. unfold hobd_get_comm_state. eapply call_word; [done| |exact HQ].
  apply serve_run; [done|]. intros Q' HQ'. apply handle_label; [done..|].
  change (wp handle_comm_state_req Q' total (received (Msg ENDPOINT_BADGE
    IPC_MSG_TYPE_COMM_STATE_REQ 0 []) (ep (c_peer c)) (c_peer c))).
  unfold handle_comm_state_req. wp_step. apply wp_on_hobd. wp_step. apply reply_word; [by apply receive_ok|exact HQ'].
Qed.

Lemma get_listen_only_wp c (Q : Z -> client (thread_s W) -> Prop) X :
  regs_ok (c_regs c) -> regs_ok (g_regs (c_peer c)) ->
  (forall c', regs_ok (c_regs c') -> regs_ok (g_regs (c_peer c')) ->
     hobd (c_peer c') = hobd (c_peer c) -> Q (u32 (listen_only (g_comm (hobd (c_peer c))))) c') ->
  wp (hobd_get_listen_only serve) Q X c.
Proof.
  intros Hr Hrt HQ. unfold hobd_get_listen_only. eapply call_word; [done| |exact HQ].
  apply serve_run; [done|]. intros Q' HQ'. apply handle_label; [done..|].
  change (wp handle_listen_only_req Q' total (received (Msg ENDPOINT_BADGE
    IPC_MSG_TYPE_LISTEN_ONLY_REQ 0 []) (ep (c_peer c)) (c_peer c))).
  unfold handle_listen_only_req. wp_step. apply wp_on_hobd. wp_step. apply reply_word; [by apply receive_ok|exact HQ'].
Qed.

(** The statistics survive the transfer. *)
Definition u16_ok (z : Z) : Prop := 0 <= z < 65536.
Definition stats_ok (st : hobd_stats_s) : Prop :=
  0 <= timestamp st < 2 ^ 64 /\ u16_ok (valid_rx_count st) /\ u16_ok (invalid_rx_count st) /\
  u16_ok (gpio_retry_count st) /\ u16_ok (init_retry_count st).

Lemma u16_range z : u16_ok (u16 z).
Proof. by apply Z.mod_pos_bound. Qed.

Lemma stats_of_stats_bytes st : stats_ok st -> stats_of_bytes (stats_bytes st) = st.
Proof.
  intros (Ht & Hv & Hi & Hg & Hn). unfold u16_ok in *.
  assert (forall n (l : list Z) k v, length l = n -> 0 <= v < 256 ^ Z.of_nat k -> forall l2,
    le_val (take k (drop n (l ++ le_bytes k v ++ l2))) = v) as Hfield.
  { intros n l k v <- Hr l2. rewrite drop_app_length.
    rewrite take_app_length' by (symmetry; apply length_le_bytes). by apply le_val_bytes. }
  destruct st as [t v i g c]. unfold stats_of_bytes, stats_bytes. cbn [timestamp valid_rx_count
    invalid_rx_count gpio_retry_count init_retry_count] in *.
  pose proof (Hfield 0%nat [] 8%nat t eq_refl ltac:(cbn; lia) (le_bytes 2 v ++ le_bytes 2 i ++
    le_bytes 2 g ++ le_bytes 2 c)) as F0.
  pose proof (Hfield 8%nat (le_bytes 8 t) 2%nat v (length_le_bytes _ _) ltac:(cbn; lia)) as F1.
  pose proof (Hfield 10%nat (le_bytes 8 t ++ le_bytes 2 v) 2%nat i) as F2.
  pose proof (Hfield 12%nat (le_bytes 8 t ++ le_bytes 2 v ++ le_bytes 2 i) 2%nat g) as F3.
  pose proof (Hfield 14%nat (le_bytes 8 t ++ le_bytes 2 v ++ le_bytes 2 i ++ le_bytes 2 g)
    2%nat c) as F4.
  change ([] ++ ?l) with l in F0. rewrite drop_0 in F0.
  rewrite F0, F1.
  setoid_rewrite <- app_assoc in F2.
  do 2 setoid_rewrite <- app_assoc in F3. do 3 setoid_rewrite <- app_assoc in F4.
  rewrite F2, F3 by (autorewrite with len; (done || (cbn; lia))).
  rewrite <- (app_nil_r (le_bytes 2 c)), F4 by (autorewrite with len; (done || (cbn; lia))).
  done.
Qed.

Lemma get_stats_wp c (Q : hobd_stats_s -> client (thread_s W) -> Prop) X :
  regs_ok (c_regs c) -> regs_ok (g_regs (c_peer c)) ->
  services_ok (services (hobd (c_peer c))) -> Parser.counts_ok (g_msg_parser (hobd (c_peer c))) ->
  stats_ok (stats (hobd (c_peer c))) ->
  (forall tm w c', 0 <= tm < 2 ^ 64 -> regs_ok (c_regs c') -> regs_ok (g_regs (c_peer c')) ->
     services_ok w -> logged w = logged (services (hobd (c_peer c))) ->
     hobd (c_peer c') = sampled tm (set_services w (hobd (c_peer c))) ->
     let p := g_msg_parser (hobd (c_peer c)) in
     Q (sample_stats tm (Parser.valid_count p) (Parser.invalid_count p)
          (stats (hobd (c_peer c)))) c') ->
  wp (hobd_get_stats serve) Q X c.
Proof.
  intros Hr Hrt Hs Hcn Hst HQ. unfold hobd_get_stats. wp_step. wp_step; [done|].
  set (t := c_peer c) in *. set (m := Msg ENDPOINT_BADGE IPC_MSG_TYPE_STATS_REQ 0 []).
  assert (wp (serve m) (fun reply t' => exists tm w, 0 <= tm < 2 ^ 64 /\
    regs_ok (g_regs t') /\ services_ok w /\
    hobd t' = sampled tm (set_services w (hobd t)) /\ logged w = logged (services (hobd t)) /\
    reply = (IPC_MSG_TYPE_STATS_RESP, words_of_bytes (stats_bytes (stats (hobd t'))))) total t)
    as Hserve.
  { unfold serve. do 5 wp_step. apply handle_label; [done..|].
    change (wp handle_stats_req (fun _ s' => wp (rs ← gets replies;
      match rs !! length (replies t) with Some reply => mret reply | None => stop_with Blocked end)
      (fun reply t' => exists tm w, 0 <= tm < 2 ^ 64 /\
        regs_ok (g_regs t') /\ services_ok w /\
        hobd t' = sampled tm (set_services w (hobd t)) /\ logged w = logged (services (hobd t)) /\
        reply = (IPC_MSG_TYPE_STATS_RESP, words_of_bytes (stats_bytes (stats (hobd t')))))
      total s') total (received m (ep t) t)).
    apply stats_spec; [by apply receive_ok|done|]. intros r w tm Hr' Hw _ Htm Hlog. cbn zeta.
    do 2 wp_step. cbn [replies received]. rewrite lookup_app_r, Nat.sub_diag by done.
    apply wp_ret. by exists tm, w. }
  apply wp_done in Hserve as (reply & t' & Hrun & tm & w & Htm & Hrt' & Hw & Hh & Hlog & ->).
  assert (stats_ok (stats (hobd t'))) as Hst'.
  { rewrite Hh. destruct Hst as (?&?&?&?&?), Hcn as [Hv Hi]. unfold stats_ok. cbn.
    rewrite <- Hv, <- Hi. split; [done|]. by split; [apply u16_range|split; [apply u16_range|]]. }
  set (ws := words_of_bytes (stats_bytes (stats (hobd t')))) in *.
  assert (length ws = 4%nat) as Hl by by apply (length_words_of_bytes 4), length_stats_bytes.
  destruct (call_run serve ENDPOINT_BADGE IPC_MSG_TYPE_STATS_REQ 0 c IPC_MSG_TYPE_STATS_RESP ws t' Hr) as
    (r' & l' & Hcall & Hr' & Hw'); [lia|exact Hrun|].
  wp_step. eapply wp_run; [exact Hcall|]. cbn beta iota. rewrite Hl.
  change (Z.of_nat 4) with (SIZEOF_STATS / 4).
  wp_step. apply check_resp_run. unfold client_mr_recv. do 2 wp_step. wp_step. cbn [c_regs].
  eapply wp_or_fault.
  { change (SIZEOF_STATS / 4) with 4. apply mr_recv_run; [done|lia|].
    rewrite Hw', take_app_length' by done. apply words_of_bytes_word, bytes_stats_bytes. }
  wp_step. rewrite Hw'. rewrite take_app_length' by done. unfold ws.
  rewrite (bytes_of_words_of_bytes 4), stats_of_stats_bytes
    by first [apply length_stats_bytes | apply bytes_stats_bytes | done].
  rewrite Hh. by apply (HQ tm w (mk_client r' t')).
Qed.

End served.

(** ** Properties *)

Section properties.
Context `{LogPolicy} `{Hw} {W : Type} `{!Services W}.

(** C7: one step of the diagnostic state machine, over any input: unless the
    line runs dry it sends exactly the messages of its state, waits for their
    answer as the reference receiver does, logs what was sent and the answer,
    counts the retry and moves to the successor state - onward when answered,
    one step back when the timeout fired first. *)
Theorem comm_update_state_refines `{!ServicesSpec W} (s : hobd_s W) pend r pend' rx' :
  drivers_ok -> inv pend s -> tx_ok (g_msg_tx_buffer s) -> listen_only (g_comm s) = 0 ->
  state_receives (state (g_comm s)) pend (rx_line s) = (r, pend', rx') -> r <> RBlocked ->
  exists s', comm_update_state s = (Done tt, s') /\
    state (g_comm s') = next_state (state (g_comm s)) (answered r) /\
    inv pend' s' /\ tx_ok (g_msg_tx_buffer s') /\ rx_line s' = rx' /\
    line s' = line s ++ traffic (state (g_comm s)) /\
    logs (sends (state (g_comm s)) ++ received_frames r) s s' /\
    stats s' = count_retry (state (g_comm s)) (stats s) /\ same_flags s s'.
Proof.
  intros Hd Hi Htx Hl Hr Hnb.
  pose proof (update_state_run pend s r pend' rx' (fun _ => Hd) Hi Htx Hl Hr) as Hup.
  unfold wp in Hup. destruct (comm_update_state s) as [[[]|k] s']; [|by destruct Hup].
  exists s'. split; [done|]. destruct Hup as (?&?&?&?&?&?&?&?&_). done.
Qed.

(** C5: the loop of the thread refines the session with the ECU: for any number
    of iterations and any input, a thread with K-line access that is left alone
    by the other modules does to the line exactly what [session] says, logs
    exactly its messages in its order, and ends in its state. *)
Theorem thread_refines_session `{!ServicesSpec W} `{!Kernel} n (t : thread_s W)
    pend st' pend' rx' fs ev :
  drivers_ok -> inv pend (hobd t) -> tx_ok (g_msg_tx_buffer (hobd t)) ->
  enabled (g_comm (hobd t)) <> 0 -> listen_only (g_comm (hobd t)) = 0 -> ep t = [] ->
  session n (state (g_comm (hobd t))) pend (rx_line (hobd t)) = Some (st', pend', rx', fs, ev) ->
  exists t', thread_loop n t = (Done tt, t') /\ state (g_comm (hobd t')) = st' /\
    rx_line (hobd t') = rx' /\ line (hobd t') = line (hobd t) ++ ev /\
    logs fs (hobd t) (hobd t').
Proof.
  intros Hd Hi Htx He Hl Hep Hs.
  pose proof (session_run n t pend st' pend' rx' fs ev Hd Hi Htx He Hl Hep Hs) as Hwp.
  apply wp_done in Hwp as ([] & t' & Hrun & ? & _ & ? & ? & ? & _). by exists t'.
Qed.

(** C6: the whole thread is memory-safe: from its start, over any input of the
    line, any messages at its endpoint and any results of the drivers, no
    number of iterations ever accesses an array out of bounds; and everything
    it logged meanwhile is a well-formed K-line message. *)
Theorem thread_never_faults `{!ServicesSpec W} `{!Kernel} `{!KernelSpec} n buf (t : thread_s W) :
  length buf = 512%nat -> tx_ok (g_msg_tx_buffer (hobd t)) -> services_ok (services (hobd t)) ->
  ids_left (services (hobd t)) ->
  regs_ok (g_regs t) -> Forall msg_ok (ep t) ->
  (obd_comm_thread_fn buf n t).1 <> Stop Fault /\
  forall t', obd_comm_thread_fn buf n t = (Done tt, t') ->
    exists fs, Forall frame_ok fs /\ logs fs (hobd t) (hobd t').
Proof.
  intros Hb Htx Hs Hids Hr Hep.
  assert (wp (obd_comm_thread_fn buf n) (fun _ t' => thread_ok t' /\
    logs_frames (hobd t) (hobd t')) no_fault t) as Hwp.
  { unfold obd_comm_thread_fn. wp_step. apply wp_on_hobd.
    wp_use ltac:(by apply thread_init_safe); [|done]. intros _ h1 (Hok & Hlg & _).
    wp_use ltac:(by apply loop_safe); [|done]. intros _ t2 [Ht2 Hlg2].
    split; [done|]. by etrans. }
  unfold wp in Hwp. destruct (obd_comm_thread_fn buf n t) as [[[]|k] t1]; split; try done.
  - intros t' [= <-]. apply Hwp.
  - by intros [= ->].
Qed.

(** C22: in listen-only mode the module never drives the K-line: whatever it
    receives, whatever messages it answers (short of the one that gives it
    access) and however it stops, nothing is done to the line. *)
Theorem listen_only_silent `{!Kernel} n (t : thread_s W) :
  listen_only (g_comm (hobd t)) <> 0 ->
  Forall (fun m => msg_label m <> IPC_MSG_TYPE_LISTEN_ONLY_SET_REQ) (ep t) ->
  let t' := (thread_loop n t).2 in
  line (hobd t') = line (hobd t) /\ listen_only (g_comm (hobd t')) <> 0.
Proof.
  intros Hl Hep t'. destruct (loop_invariant (hushed (line (hobd t)))
    (iteration_hushed (line (hobd t))) n t) as (?&?&?); done.
Qed.

(** While communication is disabled, the module neither reads nor drives
    the K-line, whatever messages it answers short of the one that enables it. *)
Theorem disabled_quiet `{!Kernel} n (t : thread_s W) :
  enabled (g_comm (hobd t)) = 0 ->
  Forall (fun m => msg_label m <> IPC_MSG_TYPE_COMM_STATE_SET_REQ) (ep t) ->
  let t' := (thread_loop n t).2 in
  line (hobd t') = line (hobd t) /\ rx_line (hobd t') = rx_line (hobd t) /\
  enabled (g_comm (hobd t')) = 0.
Proof.
  intros He Hep t'. destruct (loop_invariant (disabled (line (hobd t)) (rx_line (hobd t)))
    (iteration_disabled (line (hobd t)) (rx_line (hobd t))) n t) as (?&?&?&?); done.
Qed.

(** Setting the communication state through the client call, served by the
    thread: it returns 0 or 1 as asked, the flag has this value, the state
    machine restarts at a message boundary and nothing else of the thread's
    state changes; getting it afterwards returns it. *)
Theorem comm_state_set_get `{!ServicesSpec W} `{!Kernel} `{!KernelSpec} v
    (c : client (thread_s W)) :
  regs_ok (c_regs c) -> regs_ok (g_regs (c_peer c)) ->
  exists c' c'', hobd_set_comm_state serve v c = (Done (flag_of v), c') /\
    hobd (c_peer c') = restart (set_enabled (flag_of v)) (hobd (c_peer c)) /\
    hobd_get_comm_state serve c' = (Done (flag_of v), c'') /\ hobd (c_peer c'') = hobd (c_peer c').
Proof.
  intros Hr Hrt.
  assert (wp (hobd_set_comm_state serve v) (fun b c' => b = flag_of v /\ regs_ok (c_regs c') /\
    regs_ok (g_regs (c_peer c')) /\
    hobd (c_peer c') = restart (set_enabled (flag_of v)) (hobd (c_peer c))) total c) as Hset
    by by apply set_comm_state_wp.
  apply wp_done in Hset as (b & c' & Hrun & -> & Hr' & Hrt' & Hh).
  assert (wp (hobd_get_comm_state serve) (fun b c'' => b = flag_of v /\
    hobd (c_peer c'') = hobd (c_peer c')) total c') as Hget.
  { apply get_comm_state_wp; [done..|]. intros c'' _ _ Hc''. split; [|done].
    rewrite Hh. apply u32_flag. }
  apply wp_done in Hget as (b & c'' & Hrun' & -> & Hh'). by exists c', c''.
Qed.

(** Setting the listen-only mode, likewise. *)
Theorem listen_only_set_get `{!ServicesSpec W} `{!Kernel} `{!KernelSpec} v
    (c : client (thread_s W)) :
  regs_ok (c_regs c) -> regs_ok (g_regs (c_peer c)) ->
  exists c' c'', hobd_set_listen_only serve v c = (Done (flag_of v), c') /\
    hobd (c_peer c') = restart (set_listen_only (flag_of v)) (hobd (c_peer c)) /\
    hobd_get_listen_only serve c' = (Done (flag_of v), c'') /\
    hobd (c_peer c'') = hobd (c_peer c').
Proof.
  intros Hr Hrt.
  assert (wp (hobd_set_listen_only serve v) (fun b c' => b = flag_of v /\ regs_ok (c_regs c') /\
    regs_ok (g_regs (c_peer c')) /\
    hobd (c_peer c') = restart (set_listen_only (flag_of v)) (hobd (c_peer c))) total c) as Hset
    by by apply set_listen_only_wp.
  apply wp_done in Hset as (b & c' & Hrun & -> & Hr' & Hrt' & Hh).
  assert (wp (hobd_get_listen_only serve) (fun b c'' => b = flag_of v /\
    hobd (c_peer c'') = hobd (c_peer c')) total c') as Hget.
  { apply get_listen_only_wp; [done..|]. intros c'' _ _ Hc''. split; [|done].
    rewrite Hh. apply u32_flag. }
  apply wp_done in Hget as (b & c'' & Hrun' & -> & Hh'). by exists c', c''.
Qed.


End properties.

(** *** The properties at concrete inputs *)

#[local] Existing Instance demo_hw.
#[local] Existing Instance log_aborts.

Definition demo_hobd (st : comm_state_kind) (en lo : Z) (rx : list poll) : hobd_s toy :=
  mk_hobd (mk_comm en lo st 1 0 0 0) Parser.zero_parser (replicate 256 0)
    (mk_stats 0 0 0 0 0) rx false [] (Toy 1000 [] []).
Definition demo_regs : regs := Regs (replicate 4 0) (replicate 120 0).
Definition demo_thread (st : comm_state_kind) (en lo : Z) (rx : list poll) (msgs : list ipc_msg) :
    thread_s toy := mk_thread (demo_hobd st en lo rx) demo_regs msgs [].

Lemma demo_hobd_inv st en lo rx : inv [] (demo_hobd st en lo rx).
Proof. split_and!; apply (demo_inv rx). Qed.
Lemma demo_tx_ok st en lo rx : tx_ok (g_msg_tx_buffer (demo_hobd st en lo rx)).
Proof. split; [done|]. split; [decide_now|done]. Qed.

(** The ECU's answers to the connection and to the two table requests. *)
Definition init_response : list Z := mk_frame HOBD_MSG_TYPE_RESPONSE HOBD_MSG_SUBTYPE_INIT [].
Definition table_response (data : list Z) : list Z :=
  mk_frame HOBD_MSG_TYPE_RESPONSE HOBD_MSG_SUBTYPE_TABLE_SUBGROUP data.

Lemma comm_update_state_refines_witness :
  let s := demo_hobd COMM_STATE_SEND_REQ0 1 0 (polls (table_response [1; 2; 3])) in
  exists s', comm_update_state s = (Done tt, s') /\
    state (g_comm s') = COMM_STATE_SEND_REQ1 /\
    inv [] s' /\ tx_ok (g_msg_tx_buffer s') /\ rx_line s' = [] /\
    line s' = Putchar <$> [0x72; 0x08; 0x72; 0x10; 0x00; 0x80; 0x00; 0x84] /\
    logs [[0x72; 0x08; 0x72; 0x10; 0x00; 0x80; 0x00; 0x84];
          [0x02; 0x07; 0x72; 1; 2; 3; 0x7F]] s s' /\
    stats s' = stats s /\ same_flags s s'.
Proof.
  intros s. refine (comm_update_state_refines s []
    (RMsg (table_response [1; 2; 3])) [] [] _ (demo_hobd_inv _ _ _ _) (demo_tx_ok _ _ _ _)
    eq_refl eq_refl _); [by intros h | discriminate].
Defined.

(** The connection, both tables, then an ECU that falls silent. *)
Definition demo_input : list poll :=
  polls (init_response ++ table_response [1; 2; 3] ++ table_response [4]) ++
  [Poll (-1) false; Poll (-1) true].
Definition demo_messages : list (list Z) :=
  [[0xFE; 0x04; 0xFF; 0xFF]; [0x72; 0x05; 0x00; 0xF0; 0x99]; [0x02; 0x04; 0x00; 0xFA];
   [0x72; 0x08; 0x72; 0x10; 0x00; 0x80; 0x00; 0x84]; [0x02; 0x07; 0x72; 1; 2; 3; 0x7F];
   [0x72; 0x08; 0x72; 0xD1; 0x00; 0x06; 0x00; 0x3D]; [0x02; 0x05; 0x72; 4; 0x83];
   [0x72; 0x08; 0x72; 0x10; 0x00; 0x80; 0x00; 0x84]].
Definition demo_traffic : list line_event :=
  [GpioClr; DelayMs 70; GpioSet; DelayMs 120; SerialConfigure 10400 8 0 1] ++
  (Putchar <$> [0xFE; 0x04; 0xFF; 0xFF]) ++ [DelayMs 1] ++
  (Putchar <$> [0x72; 0x05; 0x00; 0xF0; 0x99;
                0x72; 0x08; 0x72; 0x10; 0x00; 0x80; 0x00; 0x84;
                0x72; 0x08; 0x72; 0xD1; 0x00; 0x06; 0x00; 0x3D;
                0x72; 0x08; 0x72; 0x10; 0x00; 0x80; 0x00; 0x84]).

Lemma thread_refines_session_witness :
  let t := demo_thread COMM_STATE_GPIO_INIT 1 0 demo_input [] in
  exists t', thread_loop 5 t = (Done tt, t') /\
    state (g_comm (hobd t')) = COMM_STATE_SEND_ECU_INIT /\ rx_line (hobd t') = [] /\
    line (hobd t') = [] ++ demo_traffic /\ logs demo_messages (hobd t) (hobd t').
Proof.
  intros t. refine (thread_refines_session 5 t [] COMM_STATE_SEND_ECU_INIT [] []
    demo_messages demo_traffic _ (demo_hobd_inv _ _ _ _) (demo_tx_ok _ _ _ _) _ eq_refl
    eq_refl _); [by intros h | discriminate | by vm_compute].
Defined.

(** A thread as it is started, and a module that enables it. *)
Definition fresh_thread : thread_s toy :=
  demo_thread COMM_STATE_GPIO_INIT 0 1 (polls init_response ++ [Poll (-1) true])
    [Msg ENDPOINT_BADGE IPC_MSG_TYPE_COMM_STATE_SET_REQ 1 [1]; Msg 0 0 0 []].

Lemma thread_never_faults_witness :
  (obd_comm_thread_fn (replicate 512 0) 3 fresh_thread).1 <> Stop Fault /\
  forall t', obd_comm_thread_fn (replicate 512 0) 3 fresh_thread = (Done tt, t') ->
    exists fs, Forall frame_ok fs /\ logs fs (hobd fresh_thread) (hobd t').
Proof.
  refine (thread_never_faults 3 (replicate 512 0) fresh_thread _ (demo_tx_ok _ _ _ _) _ _ _ _).
  - apply length_replicate.
  - apply (toy_serves 1000 [] []). lia.
  - apply Nat.ltb_lt. reflexivity.
  - by split.
  - repeat constructor; (decide_now || (cbn; lia)).
Defined.

(** The started thread logged the message and drove nothing. *)
Example fresh_thread_logs :
  let t' := (obd_comm_thread_fn (replicate 512 0) 3 fresh_thread).2 in
  toy_log (services (hobd t')) =
    [Entry MMC_ENTRY_TYPE_HOBD_MSG 1000 [0x02; 0x04; 0x00; 0xFA]] /\
  replies t' = [(IPC_MSG_TYPE_COMM_STATE_RESP, [1])].
Proof. vm_compute. by split. Qed.

Lemma listen_only_silent_witness :
  let t := demo_thread COMM_STATE_GPIO_INIT 1 1 demo_input
             [Msg ENDPOINT_BADGE IPC_MSG_TYPE_STATS_REQ 0 []] in
  let t' := (thread_loop 4 t).2 in
  line (hobd t') = line (hobd t) /\ listen_only (g_comm (hobd t')) <> 0.
Proof.
  intros t. apply (listen_only_silent 4 t); [discriminate | decide_now].
Defined.

Lemma disabled_quiet_witness :
  let t := demo_thread COMM_STATE_GPIO_INIT 0 0 demo_input
             [Msg ENDPOINT_BADGE IPC_MSG_TYPE_LISTEN_ONLY_SET_REQ 1 [0]] in
  let t' := (thread_loop 4 t).2 in
  line (hobd t') = line (hobd t) /\ rx_line (hobd t') = rx_line (hobd t) /\
  enabled (g_comm (hobd t')) = 0.
Proof. intros t. apply (disabled_quiet 4 t); [reflexivity | decide_now]. Defined.

Definition demo_client : client (thread_s toy) :=
  mk_client demo_regs (demo_thread COMM_STATE_SEND_REQ1 0 1 demo_input []).

Lemma comm_state_set_get_witness :
  exists c' c'', hobd_set_comm_state serve 7 demo_client = (Done 1, c') /\
    hobd (c_peer c') = restart (set_enabled 1) (hobd (c_peer demo_client)) /\
    hobd_get_comm_state serve c' = (Done 1, c'') /\ hobd (c_peer c'') = hobd (c_peer c').
Proof. apply (comm_state_set_get 7 demo_client); by split. Defined.

Lemma listen_only_set_get_witness :
  exists c' c'', hobd_set_listen_only serve 0 demo_client = (Done 0, c') /\
    hobd (c_peer c') = restart (set_listen_only 0) (hobd (c_peer demo_client)) /\
    hobd_get_listen_only serve c' = (Done 0, c'') /\ hobd (c_peer c'') = hobd (c_peer c').
Proof. apply (listen_only_set_get 0 demo_client); by split. Defined.


End HobdModule.
