(* ===== verification/Session.v ===== *)
(** The life of the HOBD module from its start: it is set up with communication
    disabled and in listen-only mode (hobd_module_init), waits for the requests
    that give it the line, and then keeps the session with the ECU
    (modules/hobd/src/hobd_module.c). *)
From S2P Require Import Prelude Kline Services Ipc Parser Comm HobdModule.

Module Session.
Import Ipc Comm HobdModule.

Section session.
Context `{LogPolicy} `{Hw} {W : Type} `{!Services W} `{!ServicesSpec W}.
Context `{!Kernel} `{!KernelSpec}.
Implicit Types t : thread_s W.
Implicit Types s : hobd_s W.

(** The port is opened. *)
Definition gpio_ok : Prop := forall h, gpio_new h = 0.

(** What the start does to the line in listen-only mode. *)
Definition start_traffic : list line_event :=
  [GpioNew; SerialConfigure HOBD_KLINE_BAUD 8 PARITY_NONE 1].

Lemma wp_driver e r (Q : Z -> hobd_s W -> Prop) X s :
  Q (r (line s)) (set_line (line s ++ [e]) s) -> wp (driver e r) Q X s.
Proof. done. Qed.

Lemma thread_init_run buf s : gpio_ok -> drivers_ok ->
  length buf = Z.to_nat MSG_RX_BUFFER_SIZE -> services_ok (services s) -> ids_left (services s) ->
  listen_only (g_comm s) <> 0 ->
  wp (thread_init buf) (fun _ s' => inv [] s' /\ same_flags s s' /\
    g_msg_tx_buffer s' = g_msg_tx_buffer s /\ rx_line s' = rx_line s /\
    line s' = line s ++ start_traffic /\ logged (services s') = logged (services s) /\
    state (g_comm s') = COMM_STATE_GPIO_INIT /\ stats s' = stats s) total s.
Proof.
  intros Hg Hd Hl Hs Hids Hlo%Z.eqb_neq. change (Z.to_nat MSG_RX_BUFFER_SIZE) with 512%nat in Hl.
  unfold thread_init. wp_step. apply wp_svc.
  wp_use ltac:(by apply wait_for_start_spec); [|done]. intros _ w1 (Hw1 & Hlog1 & Hids1).
  wp_step. apply wp_svc.
  wp_use ltac:(apply alloc_id_spec; [done|unfold ids_left; cbn; by rewrite Hids1]); [|done].
  intros id w2 (Hw2 & Hlog2 & Hids2). wp_step. apply wp_on_comm. wp_step. apply wp_zoom.
  eapply wp_run; [apply Parser.init_run; [by intros ->|done]|].
  wp_step. apply wp_driver. rewrite Hg. wp_step. wp_step; [done|]. do 2 wp_step. wp_step.
  wp_step; [intros _|intros Hf; cbn in Hf; by rewrite Hlo in Hf].
  wp_step. apply wp_driver. rewrite (fun h => proj2 (proj2 (Hd h))). wp_step; [done|].
  apply wp_on_comm. cbn. split; [|split_and!; try done].
  - split; [apply Parser.repr_nil; cbn; (done || lia)|]. split; [done|]. split; [done|].
    cbn. rewrite Hids2. by left.
  - cbn. by rewrite <- app_assoc.
  - by etrans.
Qed.

(** ** The requests *)
Definition give_line : ipc_msg := Msg ENDPOINT_BADGE IPC_MSG_TYPE_LISTEN_ONLY_SET_REQ 1 [0].
Definition enable_comms : ipc_msg := Msg ENDPOINT_BADGE IPC_MSG_TYPE_COMM_STATE_SET_REQ 1 [1].

(** A thread that is disabled waits for a message and handles it. *)
Lemma iteration_waits m rest t Q X : enabled (g_comm (hobd t)) = 0 -> ep t = m :: rest ->
  msg_badge m <> 0 -> wp (handle_ipc m) Q X (received m rest t) -> wp thread_iteration Q X t.
Proof.
  intros He Hep Hb HQ. unfold thread_iteration. wp_step. apply wp_on_hobd. do 2 wp_step.
  rewrite He. cbn [negb Z.eqb]. destruct t as [h r e p]. cbn in Hep. subst e.
  eapply wp_run; [|exact HQ]. unfold seL4_Recv. cbn. by rewrite (proj2 (Z.eqb_neq _ _) Hb).
Qed.

Lemma requests_run t Q X : regs_ok (g_regs t) -> enabled (g_comm (hobd t)) = 0 ->
  ep t = [give_line; enable_comms] ->
  (forall r, regs_ok r ->
     Q tt (mk_thread (restart (set_enabled 1) (restart (set_listen_only 0) (hobd t))) r []
       (replies t ++ [(IPC_MSG_TYPE_LISTEN_ONLY_RESP, [0]); (IPC_MSG_TYPE_COMM_STATE_RESP, [1])]))) ->
  wp (thread_loop 2) Q X t.
Proof.
  intros Hr He Hep HQ. cbn [thread_loop]. wp_step. eapply iteration_waits; [done..|].
  apply handle_label; [done..|].
  destruct (words_received give_line t 0 [] Hr) as (l1 & Hr1 & Hw1); [done|done|cbn; lia|].
  eapply listen_only_set_spec; [exact Hr1|exact Hw1|]. cbn. intros r1 Hr1'.
  wp_step. eapply iteration_waits; [done..|]. apply handle_label; [done..|].
  set (t1 := mk_thread _ r1 _ _).
  destruct (words_received enable_comms t1 1 [] Hr1') as (l2 & Hr2 & Hw2); [done|done|cbn; lia|].
  eapply comm_state_set_spec; [exact Hr2|exact Hw2|]. intros b r2 Hr2'. cbn beta. wp_step.
  subst b t1. cbn. rewrite <- app_assoc. by apply HQ.
Qed.

(** The iterations one after the other. *)
Lemma wp_loop_app n1 n2 Q X t : wp (thread_loop n1;; thread_loop n2) Q X t ->
  wp (thread_loop (n1 + n2)) Q X t.
Proof.
  enough (thread_loop (n1 + n2) t = (thread_loop n1;; thread_loop n2) t) as E by (unfold wp; by rewrite E).
  revert t. induction n1 as [|n1 IH]; intros t; [done|]. cbn [Nat.add thread_loop].
  rewrite bind_assoc. unfold mbind, M_bind in *. by destruct (thread_iteration t) as [[[]|k] t1].
Qed.

(** ** An iteration in either mode

    What an iteration of a thread with communication enabled waits for, what it
    hears and says, where it leads and what it counts: a step of the session, or,
    in listen-only mode, a message of others. *)
Definition converse (passive : Z) (st : comm_state_kind) (pend : list Z) (rx : list poll) :
    recv_result * list Z * list poll :=
  if passive =? 0 then state_receives st pend rx else recv_spec true pend rx.
Definition heard (passive : Z) (st : comm_state_kind) (r : recv_result) : list (list Z) :=
  (if passive =? 0 then sends st else []) ++ received_frames r.
Definition said (passive : Z) (st : comm_state_kind) : list line_event :=
  if passive =? 0 then traffic st else [].
Definition leads_to (passive : Z) (st : comm_state_kind) (r : recv_result) : comm_state_kind :=
  if passive =? 0 then next_state st (answered r) else st.
Definition retries (passive : Z) (st : comm_state_kind) (c : hobd_stats_s) : hobd_stats_s :=
  if passive =? 0 then count_retry st c else c.

Definition conversed pend' rx' r s s' : Prop :=
  let p := listen_only (g_comm s) in let st := state (g_comm s) in
  inv pend' s' /\ tx_ok (g_msg_tx_buffer s') /\ rx_line s' = rx' /\ state (g_comm s') = leads_to p st r /\
  line s' = line s ++ said p st /\ logs (heard p st r) s s' /\ stats s' = retries p st (stats s) /\
  same_flags s s' /\ r <> RBlocked.

Lemma listen_run pend s r pend' rx' : inv pend s -> tx_ok (g_msg_tx_buffer s) ->
  listen_only (g_comm s) <> 0 -> recv_spec true pend (rx_line s) = (r, pend', rx') ->
  wp listen_step (fun _ s' => conversed pend' rx' r s s') (fun k _ => k = Blocked /\ r = RBlocked) s.
Proof.
  intros Hi Htx Hlo%Z.eqb_neq Hr. unfold listen_step. wp_step.
  wp_use ltac:(by eapply (recv_msg_spec 1)); [|done]. intros b s1 (Hi1 & Hk & Hrx & _ & Hb).
  assert (same_flags s s1) as Hfl by (split; [by apply kept_enabled|by apply kept_listen_only]).
  destruct Hk as (Htx1 & Hst & Hline & Hlog & Hc). apply (f_equal state) in Hc. cbn in Hc.
  rewrite <- Htx1 in Htx. unfold conversed, heard, said, leads_to, retries. rewrite Hlo.
  wp_step; [intros ->|intros ->].
  - destruct r as [f| |]; [destruct Hb as [_ Hh]|done..]. wp_step. apply wp_svc.
    destruct Hi1 as (Hp & Hcn & Hs). wp_use ltac:(by apply serves_get_time); [|done].
    intros t w (Hok & Ht & Hlog2 & _).
    wp_use ltac:(by apply (callback_spec t f (set_services w s1))); [|done].
    intros _ s2 (w2 & -> & Hok2 & (es & He & HF) & _). rewrite app_nil_r.
    do 5 (split; [done|]). split; [|done]. exists es. split; [|done].
    cbn in He |- *. by rewrite He, Hlog2, Hlog.
  - destruct r as [f| |]; [by destruct Hb|..|done]. rewrite app_nil_r. do 5 (split; [done|]).
    split; [by apply logs_nil|done].
Qed.

Lemma comm_step_run pend s r pend' rx' : drivers_ok -> inv pend s -> tx_ok (g_msg_tx_buffer s) ->
  converse (listen_only (g_comm s)) (state (g_comm s)) pend (rx_line s) = (r, pend', rx') ->
  wp comm_step (fun _ s' => conversed pend' rx' r s s') (fun k _ => k = Blocked /\ r = RBlocked) s.
Proof.
  intros Hd Hi Htx Hr. unfold comm_step. do 2 wp_step. unfold converse in Hr.
  destruct (Z.eqb_spec (listen_only (g_comm s)) 0) as [E|E]; [|by eapply listen_run].
  wp_use ltac:(by eapply update_state_run); [|done].
  intros _ s' (? & ? & ? & ? & ? & ? & ? & ? & _ & ?).
  unfold conversed, heard, said, leads_to, retries. rewrite E. by split_and!.
Qed.

(** An iteration that finds no message at the endpoint. *)
Lemma hobd_iteration_run pend t r pend' rx' : drivers_ok -> inv pend (hobd t) ->
  tx_ok (g_msg_tx_buffer (hobd t)) -> enabled (g_comm (hobd t)) <> 0 -> ep t = [] ->
  converse (listen_only (g_comm (hobd t))) (state (g_comm (hobd t))) pend (rx_line (hobd t)) = (r, pend', rx') ->
  wp thread_iteration (fun _ t' => conversed pend' rx' r (hobd t) (hobd t') /\ g_regs t' = g_regs t /\
    ep t' = [] /\ replies t' = replies t) (fun k _ => k = Blocked /\ r = RBlocked) t.
Proof.
  intros Hd Hi Htx He Hep Hr. unfold thread_iteration. wp_step. apply wp_on_hobd. do 2 wp_step.
  rewrite (proj2 (Z.eqb_neq _ _)) by done. cbn [negb]. wp_step. apply wp_on_hobd.
  wp_use ltac:(by eapply comm_step_run); [|done]. intros _ h Hh.
  unfold wp, seL4_NBRecv. cbn [ep hobd g_regs replies]. by rewrite Hep.
Qed.

(** From the start to the end of the session. *)
Lemma powered_on_run n buf t st' pend' rx' fs ev : gpio_ok -> drivers_ok ->
  length buf = Z.to_nat MSG_RX_BUFFER_SIZE -> tx_ok (g_msg_tx_buffer (hobd t)) ->
  services_ok (services (hobd t)) -> ids_left (services (hobd t)) -> regs_ok (g_regs t) ->
  enabled (g_comm (hobd t)) = 0 -> listen_only (g_comm (hobd t)) <> 0 ->
  ep t = [give_line; enable_comms] ->
  session n COMM_STATE_GPIO_INIT [] (rx_line (hobd t)) = Some (st', pend', rx', fs, ev) ->
  wp (obd_comm_thread_fn buf (2 + n)) (fun _ t' => state (g_comm (hobd t')) = st' /\
    inv pend' (hobd t') /\ rx_line (hobd t') = rx' /\
    line (hobd t') = line (hobd t) ++ start_traffic ++ ev /\ logs fs (hobd t) (hobd t') /\
    replies t' = replies t ++ [(IPC_MSG_TYPE_LISTEN_ONLY_RESP, [0]); (IPC_MSG_TYPE_COMM_STATE_RESP, [1])])
    total t.
Proof.
  intros Hg Hd Hl Htx Hs Hids Hr He Hlo Hep Hses. unfold obd_comm_thread_fn.
  wp_step. apply wp_on_hobd. wp_use ltac:(by apply thread_init_run); [|done].
  intros _ h1 (Hi1 & [He1 Hl1] & Htx1 & Hrx1 & Hline1 & Hlog1 & _).
  apply (wp_loop_app 2). wp_step. apply requests_run; [done|exact (eq_trans He1 He)|done|]. intros r Hr'.
  wp_use ltac:(eapply (session_run n (mk_thread _ _ _ _) []); cbn [hobd g_regs ep replies]); try done.
  - split; [by apply Parser.repr_nil; [apply Hi1|]|]. by destruct Hi1 as (_ & ? & ?).
  - by rewrite <- Htx1 in Htx.
  - cbn. by rewrite Hrx1.
  - cbn [hobd]. intros _ t' (? & ? & ? & Hline & (es & Hes & HF) & Hrep). split_and!; try done.
    + rewrite Hline. cbn. by rewrite Hline1, <- app_assoc.
    + exists es. split; [|done]. rewrite Hes. cbn. by rewrite Hlog1.
Qed.
End session.
End Session.
