(* ===== verification/Typing.v ===== *)
(** Types of C as invariants: a component's state is typed when every object
    has a value of its C type, and an operation is typed when it keeps that,
    however it ends.  The rules are those of a type system for the monad: a
    statement has a type for its value, and a sequence is typed when its parts
    are. *)
From S2P Require Import Prelude.

(** The unsigned types of 16 and 64 bits; [byte] and [word] are in the prelude. *)
Definition half (z : Z) : Prop := 0 <= z < 65536.
Definition dword (z : Z) : Prop := 0 <= z < 2 ^ 64.
Definition words32 (l : list Z) : Prop := Forall word l.

Lemma half_u16 z : half (u16 z).
Proof. by apply Z.mod_pos_bound. Qed.
Lemma byte_half z : byte z -> half z.
Proof. unfold byte, half. lia. Qed.
Lemma byte_word z : byte z -> word z.
Proof. unfold byte, word. lia. Qed.
Lemma half_word z : half z -> word z.
Proof. unfold half, word. lia. Qed.

Create HintDb ctypes.
#[export] Hint Resolve u8_range half_u16 u32_range byte_half byte_word half_word : ctypes.
#[export] Hint Extern 5 (byte _) => (unfold byte; lia) : ctypes.
#[export] Hint Extern 5 (half _) => (unfold half; lia) : ctypes.
#[export] Hint Extern 5 (word _) => (unfold word; lia) : ctypes.

(** Arrays of a type: reading gives a value of the type, writing one keeps the
    array and its length. *)
Section arrays.
Context (P : Z -> Prop).

Lemma load_typed l i x : Forall P l -> load l i = Some x -> P x.
Proof. unfold load. case_decide; [|done]. intros Hl Hx. by eapply Forall_lookup_1. Qed.

Lemma store_typed l i x l' : Forall P l -> P x -> store l i x = Some l' ->
  Forall P l' /\ length l' = length l.
Proof.
  unfold store. case_decide; [|done]. intros Hl Hx [= <-]. rewrite length_insert.
  split; [by apply Forall_insert|done].
Qed.

Lemma read_at_typed l i n l' : Forall P l -> read_at l i n = Some l' -> Forall P l'.
Proof. unfold read_at. case_decide; [|done]. intros Hl [= <-]. by apply Forall_take, Forall_drop. Qed.

Lemma write_at_typed l i xs l' : Forall P l -> Forall P xs -> write_at l i xs = Some l' ->
  Forall P l' /\ length l' = length l.
Proof.
  unfold write_at. case_decide as Hd; [|done]. intros Hl Hx [= <-]. split.
  - apply Forall_app. split; [by apply Forall_take|]. apply Forall_app. by split; [|apply Forall_drop].
  - rewrite !length_app, length_take, length_drop. lia.
Qed.
End arrays.

(** [keeps I P m]: from a typed state, [m] leads to a typed state however it
    ends, and its value has the type [P]. *)
Section keeps.
Context {S : Type} (I : S -> Prop).

Definition keeps {A} (P : A -> Prop) (m : M S A) : Prop := forall s, I s ->
  wp m (fun a s' => P a /\ I s') (fun _ s' => I s') s.

(** No type for the value. *)
Definition untyped {A} : A -> Prop := fun _ => True.

Lemma keeps_ret {A} (P : A -> Prop) a : P a -> keeps P (mret a).
Proof. by intros HP s Hs. Qed.
Lemma keeps_bind {A B} (P : A -> Prop) (Q : B -> Prop) (m : M S A) (f : A -> M S B) :
  keeps P m -> (forall a, P a -> keeps Q (f a)) -> keeps Q (m ≫= f).
Proof.
  intros Hm Hf s Hs. wp_step. wp_use ltac:(by apply Hm); [|done]. intros a s' [HP Hs']. by apply Hf.
Qed.
Lemma keeps_gets {A} (P : A -> Prop) (f : S -> A) : (forall s, I s -> P (f s)) -> keeps P (gets f).
Proof. intros Hf s Hs. wp_step. split; [by apply Hf|done]. Qed.
Lemma keeps_modify (f : S -> S) : (forall s, I s -> I (f s)) -> keeps untyped (modify f).
Proof. intros Hf s Hs. wp_step. split; [done|by apply Hf]. Qed.
Lemma keeps_stop {A} (P : A -> Prop) k : keeps P (stop_with k).
Proof. intros s Hs. by wp_step. Qed.
Lemma keeps_or_fault {A} (P : A -> Prop) o : (forall a, o = Some a -> P a) -> keeps P (or_fault o).
Proof. destruct o as [a|]; intros Ho; [by apply keeps_ret, Ho|apply keeps_stop]. Qed.
Lemma keeps_when b (m : M S unit) : keeps untyped m -> keeps untyped (when b m).
Proof. destruct b; [done|]. intros _. by apply keeps_ret. Qed.
Lemma keeps_logf `{LogPolicy} : keeps untyped ZF_LOGF.
Proof. unfold ZF_LOGF. destruct logf_aborts; [apply keeps_stop|by apply keeps_ret]. Qed.
Lemma keeps_logf_if `{LogPolicy} b : keeps untyped (ZF_LOGF_IF b).
Proof. apply keeps_when, keeps_logf. Qed.
Lemma keeps_assert b : keeps untyped (c_assert b).
Proof. destruct b; [by apply keeps_ret|apply keeps_stop]. Qed.
Lemma keeps_weaken {A} (P Q : A -> Prop) m : keeps P m -> (forall a, P a -> Q a) -> keeps Q m.
Proof. intros Hm HPQ s Hs. wp_use ltac:(by apply Hm); [|done]. intros a s' [HP Hs']. split; auto. Qed.

(** Whatever the outcome, the state is typed. *)
Lemma keeps_state {A} (P : A -> Prop) (m : M S A) s : keeps P m -> I s -> I (m s).2.
Proof. intros Hm Hs. specialize (Hm s Hs). unfold wp in Hm. by destruct (m s) as [[a|k] s']; [destruct Hm|]. Qed.
End keeps.

(** An operation of a part of the state. *)
Lemma keeps_zoom {S T A} (I : S -> Prop) (J : T -> Prop) (get : S -> T) put (P : A -> Prop) m :
  (forall s, I s -> J (get s)) -> (forall s t, I s -> J t -> I (put t s)) ->
  keeps J P m -> keeps I P (zoom get put m).
Proof.
  intros Hg Hp Hm s Hs. apply wp_zoom. wp_use ltac:(by apply Hm, Hg); [|by intros k t ?; apply Hp].
  intros a t [HP Ht]. split; [done|by apply Hp].
Qed.

(** The typing of a sequence, statement by statement: a statement's type is
    found among the hints of [typing]; a read without one is untyped. *)
Lemma keeps_gets_untyped {S A} (I : S -> Prop) (f : S -> A) : keeps I untyped (gets f).
Proof. by apply keeps_gets. Qed.
Lemma keeps_or_fault_untyped {S A} (I : S -> Prop) (o : option A) : keeps I untyped (or_fault o).
Proof. by apply keeps_or_fault. Qed.
Lemma keeps_ret_untyped {S A} (I : S -> Prop) (a : A) : keeps I untyped (mret a).
Proof. by apply keeps_ret. Qed.
Lemma keeps_stop_untyped {S A} (I : S -> Prop) k : keeps I (untyped (A := A)) (stop_with k).
Proof. apply keeps_stop. Qed.

Create HintDb typing.
#[export] Hint Resolve keeps_logf keeps_logf_if keeps_assert keeps_when keeps_ret_untyped
  keeps_stop_untyped : typing.

Ltac keeps_stmt := first [solve [eauto 7 with typing ctypes]
  |apply keeps_gets_untyped|apply keeps_or_fault_untyped].
Ltac keeps_auto :=
  repeat lazymatch goal with
  | |- forall _, _ => intros ?
  | |- keeps _ _ (_ ≫= _) => eapply keeps_bind; [keeps_stmt|]
  | |- keeps _ _ (match ?x with _ => _ end) => destruct x
  | |- keeps _ _ _ => keeps_stmt
  end.
