(* ===== verification/HobdTypes.v ===== *)
(** The types of the HOBD module's state (modules/hobd: hobd_parser.h, comm.h,
    hobd.h): whatever the line, the messages and the drivers do, every counter,
    flag and buffer has a value of its C type. *)
From S2P Require Import Prelude Kline Parser Msg Services Ipc MmcEntry Comm HobdModule Typing.

Module HobdTypes.

(** ** Messages and the parser *)

Lemma header_size_typed msg size : bytes msg -> header_size msg = Some size -> byte size.
Proof. apply load_typed. Qed.

(** A field that is written, in a buffer of a fixed length. *)
Definition buffer (n : nat) (l : list Z) : Prop := bytes l /\ length l = n.
Lemma store_buffer n l i x l' : buffer n l -> byte x -> store l i x = Some l' -> buffer n l'.
Proof. intros [Hb Hl] Hx Hs. destruct (store_typed byte l i x l' Hb Hx Hs) as [? E]. split; [done|by rewrite E]. Qed.
Lemma set_data_buffer n i v l l' : buffer n l -> set_data i v l = Some l' -> buffer n l'.
Proof. intros Hl. apply store_buffer; [done|apply u8_range]. Qed.

Lemma set_header_buffer n ty size st l l' : buffer n l -> Msg.set_header ty size st l = Some l' ->
  buffer n l'.
Proof.
  unfold Msg.set_header, set_header_type, set_header_size, set_header_subtype. intros Hl Hs.
  apply bind_Some in Hs as (l1 & H1 & Hs). apply bind_Some in Hs as (l2 & H2 & Hs).
  repeat (eapply store_buffer; [|apply u8_range|eassumption]). done.
Qed.

Lemma update_checksum_buffer n l l' : buffer n l -> Msg.hobd_msg_update_checksum l = Some l' -> buffer n l'.
Proof.
  unfold Msg.hobd_msg_update_checksum. intros Hl Hs.
  apply bind_Some in Hs as (size & _ & Hs). apply bind_Some in Hs as (cs & _ & Hs).
  by eapply set_data_buffer.
Qed.

Lemma hobd_msg_buffer n ty st k l r : buffer n l -> Msg.hobd_msg ty st k l = Some r -> buffer n r.2.
Proof.
  unfold Msg.hobd_msg. intros Hl Hs. apply bind_Some in Hs as (l1 & H1 & Hs).
  apply bind_Some in Hs as (l2 & H2 & Hs). apply bind_Some in Hs as (size & _ & [= <-]).
  eapply update_checksum_buffer, H2. by eapply set_header_buffer.
Qed.
Lemma hobd_msg_no_data_buffer n ty st l r : buffer n l -> Msg.hobd_msg_no_data ty st l = Some r -> buffer n r.2.
Proof.
  unfold Msg.hobd_msg_no_data. intros Hl Hs. apply bind_Some in Hs as (l1 & H1 & Hs).
  apply bind_Some in Hs as (l2 & H2 & Hs). apply bind_Some in Hs as (size & _ & [= <-]).
  eapply update_checksum_buffer, H2. by eapply set_header_buffer.
Qed.
Lemma fill_query_buffer n t o c l l' : buffer n l -> Comm.fill_query t o c l = Some l' -> buffer n l'.
Proof.
  unfold Comm.fill_query. intros Hl Hs. apply bind_Some in Hs as (l1 & H1 & Hs).
  apply bind_Some in Hs as (l2 & H2 & Hs). apply bind_Some in Hs as (l3 & H3 & Hs).
  apply bind_Some in Hs as ([size l4] & H4 & [= <-]).
  eapply (hobd_msg_buffer _ _ _ _ _ (size, l4)); [|exact H4].
  repeat (eapply set_data_buffer; [|eassumption]). done.
Qed.

(** [hobd_parser_s]. *)
Record parser_typed (p : Parser.hobd_parser_s) : Prop := {
  bytes_read_typed : byte (Parser.bytes_read p);
  total_size_typed : byte (Parser.total_size p);
  checksum_typed : half (Parser.checksum p);
  valid_count_typed : half (Parser.valid_count p);
  invalid_count_typed : half (Parser.invalid_count p);
  rx_buffer_typed : bytes (Parser.rx_buffer p);
  rx_buffer_size_typed : half (Parser.rx_buffer_size p);
}.

Lemma put_byte_typed b p p' : parser_typed p -> byte b -> Parser.put_byte b p = Some p' ->
  parser_typed p'.
Proof.
  intros [] Hb Hp. apply bind_Some in Hp as (buf & Hbuf & [= <-]).
  destruct (store_typed byte _ _ _ _ rx_buffer_typed0 Hb Hbuf). constructor; cbn; auto with ctypes.
Qed.

Lemma update_byte_typed b p p' : parser_typed p -> byte b -> Parser.update_byte b p = Some p' ->
  parser_typed p'.
Proof.
  intros Hp Hb Hu. apply bind_Some in Hu as (p1 & H1 & [= <-]).
  destruct (put_byte_typed _ _ _ Hp Hb H1). constructor; cbn; auto with ctypes.
Qed.

Lemma set_state_typed st p : parser_typed p -> parser_typed (Parser.set_state st p).
Proof. intros []. by constructor. Qed.
Lemma invalid_reset_typed p : parser_typed p -> parser_typed (Parser.invalid_reset p).
Proof. intros []. constructor; cbn; auto with ctypes. Qed.
Lemma ready_parser_typed p : parser_typed p -> parser_typed (Parser.ready_parser p).
Proof. intros []. by constructor. Qed.

#[local] Hint Resolve set_state_typed invalid_reset_typed ready_parser_typed : ctypes.

Lemma parse_byte_typed b p r : parser_typed p -> byte b ->
  Parser.hobd_parser_parse_byte b p = Some r -> parser_typed r.2.
Proof.
  intros Hp Hb. unfold Parser.hobd_parser_parse_byte. destruct (Parser.state p); intros Hr;
    apply bind_Some in Hr as (p1 & H1 & Hr);
    first [apply update_byte_typed in H1 as Hp1; [|by auto with ctypes..]
          |apply put_byte_typed in H1 as Hp1; [|by auto with ctypes..]].
  1-4: injection Hr as <-; cbn; repeat case_match; auto with ctypes.
  - apply set_state_typed. destruct Hp1. by constructor.
  - destruct (b =? _); injection Hr as <-; apply set_state_typed;
      destruct Hp1; constructor; cbn; auto with ctypes.
Qed.

Lemma parser_reset_typed p : parser_typed p -> parser_typed (Parser.hobd_parser_reset p).
Proof. intros []. by constructor. Qed.

Lemma parser_init_typed `{LogPolicy} buf size : bytes buf -> half size ->
  keeps parser_typed untyped (Parser.hobd_parser_init buf size).
Proof.
  intros Hb Hs. unfold Parser.hobd_parser_init. do 2 (eapply keeps_bind; [apply keeps_logf_if|intros _ _]).
  repeat (eapply keeps_bind; [apply keeps_modify|intros _ _]); try apply keeps_modify;
    intros p []; by constructor.
Qed.

(** ** The state of the thread

    [comm_s], [hobd_stats_s], what the thread wrote to the serial port, and the
    globals of hobd_module.c. *)
Import Ipc Comm HobdModule.

Record comm_typed (c : comm_s) : Prop := {
  enabled_typed : byte (enabled c);
  listen_only_typed : byte (listen_only c);
  timeout_id_typed : word (timeout_id c);
  timeout_signaled_typed : word (timeout_signaled c);
  comm_gpio_retry_typed : half (comm_gpio_retry_count c);
  comm_init_retry_typed : half (comm_init_retry_count c);
}.

Record stats_typed (st : hobd_stats_s) : Prop := {
  timestamp_typed : dword (timestamp st);
  valid_rx_typed : half (valid_rx_count st);
  invalid_rx_typed : half (invalid_rx_count st);
  gpio_retry_typed : half (gpio_retry_count st);
  init_retry_typed : half (init_retry_count st);
}.

Definition event_typed (e : line_event) : Prop := if e is Putchar c then byte c else True.

Record hobd_typed {W} (s : hobd_s W) : Prop := {
  g_comm_typed : comm_typed (g_comm s);
  g_msg_parser_typed : parser_typed (g_msg_parser s);
  g_msg_tx_buffer_typed : buffer 256 (g_msg_tx_buffer s);
  g_stats_typed : stats_typed (stats s);
  line_typed : Forall event_typed (line s);
}.

Lemma set_services_typed {W} (w : W) s : hobd_typed s -> hobd_typed (set_services w s).
Proof. intros []. by constructor. Qed.
Lemma set_comm_typed {W} c (s : hobd_s W) : comm_typed c -> hobd_typed s -> hobd_typed (set_comm c s).
Proof. intros ? []. by constructor. Qed.
Lemma set_parser_typed {W} p (s : hobd_s W) : parser_typed p -> hobd_typed s -> hobd_typed (set_parser p s).
Proof. intros ? []. by constructor. Qed.
Lemma set_tx_typed {W} b (s : hobd_s W) : buffer 256 b -> hobd_typed s -> hobd_typed (set_tx b s).
Proof. intros ? []. by constructor. Qed.
Lemma set_stats_typed {W} st (s : hobd_s W) : stats_typed st -> hobd_typed s -> hobd_typed (set_stats st s).
Proof. intros ? []. by constructor. Qed.
Lemma set_rx_typed {W} rx due (s : hobd_s W) : hobd_typed s -> hobd_typed (set_rx rx due s).
Proof. intros []. by constructor. Qed.
Lemma log_event_typed {W} e (s : hobd_s W) : event_typed e -> hobd_typed s ->
  hobd_typed (set_line (line s ++ [e]) s).
Proof.
  intros ? []. constructor; try done. apply Forall_app. split; [done|]. by apply Forall_cons.
Qed.
#[local] Hint Resolve set_services_typed set_comm_typed set_parser_typed set_tx_typed set_stats_typed
  set_rx_typed log_event_typed parser_reset_typed g_comm_typed g_msg_parser_typed
  g_msg_tx_buffer_typed g_stats_typed : ctypes.

(** Updates of [comm_s] and of the statistics. *)
Lemma set_state_typed' st c : comm_typed c -> comm_typed (set_state st c).
Proof. intros []. by constructor. Qed.
Lemma set_enabled_typed v c : byte v -> comm_typed c -> comm_typed (set_enabled v c).
Proof. intros ? []. by constructor. Qed.
Lemma set_listen_only_typed v c : byte v -> comm_typed c -> comm_typed (set_listen_only v c).
Proof. intros ? []. by constructor. Qed.
Lemma set_timeout_id_typed v c : word v -> comm_typed c -> comm_typed (set_timeout_id v c).
Proof. intros ? []. by constructor. Qed.
Lemma set_timeout_signaled_typed v c : word v -> comm_typed c -> comm_typed (set_timeout_signaled v c).
Proof. intros ? []. by constructor. Qed.
Lemma count_gpio_typed st : stats_typed st -> stats_typed (count_gpio_retry st).
Proof. intros []. constructor; cbn; auto with ctypes. Qed.
Lemma count_init_typed st : stats_typed st -> stats_typed (count_init_retry st).
Proof. intros []. constructor; cbn; auto with ctypes. Qed.
Lemma sample_typed t p st : dword t -> parser_typed p -> stats_typed st ->
  stats_typed (sample_stats t (Parser.valid_count p) (Parser.invalid_count p) st).
Proof. intros ? [] []. by constructor. Qed.
#[local] Hint Resolve set_state_typed' set_enabled_typed set_listen_only_typed set_timeout_id_typed
  set_timeout_signaled_typed count_gpio_typed count_init_typed sample_typed : ctypes.

(** What the time server returns: [uint64_t] and [uint32_t]. *)
Class TimeTyped (W : Type) `{!TimeServer W} := {
  get_time_typed : keeps (fun _ : W => True) dword time_server_get_time;
  alloc_id_typed : keeps (fun _ : W => True) word time_server_alloc_id;
}.

Section thread.
Context `{LogPolicy} `{Hw} {W : Type} `{!Services W} `{!TimeTyped W}.
Abbreviation typed := (keeps (hobd_typed (W := W))).

Lemma typed_svc {A} (P : A -> Prop) (m : M W A) : keeps (fun _ => True) P m -> typed P (svc m).
Proof. intros Hm. apply (keeps_zoom _ (fun _ => True)); auto with ctypes. Qed.
Lemma typed_call (m : M W unit) : typed untyped (svc m).
Proof. apply typed_svc. intros w _. unfold wp. by destruct (m w) as [[]]. Qed.
Lemma typed_get_time : typed dword (svc time_server_get_time).
Proof. apply typed_svc, get_time_typed. Qed.
Lemma typed_alloc_id : typed word (svc time_server_alloc_id).
Proof. apply typed_svc, alloc_id_typed. Qed.
Lemma typed_gets_comm : typed comm_typed (gets g_comm).
Proof. apply keeps_gets. auto with ctypes. Qed.
Lemma typed_gets_parser : typed parser_typed (gets g_msg_parser).
Proof. apply keeps_gets. auto with ctypes. Qed.
Lemma typed_gets_tx : typed (buffer 256) (gets g_msg_tx_buffer).
Proof. apply keeps_gets. auto with ctypes. Qed.
Lemma typed_gets_stats : typed stats_typed (gets stats).
Proof. apply keeps_gets. auto with ctypes. Qed.
Lemma typed_on_comm f : (forall c, comm_typed c -> comm_typed (f c)) -> typed untyped (on_comm f).
Proof. intros Hf. apply keeps_modify. auto with ctypes. Qed.
Lemma typed_modify f : (forall s, hobd_typed s -> hobd_typed (f s)) -> typed untyped (modify f).
Proof. apply keeps_modify. Qed.
Lemma typed_emit e : event_typed e -> typed untyped (emit e).
Proof. intros He. apply keeps_modify. auto with ctypes. Qed.
Lemma typed_load_tx b i : buffer 256 b -> typed byte (or_fault (load b i)).
Proof. intros [Hb _]. apply keeps_or_fault. intros c. by apply (load_typed byte). Qed.
#[local] Hint Resolve typed_call typed_get_time typed_alloc_id typed_gets_comm typed_gets_parser
  typed_gets_tx typed_gets_stats typed_on_comm typed_modify typed_emit typed_load_tx : typing.

Lemma typed_driver e f : event_typed e -> typed untyped (driver e f).
Proof. intros He. unfold driver. keeps_auto. Qed.
Lemma typed_on_tx f : (forall b b', buffer 256 b -> f b = Some b' -> buffer 256 b') ->
  typed untyped (on_tx f).
Proof.
  intros Hf. eapply keeps_bind; [apply typed_gets_tx|]. intros b Hb.
  eapply (keeps_bind _ (buffer 256)); [apply keeps_or_fault; eauto|]. keeps_auto.
Qed.
#[local] Hint Extern 1 (event_typed _) => first [exact I|assumption] : ctypes.
#[local] Hint Resolve typed_driver : typing.

(** *** comm.c *)

Lemma typed_stop_timeout : typed untyped comm_stop_timeout.
Proof. unfold comm_stop_timeout. keeps_auto. Qed.
#[local] Hint Resolve typed_stop_timeout : typing.
Lemma typed_start_timeout : typed untyped comm_start_timeout.
Proof. unfold comm_start_timeout. keeps_auto. Qed.
Lemma typed_time_server_runs : typed untyped time_server_runs.
Proof. unfold time_server_runs, timeout_cb. keeps_auto. apply keeps_when. keeps_auto. Qed.
Lemma typed_get_timeout : typed untyped comm_get_timeout.
Proof. unfold comm_get_timeout. keeps_auto. Qed.
#[local] Hint Resolve typed_start_timeout typed_time_server_runs typed_get_timeout : typing.
Lemma typed_gpio_init_seq : typed untyped comm_gpio_init_seq.
Proof.
  assert (forall e f, event_typed e -> typed untyped (err ← driver e f; ZF_LOGF_IF (negb (err =? 0))))
    as Hd by keeps_auto.
  unfold comm_gpio_init_seq. keeps_auto.
Qed.
#[local] Hint Resolve typed_gpio_init_seq : typing.
Lemma typed_ecu_init_seq : typed untyped comm_ecu_init_seq.
Proof. unfold comm_ecu_init_seq. keeps_auto. Qed.

Lemma typed_send_loop fuel : forall idx, typed untyped (send_loop fuel idx).
Proof. induction fuel as [|fuel IH]; intros idx; cbn [send_loop]; keeps_auto. Qed.
#[local] Hint Resolve typed_send_loop : typing.
Lemma typed_send_msg : typed untyped comm_send_msg.
Proof. unfold comm_send_msg. keeps_auto. Qed.

Lemma typed_getchar : typed untyped ps_cdev_getchar.
Proof.
  intros s Hs. unfold wp, ps_cdev_getchar. destruct (rx_line s) as [|[d due] rx]; auto with ctypes.
  split; [done|]. auto with ctypes.
Qed.
Lemma typed_parse data p : parser_typed p ->
  typed (fun r => parser_typed r.2) (or_fault (Parser.hobd_parser_parse_byte (u8 data) p)).
Proof. intros Hp. apply keeps_or_fault. intros r. by apply parse_byte_typed, u8_range. Qed.
#[local] Hint Resolve typed_getchar typed_parse : typing.
Lemma typed_recv_loop use_timeout fuel : forall msg fired, typed untyped (recv_loop fuel use_timeout msg fired).
Proof.
  induction fuel as [|fuel IH]; intros msg fired; cbn [recv_loop]; keeps_auto.
  eapply (keeps_bind _ untyped); [keeps_auto|]. intros.
  eapply (keeps_bind _ untyped); [keeps_auto|]. intros. apply IH.
Qed.
#[local] Hint Resolve typed_recv_loop : typing.
Lemma typed_recv_msg use_timeout : typed untyped (comm_recv_msg use_timeout).
Proof. unfold comm_recv_msg. keeps_auto. Qed.
#[local] Hint Resolve typed_recv_msg : typing.
Lemma typed_wait_loop subtype use_timeout fuel : forall found fired,
  typed untyped (wait_loop fuel subtype use_timeout found fired).
Proof. induction fuel as [|fuel IH]; intros found fired; cbn [wait_loop]; keeps_auto. Qed.
#[local] Hint Resolve typed_wait_loop : typing.

(** The time stamp of a response has its type. *)
Lemma typed_wait_for_resp subtype use_timeout ts :
  typed (fun r => forall t, r.2 = Some t -> dword t) (comm_wait_for_resp subtype use_timeout ts).
Proof.
  unfold comm_wait_for_resp. keeps_auto; apply keeps_ret; [|done]. by intros ? [= <-].
Qed.
#[local] Hint Resolve typed_ecu_init_seq typed_send_msg typed_wait_for_resp : typing.

(** *** hobd_module.c, the communication *)

Lemma typed_new_msg ts : typed untyped (new_hobd_msg_callback ts).
Proof. unfold new_hobd_msg_callback. keeps_auto. Qed.
Lemma typed_log_tx size : typed untyped (log_tx size).
Proof. unfold log_tx. keeps_auto. Qed.
#[local] Hint Resolve typed_new_msg typed_log_tx : typing.

(** The builders keep the buffer. *)
Lemma typed_build f : (forall b r, buffer 256 b -> f b = Some r -> buffer 256 r.2) ->
  typed untyped (on_tx (fun b => (snd : Z * list Z -> list Z) <$> f b)).
Proof.
  intros Hf. apply typed_on_tx. intros b b' Hb Hs. apply fmap_Some in Hs as (r & Hr & ->). by eapply Hf.
Qed.
Lemma typed_diag : typed untyped send_ecu_diag_messages.
Proof.
  unfold send_ecu_diag_messages. keeps_auto.
  eapply keeps_bind; [apply typed_build; intros b r; apply hobd_msg_no_data_buffer|]. keeps_auto.
  eapply keeps_bind; [apply typed_on_tx; intros b b'; apply set_data_buffer|intros _ _].
  eapply keeps_bind; [apply typed_build; intros b r; apply hobd_msg_buffer|]. keeps_auto.
Qed.
Lemma typed_table_req table : typed untyped (send_table_req table).
Proof.
  unfold send_table_req, comm_fill_msg_subgroub_10_query, comm_fill_msg_subgroub_d1_query.
  eapply (keeps_bind _ untyped); [|intros _ _].
  { repeat case_match; [..|apply keeps_assert]; apply typed_on_tx; intros b b'; apply fill_query_buffer. }
  keeps_auto. eapply (keeps_bind _ untyped); keeps_auto.
Qed.
Lemma typed_await_resp subtype found lost : typed untyped (await_resp subtype found lost).
Proof.
  unfold await_resp. eapply keeps_bind; [apply typed_wait_for_resp|]. keeps_auto.
Qed.
#[local] Hint Resolve typed_diag typed_table_req typed_await_resp : typing.

Lemma typed_update_state : typed untyped comm_update_state.
Proof. unfold comm_update_state. keeps_auto. Qed.
Lemma typed_thread_init rx : bytes rx -> typed untyped (thread_init rx).
Proof.
  intros Hrx. unfold thread_init.
  do 2 (eapply keeps_bind; [keeps_stmt|intros ? ?]). eapply keeps_bind; [keeps_auto|intros _ _].
  eapply (keeps_bind _ untyped).
  { eapply (keeps_zoom _ parser_typed); [auto with ctypes..|].
    apply parser_init_typed; [done|by unfold MSG_RX_BUFFER_SIZE, half]. }
  intros _ _. keeps_auto. eapply (keeps_bind _ untyped); [apply keeps_when|]; keeps_auto.
Qed.
#[local] Hint Resolve typed_update_state typed_thread_init : typing.
Lemma typed_comm_step : typed untyped comm_step.
Proof.
  unfold comm_step, listen_step. keeps_auto. apply keeps_when. keeps_auto.
Qed.
#[local] Hint Resolve typed_comm_step : typing.

(** ** The endpoint *)

Context `{!Kernel} `{!KernelSpec}.

Definition regs_typed (r : regs) : Prop := words32 (mr r) /\ words32 (ipc_area r).
Definition msg_typed (m : ipc_msg) : Prop := words32 (msg_words m).
Record thread_typed (t : thread_s W) : Prop := {
  t_hobd_typed : hobd_typed (hobd t);
  t_regs_typed : regs_typed (g_regs t);
  t_ep_typed : Forall msg_typed (ep t);
  t_replies_typed : Forall (fun r => words32 r.2) (replies t);
}.
Abbreviation ttyped := (keeps thread_typed).

Lemma set_mr_typed i v r r' : regs_typed r -> seL4_SetMR i v r = Some r' -> regs_typed r'.
Proof.
  intros [Hm Ha] Hs. apply bind_Some in Hs as (l & Hl & [= <-]). split; [|done].
  by destruct (store_typed word _ _ _ _ Hm (u32_range v) Hl).
Qed.
Lemma set_area_typed i v r r' : regs_typed r -> set_area i v r = Some r' -> regs_typed r'.
Proof.
  intros [Hm Ha] Hs. apply bind_Some in Hs as (l & Hl & [= <-]). split; [done|].
  by destruct (store_typed word _ _ _ _ Ha (u32_range v) Hl).
Qed.
Lemma mr_send_loop_typed n : forall idx buf r r', regs_typed r ->
  mr_send_loop n idx buf r = Some r' -> regs_typed r'.
Proof.
  induction n as [|n IH]; intros idx buf r r' Hr; cbn [mr_send_loop]; [by intros [= <-]|].
  intros Hs. apply bind_Some in Hs as (w & _ & Hs). apply bind_Some in Hs as (r1 & Hr1 & Hs).
  eapply IH, Hs. case_match; eauto using set_mr_typed, set_area_typed.
Qed.
Lemma words_typed r : regs_typed r -> words32 (words r).
Proof. intros [Hm Ha]. apply Forall_app. split; [done|by apply Forall_drop]. Qed.

Lemma received_typed m rest t : thread_typed t -> msg_typed m -> Forall msg_typed rest ->
  thread_typed (received m rest t).
Proof.
  intros [Hh [Hm Ha] He Hr] Hw Hrest. constructor; try done. cbn. case_match; [done|].
  split; [by apply deliver_word|done].
Qed.
Lemma typed_nbrecv : ttyped untyped seL4_NBRecv.
Proof.
  intros t Ht. unfold wp, seL4_NBRecv. destruct (ep t) as [|m rest] eqn:E; [by split|]. split; [done|].
  pose proof (t_ep_typed t Ht) as He. rewrite E in He. rewrite Forall_cons_iff in He; destruct He as [? ?].
  by apply received_typed.
Qed.
Lemma next_msg_typed l m rest : Forall msg_typed l -> next_msg l = Some (m, rest) ->
  msg_typed m /\ Forall msg_typed rest.
Proof.
  induction 1 as [|m' l Hm Hl IH]; [done|]. cbn. case_match; [done|]. by intros [= <- <-].
Qed.
Lemma typed_recv : ttyped untyped seL4_Recv.
Proof.
  intros t Ht. unfold wp, seL4_Recv. destruct (next_msg (ep t)) as [[m rest]|] eqn:E; [|exact Ht].
  split; [done|]. destruct (next_msg_typed _ _ _ (t_ep_typed t Ht) E). by apply received_typed.
Qed.
Lemma typed_reply label n : ttyped untyped (seL4_Reply label n).
Proof.
  apply keeps_modify. intros t []. constructor; try done. apply Forall_app. split; [done|].
  apply Forall_cons; [|done]. by apply Forall_take, words_typed.
Qed.
Lemma typed_on_regs f : (forall r r', regs_typed r -> f r = Some r' -> regs_typed r') ->
  ttyped untyped (on_regs f).
Proof.
  intros Hf. eapply (keeps_bind _ regs_typed); [by apply keeps_gets; intros t []|]. intros r Hr.
  eapply (keeps_bind _ regs_typed); [apply keeps_or_fault; eauto|]. intros r' Hr'.
  apply keeps_modify. intros t []. by constructor.
Qed.
Lemma typed_set_mr i v : ttyped untyped (on_regs (seL4_SetMR i v)).
Proof. apply typed_on_regs. intros r r'. apply set_mr_typed. Qed.
Lemma typed_mr_send n buf : ttyped untyped (on_regs (sel4_mr_send n buf)).
Proof. apply typed_on_regs. intros r r'. apply mr_send_loop_typed. Qed.
Lemma typed_on_hobd {A} (P : A -> Prop) m : typed P m -> ttyped P (on_hobd m).
Proof. intros Hm. eapply keeps_zoom, Hm; [by intros t []|by intros t h [] ?; constructor]. Qed.
Lemma typed_get_mr0 : ttyped untyped get_mr0.
Proof. unfold get_mr0. keeps_auto. Qed.
#[local] Hint Resolve typed_nbrecv typed_recv typed_reply typed_set_mr typed_mr_send typed_on_hobd
  typed_get_mr0 : typing.

Lemma byte_flag (z : Z) : byte (if z =? 0 then 0 else 1).
Proof. by case_match. Qed.
#[local] Hint Resolve byte_flag : ctypes.

Lemma typed_handle_ipc m : ttyped untyped (handle_ipc m).
Proof.
  unfold handle_ipc, dispatch, handle_stats_req, handle_comm_state_req, handle_comm_state_set_req,
    handle_listen_only_req, handle_listen_only_set_req. keeps_auto.
Qed.
#[local] Hint Resolve typed_handle_ipc : typing.
Lemma typed_iteration : ttyped untyped thread_iteration.
Proof.
  unfold thread_iteration. keeps_auto. eapply (keeps_bind _ untyped); keeps_auto.
Qed.
#[local] Hint Resolve typed_iteration : typing.
Lemma typed_thread_loop n : ttyped untyped (thread_loop n).
Proof. induction n as [|n IH]; cbn [thread_loop]; keeps_auto. Qed.
#[local] Hint Resolve typed_thread_loop : typing.
Lemma typed_thread_fn rx n : bytes rx -> ttyped untyped (obd_comm_thread_fn rx n).
Proof. intros Hrx. unfold obd_comm_thread_fn. keeps_auto. Qed.

End thread.

(** A clock, as the services of a thread. *)
#[local] Instance clock_time : TimeServer Z := {|
  time_server_get_time := t ← gets u64; modify Z.succ;; mret t;
  time_server_alloc_id := gets u32;
  time_server_register_rel_cb _ _ := mret tt;
  time_server_register_periodic_cb _ _ _ := mret tt;
  time_server_deregister_cb _ := mret tt;
  allocated _ := [];
  cb_registered _ _ := false;
  cb_expire _ w := w;
|}.
#[local] Instance clock_services : Services Z := {|
  services_time := clock_time;
  system_module_wait_for_start := mret tt;
  mmc_log_entry_data _ _ _ _ _ := mret tt;
|}.
#[local] Instance clock_typed : TimeTyped Z.
Proof. split; intros w _; split; try done; apply Z.mod_pos_bound; lia. Qed.
#[local] Existing Instance demo_hw.
#[local] Existing Instance log_aborts.

Definition clock_thread (rx : list poll) (msgs : list ipc_msg) : thread_s Z :=
  mk_thread (mk_hobd (mk_comm 1 0 COMM_STATE_GPIO_INIT 0 0 0 65535) Parser.zero_parser
    (replicate 256 0x55) (mk_stats 0 0 0 65535 0) rx false [] (-1)) demo_regs msgs [].

Lemma clock_thread_typed rx msgs : Forall msg_typed msgs -> thread_typed (clock_thread rx msgs).
Proof.
  intros Hm. constructor; [constructor| |done|constructor].
  all: try (constructor; cbn; done). all: try (split; decide_now).
Qed.

End HobdTypes.
