(* ===== verification/MmcFile.v ===== *)
(** The log file, modules/mmc/src/mmc_file.c, over the FAT library it calls, and
    the media access functions modules/mmc/src/mmc_module.c gives that library. *)
From S2P Require Import Prelude.

Module MmcFile.

Definition MMC_FILE_ERR_OK : Z := 0.
Definition MMC_FILE_ERR_INIT : Z := 1.
Definition MMC_FILE_ERR_FS : Z := 2.
Definition MMC_FILE_ERR_NOT_OPEN : Z := 3.
Definition MMC_FILE_ERR_IO : Z := 4.
Definition IS_INIT_VALUE : Z := 1.
Definition DONT_CHECK_FILE : Z := 0.
Definition CHECK_FILE : Z := 1.

(** A 32-bit signed conversion. *)
Definition s32 (z : Z) : Z := let w := u32 z in if w <? 2147483648 then w else w - 4294967296.

(** The FAT library on the one file the system has (its name and the mode
    ["wba"] are constants).  A handle is a number, [NULL] is [None].  The
    library reaches the card through the two media functions only, and these
    pretend to succeed while the file is disabled: the first argument of an
    operation is whether they perform their transfers. *)
Class Fat (F : Type) := {
  FAT_INIT_OK : Z;
  fl_init : M F unit;
  (** The lock and the unlock are fatio_lock and fatio_unlock (FatLock). *)
  fl_attach_locks : M F unit;
  fl_attach_media : bool -> M F Z;
  fl_fopen : bool -> M F (option Z);
  fl_fclose : bool -> Z -> M F unit;
  fl_remove : bool -> M F Z;
  fl_fflush : bool -> Z -> M F Z;
  (** [data size count] and the handle. *)
  fl_fwrite : bool -> list Z -> Z -> Z -> Z -> M F Z;
  filelength : Z -> F -> Z;
}.

(** [contents]: the file as its handle sees it; [stored]: the file on the card. *)
Class FatSpec (F : Type) `{!Fat F} := {
  fat_ok : F -> Prop;
  is_open : Z -> F -> Prop;
  contents : F -> list Z;
  stored : F -> list Z;
  fl_init_spec f :
    wp fl_init (fun _ f' => fat_ok f' /\ (forall h, ~ is_open h f') /\ stored f' = stored f)
      (fun _ _ => False) f;
  fl_attach_locks_spec f : fat_ok f ->
    wp fl_attach_locks (fun _ f' => fat_ok f' /\ (forall h, is_open h f' <-> is_open h f) /\
      stored f' = stored f) (fun _ _ => False) f;
  fl_attach_media_spec on f : fat_ok f ->
    wp (fl_attach_media on) (fun _ f' => fat_ok f' /\ (forall h, is_open h f' <-> is_open h f) /\
      stored f' = stored f) (fun _ _ => False) f;
  fl_fopen_spec on f : fat_ok f ->
    wp (fl_fopen on) (fun r f' => fat_ok f' /\ stored f' = stored f /\
      match r with
      | Some h => ~ is_open h f /\ (forall h', is_open h' f' <-> h' = h \/ is_open h' f) /\
          (on = true -> (forall h', ~ is_open h' f) -> contents f' = stored f)
      | None => forall h', is_open h' f' <-> is_open h' f
      end) (fun _ _ => False) f;
  fl_fclose_spec on h f : fat_ok f -> is_open h f ->
    wp (fl_fclose on h) (fun _ f' => fat_ok f' /\
      (forall h', is_open h' f' <-> h' <> h /\ is_open h' f) /\
      stored f' = if on then contents f else stored f) (fun _ _ => False) f;
  fl_remove_spec on f : fat_ok f ->
    wp (fl_remove on) (fun r f' => fat_ok f' /\ (forall h, is_open h f' <-> is_open h f) /\
      stored f' = if on && (r =? 0) then [] else stored f) (fun _ _ => False) f;
  fl_fflush_spec on h f : fat_ok f -> is_open h f ->
    wp (fl_fflush on h) (fun r f' => fat_ok f' /\ (forall h', is_open h' f' <-> is_open h' f) /\
      contents f' = contents f /\ (on = true -> r = 0 -> stored f' = contents f))
      (fun _ _ => False) f;
  (** A short count is an error; a prefix was appended. *)
  fl_fwrite_spec on data size count h f : fat_ok f -> is_open h f ->
    0 < size -> 0 < count -> size * count <= Z.of_nat (length data) ->
    wp (fl_fwrite on data size count h) (fun r f' => fat_ok f' /\
      (forall h', is_open h' f' <-> is_open h' f) /\ exists k,
      contents f' = contents f ++ take k data /\ (k <= Z.to_nat (size * count))%nat /\
      (r = size * count -> k = Z.to_nat (size * count))) (fun _ _ => False) f;
  filelength_spec h f : fat_ok f -> is_open h f ->
    filelength h f = Z.of_nat (length (contents f));
}.

(** [mmc_file_s], and the state of the file system. *)
Record mmc_file_s := mk_file { is_init : Z; enabled : Z; ref : option Z }.
Record fs (F : Type) := mk_fs { file : mmc_file_s; fat : F }.
Arguments mk_fs {F}.
Arguments file {F}.
Arguments fat {F}.

Definition set_enabled v f := mk_file (is_init f) v (ref f).
Definition set_ref v f := mk_file (is_init f) (enabled f) v.

Section mmc_file.
Context {F : Type} `{!Fat F}.
Abbreviation T := (M (fs F)).

Definition on_file (g : mmc_file_s -> mmc_file_s) : T unit :=
  modify (fun s => mk_fs (g (file s)) (fat s)).
Definition on_fat {A} (m : M F A) : T A := zoom fat (fun f s => mk_fs (file s) f) m.

Definition init_check (f : mmc_file_s) (check_file : Z) : Z :=
  let ret := if negb (is_init f =? IS_INIT_VALUE) then MMC_FILE_ERR_INIT else MMC_FILE_ERR_OK in
  if ret =? MMC_FILE_ERR_OK then
    if negb (check_file =? 0) && negb (enabled f =? 0) then
      match ref f with None => MMC_FILE_ERR_NOT_OPEN | Some _ => ret end
    else ret
  else ret.

Definition mmc_file_get_enabled (f : mmc_file_s) : Z :=
  if init_check f DONT_CHECK_FILE =? MMC_FILE_ERR_OK then enabled f else 0.

(** Whether the media functions perform their transfers now. *)
Definition media_on (s : fs F) : bool := negb (mmc_file_get_enabled (file s) =? 0).

Definition mmc_fopen : T Z :=
  on ← gets media_on;
  r ← on_fat (fl_fopen on);
  on_file (set_ref r);;
  mret (match r with None => MMC_FILE_ERR_FS | Some _ => MMC_FILE_ERR_OK end).

Definition mmc_fclose : T unit :=
  f ← gets file;
  match ref f with
  | None => mret tt
  | Some h => on ← gets media_on; on_fat (fl_fclose on h);; on_file (set_ref None)
  end.

Definition mmc_file_init : T unit := modify (fun s => mk_fs (mk_file IS_INIT_VALUE 1 None) (fat s)).

(** The rest of an operation runs if the check passed and the file is enabled. *)
Definition if_enabled (check_file : Z) (m : T Z) : T Z :=
  f ← gets file;
  let ret := init_check f check_file in
  if (ret =? MMC_FILE_ERR_OK) && negb (enabled f =? 0) then m else mret ret.

Definition mmc_file_open : T Z :=
  if_enabled DONT_CHECK_FILE
    (f ← gets file;
     match ref f with None => mmc_fopen | Some _ => mret MMC_FILE_ERR_OK end).

Definition mmc_file_set_enabled (v : Z) : T Z :=
  f ← gets file;
  let ret := init_check f DONT_CHECK_FILE in
  if ret =? MMC_FILE_ERR_OK then
    if v =? 0 then
      when (negb (enabled f =? 0)) (on_file (set_enabled 0);; mmc_fclose);;
      mret ret
    else
      ret ← mmc_fopen;
      when (ret =? MMC_FILE_ERR_OK) (on_file (set_enabled 1));;
      mret ret
  else mret ret.

Definition mmc_file_close : T Z :=
  if_enabled DONT_CHECK_FILE (mmc_fclose;; mret MMC_FILE_ERR_OK).

Definition mmc_file_rm : T Z :=
  if_enabled DONT_CHECK_FILE
    (mmc_fclose;;
     on ← gets media_on;
     rm_status ← on_fat (fl_remove on);
     ret ← mmc_fopen;
     mret (if (ret =? MMC_FILE_ERR_OK) && negb (rm_status =? 0) then MMC_FILE_ERR_FS else ret)).

(** The status and the size; [file->ref] is dereferenced. *)
Definition mmc_file_size : T (Z * Z) :=
  s ← gets (fun s => s);
  let ret := init_check (file s) CHECK_FILE in
  if (ret =? MMC_FILE_ERR_OK) && negb (enabled (file s) =? 0)
  then h ← or_fault (ref (file s)); mret (ret, u32 (filelength h (fat s)))
  else mret (ret, 0).

Definition mmc_file_flush (hard_flush : Z) : T Z :=
  if_enabled CHECK_FILE
    (if negb (hard_flush =? 0) then mmc_fclose;; mmc_fopen
     else
       f ← gets file; on ← gets media_on;
       h ← or_fault (ref f);
       flush_status ← on_fat (fl_fflush on h);
       mret (if negb (flush_status =? 0) then MMC_FILE_ERR_FS else MMC_FILE_ERR_OK)).

(** The library reads [size * count] bytes of the buffer [data]. *)
Definition mmc_file_write (data : list Z) (size count : Z) : T Z :=
  if_enabled CHECK_FILE
    (f ← gets file; on ← gets media_on;
     h ← or_fault (ref f);
     data ← or_fault (read_at data 0 (size * count));
     ret ← on_fat (fl_fwrite on data size count h);
     mret (if negb (ret =? s32 (size * count)) then MMC_FILE_ERR_IO else MMC_FILE_ERR_OK)).
End mmc_file.

(** *** The media functions

    The card driver is a parameter: the byte counts [mmc_block_read] and
    [mmc_block_write] return, as functions of the calls made so far. *)
Definition FATIO_MEDIA_RW_FAILURE : Z := 0.
Definition FATIO_MEDIA_RW_SUCCESS : Z := 1.

Inductive card_call := BlockRead (sector count : Z) | BlockWrite (sector count : Z).
Class Card := {
  card_result : list card_call -> card_call -> Z;
  FAT_SECTOR_SIZE : Z;
}.

Section media.
Context `{!Card}.

Definition transfer (f : mmc_file_s) (c : card_call) (sector_count : Z) : M (list card_call) Z :=
  if negb (mmc_file_get_enabled f =? 0) then
    calls ← gets (fun l => l);
    modify (fun l => l ++ [c]);;
    mret (if negb (card_result calls c =? sector_count * FAT_SECTOR_SIZE)
          then FATIO_MEDIA_RW_FAILURE else FATIO_MEDIA_RW_SUCCESS)
  else mret FATIO_MEDIA_RW_SUCCESS.

Definition fatio_media_read (f : mmc_file_s) (sector sector_count : Z) : M (list card_call) Z :=
  transfer f (BlockRead sector (s32 sector_count)) sector_count.
Definition fatio_media_write (f : mmc_file_s) (sector sector_count : Z) : M (list card_call) Z :=
  transfer f (BlockWrite sector (s32 sector_count)) sector_count.
End media.

(** ** The invariant *)

Section file_proofs.
Context {F : Type} `{!Fat F} `{!FatSpec F}.
Implicit Types s : fs F.

Lemma wp_on_fat {A} (m : M F A) Q X s :
  wp m (fun a f => Q a (mk_fs (file s) f)) (fun k f => X k (mk_fs (file s) f)) (fat s) ->
  wp (on_fat m) Q X s.
Proof. intros Hm. unfold on_fat. by apply wp_zoom. Qed.
Lemma wp_on_file g Q X s : Q tt (mk_fs (g (file s)) (fat s)) -> wp (on_file g) Q X s.
Proof. done. Qed.

(** The open handles are exactly the one the file refers to. *)
Definition handles_ok s : Prop :=
  match ref (file s) with
  | Some h => forall h', is_open h' (fat s) <-> h' = h
  | None => forall h', ~ is_open h' (fat s)
  end.
Definition file_inv s : Prop :=
  is_init (file s) = IS_INIT_VALUE /\ fat_ok (fat s) /\ handles_ok s /\
  (enabled (file s) = 0 -> ref (file s) = None).

Definition never {S} : stop -> S -> Prop := fun _ _ => False.

Lemma init_check_run f check : is_init f = IS_INIT_VALUE ->
  init_check f check =
  if negb (check =? 0) && negb (enabled f =? 0) && bool_decide (ref f = None)
  then MMC_FILE_ERR_NOT_OPEN else MMC_FILE_ERR_OK.
Proof.
  intros Hi. unfold init_check. rewrite Hi. cbn.
  destruct (_ && _); [|done]. by destruct (ref f).
Qed.

Lemma init_check_dont f : is_init f = IS_INIT_VALUE -> init_check f DONT_CHECK_FILE = MMC_FILE_ERR_OK.
Proof. intros Hi. by rewrite init_check_run. Qed.

Lemma media_on_run s : is_init (file s) = IS_INIT_VALUE ->
  media_on s = negb (enabled (file s) =? 0).
Proof.
  intros Hi. unfold media_on, mmc_file_get_enabled. rewrite init_check_run by done. done.
Qed.

Lemma if_enabled_run check m Q X s : is_init (file s) = IS_INIT_VALUE ->
  (enabled (file s) = 0 -> Q MMC_FILE_ERR_OK s) ->
  (enabled (file s) <> 0 -> check <> 0 -> ref (file s) = None -> Q MMC_FILE_ERR_NOT_OPEN s) ->
  (enabled (file s) <> 0 -> (check <> 0 -> ref (file s) <> None) -> wp m Q X s) ->
  wp (if_enabled check m) Q X s.
Proof.
  intros Hi H0 Hn Hm. unfold if_enabled. do 2 wp_step. rewrite init_check_run by done.
  destruct (Z.eqb_spec (enabled (file s)) 0) as [E|E]; cbn [negb].
  - rewrite !andb_false_r. cbn [andb]. apply wp_ret. by apply H0.
  - destruct (Z.eqb_spec check 0) as [C|C]; cbn [negb andb].
    + by apply Hm.
    + case_bool_decide as Hr; [by apply wp_ret, Hn|by apply Hm].
Qed.

(** Opening, with nothing open. *)
Lemma fopen_spec s : is_init (file s) = IS_INIT_VALUE -> fat_ok (fat s) ->
  (forall h, ~ is_open h (fat s)) ->
  wp mmc_fopen (fun r s' => exists h, file s' = set_ref h (file s) /\ fat_ok (fat s') /\
    stored (fat s') = stored (fat s) /\ handles_ok s' /\
    (r = MMC_FILE_ERR_OK /\ h <> None /\
       (enabled (file s) <> 0 -> contents (fat s') = stored (fat s)) \/
     r = MMC_FILE_ERR_FS /\ h = None)) never s.
Proof.
  intros Hi Hok Hno. unfold mmc_fopen. do 2 wp_step. wp_step. apply wp_on_fat.
  wp_use ltac:(by apply fl_fopen_spec); [|done]. intros r f (Hok' & Hst & Hr).
  wp_step. apply wp_on_file. wp_step. exists r. split_and!; try done.
  - unfold handles_ok. cbn. destruct r as [h|].
    + destruct Hr as (_ & Hop & _). intros h'. rewrite Hop.
      split; [intros [?|Ho]; [done|by destruct (Hno h')]|by left].
    + intros h' Ho. apply Hr in Ho. by apply (Hno h').
  - destruct r as [h|]; [left|by right]. split_and!; try done.
    intros He. apply Hr; [|done]. rewrite media_on_run by done.
    by apply negb_true_iff, Z.eqb_neq.
Qed.

(** Closing. *)
Lemma fclose_spec s : is_init (file s) = IS_INIT_VALUE -> fat_ok (fat s) -> handles_ok s ->
  wp mmc_fclose (fun _ s' => file s' = set_ref None (file s) /\ fat_ok (fat s') /\ handles_ok s' /\
    stored (fat s') = (if bool_decide (ref (file s) <> None) && negb (enabled (file s) =? 0)
                       then contents (fat s) else stored (fat s))) never s.
Proof.
  intros Hi Hok Hh. unfold mmc_fclose. do 2 wp_step. unfold handles_ok in Hh.
  destruct (ref (file s)) as [h|] eqn:Hr.
  - do 2 wp_step. wp_step. apply wp_on_fat.
    wp_use ltac:(apply fl_fclose_spec; [done|by apply Hh]); [|done].
    intros _ f (Hok' & Hop & Hst). apply wp_on_file. split_and!; try done.
    + intros h' [Hne Ho]%Hop. by apply Hh in Ho.
    + rewrite media_on_run in Hst by done. cbn. exact Hst.
  - wp_step. split_and!; try done.
    + destruct s as [[i e r] f]. cbn in *. by subst.
    + unfold handles_ok. by rewrite Hr.
Qed.

(** *** The operations *)

(** Every path through an operation keeps the invariant and is free of faults. *)
Inductive op :=
| Open | Close | Rm | Size | Flush (hard : Z) | Write (data : list Z) (size count : Z)
| SetEnabled (v : Z).

Definition run_op (o : op) : M (fs F) Z :=
  match o with
  | Open => mmc_file_open
  | Close => mmc_file_close
  | Rm => mmc_file_rm
  | Size => '(ret, _) ← mmc_file_size; mret ret
  | Flush hard => mmc_file_flush hard
  | Write data size count => mmc_file_write data size count
  | SetEnabled v => mmc_file_set_enabled v
  end.

(** A write covers its buffer, and an open file is not enabled again. *)
Definition op_ok (o : op) s : Prop :=
  match o with
  | Write data size count => 0 < size /\ 0 < count /\ size * count <= Z.of_nat (length data)
  | SetEnabled v => v <> 0 -> ref (file s) = None
  | _ => True
  end.

Lemma handles_none s : handles_ok s -> ref (file s) = None -> forall h, ~ is_open h (fat s).
Proof. unfold handles_ok. intros Hh Hr. by rewrite Hr in Hh. Qed.

Lemma close_reopen s : file_inv s -> enabled (file s) <> 0 ->
  wp (mmc_fclose;; mmc_fopen) (fun r s' => file_inv s' /\ enabled (file s') = enabled (file s) /\
    (ref (file s) <> None -> stored (fat s') = contents (fat s)) /\
    (r = MMC_FILE_ERR_OK /\ ref (file s') <> None /\ contents (fat s') = stored (fat s') \/
     r = MMC_FILE_ERR_FS /\ ref (file s') = None)) never s.
Proof.
  intros (Hi & Hok & Hh & He0) He. wp_step. wp_use ltac:(by apply fclose_spec); [|done].
  intros _ s1 (E1 & Hok1 & Hh1 & Hst1).
  assert (is_init (file s1) = IS_INIT_VALUE) as Hi1 by by rewrite E1.
  wp_use ltac:(apply fopen_spec; [done|done|apply handles_none; [done|by rewrite E1]]); [|done].
  intros r s2 (h & E2 & Hok2 & Hst2 & Hh2 & Hr). split_and!.
  - split_and!; [by rewrite E2|done|done|rewrite E2, E1; intros E; by destruct He].
  - by rewrite E2, E1.
  - intros Hr0. rewrite Hst2, Hst1. rewrite bool_decide_true by done.
    by rewrite (proj2 (Z.eqb_neq _ _)) by done.
  - rewrite E2. cbn. destruct Hr as [(-> & Hne & Hc)|[-> ->]]; [left|by right].
    split_and!; try done. rewrite Hst2. apply Hc. by rewrite E1.
Qed.

Lemma write_run data size count s : file_inv s ->
  0 < size -> 0 < count -> size * count <= Z.of_nat (length data) -> size * count < 2 ^ 31 ->
  enabled (file s) <> 0 -> ref (file s) <> None ->
  wp (mmc_file_write data size count) (fun r s' => file_inv s' /\ file s' = file s /\
    exists k, contents (fat s') = contents (fat s) ++ take k data /\
      (k <= Z.to_nat (size * count))%nat /\
      (r = MMC_FILE_ERR_OK /\ k = Z.to_nat (size * count) \/
       r = MMC_FILE_ERR_IO /\ exists data' h ret, is_open h (fat s) /\ ret <> size * count /\
         fl_fwrite (media_on s) data' size count h (fat s) = (Done ret, fat s'))) never s.
Proof.
  intros Hinv Hs Hc Hd Hlim He Hr. pose proof Hinv as (Hi & Hok & Hh & _).
  unfold mmc_file_write. apply if_enabled_run; [done|done|by intros _ _ ?|]. intros _ _.
  do 2 wp_step. do 2 wp_step. wp_step.
  destruct (ref (file s)) as [h|] eqn:Er; [|done]. eapply wp_or_fault; [done|]. cbn beta.
  wp_step. eapply wp_or_fault.
  { unfold read_at. by rewrite decide_True by nia. }
  cbn beta. wp_step. apply wp_on_fat. unfold handles_ok in Hh. rewrite Er in Hh.
  assert (is_open h (fat s)) as Hoh by by apply Hh.
  pose proof (fl_fwrite_spec (media_on s) (take (Z.to_nat (size * count)) (drop (Z.to_nat 0) data))
    size count h (fat s) Hok Hoh Hs Hc ltac:(rewrite length_take, length_drop; lia)) as Hfw.
  apply wp_done in Hfw as (r & f & Hrun & Hok' & Hop & k & Hcn & Hk & Hfull).
  eapply wp_run; [exact Hrun|]. wp_step.
  change (Z.to_nat 0) with 0%nat in Hcn. rewrite drop_0, take_take, Nat.min_l in Hcn by done.
  assert (s32 (size * count) = size * count) as Hs32.
  { unfold s32, u32. rewrite Z.mod_small by nia.
    by rewrite (proj2 (Z.ltb_lt _ _)) by (cbn in Hlim; lia). }
  rewrite Hs32. split_and!.
  - unfold file_inv, handles_ok. cbn. rewrite Er. split_and!; try done.
    intros h'. rewrite Hop. apply Hh.
  - done.
  - exists k. split_and!; try done. destruct (Z.eqb_spec r (size * count)) as [->|Hne]; [left|right].
    + split; [done|by apply Hfull].
    + split; [done|]. by eexists _, h, r.
Qed.

Lemma op_sound o s : file_inv s -> op_ok o s ->
  (forall data size count, o = Write data size count -> size * count < 2 ^ 31) ->
  wp (run_op o) (fun _ s' => file_inv s') never s.
Proof.
  intros Hinv Hop Hlim. pose proof Hinv as (Hi & Hok & Hh & He0).
  assert (forall m check, (enabled (file s) <> 0 -> (check <> 0 -> ref (file s) <> None) ->
      wp m (fun _ => file_inv) never s) -> wp (if_enabled check m) (fun _ => file_inv) never s)
    as Hif by (intros; by apply if_enabled_run).
  destruct o as [| | | |hard|data size count|v]; cbn [run_op].
  - apply Hif. intros He _. do 2 wp_step. destruct (ref (file s)) as [h|] eqn:Er; [by apply wp_ret|].
    wp_use ltac:(by apply fopen_spec; [..|apply handles_none]); [|done].
    intros r s' (h & E & ? & _ & ? & _). unfold file_inv. by rewrite E.
  - apply Hif. intros He _. wp_step. wp_use ltac:(by apply fclose_spec); [|done].
    intros _ s1 (E1 & ? & ? & _). wp_step. unfold file_inv. by rewrite E1.
  - apply Hif. intros He _. wp_step. wp_use ltac:(by apply fclose_spec); [|done].
    intros _ s1 (E1 & Hok1 & Hh1 & _). do 2 wp_step. wp_step. apply wp_on_fat.
    wp_use ltac:(by apply fl_remove_spec); [|done]. intros st f (Hok2 & Hop2 & _).
    assert (handles_ok (mk_fs (file s1) f)) as Hh2.
    { unfold handles_ok in *. cbn. rewrite E1 in *. cbn in *. intros h' Ho.
      by apply (Hh1 h'), Hop2. }
    wp_step. wp_use ltac:(apply fopen_spec; [by rewrite E1|done|apply handles_none; [done|by rewrite E1]]); [|done].
    intros r s' (h & E & ? & _ & ? & _). wp_step. unfold file_inv. rewrite E. cbn. rewrite E1.
    by split_and!.
  - unfold mmc_file_size. do 3 wp_step. rewrite init_check_run by done.
    cbv [CHECK_FILE MMC_FILE_ERR_OK MMC_FILE_ERR_NOT_OPEN].
    destruct (Z.eqb_spec (enabled (file s)) 0) as [E|E]; cbn [negb andb Z.eqb].
    { wp_step. cbn beta iota. by wp_step. }
    case_bool_decide as Hr; cbn [andb Z.eqb]. { wp_step. cbn beta iota. by wp_step. }
    destruct (ref (file s)) as [h|]; [|done].
    wp_step. eapply wp_or_fault; [done|]. cbn beta. wp_step. cbn beta iota. by wp_step.
  - apply Hif. intros He Hr. destruct (negb (hard =? 0)).
    + wp_use ltac:(by apply close_reopen); [|done]. by intros r s' (? & _).
    + do 2 wp_step. do 2 wp_step. wp_step. destruct (ref (file s)) as [h|] eqn:Er; [|by destruct Hr].
      eapply wp_or_fault; [done|]. cbn beta. wp_step. apply wp_on_fat.
      unfold handles_ok in Hh. rewrite Er in Hh.
      wp_use ltac:(apply fl_fflush_spec; [done|by apply Hh]); [|done].
      intros st f (Hok' & Hop' & _). wp_step. unfold file_inv, handles_ok. cbn. rewrite Er.
      split_and!; try done. intros h'. rewrite Hop'. apply Hh.
  - destruct Hop as (Hs & Hc & Hd). specialize (Hlim data size count eq_refl).
    destruct (decide (enabled (file s) <> 0 /\ ref (file s) <> None)) as [[He Hr]|Hn].
    + wp_use ltac:(by apply write_run); [|done]. by intros r s' (? & _).
    + apply Hif. intros He Hr. exfalso. apply Hn. split; [done|]. by apply Hr.
  - unfold mmc_file_set_enabled. do 2 wp_step. rewrite init_check_dont, Z.eqb_refl by done.
    destruct (Z.eqb_spec v 0) as [->|Hv].
    + wp_step. wp_step; [|intros _; by wp_step]. intros He%negb_true_iff%Z.eqb_neq.
      wp_step. apply wp_on_file. wp_use ltac:(by apply fclose_spec); [|done].
      intros _ s1 (E1 & ? & ? & _). wp_step. unfold file_inv. by rewrite E1.
    + specialize (Hop Hv). wp_step.
      wp_use ltac:(by apply fopen_spec; [..|apply handles_none]); [|done].
      intros r s' (h & E & Hok' & _ & Hh' & Hr).
      wp_step. destruct Hr as [(-> & Hne & _)|[-> ->]]; wp_step; try done; intros _.
      * apply wp_on_file. wp_step. split_and!; try done. by rewrite E.
      * wp_step. unfold file_inv. rewrite E. by split_and!.
Qed.

(** *** The weaker invariant every operation keeps

    Also enabling an open file, which loses a handle, never leads to the use of
    a handle that is not open. *)
Definition file_wf s : Prop :=
  is_init (file s) = IS_INIT_VALUE /\ fat_ok (fat s) /\
  forall h, ref (file s) = Some h -> is_open h (fat s).

Lemma inv_wf s : file_inv s -> file_wf s.
Proof.
  intros (Hi & Hok & Hh & _). split_and!; try done. unfold handles_ok in Hh.
  intros h Hr. rewrite Hr in Hh. by apply Hh.
Qed.

Lemma fopen_wf s : file_wf s -> wp mmc_fopen (fun _ s' => file_wf s' /\
  enabled (file s') = enabled (file s)) never s.
Proof.
  intros (Hi & Hok & Hh). unfold mmc_fopen. do 3 wp_step. apply wp_on_fat.
  wp_use ltac:(by apply fl_fopen_spec); [|done]. intros r f (Hok' & _ & Hr).
  wp_step. apply wp_on_file. wp_step. split; [|done]. split_and!; try done.
  intros h. cbn. intros ->. apply Hr. by left.
Qed.

Lemma fclose_wf s : file_wf s -> wp mmc_fclose (fun _ s' => file_wf s' /\
  file s' = set_ref None (file s)) never s.
Proof.
  intros (Hi & Hok & Hh). unfold mmc_fclose. do 2 wp_step.
  destruct (ref (file s)) as [h|] eqn:Hr.
  - do 3 wp_step. apply wp_on_fat.
    wp_use ltac:(apply fl_fclose_spec; [done|by apply Hh]); [|done].
    intros _ f (Hok' & _). by apply wp_on_file.
  - wp_step. split; [by split_and!; [..|rewrite Hr]|].
    destruct s as [[i e r] f]. cbn in *. by subst.
Qed.

Lemma op_wf o s : file_wf s ->
  (forall data size count, o = Write data size count ->
     0 < size /\ 0 < count /\ size * count <= Z.of_nat (length data)) ->
  wp (run_op o) (fun _ s' => file_wf s') never s.
Proof.
  intros Hwf Hlim. pose proof Hwf as (Hi & Hok & Hh).
  assert (forall m check, (enabled (file s) <> 0 -> (check <> 0 -> ref (file s) <> None) ->
      wp m (fun _ => file_wf) never s) -> wp (if_enabled check m) (fun _ => file_wf) never s)
    as Hif by (intros; by apply if_enabled_run).
  assert (wp (mmc_fclose;; mmc_fopen) (fun _ => file_wf) never s) as Hreopen.
  { wp_step. wp_use ltac:(by apply fclose_wf); [|done]. intros _ s1 [Hwf1 _].
    wp_use ltac:(by apply fopen_wf); [|done]. by intros r s2 [? _]. }
  destruct o as [| | | |hard|data size count|v]; cbn [run_op].
  - apply Hif. intros He _. do 2 wp_step. destruct (ref (file s)); [by apply wp_ret|].
    wp_use ltac:(by apply fopen_wf); [|done]. by intros r s' [? _].
  - apply Hif. intros He _. wp_step. wp_use ltac:(by apply fclose_wf); [|done].
    intros _ s1 [Hwf1 _]. by wp_step.
  - apply Hif. intros He _. wp_step. wp_use ltac:(by apply fclose_wf); [|done].
    intros _ s1 [(Hi1 & Hok1 & Hh1) E1]. do 3 wp_step. apply wp_on_fat.
    wp_use ltac:(by apply fl_remove_spec); [|done]. intros st f (Hok2 & Hop2 & _). wp_step.
    wp_use ltac:(apply fopen_wf); [|by intros r s' [? _]; wp_step|done].
    split_and!; try done. intros h Hr. by apply Hop2, Hh1.
  - unfold mmc_file_size. do 3 wp_step. rewrite init_check_run by done.
    cbv [CHECK_FILE MMC_FILE_ERR_OK MMC_FILE_ERR_NOT_OPEN].
    destruct (Z.eqb_spec (enabled (file s)) 0) as [E|E]; cbn [negb andb Z.eqb].
    { wp_step. cbn beta iota. by wp_step. }
    case_bool_decide as Hr; cbn [andb Z.eqb]. { wp_step. cbn beta iota. by wp_step. }
    destruct (ref (file s)) as [h|] eqn:Er; [|done].
    wp_step. eapply wp_or_fault; [done|]. cbn beta. wp_step. cbn beta iota. by wp_step.
  - apply Hif. intros He Hr. destruct (negb (hard =? 0)); [done|].
    do 5 wp_step. destruct (ref (file s)) as [h|] eqn:Er; [|by destruct Hr].
    eapply wp_or_fault; [done|]. cbn beta. wp_step. apply wp_on_fat.
    wp_use ltac:(apply fl_fflush_spec; [done|by apply Hh]); [|done].
    intros st f (Hok' & Hop' & _). wp_step. split_and!; try done.
    intros h'. cbn. rewrite Er. intros [= <-]. by apply Hop', Hh.
  - destruct (Hlim data size count eq_refl) as (Hs & Hc & Hd). apply Hif. intros He Hr.
    unfold mmc_file_write. do 5 wp_step. destruct (ref (file s)) as [h|] eqn:Er; [|by destruct Hr].
    eapply wp_or_fault; [done|]. cbn beta. wp_step. eapply wp_or_fault.
    { unfold read_at. by rewrite decide_True by nia. }
    cbn beta. wp_step. apply wp_on_fat.
    wp_use ltac:(apply fl_fwrite_spec; [done|by apply Hh|done|done|
      rewrite length_take, length_drop; lia]); [|done].
    intros st f (Hok' & Hop' & _). wp_step. split_and!; try done.
    intros h'. cbn. rewrite Er. intros [= <-]. by apply Hop', Hh.
  - unfold mmc_file_set_enabled. do 2 wp_step. rewrite init_check_dont, Z.eqb_refl by done.
    destruct (v =? 0).
    + wp_step. wp_step; [|intros _; by wp_step]. intros _. wp_step. apply wp_on_file.
      wp_use ltac:(by apply fclose_wf); [|done]. intros _ s1 [? _]. by wp_step.
    + wp_step. wp_use ltac:(by apply fopen_wf); [|done]. intros r s' [Hwf' _].
      wp_step. wp_step; intros _; [apply wp_on_file|]; by wp_step.
Qed.

Lemma hard_flush_run hard s : file_inv s -> hard <> 0 -> enabled (file s) <> 0 ->
  ref (file s) <> None ->
  wp (mmc_file_flush hard) (fun r s' => file_inv s' /\ stored (fat s') = contents (fat s) /\
    (r = MMC_FILE_ERR_OK /\ ref (file s') <> None /\ contents (fat s') = contents (fat s) \/
     r = MMC_FILE_ERR_FS /\ ref (file s') = None)) never s.
Proof.
  intros Hinv Hh He Hr. pose proof Hinv as (Hi & _).
  unfold mmc_file_flush. apply if_enabled_run; [done|done|done|]. intros _ _.
  rewrite (proj2 (Z.eqb_neq _ _)) by done. wp_use ltac:(by apply close_reopen); [|done].
  intros r s' (Hinv' & _ & Hst & Hcase). specialize (Hst Hr).
  split_and!; try done. destruct Hcase as [(-> & ? & Hc)|]; [left|by right].
  split_and!; try done. by rewrite Hc.
Qed.

(** *** Properties *)


(** [mmc_file_write] reports success exactly when all of the bytes were
    appended to the file; otherwise it reports an I/O error and some prefix of
    them was appended. *)
Theorem write_appends data size count s :
  file_inv s -> 0 < size -> 0 < count -> size * count <= Z.of_nat (length data) ->
  size * count < 2 ^ 31 -> enabled (file s) <> 0 -> ref (file s) <> None ->
  exists r s' k, mmc_file_write data size count s = (Done r, s') /\
    contents (fat s') = contents (fat s) ++ take k data /\ (k <= Z.to_nat (size * count))%nat /\
    (r = MMC_FILE_ERR_OK /\ k = Z.to_nat (size * count) \/ r = MMC_FILE_ERR_IO).
Proof.
  intros Hi Hs Hc Hd Hl He Hr.
  pose proof (write_run data size count s Hi Hs Hc Hd Hl He Hr) as Hwp.
  apply wp_done in Hwp as (r & s' & Hrun & _ & _ & k & ? & ? & Hcase). exists r, s', k.
  split_and!; try done. destruct Hcase as [?|[? _]]; [by left|by right].
Qed.

(** C29: a hard flush stores everything written so far on the card, also when it
    then fails to open the file again; in that case it reports so and leaves
    the file closed, otherwise the file goes on unchanged. *)
Theorem hard_flush_stores hard s h :
  file_inv s -> hard <> 0 -> enabled (file s) <> 0 -> ref (file s) = Some h ->
  exists r s', mmc_file_flush hard s = (Done r, s') /\ file_inv s' /\
    stored (fat s') = contents (fat s) /\
    (r = MMC_FILE_ERR_OK /\ ref (file s') <> None /\ contents (fat s') = contents (fat s) \/
     r = MMC_FILE_ERR_FS /\ ref (file s') = None).
Proof.
  intros Hinv Hh He Hr. pose proof (hard_flush_run hard s Hinv Hh He) as Hwp.
  rewrite Hr in Hwp. specialize (Hwp ltac:(done)).
  apply wp_done in Hwp as (r & s' & Hrun & ?). by exists r, s'.
Qed.

(** Evaluates an operation up to its first check. *)
Local Ltac open_op :=
  unfold run_op, mmc_file_open, mmc_file_close, mmc_file_rm, mmc_file_flush, mmc_file_write,
    mmc_file_set_enabled, mmc_file_size, if_enabled, mbind, M_bind, gets, mret, M_ret;
  cbn [file].


(** Enabling a file that is open loses its handle: the handle stays open in
    the library and the file no longer refers to it. *)
Theorem enabling_open_file_leaks v s h :
  file_inv s -> v <> 0 -> ref (file s) = Some h ->
  exists r s', mmc_file_set_enabled v s = (Done r, s') /\
    is_open h (fat s') /\ ref (file s') <> Some h.
Proof.
  intros (Hi & Hok & Hh & He0) Hv Hr.
  assert (wp (mmc_file_set_enabled v) (fun _ s' => is_open h (fat s') /\ ref (file s') <> Some h)
    never s) as Hwp; [|by apply wp_done in Hwp].
  unfold handles_ok in Hh. rewrite Hr in Hh.
  unfold mmc_file_set_enabled. do 2 wp_step. rewrite init_check_dont, Z.eqb_refl by done.
  rewrite (proj2 (Z.eqb_neq _ _)) by done. wp_step. unfold mmc_fopen. do 2 wp_step. wp_step.
  apply wp_on_fat. wp_use ltac:(by apply fl_fopen_spec); [|done]. intros r f (_ & _ & Hf).
  wp_step. apply wp_on_file. do 2 wp_step.
  assert (is_open h f /\ r <> Some h) as Hres.
  { destruct r as [h2|].
    - destruct Hf as (Hnew & Hop & _). split; [apply Hop; right; by apply Hh|].
      intros [= ->]. by apply Hnew, Hh.
    - split; [by apply Hf, Hh|done]. }
  destruct r as [h2|]; wp_step; intros E; try discriminate E; [apply wp_on_file|]; by wp_step.
Qed.

(** Disabling the file switches the card off before the file is closed:
    what was not yet stored is lost, although closing succeeds. *)
Theorem disabling_discards_unstored s h :
  file_inv s -> enabled (file s) <> 0 -> ref (file s) = Some h ->
  exists s', mmc_file_set_enabled 0 s = (Done MMC_FILE_ERR_OK, s') /\ file_inv s' /\
    enabled (file s') = 0 /\ stored (fat s') = stored (fat s).
Proof.
  intros (Hi & Hok & Hh & He0) He Hr.
  assert (wp (mmc_file_set_enabled 0) (fun r s' => r = MMC_FILE_ERR_OK /\ file_inv s' /\
    enabled (file s') = 0 /\ stored (fat s') = stored (fat s)) never s) as Hwp.
  { unfold mmc_file_set_enabled. do 2 wp_step. rewrite init_check_dont, Z.eqb_refl by done.
    change (0 =? 0) with true. cbn iota. rewrite (proj2 (Z.eqb_neq _ _)) by done.
    wp_step. wp_step; [intros _|done]. wp_step. apply wp_on_file.
    wp_use ltac:(by apply fclose_spec); [|done]. intros _ s1 (E1 & Hok1 & Hh1 & Hst1). wp_step.
    cbn [file enabled set_enabled fat] in Hst1. rewrite andb_false_r in Hst1.
    unfold file_inv. rewrite E1. by split_and!. }
  apply wp_done in Hwp as (r & s' & Hrun & -> & ?). by exists s'.
Qed.

End file_proofs.

(** The media functions: while the file is disabled they succeed without a
    call of the card driver; otherwise they make exactly one call, and succeed
    exactly when it transfers all of the sectors. *)
Theorem media_functions `{!Card} f sector count calls :
  is_init f = IS_INIT_VALUE ->
  let outcome c :=
    if enabled f =? 0 then (Done FATIO_MEDIA_RW_SUCCESS, calls)
    else (Done (if card_result calls c =? count * FAT_SECTOR_SIZE
                then FATIO_MEDIA_RW_SUCCESS else FATIO_MEDIA_RW_FAILURE), calls ++ [c]) in
  fatio_media_read f sector count calls = outcome (BlockRead sector (s32 count)) /\
  fatio_media_write f sector count calls = outcome (BlockWrite sector (s32 count)).
Proof.
  intros Hi outcome.
  assert (mmc_file_get_enabled f = enabled f) as Hen.
  { unfold mmc_file_get_enabled. by rewrite init_check_dont. }
  unfold fatio_media_read, fatio_media_write, transfer, outcome. rewrite Hen.
  destruct (enabled f =? 0); [done|]. cbn [negb]. unfold mbind, M_bind, gets, modify, mret, M_ret.
  split; by destruct (_ =? _).
Qed.

(** *** A file system in memory, and the properties at concrete inputs *)
Record ram := Ram { r_stored : list Z; r_contents : list Z; r_open : list Z; r_next : Z }.

#[export] Instance ram_fat : Fat ram := {|
  FAT_INIT_OK := 0;
  fl_init := modify (fun f => Ram (r_stored f) (r_stored f) [] 1);
  fl_attach_locks := mret tt;
  fl_attach_media on := mret 0;
  fl_fopen on := fun f => (Done (Some (r_next f)),
    Ram (r_stored f) (if decide (r_open f = []) then r_stored f else r_contents f)
      (r_next f :: r_open f) (r_next f + 1));
  fl_fclose on h := modify (fun f => Ram (if on then r_contents f else r_stored f)
    (r_contents f) (filter (fun i => i <> h) (r_open f)) (r_next f));
  fl_remove on := fun f => (Done 0,
    Ram (if on then [] else r_stored f) (r_contents f) (r_open f) (r_next f));
  fl_fflush on h := fun f => (Done 0,
    Ram (if on then r_contents f else r_stored f) (r_contents f) (r_open f) (r_next f));
  fl_fwrite on data size count h := fun f => (Done (size * count),
    Ram (r_stored f) (r_contents f ++ take (Z.to_nat (size * count)) data) (r_open f) (r_next f));
  filelength h f := Z.of_nat (length (r_contents f));
|}.

#[export] Instance ram_fat_spec : FatSpec ram.
Proof.
  refine {| fat_ok := fun f => Forall (fun h => h < r_next f) (r_open f);
            is_open := fun h f => h ∈ r_open f; contents := r_contents; stored := r_stored |}.
  - intros f. unfold wp. cbn. split_and!; [constructor|by intros h ?%elem_of_nil|done].
  - done.
  - done.
  - intros on f Hok. unfold wp. cbn. split_and!; [|done|..].
    + constructor; [lia|]. eapply Forall_impl; [|exact Hok]. cbn. lia.
    + intros Hin. rewrite list.Forall_forall in Hok. apply Hok in Hin. lia.
    + intros h'. by rewrite elem_of_cons.
    + intros _ Hno. rewrite decide_True; [done|]. destruct (r_open f) as [|h l]; [done|].
      destruct (Hno h). left.
  - intros on h f Hok Hop. unfold wp. cbn. split_and!; [|intros h'; by rewrite list_elem_of_filter|done].
    rewrite list.Forall_forall in *. intros h' [_ Hin]%list_elem_of_filter. by apply Hok.
  - intros on f Hok. unfold wp. cbn. by destruct on.
  - intros on h f Hok Hop. unfold wp. cbn. split_and!; try done. by intros ->.
  - intros on data size count h f Hok Hop Hs Hc Hd. unfold wp. cbn. split_and!; try done.
    by exists (Z.to_nat (size * count)).
  - done.
Defined.

(** A file with two bytes on the card and one more behind them. *)
Definition demo_fs : fs ram := mk_fs (mk_file 1 1 (Some 1)) (Ram [10; 11] [10; 11; 12] [1] 2).

Lemma demo_fs_inv : file_inv demo_fs.
Proof.
  split_and!; try done.
  - repeat constructor.
  - intros h'. apply list_elem_of_singleton.
Qed.


Lemma write_appends_witness :
  exists r s' k, mmc_file_write [1; 2; 3; 4] 1 3 demo_fs = (Done r, s') /\
    r_contents (fat s') = [10; 11; 12] ++ take k [1; 2; 3; 4] /\ (k <= 3)%nat /\
    (r = MMC_FILE_ERR_OK /\ k = 3%nat \/ r = MMC_FILE_ERR_IO).
Proof. by apply (write_appends [1; 2; 3; 4] 1 3 demo_fs demo_fs_inv). Defined.

Lemma hard_flush_stores_witness :
  exists r s', mmc_file_flush 1 demo_fs = (Done r, s') /\ file_inv s' /\
    r_stored (fat s') = [10; 11; 12] /\
    (r = MMC_FILE_ERR_OK /\ ref (file s') <> None /\ r_contents (fat s') = [10; 11; 12] \/
     r = MMC_FILE_ERR_FS /\ ref (file s') = None).
Proof. by apply (hard_flush_stores 1 demo_fs 1 demo_fs_inv). Defined.

Lemma enabling_open_file_leaks_witness :
  exists r s', mmc_file_set_enabled 1 demo_fs = (Done r, s') /\
    1 ∈ r_open (fat s') /\ ref (file s') <> Some 1.
Proof. by apply (enabling_open_file_leaks 1 demo_fs 1 demo_fs_inv). Defined.

(** The byte behind the stored ones is gone. *)
Lemma disabling_discards_unstored_witness :
  exists s', mmc_file_set_enabled 0 demo_fs = (Done MMC_FILE_ERR_OK, s') /\ file_inv s' /\
    enabled (file s') = 0 /\ r_stored (fat s') = [10; 11].
Proof. by apply (disabling_discards_unstored demo_fs 1 demo_fs_inv). Defined.

Definition demo_card : Card := {|
  card_result calls c := match c with BlockRead _ n => 512 * n | BlockWrite _ _ => 0 end;
  FAT_SECTOR_SIZE := 512 |}.
#[local] Existing Instance demo_card.

Lemma media_functions_witness :
  fatio_media_read (mk_file 1 1 None) 7 2 [] = (Done FATIO_MEDIA_RW_SUCCESS, [BlockRead 7 2]) /\
  fatio_media_write (mk_file 1 1 None) 7 2 [] = (Done FATIO_MEDIA_RW_FAILURE, [BlockWrite 7 2]).
Proof. exact (media_functions (mk_file 1 1 None) 7 2 [] eq_refl). Defined.

(** The three groups of [refused_operations], on the file system in memory. *)
Definition refused_at (i e : Z) (r : option Z) : fs ram := mk_fs (mk_file i e r) (Ram [] [] [] 1).

End MmcFile.
