(* ===== verification/FatLock.v ===== *)
(** The file system lock (fatio_lock and fatio_unlock of
    modules/mmc/src/mmc_module.c) and the threads that share the FAT library
    under it.

    The library takes the lock at the start of each of its functions and gives
    it back at the end; a function it calls itself does so again, which is why
    the mutex is a recursive one.  A thread is a program of small steps: it
    works on the module's own globals, locks, works on the library's state,
    unlocks.  The abstract threads do the same with a whole critical section as
    one step; the theorem is that the lock makes the first look like the
    second. *)
From stdpp Require Import relations.
From S2P Require Import Prelude Sync.

Module FatLock.

(** ** The lock *)
Section lock.
Context `{LogPolicy} {X : Type} `{!RecMutex X}.
Abbreviation T := (M X).

Definition fatio_lock (i : nat) : T unit :=
  err ← (fun x => match sync_recursive_mutex_lock i x with
                  | Some (err, x') => (Done err, x')
                  | None => (Stop Blocked, x)
                  end);
  ZF_LOGF_IF (negb (err =? 0)).

Definition fatio_unlock (i : nat) : T unit :=
  err ← (fun x => let '(err, x') := sync_recursive_mutex_unlock i x in (Done err, x'));
  ZF_LOGF_IF (negb (err =? 0)).

Context `{!RecMutexSpec X}.

(** What the lock does, in terms of the holder. *)
Lemma lock_free_run i x : rec_holder x = None ->
  exists x', fatio_lock i x = (Done tt, x') /\ rec_holder x' = Some (i, 1%nat).
Proof.
  intros Hx. destruct (rec_lock_free i x Hx) as (x' & E & Hx'). exists x'. split; [|done].
  unfold fatio_lock, mbind, M_bind. by rewrite E.
Qed.
Lemma lock_again_run i n x : rec_holder x = Some (i, n) -> (n < rec_limit)%nat ->
  exists x', fatio_lock i x = (Done tt, x') /\ rec_holder x' = Some (i, S n).
Proof.
  intros Hx Hn. destruct (rec_lock_again i n x Hx Hn) as (x' & E & Hx'). exists x'. split; [|done].
  unfold fatio_lock, mbind, M_bind. by rewrite E.
Qed.
Lemma lock_other_run i j n x : rec_holder x = Some (j, n) -> i <> j ->
  fatio_lock i x = (Stop Blocked, x).
Proof. intros Hx Hij. unfold fatio_lock, mbind, M_bind. by rewrite (rec_lock_other i j n x). Qed.
Lemma fatio_unlock_run i n x : rec_holder x = Some (i, S n) ->
  exists x', fatio_unlock i x = (Done tt, x') /\
    rec_holder x' = match n with O => None | S _ => Some (i, n) end.
Proof.
  intros Hx. destruct (rec_unlock_held i n x Hx) as (x' & E & Hx'). exists x'. split; [|done].
  unfold fatio_unlock, mbind, M_bind. by rewrite E.
Qed.
End lock.

(** ** Programs

    [G]: the module's globals, [F]: the state of the library. *)
Section programs.
Context {G F : Type}.

Inductive prog :=
| Ended (r : Z)
| Stopped (k : stop)
| Local (m : M G prog)
| Lock (p : prog)
| Work (m : M F prog)
| Unlock (p : prog).

(** Induction over the steps still to come. *)
Lemma prog_induction (P : prog -> Prop) :
  (forall r, P (Ended r)) -> (forall k, P (Stopped k)) ->
  (forall m, (forall g p g', m g = (Done p, g') -> P p) -> P (Local m)) ->
  (forall p, P p -> P (Lock p)) ->
  (forall m, (forall f p f', m f = (Done p, f') -> P p) -> P (Work m)) ->
  (forall p, P p -> P (Unlock p)) -> forall p, P p.
Proof.
  intros He Hs Hl Hk Hw Hu. fix IH 1. intros [r|k|m|p|m|p].
  - apply He.
  - apply Hs.
  - apply Hl. intros g p g'. destruct (m g) as [[p1|k] g1]; [|discriminate]. intros [= <- <-]. apply IH.
  - apply Hk, IH.
  - apply Hw. intros f p f'. destruct (m f) as [[p1|k] f1]; [|discriminate]. intros [= <- <-]. apply IH.
  - apply Hu, IH.
Qed.

(** What a step leads to. *)
Definition next (o : outcome prog) : prog := match o with Done p => p | Stop k => Stopped k end.

(** From the depth [n] of the lock to where it is given back. *)
Fixpoint section (n : nat) (p : prog) (f : F) : prog * F :=
  match n with
  | O => (p, f)
  | S n' =>
      match p with
      | Lock p => section (S n) p f
      | Unlock p => section n' p f
      | Work m => match m f with
                  | (Done p, f') => section n p f'
                  | (Stop k, f') => (Stopped k, f')
                  end
      | _ => (p, f)
      end
  end.

(** The whole program, uninterrupted. *)
Fixpoint alone (p : prog) : M (G * F) Z := fun s =>
  match p with
  | Ended r => (Done r, s)
  | Stopped k => (Stop k, s)
  | Local m => match m s.1 with
               | (Done p, g') => alone p (g', s.2)
               | (Stop k, g') => (Stop k, (g', s.2))
               end
  | Work m => match m s.2 with
              | (Done p, f') => alone p (s.1, f')
              | (Stop k, f') => (Stop k, (s.1, f'))
              end
  | Lock p | Unlock p => alone p s
  end.

Lemma section_0 p f : section 0 p f = (p, f).
Proof. by destruct p. Qed.

(** Uninterrupted, a section is a part of the whole. *)
Lemma alone_section p : forall n g f, alone p (g, f) =
  alone (section n p f).1 (g, (section n p f).2).
Proof.
  induction p as [r|k|m IH|p IH|m IH|p IH] using prog_induction; intros [|n] g f; try done; cbn [section].
  - apply (IH (S (S n))).
  - cbn. destruct (m f) as [[p|k] f'] eqn:E; [|done]. by apply (IH _ _ _ E (S n)).
  - apply (IH n).
Qed.

(** The discipline of the lock: at depth 0 the library's state is not touched,
    and a thread gives the lock back before it does anything else.  The lock is
    not taken more often than the mutex can count. *)
Inductive locked (limit : nat) : nat -> prog -> Prop :=
| locked_ended r : locked limit 0 (Ended r)
| locked_stopped n k : locked limit n (Stopped k)
| locked_local m : (forall g p g', m g = (Done p, g') -> locked limit 0 p) -> locked limit 0 (Local m)
| locked_lock n p : (n < limit)%nat -> locked limit (S n) p -> locked limit n (Lock p)
| locked_work n m : (forall f p f', m f = (Done p, f') -> locked limit (S n) p) ->
    locked limit (S n) (Work m)
| locked_unlock n p : locked limit n p -> locked limit (S n) (Unlock p).
End programs.
Arguments prog : clear implicits.

(** ** Threads *)
Section threads.
Context `{LogPolicy} {X G F : Type} `{!RecMutex X}.
Abbreviation prog := (prog G F).

Record machine := mk_machine { fs_mutex : X; globals : G; library : F; threads : list prog }.

Inductive mstep : machine -> machine -> Prop :=
| step_local x g f ps i m o g' : ps !! i = Some (Local m) -> m g = (o, g') ->
    mstep (mk_machine x g f ps) (mk_machine x g' f (<[i := next o]> ps))
| step_work x g f ps i m o f' : ps !! i = Some (Work m) -> m f = (o, f') ->
    mstep (mk_machine x g f ps) (mk_machine x g f' (<[i := next o]> ps))
| step_lock x x' g f ps i p : ps !! i = Some (Lock p) -> fatio_lock i x = (Done tt, x') ->
    mstep (mk_machine x g f ps) (mk_machine x' g f (<[i := p]> ps))
| step_lock_halt x x' g f ps i p : ps !! i = Some (Lock p) -> fatio_lock i x = (Stop Halted, x') ->
    mstep (mk_machine x g f ps) (mk_machine x' g f (<[i := Stopped Halted]> ps))
| step_unlock x x' g f ps i p : ps !! i = Some (Unlock p) -> fatio_unlock i x = (Done tt, x') ->
    mstep (mk_machine x g f ps) (mk_machine x' g f (<[i := p]> ps))
| step_unlock_halt x x' g f ps i p : ps !! i = Some (Unlock p) -> fatio_unlock i x = (Stop Halted, x') ->
    mstep (mk_machine x g f ps) (mk_machine x' g f (<[i := Stopped Halted]> ps)).

(** The abstract threads: a section is one step. *)
Record atomic := mk_atomic { a_globals : G; a_library : F; a_threads : list prog }.
Inductive astep : atomic -> atomic -> Prop :=
| astep_local g f ps i m o g' : ps !! i = Some (Local m) -> m g = (o, g') ->
    astep (mk_atomic g f ps) (mk_atomic g' f (<[i := next o]> ps))
| astep_section g f ps i p p' f' : ps !! i = Some (Lock p) -> section 1 p f = (p', f') ->
    astep (mk_atomic g f ps) (mk_atomic g f' (<[i := p']> ps)).

(** How they correspond: where the lock is free they are the same; where a
    thread holds it, the abstract one is at the end of that section. *)
Definition unheld (c : machine) (a : atomic) : Prop :=
  rec_holder (fs_mutex c) = None /\ library c = a_library a /\ threads c = a_threads a /\
  Forall (locked rec_limit 0) (threads c).
Definition held (c : machine) (a : atomic) (i n : nat) (p : prog) : Prop :=
  rec_holder (fs_mutex c) = Some (i, S n) /\ threads c !! i = Some p /\ locked rec_limit (S n) p /\
  a_threads a = <[i := (section (S n) p (library c)).1]> (threads c) /\
  a_library a = (section (S n) p (library c)).2 /\
  forall j q, j <> i -> threads c !! j = Some q -> locked rec_limit 0 q.
Definition corresponds (c : machine) (a : atomic) : Prop :=
  globals c = a_globals a /\ (unheld c a \/ exists i n p, held c a i n p).

Context `{!RecMutexSpec X}.

(** Where a thread is, by the instruction it is at. *)
Lemma next_locked limit n (o : outcome prog) :
  (forall p, o = Done p -> locked limit n p) -> locked limit n (next o).
Proof. destruct o as [p|k]; intros Hp; [by apply Hp|constructor]. Qed.
Lemma locked_local_inv limit n (m : M G prog) g o g' : locked limit n (Local m) -> m g = (o, g') ->
  n = O /\ locked limit 0 (next o).
Proof.
  intros Hl Hm. inversion Hl as [| |m' Hk| | |]; subst. split; [done|]. apply next_locked. intros p ->. by eapply Hk.
Qed.
Lemma locked_work_inv limit n (m : M F prog) f o f' : locked limit n (Work m) -> m f = (o, f') ->
  exists n', n = S n' /\ locked limit (S n') (next o) /\
    section (S n') (Work m) f = section (S n') (next o) f'.
Proof.
  intros Hl Hm. inversion Hl as [| | | |n' m' Hk|]; subst. exists n'. split; [done|]. split.
  - apply next_locked. intros p ->. by eapply Hk.
  - cbn [section]. rewrite Hm. by destruct o.
Qed.
Lemma locked_lock_inv limit n (p : prog) : locked limit n (Lock p) ->
  (n < limit)%nat /\ locked limit (S n) p.
Proof. by inversion 1. Qed.
Lemma locked_unlock_inv limit n (p : prog) : locked limit n (Unlock p) ->
  exists n', n = S n' /\ locked limit n' p.
Proof. inversion 1; subst. by eexists. Qed.

(** A thread that is not the holder moves beside the section. *)
Lemma corresponds_local x g f ps i m o g' a :
  corresponds (mk_machine x g f ps) a -> ps !! i = Some (Local m) -> m g = (o, g') ->
  astep a (mk_atomic g' (a_library a) (<[i := next o]> (a_threads a))) /\
  corresponds (mk_machine x g' f (<[i := next o]> ps))
    (mk_atomic g' (a_library a) (<[i := next o]> (a_threads a))).
Proof.
  intros [Hg Hc] Hi Hm. destruct a as [ag af aps]. cbn in Hg. subst ag. unfold corresponds, unheld, held in *. cbn in *.
  destruct Hc as [(Hx & <- & <- & Hall)|(j & n & p & Hx & Hj & Hlk & -> & -> & Hall)].
  - split; [by apply astep_local with m|]. split; [done|]. left. do 3 (split; [done|]).
    apply Forall_insert; [done|]. eapply locked_local_inv, Hm. by eapply Forall_lookup_1.
  - assert (j <> i) as Hji.
    { intros ->. simplify_eq. by destruct (locked_local_inv _ _ _ _ _ _ Hlk Hm). }
    split; [apply astep_local with m; [by rewrite list_lookup_insert_ne|done]|].
    split; [done|]. right. exists j, n, p. split; [done|].
    split; [by rewrite list_lookup_insert_ne|]. split; [done|].
    split; [by apply list_insert_insert_ne|]. split; [done|].
    intros k q Hk. rewrite (moved _ _ _ _ _ Hi). case_decide; [|by apply Hall].
    intros [= <-]. subst k. by eapply locked_local_inv; [apply (Hall i); [congruence|exact Hi]|].
Qed.

(** Only the holder is inside of a section. *)
Lemma inside_holds c a i p : corresponds c a -> threads c !! i = Some p ->
  (forall n, locked rec_limit n p -> n <> O) -> exists n, held c a i n p.
Proof.
  intros [Hg [(Hx & Hf & Hps & Hall)|(j & n & q & Hh)]] Hi Hp.
  - by destruct (Hp 0%nat (Forall_lookup_1 _ _ _ _ Hall Hi)).
  - exists n. destruct (decide (i = j)) as [->|Hij].
    + by replace p with q by (destruct Hh as (_ & Hj & _); congruence).
    + destruct Hh as (_ & _ & _ & _ & _ & Hall). by destruct (Hp 0%nat (Hall i p Hij Hi)).
Qed.

(** The holder moves inside of its section. *)
Lemma held_moves x x' g f f' ps i n n' p p' a : a_globals a = g ->
  held (mk_machine x g f ps) a i n p -> rec_holder x' = Some (i, S n') -> locked rec_limit (S n') p' ->
  section (S n) p f = section (S n') p' f' ->
  corresponds (mk_machine x' g f' (<[i := p']> ps)) a.
Proof.
  intros Hg (Hx & Hi & Hlk & Hps & Hf & Hall) Hx' Hlk' Hs. cbn in *. split; [done|]. right.
  exists i, n', p'. rewrite Hs in *. split; [done|]. cbn.
  split; [by apply list_lookup_insert_eq, (lookup_lt_Some _ _ _ Hi)|]. split; [done|].
  split; [by rewrite Hps, list_insert_insert_eq|]. split; [done|].
  intros j q Hj. rewrite list_lookup_insert_ne by done. by apply Hall.
Qed.

(** Taking the lock: at the start of a section the abstract thread runs all of
    it, inside it does nothing. *)
Lemma corresponds_lock x g f ps i p a : corresponds (mk_machine x g f ps) a -> ps !! i = Some (Lock p) ->
  fatio_lock i x = (Stop Blocked, x) \/
  exists x' a', fatio_lock i x = (Done tt, x') /\ rtc astep a a' /\
    corresponds (mk_machine x' g f (<[i := p]> ps)) a'.
Proof.
  intros [Hg [(Hx & Hf & Hps & Hall)|(j & n & q & Hh)]] Hi; cbn in *.
  - right. destruct (lock_free_run i x Hx) as (x' & E & Hx').
    destruct (locked_lock_inv _ _ _ (Forall_lookup_1 _ _ _ _ Hall Hi)) as [_ Hlk].
    destruct a as [ag af aps]. cbn in *. subst ag af aps. do 2 eexists. split; [done|].
    split; [eapply rtc_once, astep_section; [done|apply surjective_pairing]|].
    split; [done|]. right. exists i, 0%nat, p. split_and!; try done; cbn [threads].
    + by apply list_lookup_insert_eq, (lookup_lt_Some _ _ _ Hi).
    + by rewrite list_insert_insert_eq.
    + intros j q Hj. rewrite list_lookup_insert_ne by done. intros Hq. by eapply Forall_lookup_1.
  - pose proof Hh as (Hx & Hj & Hlk & _). cbn in Hx, Hj.
    destruct (decide (i = j)) as [->|Hij]; [right|left; by apply (lock_other_run i j (S n))].
    replace q with (Lock p) in * by congruence. destruct (locked_lock_inv _ _ _ Hlk) as [Hn Hlk'].
    destruct (lock_again_run _ _ _ Hx Hn) as (x' & E & Hx'). exists x', a. do 2 (split; [done|]).
    by eapply held_moves.
Qed.

(** Giving it back: the abstract thread is there already. *)
Lemma corresponds_unlock x g f ps i p a : corresponds (mk_machine x g f ps) a ->
  ps !! i = Some (Unlock p) ->
  exists x', fatio_unlock i x = (Done tt, x') /\ corresponds (mk_machine x' g f (<[i := p]> ps)) a.
Proof.
  intros Hc Hi. pose proof Hc as [Hg _]. destruct (inside_holds _ _ _ _ Hc Hi) as (n & Hh).
  { intros n Hn ->. by destruct (locked_unlock_inv _ _ _ Hn) as (? & ? & _). }
  pose proof Hh as (Hx & _ & Hlk & _). cbn in Hx, Hg.
  destruct (locked_unlock_inv _ _ _ Hlk) as (n' & [= <-] & Hlk').
  destruct (fatio_unlock_run _ _ _ Hx) as (x' & E & Hx'). exists x'. split; [done|].
  destruct n as [|n]; [|by eapply held_moves]. destruct Hh as (_ & _ & _ & Hps & Hf & Hall).
  cbn [section library threads] in *. rewrite section_0 in Hps, Hf. split; [done|]. left.
  split; [done|]. split; [done|]. split; [done|]. apply list.Forall_lookup. intros j q. cbn [threads].
  rewrite (moved _ _ _ _ _ Hi). case_decide; [by intros [= <-]|]. by apply Hall.
Qed.

Lemma corresponds_work x g f ps i m o f' a : corresponds (mk_machine x g f ps) a ->
  ps !! i = Some (Work m) -> m f = (o, f') ->
  rec_holder x <> None /\ corresponds (mk_machine x g f' (<[i := next o]> ps)) a.
Proof.
  intros Hc Hi Hm. pose proof Hc as [Hg _]. destruct (inside_holds _ _ _ _ Hc Hi) as (n & Hh).
  { intros n Hn ->. by destruct (locked_work_inv _ _ _ _ _ _ Hn Hm) as (? & ? & _). }
  pose proof Hh as (Hx & _ & Hlk & _). destruct (locked_work_inv _ _ _ _ _ _ Hlk Hm) as (n' & [= <-] & Hlk' & Hs).
  cbn in Hx. split; [congruence|]. by eapply held_moves.
Qed.

Lemma corresponds_step c c' a : corresponds c a -> mstep c c' ->
  exists a', rtc astep a a' /\ corresponds c' a'.
Proof.
  intros Hc Hst. destruct Hst as [x g f ps i m o g' Hi Hm|x g f ps i m o f' Hi Hm
    |x x' g f ps i p Hi Hl|x x' g f ps i p Hi Hl|x x' g f ps i p Hi Hl|x x' g f ps i p Hi Hl].
  - destruct (corresponds_local _ _ _ _ _ _ _ _ _ Hc Hi Hm). eexists. split; [by apply rtc_once|done].
  - exists a. split; [done|]. by eapply corresponds_work.
  - destruct (corresponds_lock _ _ _ _ _ _ _ Hc Hi) as [E|(x1 & a1 & E & Ha & Hc')]; [congruence|].
    exists a1. split; [done|]. congruence.
  - destruct (corresponds_lock _ _ _ _ _ _ _ Hc Hi) as [E|(x1 & a1 & E & _)]; congruence.
  - exists a. split; [done|]. destruct (corresponds_unlock _ _ _ _ _ _ _ Hc Hi) as (x1 & E & Hc'). congruence.
  - destruct (corresponds_unlock _ _ _ _ _ _ _ Hc Hi) as (x1 & E & _). congruence.
Qed.

Lemma reachable_corresponds x g f ps c : rec_holder x = None -> Forall (locked rec_limit 0) ps ->
  rtc mstep (mk_machine x g f ps) c -> exists a, rtc astep (mk_atomic g f ps) a /\ corresponds c a.
Proof.
  intros Hx Hps. revert c. apply rtc_ind_r.
  - eexists. split; [done|]. split; [done|]. by left.
  - intros c c' _ Hst (a & Ha & Hc). destruct (corresponds_step _ _ _ Hc Hst) as (a' & Ha' & Hc').
    exists a'. split; [by etrans|done].
Qed.

(** Somebody can move unless everybody has ended or stopped, or waits for a
    thread that stopped inside. *)
Definition finished (p : prog) : Prop := match p with Ended _ | Stopped _ => True | _ => False end.
#[local] Instance finished_dec p : Decision (finished p).
Proof. destruct p; apply _. Defined.

Lemma can_move c a i p : corresponds c a -> threads c !! i = Some p -> ~ finished p ->
  (forall j n, rec_holder (fs_mutex c) = Some (j, n) -> i = j) -> exists c', mstep c c'.
Proof.
  intros Hc Hi Hp Ho. destruct c as [x g f ps]. cbn in Hi, Ho. destruct p as [r|k|m|p|m|p]; try done.
  - destruct (m g) as [o g'] eqn:E. eexists. by eapply step_local.
  - destruct (corresponds_lock _ _ _ _ _ _ _ Hc Hi) as [E|(x1 & a1 & E & _)]; [|eexists; by eapply step_lock].
    destruct (rec_holder x) as [[j n]|] eqn:Hx.
    + specialize (Ho _ _ eq_refl) as <-. destruct Hc as [_ [(Hx' & _)|(j & n' & q & Hh)]]; [cbn in Hx'; congruence|].
      destruct Hh as (Hx' & Hj & Hlk & _). cbn in *. rewrite Hx in Hx'. injection Hx' as <- ->.
      replace q with (Lock p) in * by congruence. destruct (locked_lock_inv _ _ _ Hlk) as [Hn _].
      destruct (lock_again_run _ _ _ Hx Hn) as (? & E' & _). congruence.
    + destruct (lock_free_run i x Hx) as (? & E' & _). congruence.
  - destruct (m f) as [o f'] eqn:E. eexists. by eapply step_work.
  - destruct (corresponds_unlock _ _ _ _ _ _ _ Hc Hi) as (x1 & E & _). eexists. by eapply step_unlock.
Qed.

Lemma no_deadlock c a : corresponds c a ->
  Exists (fun p => ~ finished p) (threads c) ->
  (exists c', mstep c c') \/
  exists i n k, rec_holder (fs_mutex c) = Some (i, n) /\ threads c !! i = Some (Stopped k).
Proof.
  intros Hc (p & [i Hi]%list_elem_of_lookup & Hp)%list.Exists_exists.
  destruct (rec_holder (fs_mutex c)) as [[j n]|] eqn:Hx; [|left; eapply can_move; [done..|congruence]].
  pose proof Hc as [_ [(Hx' & _)|(j' & n' & q & Hx' & Hj & Hlk & _)]]; [congruence|].
  rewrite Hx in Hx'. injection Hx' as <- ->. destruct (decide (finished q)) as [Hf|Hf].
  - right. exists j, (S n'), (if q is Stopped k then k else Fault). split; [done|].
    by inversion Hlk; subst.
  - left. eapply can_move; [done..|]. intros j' m Hx'. congruence.
Qed.

(** C11: the file system lock makes every call of the FAT library atomic.  For any
    threads that keep its discipline, however their steps are interleaved from
    a free lock: (1) a thread that is about to access the library's state holds
    the lock, so no two of them are; (2) whenever the lock is free, the module's
    globals, the library's state and what every thread has left are those of an
    execution in which each critical section ran as one step; and while a
    thread is inside, they are so for what its section will have made of
    them; (3) the threads do not deadlock: some step is possible unless all have
    ended or stopped, or the holder of the lock was stopped inside. *)
Theorem locked_calls_atomic x g f ps c : rec_holder x = None -> Forall (locked rec_limit 0) ps ->
  rtc mstep (mk_machine x g f ps) c ->
  (forall i m, threads c !! i = Some (Work m) -> exists n, rec_holder (fs_mutex c) = Some (i, S n)) /\
  (exists a, rtc astep (mk_atomic g f ps) a /\ globals c = a_globals a /\
     match rec_holder (fs_mutex c) with
     | None => library c = a_library a /\ threads c = a_threads a
     | Some (i, n) => exists p, threads c !! i = Some p /\
         a_threads a = <[i := (section n p (library c)).1]> (threads c) /\
         a_library a = (section n p (library c)).2
     end) /\
  (Forall finished (threads c) \/ (exists c', mstep c c') \/
   exists i n k, rec_holder (fs_mutex c) = Some (i, n) /\ threads c !! i = Some (Stopped k)).
Proof.
  intros Hx Hps Hr. destruct (reachable_corresponds _ _ _ _ _ Hx Hps Hr) as (a & Ha & Hc). split_and!.
  - intros i m Hi. destruct (inside_holds _ _ _ _ Hc Hi) as (n & Hh & _); [|by exists n].
    intros n Hn ->. inversion Hn.
  - exists a. split; [done|]. destruct Hc as [Hg Hc]. split; [done|].
    destruct Hc as [(-> & ? & ? & _)|(i & n & p & -> & ? & _ & ? & ? & _)]; [done|by exists p].
  - destruct (decide (Forall finished (threads c))) as [|Hno]; [by left|right].
    apply (no_deadlock _ a Hc). by apply not_Forall_Exists in Hno; [|apply _].
Qed.

(** Uncontended, the holder runs its section to the end. *)
Lemma section_runs i g p : forall n x f ps p' f', locked rec_limit (S n) p ->
  rec_holder x = Some (i, S n) -> ps !! i = Some p -> section (S n) p f = (p', f') ->
  (forall k, p' <> Stopped k) ->
  exists x', rec_holder x' = None /\
    rtc mstep (mk_machine x g f ps) (mk_machine x' g f' (<[i := p']> ps)).
Proof.
  induction p as [r|k|m IH|p IH|m IH|p IH] using prog_induction;
    intros n x f ps p' f' Hlk Hx Hi Hs Hp'; inversion Hlk; subst.
  - injection Hs as <- <-. by destruct (Hp' k).
  - destruct (lock_again_run _ _ _ Hx) as (x1 & E & Hx1); [done|].
    destruct (IH (S n) x1 f (<[i := p]> ps) p' f') as (x' & Hx' & Hr); try done.
    { by apply list_lookup_insert_eq, (lookup_lt_Some _ _ _ Hi). }
    rewrite list_insert_insert_eq in Hr. exists x'. split; [done|]. eapply rtc_l, Hr. by apply step_lock.
  - cbn [section] in Hs. destruct (m f) as [o f1] eqn:E.
    destruct o as [p|k]; [|injection Hs as <- <-; by destruct (Hp' k)].
    destruct (IH _ _ _ E n x f1 (<[i := p]> ps) p' f') as (x' & Hx' & Hr); eauto.
    { by apply list_lookup_insert_eq, (lookup_lt_Some _ _ _ Hi). }
    rewrite list_insert_insert_eq in Hr. exists x'. split; [done|]. eapply rtc_l, Hr. by eapply (step_work _ _ _ _ _ m (Done p)).
  - destruct (fatio_unlock_run _ _ _ Hx) as (x1 & E & Hx1). cbn [section] in Hs.
    assert (mstep (mk_machine x g f ps) (mk_machine x1 g f (<[i := p]> ps))) as Hst by by apply step_unlock.
    destruct n as [|n].
    { rewrite section_0 in Hs. injection Hs as <- <-. exists x1. split; [done|]. by apply rtc_once. }
    destruct (IH n x1 f (<[i := p]> ps) p' f') as (x' & Hx' & Hr); try done.
    { by apply list_lookup_insert_eq, (lookup_lt_Some _ _ _ Hi). }
    rewrite list_insert_insert_eq in Hr. exists x'. split; [done|]. by eapply rtc_l.
Qed.
End threads.

(** ** Functions of the library

    [call k] is a program that calls the function and goes on with [k] of the
    result: it is a section that does what the function does ([m]). *)
Class LockedCall `{!RecMutex X} {G F A : Type} (m : M F A) (call : (A -> prog G F) -> prog G F) : Prop := {
  call_locked k : (forall a, locked rec_limit 0 (k a)) -> locked rec_limit 0 (call k);
  call_section k : exists p, call k = Lock p /\ forall f, section 1 p f =
    match m f with (Done a, f') => (k a, f') | (Stop r, f') => (Stopped r, f') end;
}.
Arguments call_locked {X _ G F A} m {_ _}.
Arguments call_section {X _ G F A} m {_ _}.

Section calls.
Context `{LogPolicy} {X G F A : Type} `{!RecMutex X} `{!RecMutexSpec X}.
Context (m : M F A) (call : (A -> prog G F) -> prog G F) `{!LockedCall m call}.

Lemma alone_call k g f : alone (call k) (g, f) =
  match m f with (Done a, f') => alone (k a) (g, f') | (Stop r, f') => (Stop r, (g, f')) end.
Proof.
  destruct (call_section m k) as (p & -> & Hs). cbn [alone].
  rewrite (alone_section p 1), Hs. by destruct (m f) as [[a|r] f'].
Qed.

(** On a free lock, with nobody interfering. *)
Lemma call_runs i k x g f ps a f' : rec_holder x = None -> (forall b, locked rec_limit 0 (k b)) ->
  ps !! i = Some (call k) -> m f = (Done a, f') -> (forall r, k a <> Stopped r) ->
  exists x', rec_holder x' = None /\
    rtc mstep (mk_machine x g f ps) (mk_machine x' g f' (<[i := k a]> ps)).
Proof.
  intros Hx Hk Hi Hm Hns. pose proof (call_locked m k Hk) as Hlk.
  destruct (call_section m k) as (p & E & Hs). rewrite E in Hi, Hlk.
  specialize (Hs f). rewrite Hm in Hs. destruct (locked_lock_inv _ _ _ Hlk) as [_ Hp].
  destruct (lock_free_run i x Hx) as (x1 & E1 & Hx1).
  destruct (section_runs i g p 0 x1 f (<[i := p]> ps) (k a) f') as (x' & Hx' & Hr); try done.
  { by apply list_lookup_insert_eq, (lookup_lt_Some _ _ _ Hi). }
  rewrite list_insert_insert_eq in Hr. exists x'. split; [done|]. eapply rtc_l, Hr. by apply step_lock.
Qed.
End calls.

(** A function that is one access under the lock. *)
Definition one_access {G F A} (m : M F A) (k : A -> prog G F) : prog G F :=
  Lock (Work (a ← m; mret (Unlock (k a)))).

Lemma one_access_locked `{!RecMutex X} {G F A} (m : M F A) : (0 < rec_limit)%nat ->
  LockedCall m (one_access (G := G) m).
Proof.
  intros Hl. split; intros k.
  - intros Hk. constructor; [done|]. constructor. intros f p f'. unfold mbind, M_bind.
    destruct (m f) as [[a|r] f1]; [|done]. intros [= <- <-]. by constructor.
  - eexists. split; [done|]. intros f. cbn. unfold mbind, M_bind.
    destruct (m f) as [[a|r] f1]; [|done]. cbn. apply section_0.
Qed.

(** Two threads that each read a counter and write it back, in two accesses: the
    first has read, and the second waits for the lock. *)
#[local] Existing Instance log_aborts.
Definition increment : prog unit Z :=
  Lock (Work (v ← gets (fun v => v); mret (Work (modify (fun _ => v + 1);; mret (Unlock (Ended v)))))).
Definition half_way : machine (X := option (nat * nat)) (G := unit) (F := Z) :=
  mk_machine (Some (0, 1)%nat) tt 5
    [Work (modify (fun _ => 5 + 1);; mret (Unlock (Ended 5))); increment].

Lemma half_way_reachable : rtc mstep (mk_machine None tt 5 [increment; increment]) half_way.
Proof.
  eapply rtc_l; [by eapply (step_lock _ _ _ _ [_; _] 0)|]. apply rtc_once.
  by eapply (step_work (Some (0, 1)%nat) tt 5 [_; _] 0 _ (Done _)).
Qed.
Lemma increment_locked : locked 2 0 increment.
Proof.
  constructor; [lia|]. constructor. intros f p f' [= <- <-]. constructor. intros f1 p f1' [= <- <-].
  by repeat constructor.
Qed.

Lemma locked_calls_atomic_witness :
  (exists n, rec_holder (fs_mutex half_way) = Some (0%nat, S n)) /\
  (exists a, rtc astep (mk_atomic tt 5 [increment; increment]) a /\
     a_threads a = [Ended 5; increment] /\ a_library a = 6).
Proof.
  destruct (locked_calls_atomic (RecMutex0 := counting_mutex) None tt 5 [increment; increment] half_way eq_refl
    (Forall_cons _ _ _ increment_locked (Forall_cons _ _ _ increment_locked (Forall_nil _)))
    half_way_reachable) as (Hin & (a & Ha & _ & p & [= <-] & Hps & Hf) & _).
  split; [by eapply (Hin 0%nat)|]. exists a. by rewrite Hps, Hf.
Defined.
End FatLock.
