(* ===== verification/MmcRace.v ===== *)
(** A write of the MMC thread and a hard flush of the time server's thread at the
    same time (modules/mmc/src/mmc_file.c, called from mmc_module.c).  The file
    system lock makes a call of the FAT library atomic, but not the operations of
    the log file, which read and write [file->ref] between the calls. *)
From stdpp Require Import relations.
From S2P Require Import Prelude Sync MmcFile FatLock.

Module MmcRace.
Import MmcFile FatLock.

(** The functions of the library as the threads run them, in steps and under
    the lock.  The library reads [enabled] through the media functions; here it
    does so once, before the call. *)
Class FatCalls (F : Type) `{!Fat F} := {
  fopen_call : bool -> (option Z -> prog mmc_file_s F) -> prog mmc_file_s F;
  fclose_call : bool -> Z -> (unit -> prog mmc_file_s F) -> prog mmc_file_s F;
  fwrite_call : bool -> list Z -> Z -> Z -> Z -> (Z -> prog mmc_file_s F) -> prog mmc_file_s F;
}.
Class FatCallsSpec (X F : Type) `{!RecMutex X} `{!Fat F} `{!FatCalls F} := {
  fopen_locked on :: LockedCall (X := X) (fl_fopen on) (fopen_call on);
  fclose_locked on h :: LockedCall (X := X) (fl_fclose on h) (fclose_call on h);
  fwrite_locked on data size count h ::
    LockedCall (X := X) (fl_fwrite on data size count h) (fwrite_call on data size count h);
}.

Section threads.
Context {F : Type} `{!Fat F} `{!FatCalls F}.
Abbreviation prog := (prog mmc_file_s F).

Definition media_of (f : mmc_file_s) : bool := negb (mmc_file_get_enabled f =? 0).

(** [if_enabled] as a step. *)
Definition check_step (check_file : Z) (next : prog) : prog :=
  Local (f ← gets (fun f => f);
    let ret := init_check f check_file in
    mret (if (ret =? MMC_FILE_ERR_OK) && negb (enabled f =? 0) then next else Ended ret)).

(** mmc_file_write: the check, the argument [file->ref], the call. *)
Definition call_fwrite (data : list Z) (size count : Z) (h : option Z) : prog :=
  Local (on ← gets media_of;
    h ← or_fault h;
    data ← or_fault (read_at data 0 (size * count));
    mret (fwrite_call on data size count h (fun ret =>
      Ended (if negb (ret =? s32 (size * count)) then MMC_FILE_ERR_IO else MMC_FILE_ERR_OK)))).
Definition load_ref (data : list Z) (size count : Z) : prog :=
  Local (f ← gets (fun f => f); mret (call_fwrite data size count (ref f))).
Definition write_thread (data : list Z) (size count : Z) : prog :=
  check_step CHECK_FILE (load_ref data size count).

(** mmc_file_flush with [hard_flush]: the check, mmc_fclose - the test, the call,
    the store of [NULL] - and mmc_fopen - the call, the store of the handle.
    [file->ref] is the same at the test and at the call: the writer does not
    change it. *)
Definition store_handle (r : option Z) : prog :=
  Local (modify (set_ref r);;
    mret (Ended (match r with None => MMC_FILE_ERR_FS | Some _ => MMC_FILE_ERR_OK end))).
Definition open_file : prog := Local (on ← gets media_of; mret (fopen_call on store_handle)).
Definition store_null : prog := Local (modify (set_ref None);; mret open_file).
Definition close_handle (h : Z) : prog :=
  Local (on ← gets media_of; mret (fclose_call on h (fun _ => store_null))).
Definition test_ref : prog :=
  Local (f ← gets (fun f => f); mret (match ref f with None => open_file | Some h => close_handle h end)).
Definition hard_flush_thread : prog := check_step CHECK_FILE test_ref.
End threads.

(** ** One at a time *)
Section race.
Context `{LogPolicy} {X F : Type} `{!RecMutex X} `{!RecMutexSpec X} `{!Fat F} `{!FatCalls F}.
Context `{!FatCallsSpec X F}.
Abbreviation prog := (prog mmc_file_s F).
Abbreviation disciplined := (locked (G := mmc_file_s) (F := F) (rec_limit (X := X)) 0).

(** An operation of MmcFile, on the two halves of its state. *)
Definition halves {A} (r : outcome A * fs F) : outcome A * (mmc_file_s * F) :=
  (r.1, (file r.2, fat r.2)).

(** Runs the model's own steps. *)
Local Ltac run_steps :=
  cbn [alone]; cbv [mbind M_bind mret M_ret gets or_fault stop_with on_file on_fat zoom modify
    load_ref call_fwrite test_ref]; cbn [alone ref file fat fst snd].

(** Uninterrupted, they are the operations of MmcFile. *)
Lemma write_alone data size count s :
  alone (write_thread data size count) (file s, fat s) = halves (mmc_file_write data size count s).
Proof.
  destruct s as [f l]. unfold write_thread, check_step, mmc_file_write, if_enabled. run_steps.
  destruct (_ && _); [|done]. run_steps. destruct (ref f); [|done]. run_steps.
  destruct (read_at data 0 (size * count)) as [d|]; [|done]. run_steps.
  rewrite (alone_call (X := X) (fl_fwrite (media_of f) d size count z)) by apply _.
  change (media_on (mk_fs f l)) with (media_of f).
  by destruct (fl_fwrite (media_of f) d size count z l) as [[r|k] l1].
Qed.
Lemma flush_alone hard s : hard <> 0 ->
  alone hard_flush_thread (file s, fat s) = halves (mmc_file_flush hard s).
Proof.
  intros Hh%Z.eqb_neq. destruct s as [f l]. unfold hard_flush_thread, check_step, mmc_file_flush, if_enabled.
  rewrite Hh. run_steps. destruct (_ && _); [|done].
  unfold test_ref, mmc_fclose, mmc_fopen, close_handle, store_null, open_file, store_handle.
  cbn [negb]. run_steps. destruct (ref f) as [h|]; run_steps.
  - rewrite (alone_call (X := X) (fl_fclose (media_of f) h)) by apply _.
    change (media_on (mk_fs f l)) with (media_of f).
    destruct (fl_fclose (media_of f) h l) as [[[]|k] l1]; run_steps; [|done].
    set (f1 := set_ref None f). rewrite (alone_call (X := X) (fl_fopen (media_of f1))) by apply _.
    change (media_on (mk_fs f1 l1)) with (media_of f1).
    by destruct (fl_fopen (media_of f1) l1) as [[r|k] l2].
  - rewrite (alone_call (X := X) (fl_fopen (media_of f))) by apply _.
    change (media_on (mk_fs f l)) with (media_of f).
    by destruct (fl_fopen (media_of f) l) as [[r|k] l2].
Qed.

(** The threads keep the discipline of the lock. *)
Lemma store_handle_locked r : disciplined (store_handle r).
Proof. constructor. intros g p g' [= <- <-]. constructor. Qed.
Lemma open_file_locked : disciplined open_file.
Proof.
  constructor. intros g p g' [= <- <-]. apply (call_locked (fl_fopen (media_of g))), store_handle_locked.
Qed.
Lemma store_null_locked : disciplined store_null.
Proof. constructor. intros g p g' [= <- <-]. apply open_file_locked. Qed.
Lemma close_handle_locked h : disciplined (close_handle h).
Proof.
  constructor. intros g p g' [= <- <-]. apply (call_locked (fl_fclose (media_of g) h)). intros [].
  apply store_null_locked.
Qed.
Lemma check_step_locked check_file next : disciplined next -> disciplined (check_step check_file next).
Proof. intros Hn. constructor. intros g p g' [= <- <-]. by case_match; [|constructor]. Qed.
Lemma hard_flush_locked : disciplined hard_flush_thread.
Proof.
  apply check_step_locked. constructor. intros g p g' [= <- <-].
  destruct (ref g); [apply close_handle_locked|apply open_file_locked].
Qed.
Lemma call_fwrite_locked data size count h : disciplined (call_fwrite data size count h).
Proof.
  constructor. intros g p g'. run_steps. destruct h as [h|]; [|done].
  destruct (read_at data 0 (size * count)) as [d|]; [|done]. intros [= <- <-].
  apply (call_locked (fl_fwrite (media_of g) d size count h)). constructor.
Qed.
Lemma write_locked data size count : disciplined (write_thread data size count).
Proof.
  apply check_step_locked. constructor. intros g p g' [= <- <-]. apply call_fwrite_locked.
Qed.

(** ** Both at once *)
Context `{!FatSpec F}.
Implicit Types s : fs F.

(** A local step of the thread [i]. *)
Lemma goes i (m : M mmc_file_s prog) p g' (x : X) g (l : F) ps : ps !! i = Some (Local m) ->
  m g = (Done p, g') -> mstep (mk_machine x g l ps) (mk_machine x g' l (<[i := p]> ps)).
Proof. intros Hi Hm. by eapply (step_local _ _ _ _ _ _ (Done p)). Qed.

(** The check passes on an open file. *)
Lemma check_passes x s h next ps i : is_init (file s) = IS_INIT_VALUE -> ref (file s) = Some h ->
  enabled (file s) <> 0 -> ps !! i = Some (check_step CHECK_FILE next) ->
  mstep (mk_machine x (file s) (fat s) ps) (mk_machine x (file s) (fat s) (<[i := next]> ps)).
Proof.
  intros Hi Hr He%Z.eqb_neq Hps. eapply goes; [done|].
  run_steps. rewrite init_check_run by done. by rewrite He, Hr.
Qed.

(** Whatever the writer is at, the flusher can close the handle. *)
Lemma flusher_closes x t s h :
  file_inv s -> enabled (file s) <> 0 -> ref (file s) = Some h -> rec_holder x = None ->
  exists x' l', rtc mstep (mk_machine x (file s) (fat s) [t; hard_flush_thread])
                          (mk_machine x' (file s) l' [t; store_null]) /\
    rec_holder x' = None /\ (forall h', ~ is_open h' l').
Proof.
  intros (Hi & Hok & Hh & _) He Hr Hx. unfold handles_ok in Hh. rewrite Hr in Hh.
  assert (exists l', fl_fclose (media_on s) h (fat s) = (Done tt, l') /\ forall h', ~ is_open h' l')
    as (l' & Hclose & Hno).
  { destruct (wp_done _ _ _ (fl_fclose_spec (media_on s) h (fat s) Hok (proj2 (Hh h) eq_refl)))
      as ([] & l' & E & _ & Hop & _). exists l'. split; [done|]. by intros h' [Hne Ho%Hh]%Hop. }
  destruct (call_runs (G := mmc_file_s) (fl_fclose (media_on s) h) (fclose_call (media_on s) h) 1
    (fun _ => store_null) x (file s) (fat s) [t; fclose_call (media_on s) h (fun _ => store_null)] tt l')
    as (x' & Hx' & Hrun); try done; [intros []; apply store_null_locked|].
  exists x', l'. split; [|done].
  eapply rtc_l; [by eapply (check_passes _ _ _ test_ref _ 1)|]. cbn.
  eapply rtc_l; [eapply (goes 1 _ (close_handle h) (file s)); [done|run_steps; by rewrite Hr]|].
  cbn. eapply rtc_l; [by eapply (goes 1)|]. exact Hrun.
Qed.

(** C32: from any state in which the log file is enabled and open, a write of the
    MMC thread and a hard flush of the timer's thread can be interleaved so that
    the write, whose check has passed, is about to call the FAT library with a
    handle the flush has closed; and so that it is about to call it without a
    handle ([NULL]), which the model shows as a fault.  The file system lock does
    not prevent this: it is free then, and both threads keep its discipline,
    under which the library's functions are atomic.  Without an interruption,
    each of the two threads is the operation of MmcFile of the same name. *)
Theorem flush_races_with_write data size count s h x :
  file_inv s -> enabled (file s) <> 0 -> ref (file s) = Some h -> rec_holder x = None ->
  (forall s, alone (write_thread data size count) (file s, fat s) =
     halves (mmc_file_write data size count s)) /\
  (forall s, alone hard_flush_thread (file s, fat s) = halves (mmc_file_flush 1 s)) /\
  Forall disciplined [write_thread data size count; hard_flush_thread] /\
  let start := mk_machine x (file s) (fat s) [write_thread data size count; hard_flush_thread] in
  (exists c, rtc mstep start c /\ rec_holder (fs_mutex c) = None /\
     threads c = [call_fwrite data size count (Some h); store_null] /\ ~ is_open h (library c)) /\
  (exists c, rtc mstep start c /\ rec_holder (fs_mutex c) = None /\
     threads c = [call_fwrite data size count None; open_file] /\
     (alone (call_fwrite data size count None) (globals c, library c)).1 = Stop Fault).
Proof.
  intros Hinv He Hr Hx. pose proof Hinv as (Hi & _).
  split; [intros; apply write_alone|]. split; [intros; by apply flush_alone|].
  split; [apply Forall_cons; [apply write_locked|]; apply Forall_cons; [apply hard_flush_locked|done]|].
  assert (forall u, mstep (mk_machine x (file s) (fat s) [write_thread data size count; u])
    (mk_machine x (file s) (fat s) [load_ref data size count; u])) as Hw.
  { intros u. exact (check_passes x s h _ [_; u] 0 Hi Hr He eq_refl). }
  assert (forall x l u, mstep (mk_machine x (file s) l [load_ref data size count; u])
    (mk_machine x (file s) l [call_fwrite data size count (Some h); u])) as Hld.
  { intros x1 l u. refine (goes 0 _ _ _ x1 _ l [_; u] eq_refl _). run_steps. by rewrite Hr. }
  split.
  - destruct (flusher_closes x (call_fwrite data size count (Some h)) s h Hinv He Hr Hx)
      as (x' & l' & Hrun & Hx' & Hno).
    eexists. split; [eapply rtc_l; [apply Hw|]; eapply rtc_l; [apply Hld|exact Hrun]|done].
  - destruct (flusher_closes x (load_ref data size count) s h Hinv He Hr Hx) as (x' & l' & Hrun & Hx' & _).
    eexists (mk_machine x' (set_ref None (file s)) l' [call_fwrite data size count None; open_file]).
    split; [|done]. eapply rtc_l; [apply Hw|]. etrans; [exact Hrun|].
    eapply rtc_l; [by eapply (goes 1 _ open_file)|]. apply rtc_once.
    by refine (goes 0 _ _ _ x' _ l' [_; _] eq_refl _).
Qed.
End race.

(** ** The library in steps, over the file system in memory

    Closing a file flushes it first, under the lock it already holds. *)
#[local] Instance ram_calls : FatCalls ram := {|
  fopen_call on := one_access (fl_fopen on);
  fwrite_call on data size count h := one_access (fl_fwrite on data size count h);
  fclose_call on h k :=
    Lock (Lock (Work (fl_fflush on h;;
      mret (Unlock (Work (
        modify (fun f => Ram (r_stored f) (r_contents f) (filter (fun i => i <> h) (r_open f)) (r_next f));;
        mret (Unlock (k tt))))))));
|}.
#[local] Instance ram_calls_spec : FatCallsSpec (option (nat * nat)) ram.
Proof.
  split; intros; try (apply one_access_locked; cbn; lia). split; intros k.
  - intros Hk. constructor; [cbn; lia|]. constructor; [cbn; lia|]. constructor. intros f p f' [= <- <-].
    constructor. constructor. intros f1 p f1' [= <- <-]. constructor. apply Hk.
  - eexists. split; [done|]. intros f. cbn. by destruct (k tt).
Qed.

#[local] Existing Instance log_aborts.
Lemma flush_races_with_write_witness :
  exists c : machine (X := option (nat * nat)) (G := mmc_file_s) (F := ram), rtc mstep (mk_machine None (file demo_fs) (fat demo_fs) [write_thread [1; 2; 3] 1 3; hard_flush_thread]) c /\
    rec_holder (fs_mutex c) = None /\
    threads c = [call_fwrite [1; 2; 3] 1 3 (Some 1); store_null] /\ ~ 1 ∈ r_open (library c).
Proof.
  eapply (flush_races_with_write (X := option (nat * nat)) [1; 2; 3] 1 3 demo_fs 1 None demo_fs_inv);
    [by cbn|done..].
Defined.
End MmcRace.
