(* ===== verification/MmcModule.v ===== *)
(** The MMC module, modules/mmc/src/mmc_module.c: the thread that owns the log
    file, the messages it answers, and the calls the other modules make to it
    (modules/mmc/include/mmc.h), with the logging of an entry among them. *)
From S2P Require Import Prelude Services Ipc MmcEntry MmcFile.

Module MmcModule.
Import Ipc MmcFile.

Definition ENDPOINT_BADGE : Z := IPC_ENDPOINT_BADGE MMCMOD_BASE_BADGE.

Definition IPC_MSG_TYPE_ENTRY_LOG : Z := IPC_MSG_TYPE_ID MMCMOD_BASE_BADGE 1.
Definition IPC_MSG_TYPE_STATS_REQ : Z := IPC_MSG_TYPE_ID MMCMOD_BASE_BADGE 2.
Definition IPC_MSG_TYPE_STATS_RESP : Z := IPC_MSG_TYPE_ID MMCMOD_BASE_BADGE 3.
Definition IPC_MSG_TYPE_RM_FILE_REQ : Z := IPC_MSG_TYPE_ID MMCMOD_BASE_BADGE 4.
Definition IPC_MSG_TYPE_RM_FILE_RESP : Z := IPC_MSG_TYPE_ID MMCMOD_BASE_BADGE 5.
Definition IPC_MSG_TYPE_FILE_SIZE_REQ : Z := IPC_MSG_TYPE_ID MMCMOD_BASE_BADGE 6.
Definition IPC_MSG_TYPE_FILE_SIZE_RESP : Z := IPC_MSG_TYPE_ID MMCMOD_BASE_BADGE 7.
Definition IPC_MSG_TYPE_STATE_REQ : Z := IPC_MSG_TYPE_ID MMCMOD_BASE_BADGE 8.
Definition IPC_MSG_TYPE_STATE_SET_REQ : Z := IPC_MSG_TYPE_ID MMCMOD_BASE_BADGE 9.
Definition IPC_MSG_TYPE_STATE_RESP : Z := IPC_MSG_TYPE_ID MMCMOD_BASE_BADGE 10.

Definition MMC_HARD_FLUSH_TIMEOUT_NS (NS_IN_S : Z) : Z := u64 (2 * NS_IN_S).

(** Aligns [n] up to [align], a power of two. *)
Definition align_up (n align : Z) : Z :=
  Z.land (u32 (n + align - 1)) (u32 (Z.lnot (align - 1))).

(** [mmc_stats_s], and as it lies in memory. *)
Record mmc_stats_s := mk_stats { timestamp : Z; entries_logged : Z }.
Definition stats_bytes (st : mmc_stats_s) : list Z :=
  le_bytes 8 (timestamp st) ++ le_bytes 4 (entries_logged st).
Definition SIZEOF_STATS : Z := 12.
Definition stats_of_bytes (l : list Z) : mmc_stats_s :=
  mk_stats (le_val (take 8 l)) (le_val (take 4 (drop 8 l))).

(** What happens to the module: a message at its endpoint, the time server
    running the hard-flush callback, or a caller writing word [i] of the message
    area. *)
Inductive mmc_event := EvMsg (m : ipc_msg) | EvHardFlush | EvArea (i w : Z).

Record mmc_s (F W : Type) := mk_mmc {
  fsys : fs F;
  stats : mmc_stats_s;
  m_regs : regs;
  g_msg_rx_buffer : list Z;
  g_hard_flush_timeout_id : Z;
  events : list mmc_event;
  m_replies : list (Z * list Z);
  m_services : W;
}.
Arguments mk_mmc {F W}.
Arguments fsys {F W}.
Arguments stats {F W}.
Arguments m_regs {F W}.
Arguments g_msg_rx_buffer {F W}.
Arguments g_hard_flush_timeout_id {F W}.
Arguments events {F W}.
Arguments m_replies {F W}.
Arguments m_services {F W}.

Section setters.
Context {F W : Type}.
Implicit Types s : mmc_s F W.
Definition set_fsys (v : fs F) s := mk_mmc v (stats s) (m_regs s) (g_msg_rx_buffer s)
  (g_hard_flush_timeout_id s) (events s) (m_replies s) (m_services s).
Definition set_stats v s := mk_mmc (fsys s) v (m_regs s) (g_msg_rx_buffer s)
  (g_hard_flush_timeout_id s) (events s) (m_replies s) (m_services s).
Definition set_regs v s := mk_mmc (fsys s) (stats s) v (g_msg_rx_buffer s)
  (g_hard_flush_timeout_id s) (events s) (m_replies s) (m_services s).
Definition set_rx_buffer v s := mk_mmc (fsys s) (stats s) (m_regs s) v
  (g_hard_flush_timeout_id s) (events s) (m_replies s) (m_services s).
Definition set_timeout_id v s := mk_mmc (fsys s) (stats s) (m_regs s) (g_msg_rx_buffer s)
  v (events s) (m_replies s) (m_services s).
Definition set_events v s := mk_mmc (fsys s) (stats s) (m_regs s) (g_msg_rx_buffer s)
  (g_hard_flush_timeout_id s) v (m_replies s) (m_services s).
Definition set_replies v s := mk_mmc (fsys s) (stats s) (m_regs s) (g_msg_rx_buffer s)
  (g_hard_flush_timeout_id s) (events s) v (m_services s).
Definition set_services (v : W) s := mk_mmc (fsys s) (stats s) (m_regs s) (g_msg_rx_buffer s)
  (g_hard_flush_timeout_id s) (events s) (m_replies s) v.
End setters.

Section mmc.
Context `{LogPolicy} {F W : Type} `{!Fat F} `{!TimeServer W} `{!Kernel}.
Abbreviation T := (M (mmc_s F W)).

Definition on_fs {A} (m : M (fs F) A) : T A := zoom fsys set_fsys m.
Definition svc {A} (m : M W A) : T A := zoom m_services set_services m.
Definition on_regs (f : regs -> option regs) : T unit :=
  r ← gets m_regs; r ← or_fault (f r); modify (set_regs r).
Definition get_mr0 : T Z := r ← gets m_regs; or_fault (seL4_GetMR 0 r).
Definition seL4_Reply (label length : Z) : T unit := modify (fun s =>
  set_replies (m_replies s ++ [(label, take (Z.to_nat length) (words (m_regs s)))]) s).

Definition count_entry : T unit := modify (fun s =>
  set_stats (mk_stats (timestamp (stats s)) (u32 (entries_logged (stats s) + 1))) s).
Definition clear_entries : T unit := modify (fun s =>
  set_stats (mk_stats (timestamp (stats s)) 0) s).
Definition sample_time : T unit :=
  t ← svc time_server_get_time;
  modify (fun s => set_stats (mk_stats t (entries_logged (stats s))) s).
Definition count_if_enabled : T unit :=
  f ← gets (fun s => file (fsys s));
  when (negb (enabled f =? 0)) count_entry.

(** [entry] is the object the pointer is to. *)
Definition write_mmc_entry (entry : list Z) (hard_flush : Z) : T unit :=
  size ← or_fault (mmc_entry_total_size entry);
  err ← on_fs (mmc_file_write entry 1 size);
  ZF_LOGF_IF (negb (err =? 0));;
  when (negb (hard_flush =? 0)) (on_fs (mmc_file_flush 1);; mret tt).

Definition hard_flush_timeout_cb : T Z := on_fs (mmc_file_flush 1);; mret 0.

(** The thread up to its loop. *)
Definition thread_init (NS_IN_S : Z) : T unit :=
  on_fs mmc_file_init;;
  on_fs (on_fat fl_init);;
  on_fs (on_fat fl_attach_locks);;
  err ← on_fs (on ← gets media_on; on_fat (fl_attach_media on));
  ZF_LOGF_IF (negb (err =? FAT_INIT_OK));;
  err ← on_fs mmc_file_open;
  ZF_LOGF_IF (negb (err =? 0));;
  id ← svc time_server_alloc_id;
  modify (set_timeout_id id);;
  svc (time_server_register_periodic_cb (MMC_HARD_FLUSH_TIMEOUT_NS NS_IN_S) 0 id);;
  sample_time;;
  st ← gets stats;
  write_mmc_entry (entry_header MMC_ENTRY_TYPE_BEGIN_FLAG 0 (timestamp st)) 1;;
  count_if_enabled.

Definition handle_stats_req : T unit :=
  sample_time;;
  st ← gets stats;
  on_regs (sel4_mr_send (SIZEOF_STATS / 4) (words_of_bytes (stats_bytes st)));;
  seL4_Reply IPC_MSG_TYPE_STATS_RESP (SIZEOF_STATS / 4).

Definition handle_entry_log (total_size_words : Z) : T unit :=
  r ← gets m_regs;
  ws ← or_fault (sel4_mr_recv total_size_words r);
  buf ← gets g_msg_rx_buffer;
  buf ← or_fault (write_at buf 0 ws);
  modify (set_rx_buffer buf);;
  let entry := bytes_of_words buf in
  type ← or_fault (entry_header_type entry);
  ZF_LOGF_IF (type =? MMC_ENTRY_TYPE_INVALID);;
  size ← or_fault (entry_header_size entry);
  ZF_LOGF_IF (MMC_ENTRY_DATA_SIZE_MAX <? size);;
  write_mmc_entry entry 0;;
  count_if_enabled.

Definition handle_file_size_req : T unit :=
  '(cmd_status, file_size) ← on_fs mmc_file_size;
  on_regs (seL4_SetMR 0 (u32 cmd_status));;
  on_regs (seL4_SetMR 1 file_size);;
  seL4_Reply IPC_MSG_TYPE_FILE_SIZE_RESP 2.

Definition handle_rm_file_req : T unit :=
  clear_entries;;
  cmd_status ← on_fs mmc_file_rm;
  on_regs (seL4_SetMR 0 (u32 cmd_status));;
  seL4_Reply IPC_MSG_TYPE_RM_FILE_RESP 1.

Definition handle_state_req : T unit :=
  f ← gets (fun s => file (fsys s));
  on_regs (seL4_SetMR 0 (mmc_file_get_enabled f));;
  seL4_Reply IPC_MSG_TYPE_STATE_RESP 1.

Definition handle_state_set_req : T unit :=
  desired_state ← get_mr0;
  err ← on_fs (mmc_file_set_enabled desired_state);
  when (negb (err =? 0)) (on_fs (mmc_file_set_enabled 0);; mret tt);;
  f ← gets (fun s => file (fsys s));
  on_regs (seL4_SetMR 0 (mmc_file_get_enabled f));;
  seL4_Reply IPC_MSG_TYPE_STATE_RESP 1.

Definition dispatch (msg_label msg_length : Z) : T unit :=
  if msg_label =? IPC_MSG_TYPE_STATS_REQ then handle_stats_req
  else if msg_label =? IPC_MSG_TYPE_ENTRY_LOG then handle_entry_log msg_length
  else if msg_label =? IPC_MSG_TYPE_FILE_SIZE_REQ then handle_file_size_req
  else if msg_label =? IPC_MSG_TYPE_RM_FILE_REQ then handle_rm_file_req
  else if msg_label =? IPC_MSG_TYPE_STATE_REQ then handle_state_req
  else if msg_label =? IPC_MSG_TYPE_STATE_SET_REQ then handle_state_set_req
  else ZF_LOGF.

(** An iteration of the loop with the message that was received. *)
Definition handle_msg (m : ipc_msg) : T unit :=
  modify (fun s => set_regs (receive_regs (msg_words m) (m_regs s)) s);;
  ZF_LOGF_IF (negb (msg_badge m =? ENDPOINT_BADGE));;
  dispatch (msg_label m) (Ipc.msg_length m).

(** What the module does with an event, and with [n] of them. *)
Definition step : T unit :=
  evs ← gets events;
  match evs with
  | [] => stop_with Blocked
  | EvMsg m :: evs => modify (set_events evs);; handle_msg m
  | EvHardFlush :: evs => modify (set_events evs);; hard_flush_timeout_cb;; mret tt
  | EvArea i w :: evs => modify (set_events evs);; on_regs (set_area i w)
  end.
Fixpoint thread_loop (n : nat) : T unit :=
  match n with O => mret tt | S n => step;; thread_loop n end.
Definition mmc_thread_fn (NS_IN_S : Z) (n : nat) : T unit := thread_init NS_IN_S;; thread_loop n.
End mmc.

(** ** The calls of the other modules

    [call] is what the peer does with a message and its reply; [send] delivers a
    message, blocking or not; [set_msg i w] writes word [i] of the [msg] array
    of the module's IPC buffer, which the caller shares with it. *)
Section rpc.
Context `{LogPolicy} `{!Kernel} {P : Type} (call : ipc_msg -> M P (Z * list Z)).
Context (get_time : M P Z) (set_msg : Z -> Z -> M P unit) (send : Z -> ipc_msg -> M P unit).
Abbreviation T := (M (client P)).

Definition on_peer {A} (m : M P A) : T A := zoom c_peer (fun p c => mk_client (c_regs c) p) m.

(** The bytes of word [idx] of the data, bytes behind the end being 0;
    [n] is the number of iterations left. *)
Fixpoint data_word (n : nat) (idx shift data_size : Z) (data : list Z) (word : Z) : option Z :=
  match n with
  | O => Some word
  | S n =>
      let data_index := u32 (u32 (idx * 4) + shift) in
      if data_index <? u32 data_size
      then b ← load data data_index;
           data_word n idx (shift + 1) data_size data (u32 (Z.lor word (Z.shiftl b (shift * 8))))
      else data_word n idx (shift + 1) data_size data word
  end.

Fixpoint send_data (n : nat) (idx data_size : Z) (data : list Z) : T unit :=
  match n with
  | O => mret tt
  | S n =>
      w ← or_fault (data_word 4 idx 0 data_size data 0);
      (if idx =? 0 then client_SetMR (3 + idx) w else on_peer (set_msg (3 + idx) w));;
      send_data n (idx + 1) data_size data
  end.

Definition mmc_log_entry_data (type data_size : Z) (timestamp : option Z) (data : list Z)
    (nonblocking : Z) : T unit :=
  tstamp ← (match timestamp with Some t => mret t | None => on_peer get_time end);
  let size_bytes := u32 (data_size + MMC_ENTRY_HEADER_SIZE) in
  let total_size_bytes := align_up size_bytes 4 in
  let total_size_words := total_size_bytes / 4 in
  ZF_LOGF_IF (negb (total_size_bytes mod 4 =? 0));;
  ZF_LOGF_IF (MMC_ENTRY_DATA_SIZE_MAX <? total_size_bytes);;
  client_SetMR 0 (u32 (Z.lor type (Z.shiftl data_size 16)));;
  client_SetMR 1 (Z.land tstamp 0xFFFFFFFF);;
  client_SetMR 2 (Z.land (Z.shiftr tstamp 32) 0xFFFFFFFF);;
  send_data (Z.to_nat (total_size_words - 3)) 0 data_size data;;
  r ← gets c_regs;
  on_peer (send nonblocking (Msg ENDPOINT_BADGE IPC_MSG_TYPE_ENTRY_LOG total_size_words
    (take (Z.to_nat total_size_words) (mr r)))).

Definition check_resp (label len expected_label expected_len : Z) : T unit :=
  ZF_LOGF_IF (negb (label =? expected_label));;
  ZF_LOGF_IF (negb (len =? expected_len)).

(** [sizeof(stats)] in the check is the size of the pointer. *)
Definition mmc_get_stats : T mmc_stats_s :=
  ZF_LOGF_IF (negb (4 mod 4 =? 0));;
  '(label, len) ← seL4_Call call ENDPOINT_BADGE IPC_MSG_TYPE_STATS_REQ 0;
  check_resp label len IPC_MSG_TYPE_STATS_RESP (SIZEOF_STATS / 4);;
  ws ← client_mr_recv (SIZEOF_STATS / 4);
  mret (stats_of_bytes (bytes_of_words ws)).

Definition mmc_rm : T Z :=
  '(label, len) ← seL4_Call call ENDPOINT_BADGE IPC_MSG_TYPE_RM_FILE_REQ 0;
  check_resp label len IPC_MSG_TYPE_RM_FILE_RESP 1;;
  cmd_resp ← client_GetMR 0;
  mret (s32 cmd_resp).

(** The status and the size. *)
Definition mmc_get_file_size : T (Z * Z) :=
  '(label, len) ← seL4_Call call ENDPOINT_BADGE IPC_MSG_TYPE_FILE_SIZE_REQ 0;
  check_resp label len IPC_MSG_TYPE_FILE_SIZE_RESP 2;;
  cmd_resp ← client_GetMR 0;
  file_size ← client_GetMR 1;
  let ret := s32 cmd_resp in
  mret (ret, if ret =? 0 then file_size else 0).

Definition mmc_set_state (state : Z) : T Z :=
  client_SetMR 0 state;;
  '(label, len) ← seL4_Call call ENDPOINT_BADGE IPC_MSG_TYPE_STATE_SET_REQ 1;
  check_resp label len IPC_MSG_TYPE_STATE_RESP 1;;
  client_GetMR 0.

Definition mmc_get_state : T Z :=
  '(label, len) ← seL4_Call call ENDPOINT_BADGE IPC_MSG_TYPE_STATE_REQ 0;
  check_resp label len IPC_MSG_TYPE_STATE_RESP 1;;
  client_GetMR 0.
End rpc.

(** ** The packing of an entry into words *)

Lemma align_up_4 n : 0 <= n < 2 ^ 31 -> align_up n 4 = (n + 3) / 4 * 4.
Proof.
  intros Hn. unfold align_up. change (u32 (Z.lnot (4 - 1))) with (4294967292).
  replace (n + 4 - 1) with (n + 3) by lia. unfold u32. rewrite Z.mod_small by lia.
  assert (Z.land (n + 3) 4294967292 = Z.ldiff (n + 3) (Z.ones 2)) as ->.
  { apply Z.bits_inj'. intros i Hi. rewrite Z.land_spec, Z.ldiff_spec.
    change 4294967292 with (Z.shiftl (Z.ones 30) 2).
    rewrite Z.testbit_ones_nonneg by lia. destruct (Z.ltb_spec i 2).
    - rewrite Z.shiftl_spec_low by done. by rewrite !andb_false_r.
    - rewrite Z.shiftl_spec_high, Z.testbit_ones_nonneg by lia. cbn [negb].
      destruct (Z.ltb_spec (i - 2) 30); [done|].
      rewrite andb_true_r, andb_false_r. symmetry.
      apply (proj1 (Z.bounded_iff_bits_nonneg' 32 (n + 3) ltac:(lia) ltac:(lia))); lia. }
  rewrite Z.ldiff_ones_r by lia. rewrite Z.shiftr_div_pow2, Z.shiftl_mul_pow2 by lia. done.
Qed.

(** The bytes of the data, followed by zeros. *)
Fixpoint pbytes (n j : nat) (data : list Z) : list Z :=
  match n with O => [] | S n => default 0 (data !! j) :: pbytes n (S j) data end.

Lemma length_pbytes n data : forall j, length (pbytes n j data) = n.
Proof. induction n as [|n IH]; intros j; [done|]. cbn. by rewrite IH. Qed.

Lemma bytes_pbytes n data : bytes data -> forall j, bytes (pbytes n j data).
Proof.
  intros Hd. induction n as [|n IH]; intros j; constructor; [|apply IH].
  destruct (data !! j) as [b|] eqn:E; [by eapply bytes_lookup|done].
Qed.

Lemma pbytes_app n m data : forall j,
  pbytes (n + m) j data = pbytes n j data ++ pbytes m (j + n) data.
Proof.
  induction n as [|n IH]; intros j; cbn [Nat.add pbytes app]; [by rewrite Nat.add_0_r|].
  rewrite IH. by replace (j + S n)%nat with (S j + n)%nat by lia.
Qed.

Lemma pbytes_pad n data : forall j,
  pbytes n j data = take n (drop j data) ++ replicate (n - (length data - j)) 0.
Proof.
  induction n as [|n IH]; intros j; [done|]. cbn [pbytes]. rewrite IH.
  destruct (data !! j) as [b|] eqn:E.
  - rewrite (drop_S _ _ _ E). apply lookup_lt_Some in E. cbn. f_equal.
    by replace (S n - (length data - j))%nat with (n - (length data - S j))%nat by lia.
  - apply lookup_ge_None in E. rewrite !(drop_ge data), !take_nil by lia.
    replace (S n - (length data - j))%nat with (S n) by lia.
    replace (n - (length data - S j))%nat with n by lia. done.
Qed.

(** The inner loop reads the padded bytes. *)
Lemma data_word_run n : forall idx shift size data word,
  shift + Z.of_nat n = 4 -> 0 <= shift -> 0 <= idx < 2 ^ 20 -> bytes data ->
  0 <= size < 65536 -> size = Z.of_nat (length data) -> 0 <= word < 256 ^ shift ->
  data_word n idx shift size data word =
  Some (word + 256 ^ shift * le_val (pbytes n (Z.to_nat (idx * 4 + shift)) data)).
Proof.
  induction n as [|n IH]; intros idx shift size data word Hn Hs Hi Hd Hsz Hl Hw.
  { cbn. f_equal. lia. }
  cbn [data_word]. cbn in Hi.
  assert (u32 (u32 (idx * 4) + shift) = idx * 4 + shift) as ->.
  { unfold u32. rewrite (Z.mod_small (idx * 4)), Z.mod_small by lia. done. }
  assert (u32 size = size) as -> by (unfold u32; rewrite Z.mod_small by lia; done).
  assert (256 ^ (shift + 1) = 256 * 256 ^ shift) as Hpow.
  { rewrite Z.pow_add_r by lia. lia. }
  assert (256 ^ shift = 2 ^ (shift * 8)) as Hpow2.
  { rewrite <- (Z.pow_mul_r 2 8 shift) at 1 by lia. f_equal. lia. }
  assert (256 ^ (shift + 1) <= 2 ^ 32) as Hbig.
  { change (2 ^ 32) with (256 ^ 4). apply Z.pow_le_mono_r; lia. }
  cbn [pbytes]. replace (S (Z.to_nat (idx * 4 + shift))) with (Z.to_nat (idx * 4 + (shift + 1))) by lia.
  destruct (Z.ltb_spec (idx * 4 + shift) size).
  - destruct (lookup_lt_is_Some_2 data (Z.to_nat (idx * 4 + shift))) as [b Hb]; [lia|].
    pose proof (bytes_lookup _ _ _ Hd Hb) as Hbr. unfold byte in Hbr.
    unfold load. rewrite decide_True, Hb by lia. cbn [mbind option_bind default].
    rewrite lor_shiftl by (rewrite <- ?Hpow2; lia). rewrite <- Hpow2.
    assert (0 <= word + 256 ^ shift * b < 256 ^ (shift + 1)) as Hw' by nia.
    unfold u32. rewrite Z.mod_small by (cbn in Hbig; lia).
    rewrite IH by (done || lia). f_equal. cbn [le_val id]. rewrite Hpow. ring.
  - rewrite lookup_ge_None_2 by lia. cbn [default le_val].
    rewrite IH by (done || lia || nia). f_equal. rewrite Hpow. ring.
Qed.

(** The words of the header and of the data. *)
Definition header_words (ty size t : Z) : list Z :=
  [u32 (Z.lor ty (Z.shiftl size 16)); Z.land t 0xFFFFFFFF; Z.land (Z.shiftr t 32) 0xFFFFFFFF].
Definition data_words (n idx : nat) (data : list Z) : list Z :=
  (fun i => le_val (pbytes 4 (4 * i) data)) <$> seq idx n.

Lemma bytes_of_words_cons w ws : bytes_of_words (w :: ws) = le_bytes 4 w ++ bytes_of_words ws.
Proof. done. Qed.
Lemma bytes_of_words_app ws1 ws2 :
  bytes_of_words (ws1 ++ ws2) = bytes_of_words ws1 ++ bytes_of_words ws2.
Proof. unfold bytes_of_words. by rewrite bind_app. Qed.

Lemma land_32 t : Z.land t 0xFFFFFFFF = t mod 256 ^ Z.of_nat 4.
Proof. change 0xFFFFFFFF with (Z.ones 32). by rewrite Z.land_ones by lia. Qed.

Lemma header_words_bytes ty size t :
  0 <= ty < 65536 -> 0 <= size < 65536 -> 0 <= t < 2 ^ 64 ->
  bytes_of_words (header_words ty size t) = entry_header ty size t /\
  Forall word (header_words ty size t).
Proof.
  intros Ht Hs Hm. unfold header_words. rewrite !land_32.
  rewrite lor_shiftl by lia. unfold u32. rewrite Z.mod_small by lia. split.
  - rewrite !bytes_of_words_cons, !le_bytes_mod. unfold entry_header.
    pose proof (le_bytes_app 2 2 (ty + 2 ^ 16 * size)) as E4. cbn [Nat.add] in E4. rewrite E4.
    pose proof (le_bytes_app 4 4 t) as E8. cbn [Nat.add] in E8. rewrite E8.
    rewrite <- (le_bytes_mod 2 (ty + _)). change (256 ^ Z.of_nat 2) with 65536.
    change (2 ^ 16) with 65536. rewrite (Z.mul_comm 65536), Z.mod_add, Z.mod_small by lia.
    rewrite Z.div_add, (Z.div_small ty), Z.add_0_l by lia.
    rewrite Z.shiftr_div_pow2 by lia. change (2 ^ 32) with (256 ^ Z.of_nat 4).
    change (bytes_of_words []) with (@nil Z). by rewrite app_nil_r, <- !app_assoc.
  - repeat constructor; unfold word; change (256 ^ Z.of_nat 4) with 4294967296; 
      try (apply Z.mod_pos_bound; lia); change (2 ^ 16) with 65536; lia.
Qed.

Lemma data_words_bytes n data : bytes data -> forall idx,
  bytes_of_words (data_words n idx data) = pbytes (4 * n) (4 * idx) data /\
  Forall word (data_words n idx data).
Proof.
  intros Hd. induction n as [|n IH]; intros idx; [done|].
  destruct (IH (S idx)) as [IHb IHw]. unfold data_words in *. cbn [seq fmap list_fmap].
  pose proof (bytes_pbytes 4 data Hd (4 * idx)) as Hb4.
  split.
  - rewrite bytes_of_words_cons. change (list_fmap Z) with (@fmap list _ nat Z).
    rewrite IHb. pose proof (le_bytes_val _ Hb4) as Hl. rewrite length_pbytes in Hl. rewrite Hl.
    replace (4 * S n)%nat with (4 + 4 * n)%nat by lia. rewrite (pbytes_app 4).
    by replace (4 * idx + 4)%nat with (4 * S idx)%nat by lia.
  - constructor; [|done]. pose proof (le_val_range _ Hb4) as Hr. by rewrite length_pbytes in Hr.
Qed.

Lemma length_data_words n idx data : length (data_words n idx data) = n.
Proof. unfold data_words. by rewrite length_fmap, length_seq. Qed.

(** ** Logging an entry, from the caller to the file *)

Section logging.
Context `{LogPolicy} {F W : Type} `{!Fat F} `{!FatSpec F} `{!TimeServer W} `{!TimeServerSpec W}.
Context `{!Kernel} `{!KernelSpec}.
Implicit Types s : mmc_s F W.
Implicit Types c : client (mmc_s F W).

(** The card takes what it is given: no write falls short. *)
Definition card_writes : Prop := forall on data size count h f, fat_ok f -> is_open h f ->
  exists f', fl_fwrite on data size count h f = (Done (size * count), f').

(** The log file is open for writing, or disabled. *)
Definition log_ready s : Prop :=
  file_inv (fsys s) /\ (enabled (file (fsys s)) <> 0 -> ref (file (fsys s)) <> None).

(** What the file gains from [bs] being written: nothing while it is disabled. *)
Definition appended (bs : list Z) (f f' : fs F) : Prop :=
  file_inv f' /\ file f' = file f /\
  contents (fat f') = contents (fat f) ++ (if enabled (file f) =? 0 then [] else bs) /\
  (enabled (file f) = 0 -> f' = f).

Lemma wp_on_fs {A} (m : M (fs F) A) Q X s :
  wp m (fun a f => Q a (set_fsys f s)) (fun k f => X k (set_fsys f s)) (fsys s) ->
  wp (on_fs m) Q X s.
Proof. intros Hm. unfold on_fs. by apply wp_zoom. Qed.

Lemma wp_on_mmc_regs f r Q X s : f (m_regs s) = Some r -> Q tt (set_regs r s) -> wp (on_regs f) Q X s.
Proof. intros Hf HQ. unfold on_regs. do 3 wp_step. eapply wp_or_fault; [done|]. by wp_step. Qed.

(** The write of [n] bytes of an object that has them. *)
Lemma write_exact data n (f : fs F) : card_writes -> file_inv f ->
  (enabled (file f) <> 0 -> ref (file f) <> None) ->
  0 < n < 2 ^ 31 -> n <= Z.of_nat (length data) ->
  wp (mmc_file_write data 1 n) (fun r f' => r = MMC_FILE_ERR_OK /\
    appended (take (Z.to_nat n) data) f f') never f.
Proof.
  intros Hcard Hinv Hr Hn Hd. destruct (decide (enabled (file f) = 0)) as [He|He].
  - unfold mmc_file_write. pose proof Hinv as (Hi & _).
    apply if_enabled_run; [done|intros _|by intros|by intros]. split; [done|].
    split_and!; try done. by rewrite He, app_nil_r.
  - pose proof (write_run data 1 n f Hinv ltac:(lia) ltac:(lia) ltac:(lia) ltac:(lia) He (Hr He)) as Hw.
    apply wp_done in Hw as (r & f' & Hrun & Hinv' & Hfile & k & Hcn & Hk & Hcase).
    eapply wp_run; [exact Hrun|].
    destruct Hcase as [[-> ->]|Hcase].
    + split; [done|]. split_and!; try done. rewrite (proj2 (Z.eqb_neq _ _) He).
      by rewrite Z.mul_1_l in Hcn.
    + exfalso. destruct Hcase as (-> & data' & h & ret & Hop & Hne & Hfw).
      destruct (Hcard (media_on f) data' 1 n h (fat f)) as [f2 Hf2]; [apply Hinv|done|].
      rewrite Hf2 in Hfw. by simplify_eq.
Qed.

Lemma write_entry_spec e rest s : card_writes -> log_ready s -> entry_ok e ->
  Z.of_nat (length (entry_data e)) <= MMC_ENTRY_DATA_SIZE_MAX ->
  wp (write_mmc_entry (entry_bytes e ++ rest) 0) (fun _ s' => exists f',
    s' = set_fsys f' s /\ appended (entry_bytes e) (fsys s) f') never s.
Proof.
  intros Hcard [Hinv Hr] (Hty & Htm & Hb & _) Hl. unfold MMC_ENTRY_DATA_SIZE_MAX, MMC_ENTRY_SIZE_MAX,
    MMC_ENTRY_HEADER_SIZE in Hl. unfold write_mmc_entry.
  assert (length (entry_bytes e) = length (entry_data e) + 12)%nat as Hle.
  { unfold entry_bytes. rewrite length_app, length_entry_header. lia. }
  wp_step. eapply wp_or_fault.
  { unfold mmc_entry_total_size, entry_bytes. rewrite <- app_assoc.
    destruct (entry_header_fields (entry_type e) (Z.of_nat (length (entry_data e))) (entry_time e)
      (entry_data e ++ rest)) as (_ & -> & _); [done|lia|done|]. done. }
  cbn beta. unfold MMC_ENTRY_HEADER_SIZE, u16. rewrite Z.mod_small by lia.
  wp_step. apply wp_on_fs.
  wp_use ltac:(apply write_exact; [done|done|done|lia|rewrite length_app; lia]); [|done].
  intros r f' [-> Happ]. wp_step. wp_step; [done|].
  replace (Z.to_nat _) with (length (entry_bytes e)) in Happ by lia.
  rewrite take_app_length in Happ. by exists f'.
Qed.

Definition counted s : mmc_stats_s :=
  if enabled (file (fsys s)) =? 0 then stats s
  else mk_stats (timestamp (stats s)) (u32 (entries_logged (stats s) + 1)).

Definition rx_ok s : Prop := length (g_msg_rx_buffer s) = seL4_MsgMaxLength.

(** The message handler, over the words the message consists of. *)
Lemma entry_log_spec e n pad s : card_writes -> log_ready s -> regs_ok (m_regs s) -> rx_ok s ->
  entry_ok e -> entry_type e <> 0 ->
  Z.of_nat (length (entry_data e)) <= MMC_ENTRY_DATA_SIZE_MAX -> (n <= 120)%nat ->
  Forall word (take n (words (m_regs s))) ->
  bytes_of_words (take n (words (m_regs s))) = entry_bytes e ++ pad ->
  wp (handle_entry_log (Z.of_nat n)) (fun _ s' => appended (entry_bytes e) (fsys s) (fsys s') /\
    stats s' = counted s /\ m_regs s' = m_regs s /\ rx_ok s' /\
    m_services s' = m_services s) never s.
Proof.
  intros Hcard Hready Hregs Hrx Hok Hty Hl Hn Hw Hbs. unfold handle_entry_log.
  pose proof (length_words _ Hregs) as Hlw. unfold seL4_MsgMaxLength, rx_ok in *.
  do 3 wp_step. eapply wp_or_fault.
  { apply mr_recv_run; [done|lia|]. by rewrite Nat2Z.id. }
  cbn beta. rewrite Nat2Z.id. set (ws := take n _) in *.
  assert (length ws = n) as Hlws by (unfold ws; rewrite length_take; lia).
  do 3 wp_step. eapply wp_or_fault.
  { change 0 with (Z.of_nat 0). apply write_at_Some. unfold seL4_MsgMaxLength in Hrx. lia. }
  cbn [take app Nat.add]. do 2 wp_step. cbn beta zeta.
  rewrite take_0. cbn [app]. rewrite bytes_of_words_app, Hbs, <- app_assoc. set (rest := pad ++ _).
  pose proof Hok as (Ht & Htm & Hb & _).
  assert (entry_header_type (entry_bytes e ++ rest) = Some (entry_type e) /\
    entry_header_size (entry_bytes e ++ rest) = Some (Z.of_nat (length (entry_data e)))) as [E1 E2].
  { unfold entry_bytes. rewrite <- app_assoc.
    destruct (entry_header_fields (entry_type e) (Z.of_nat (length (entry_data e))) (entry_time e)
      (entry_data e ++ rest)) as (? & ? & _); [done| |done|done].
    unfold MMC_ENTRY_DATA_SIZE_MAX, MMC_ENTRY_SIZE_MAX, MMC_ENTRY_HEADER_SIZE in Hl. lia. }
  wp_step. eapply wp_or_fault; [exact E1|]. cbn beta. wp_step.
  unfold MMC_ENTRY_TYPE_INVALID. rewrite (proj2 (Z.eqb_neq _ _) Hty). apply wp_logf_if; [done|].
  wp_step. eapply wp_or_fault; [exact E2|]. cbn beta. wp_step.
  rewrite (proj2 (Z.ltb_ge _ _) Hl). apply wp_logf_if; [done|].
  wp_step. wp_use ltac:(by apply write_entry_spec); [|done].
  intros _ s' (f' & -> & Happ). unfold count_if_enabled. do 2 wp_step.
  assert (file f' = file (fsys s)) as Ef by apply Happ. cbn [fsys set_fsys].
  rewrite Ef. unfold counted. assert (length (ws ++ drop (length ws) (g_msg_rx_buffer s)) = 120)%nat.
  { rewrite length_app, length_drop. unfold seL4_MsgMaxLength in Hrx. lia. }
  destruct (enabled (file (fsys s)) =? 0); wp_step; try done; intros _.
Qed.

(** *** The caller, in front of the module *)

Definition peer_time : M (mmc_s F W) Z := svc time_server_get_time.
Definition peer_set_msg (i w : Z) : M (mmc_s F W) unit := on_regs (set_area i w).
Definition peer_send (nonblocking : Z) (m : ipc_msg) : M (mmc_s F W) unit := handle_msg m.

(** The caller's registers and the module's area as one sequence. *)
Definition view c : list Z := mr (c_regs c) ++ drop 4 (ipc_area (m_regs (c_peer c))).

Definition rpc_ok c : Prop := regs_ok (c_regs c) /\ regs_ok (m_regs (c_peer c)).

(** Writing word [i] of the message, wherever it lives; of the module's state
    only the area changes. *)
Definition wrote (c c' : client (mmc_s F W)) : Prop :=
  rpc_ok c' /\ exists r, regs_ok r /\ c_peer c' = set_regs r (c_peer c).

Lemma wrote_refl c : rpc_ok c -> wrote c c.
Proof. intros [? Hr]. split; [done|]. exists (m_regs (c_peer c)). split; [done|]. by destruct (c_peer c). Qed.
Lemma wrote_trans c1 c2 c3 : wrote c1 c2 -> wrote c2 c3 -> wrote c1 c3.
Proof.
  intros (_ & r1 & _ & E1) (? & r2 & ? & E2). split; [done|]. exists r2. by rewrite E2, E1.
Qed.

Lemma length_view c : rpc_ok c -> length (view c) = 120%nat.
Proof. intros [[Hm _] [_ Ha]]. unfold view. rewrite length_app, length_drop, Hm, Ha. done. Qed.

Lemma set_mr_wrote (i : nat) v c : rpc_ok c -> (i < 4)%nat -> 0 <= v < 2 ^ 32 ->
  wp (client_SetMR (Z.of_nat i) v) (fun _ c' => wrote c c' /\ view c' = <[i := v]> (view c)) never c.
Proof.
  intros [Hr Hp] Hi Hv. pose proof Hr as [Hm Ha]. unfold client_SetMR, seL4_SetMR.
  do 2 wp_step. rewrite store_nat by lia. wp_step. eapply wp_or_fault; [done|]. wp_step.
  assert (regs_ok (Regs (<[i := u32 v]> (mr (c_regs c))) (ipc_area (c_regs c)))) as Hr'.
  { split; cbn; rewrite ?length_insert; done. }
  split.
  - split; [done|]. exists (m_regs (c_peer c)). split; [done|]. by destruct (c_peer c).
  - unfold view. cbn. unfold u32. rewrite Z.mod_small by done. by rewrite insert_app_l by lia.
Qed.

Lemma set_msg_wrote (i : nat) v c : rpc_ok c -> (4 <= i < 120)%nat -> 0 <= v < 2 ^ 32 ->
  wp (on_peer (peer_set_msg (Z.of_nat i) v)) (fun _ c' => wrote c c' /\
    view c' = <[i := v]> (view c)) never c.
Proof.
  intros [Hr Hp] Hi Hv. pose proof Hr as [Hm Ha]. pose proof Hp as [Hm2 Ha2].
  unfold seL4_MsgMaxLength in Ha2. unfold on_peer, peer_set_msg. apply wp_zoom.
  eapply wp_on_mmc_regs.
  { unfold set_area. rewrite store_nat by lia. done. }
  assert (regs_ok (Regs (mr (m_regs (c_peer c))) (<[i := u32 v]> (ipc_area (m_regs (c_peer c)))))) as Hr'.
  { split; cbn; rewrite ?length_insert; done. }
  split.
  - split; [by split|]. by eexists.
  - unfold view. cbn. unfold u32. rewrite Z.mod_small by done.
    rewrite insert_app_r_alt, Hm by lia. f_equal. by rewrite drop_insert_ge by lia.
Qed.

Lemma view_step (c : list Z) i k w ws : (i < length c)%nat ->
  take (S i) (<[i := w]> c) ++ ws ++ drop (S i + k) (<[i := w]> c) =
  take i c ++ (w :: ws) ++ drop (i + S k) c.
Proof.
  intros Hi. rewrite take_S_insert, drop_insert_lt by lia. rewrite <- app_assoc. cbn.
  by replace (S (i + k)) with (i + S k)%nat by lia.
Qed.

Lemma data_word_word data idx : bytes data ->
  0 <= le_val (pbytes 4 (4 * idx) data) < 2 ^ 32.
Proof.
  intros Hd. pose proof (le_val_range _ (bytes_pbytes 4 data Hd (4 * idx))) as Hr.
  by rewrite length_pbytes in Hr.
Qed.

(** Data behind [data_size] is not read. *)
Lemma data_word_take n idx data size : 0 <= size < 65536 -> size <= Z.of_nat (length data) ->
  forall shift word, 0 <= shift ->
  data_word n idx shift size data word = data_word n idx shift size (take (Z.to_nat size) data) word.
Proof.
  intros Hs Hl. induction n as [|n IH]; intros shift word Hsh; [done|]. cbn [data_word].
  assert (u32 size = size) as -> by (unfold u32; rewrite Z.mod_small by lia; done).
  set (j := u32 (u32 (idx * 4) + shift)). assert (0 <= j) by by apply Z.mod_pos_bound.
  destruct (Z.ltb_spec j size); [|by apply IH; lia].
  unfold load. rewrite !decide_True, lookup_take_lt by (done || lia).
  destruct (data !! Z.to_nat j); cbn [mbind option_bind]; [by apply IH; lia|done].
Qed.

Lemma send_data_run n size data : bytes (take (Z.to_nat size) data) -> 0 <= size < 65536 ->
  size <= Z.of_nat (length data) -> forall (idx : nat) c, rpc_ok c -> (idx + n <= 117)%nat ->
  wp (send_data peer_set_msg n (Z.of_nat idx) size data) (fun _ c' => wrote c c' /\
    view c' = take (3 + idx) (view c) ++ data_words n idx (take (Z.to_nat size) data) ++
              drop (3 + idx + n) (view c)) never c.
Proof.
  intros Hd Hs Hl. induction n as [|n IH]; intros idx c Hc Hn; cbn [send_data].
  { wp_step. split; [by apply wrote_refl|]. rewrite Nat.add_0_r. cbn [data_words seq fmap list_fmap app].
    by rewrite take_drop. }
  set (d := take (Z.to_nat size) data) in *.
  assert (length d = Z.to_nat size) as Hld by (unfold d; rewrite length_take; lia).
  wp_step. eapply wp_or_fault.
  { rewrite data_word_take by done. fold d.
    rewrite data_word_run by (done || lia). rewrite Z.mul_1_l, Z.add_0_l.
    replace (Z.to_nat (Z.of_nat idx * 4 + 0)) with (4 * idx)%nat by lia. done. }
  cbn beta. set (w := le_val (pbytes 4 (4 * idx) d)).
  pose proof (data_word_word d idx Hd) as Hw. fold w in Hw. pose proof (length_view c Hc) as Hlv.
  assert (wp (if Z.of_nat idx =? 0 then client_SetMR (3 + Z.of_nat idx) w
     else on_peer (peer_set_msg (3 + Z.of_nat idx) w))
     (fun _ c' => wrote c c' /\ view c' = <[(3 + idx)%nat := w]> (view c)) never c) as Hset.
  { replace (3 + Z.of_nat idx) with (Z.of_nat (3 + idx)) by lia.
    destruct (Z.eqb_spec (Z.of_nat idx) 0).
    - apply set_mr_wrote; (done || lia).
    - apply set_msg_wrote; (done || lia). }
  wp_step. wp_use ltac:(exact Hset); [|done]. intros _ c1 [Hw1 Hv1].
  replace (Z.of_nat idx + 1) with (Z.of_nat (S idx)) by lia.
  wp_use ltac:(apply IH; [apply Hw1|lia]); [|done]. intros _ c2 [Hw2 Hv2].
  split; [by eapply wrote_trans|]. rewrite Hv2, Hv1.
  unfold data_words. cbn [seq fmap list_fmap]. fold w.
  pose proof (view_step (view c) (3 + idx) n w (data_words n (S idx) d) ltac:(lia)) as Hstep.
  replace (3 + S idx)%nat with (S (3 + idx)) by lia. exact Hstep.
Qed.

Definition client_ready c : Prop :=
  rpc_ok c /\ log_ready (c_peer c) /\ rx_ok (c_peer c) /\ time_ok (m_services (c_peer c)).

Lemma wrote_ready c c' : client_ready c -> wrote c c' -> client_ready c'.
Proof. intros (_ & Hl & Hx & Ht) [Hc (r & Hr & E)]. unfold client_ready. by rewrite E. Qed.
Lemma wrote_peer c c' : wrote c c' ->
  fsys (c_peer c') = fsys (c_peer c) /\ stats (c_peer c') = stats (c_peer c) /\
  m_services (c_peer c') = m_services (c_peer c).
Proof. intros [_ (r & _ & E)]. by rewrite E. Qed.

(** The message as the module receives it. *)
Lemma received_view c n : rpc_ok c ->
  take n (words (receive_regs (take n (mr (c_regs c))) (m_regs (c_peer c)))) = take n (view c).
Proof. intros [[Hm _] Hp]. by apply receive_take. Qed.

(** The three header registers. *)
Lemma header_run ty size t c (Q : unit -> client (mmc_s F W) -> Prop) X (k : M _ unit) :
  rpc_ok c -> 0 <= ty < 65536 -> 0 <= size < 65536 -> 0 <= t < 2 ^ 64 ->
  (forall c', wrote c c' -> view c' = header_words ty size t ++ drop 3 (view c) -> wp k Q X c') ->
  wp (client_SetMR 0 (u32 (Z.lor ty (Z.shiftl size 16)));;
      client_SetMR 1 (Z.land t 0xFFFFFFFF);;
      client_SetMR 2 (Z.land (Z.shiftr t 32) 0xFFFFFFFF);; k) Q X c.
Proof.
  intros Hc Hty Hs Ht Hk.
  destruct (header_words_bytes ty size t Hty Hs Ht) as [_ Hw]. unfold header_words in *.
  pose proof (Forall_inv Hw) as W0. apply Forall_inv_tail in Hw.
  pose proof (Forall_inv Hw) as W1. apply Forall_inv_tail in Hw. pose proof (Forall_inv Hw) as W2.
  pose proof (length_view c Hc) as Hl.
  wp_step. change 0 with (Z.of_nat 0) at 1. wp_use ltac:(apply set_mr_wrote; [done|lia|exact W0]); [|done].
  intros _ c1 [Hw1 Hv1].
  wp_step. change 1 with (Z.of_nat 1) at 1.
  wp_use ltac:(apply set_mr_wrote; [apply Hw1|lia|exact W1]); [|done]. intros _ c2 [Hw2 Hv2].
  wp_step. change 2 with (Z.of_nat 2) at 1.
  wp_use ltac:(apply set_mr_wrote; [apply Hw2|lia|exact W2]); [|done]. intros _ c3 [Hw3 Hv3].
  apply Hk.
  - eapply wrote_trans; [exact Hw1|]. by eapply wrote_trans.
  - rewrite Hv3, Hv2, Hv1. destruct (view c) as [|v0 [|v1 [|v2 v]]]; cbn in Hl; try lia. done.
Qed.

(** Only a call without a time stamp asks the time server. *)
Definition clock_after (ts : option Z) (w : W) : W :=
  match ts with Some _ => w | None => (time_server_get_time w).2 end.

(** The time stamp of an entry: the given one, or the time of the call. *)
Definition stamp (ts : option Z) (w : W) : Z :=
  match ts with
  | Some t => t
  | None => match (time_server_get_time w).1 with Done t => t | Stop _ => 0 end
  end.

Lemma log_entry_run ty size ts data nonblocking c : card_writes -> client_ready c ->
  0 < ty < 65536 -> 0 <= size <= 456 -> size <= Z.of_nat (length data) ->
  bytes (take (Z.to_nat size) data) -> (forall t, ts = Some t -> 0 <= t < 2 ^ 64) ->
  wp (mmc_log_entry_data peer_time peer_set_msg peer_send ty size ts data nonblocking)
    (fun _ c' => client_ready c' /\ exists t, 0 <= t < 2 ^ 64 /\ (forall t', ts = Some t' -> t = t') /\
       appended (entry_bytes (Entry ty t (take (Z.to_nat size) data)))
         (fsys (c_peer c)) (fsys (c_peer c')) /\
       stats (c_peer c') = counted (c_peer c) /\
       m_services (c_peer c') = clock_after ts (m_services (c_peer c)) /\
       t = stamp ts (m_services (c_peer c))) never c.
Proof.
  intros Hcard Hready Hty Hs Hl Hd Hts. unfold mmc_log_entry_data.
  assert (wp (match ts with Some t => mret t | None => on_peer peer_time end) (fun t c1 =>
    0 <= t < 2 ^ 64 /\ (forall t', ts = Some t' -> t = t') /\ client_ready c1 /\
    fsys (c_peer c1) = fsys (c_peer c) /\ stats (c_peer c1) = stats (c_peer c) /\
    m_services (c_peer c1) = clock_after ts (m_services (c_peer c)) /\
    t = stamp ts (m_services (c_peer c))) never c) as Htime.
  { destruct ts as [t|].
    - wp_step. split; [by apply Hts|]. split; [by intros ? [= ->]|done].
    - destruct Hready as ([Hc Hp] & Hlr & Hx & Ht). unfold on_peer, peer_time, svc. do 2 apply wp_zoom.
      wp_use ltac:(by apply wp_exact, ts_get_time_spec); [|done]. intros t w [[Hok [Htr _]] Hrun].
      unfold stamp, clock_after. cbn [m_services c_peer] in Hrun |- *. by rewrite Hrun. }
  wp_step. wp_use ltac:(exact Htime); [|done]. intros t c1 (Htr & Hteq & Hready1 & Ef & Es & Ew & Est).
  assert (u32 (size + MMC_ENTRY_HEADER_SIZE) = size + 12) as ->.
  { unfold u32, MMC_ENTRY_HEADER_SIZE. rewrite Z.mod_small; lia. }
  rewrite align_up_4 by lia. set (n := Z.to_nat ((size + 3) / 4)).
  assert ((size + 12 + 3) / 4 * 4 / 4 = Z.of_nat (3 + n)) as ->.
  { rewrite Z.div_mul by lia. unfold n. rewrite Nat2Z.inj_add, Z2Nat.id by (apply Z.div_pos; lia).
    replace (size + 12 + 3) with (size + 3 + 3 * 4) by lia. rewrite Z.div_add by lia. lia. }
  assert ((n <= 114)%nat /\ (Z.to_nat size <= 4 * n)%nat) as [Hn Hn4].
  { unfold n. pose proof (Z.div_mod (size + 3) 4 ltac:(lia)).
    pose proof (Z.mod_pos_bound (size + 3) 4 ltac:(lia)). lia. }
  wp_step. wp_step; [rewrite Z.mod_mul by lia; done|].
  wp_step. wp_step.
  { unfold MMC_ENTRY_DATA_SIZE_MAX, MMC_ENTRY_SIZE_MAX, MMC_ENTRY_HEADER_SIZE.
    pose proof (Z.mul_div_le (size + 12 + 3) 4 ltac:(lia)). lia. }
  replace (Z.to_nat (Z.of_nat (3 + n) - 3)) with n by lia. rewrite Nat2Z.id.
  apply header_run; [apply Hready1|lia|lia|done|]. intros c2 Hw2 Hv2.
  pose proof (wrote_ready _ _ Hready1 Hw2) as Hready2. pose proof (wrote_peer _ _ Hw2) as (Ef2 & Es2 & Ew2).
  wp_step. change 0 with (Z.of_nat 0) at 1.
  wp_use ltac:(apply send_data_run; [done|lia|done|apply Hw2|lia]); [|done].
  intros _ c3 [Hw3 Hv3]. pose proof (wrote_ready _ _ Hready2 Hw3) as Hready3.
  pose proof (wrote_peer _ _ Hw3) as (Ef3 & Es3 & Ew3).
  set (d := take (Z.to_nat size) data) in *. set (e := Entry ty t d).
  assert (length d = Z.to_nat size) as Hld by (unfold d; rewrite length_take; lia).
  assert (take (3 + n) (view c3) = header_words ty size t ++ data_words n 0 d) as Hview.
  { rewrite Hv3, Hv2, Nat.add_0_r. change (header_words ty size t ++ ?l) with
      ([u32 (Z.lor ty (Z.shiftl size 16)); Z.land t 0xFFFFFFFF;
        Z.land (Z.shiftr t 32) 0xFFFFFFFF] ++ l).
    cbn [app take]. rewrite take_0. cbn [app Nat.add take]. do 3 f_equal.
    apply take_app_length'. by rewrite length_data_words. }
  do 2 wp_step. unfold on_peer. apply wp_zoom. unfold peer_send, handle_msg. do 2 wp_step.
  cbn [msg_words msg_badge msg_label Ipc.msg_length].
  wp_step. wp_step; [done|].
  destruct Hready3 as (Hrpc3 & Hlr3 & Hx3 & Ht3). pose proof Hrpc3 as [Hc3 Hp3].
  destruct (header_words_bytes ty size t) as [Hhb Hhw]; [lia|lia|done|].
  destruct (data_words_bytes n d Hd 0) as [Hdb Hdw].
  pose proof (received_view c3 (3 + n) Hrpc3) as Hrecv. rewrite Hview in Hrecv.
  change (dispatch _ _) with (handle_entry_log (F := F) (W := W) (Z.of_nat (3 + n))).
  wp_use ltac:(apply (entry_log_spec e (3 + n) (replicate (4 * n - length d) 0)));
    try done; try lia.
  - by apply receive_ok.
  - unfold entry_ok. cbn. split; [lia|]. split; [done|]. split; [done|lia].
  - cbn. lia.
  - cbn [entry_data e]. rewrite Hld.
    unfold MMC_ENTRY_DATA_SIZE_MAX, MMC_ENTRY_SIZE_MAX, MMC_ENTRY_HEADER_SIZE. lia.
  - cbn [m_regs set_regs]. rewrite Hrecv. by apply Forall_app.
  - cbn [m_regs set_regs]. rewrite Hrecv, bytes_of_words_app, Hhb, Hdb.
    rewrite pbytes_pad. change (4 * 0)%nat with 0%nat. rewrite drop_0, Nat.sub_0_r, take_ge by lia.
    unfold entry_bytes. cbn [entry_type entry_data entry_time e]. rewrite Hld, Z2Nat.id by lia.
    by rewrite <- app_assoc.
  - intros _ s' (Happ & Hst & Hregs & Hx & Hsv). cbn [fsys set_regs] in Happ.
    rewrite Ef3, Ef2, Ef in Happ. split.
    + unfold client_ready, rpc_ok, log_ready. cbn [c_regs c_peer].
      rewrite Hregs, Hsv. destruct Happ as (Hinv' & Hfile' & _). rewrite Hfile'.
      destruct Hready as (_ & [_ Hr] & _).
      split; [split; [done|by apply receive_ok]|]. by split; [split|split].
    + exists t. split; [done|]. split; [done|]. split; [exact Happ|]. cbn. rewrite Hst. unfold counted. cbn [fsys stats set_regs].
      rewrite Ef3, Ef2, Ef, Es3, Es2, Es. split; [done|].
      cbn in Hsv. by rewrite Hsv, Ew3, Ew2, Ew.
Qed.

End logging.

(** ** Memory safety of the thread *)

Section safety.
Context `{LogPolicy} {F W : Type} `{!Fat F} `{!FatSpec F} `{!TimeServer W} `{!TimeServerSpec W}.
Context `{!Kernel} `{!KernelSpec}.
Hypothesis aborts : logf_aborts = true.
Implicit Types s : mmc_s F W.

Definition no_fault {S} : stop -> S -> Prop := fun k _ => k <> Fault.

Definition event_ok (e : mmc_event) : Prop :=
  match e with
  | EvMsg m => (length (msg_words m) <= 4)%nat /\ Forall word (msg_words m) /\
      0 <= Ipc.msg_length m <= 120
  | EvHardFlush => True
  | EvArea i w => 4 <= i < 120
  end.

Definition mmc_ok s : Prop :=
  file_wf (fsys s) /\ regs_ok (m_regs s) /\ Forall word (words (m_regs s)) /\
  rx_ok s /\ Forall word (g_msg_rx_buffer s) /\ time_ok (m_services s) /\
  Forall event_ok (events s).

Lemma op_safe o (f : fs F) : file_wf f ->
  (forall data size count, o = Write data size count ->
     0 < size /\ 0 < count /\ size * count <= Z.of_nat (length data)) ->
  wp (run_op o) (fun _ f' => file_wf f') no_fault f.
Proof. intros Hf Ho. wp_use ltac:(by apply op_wf); done. Qed.

(** An operation of the file, run by the module. *)
Lemma on_fs_safe o s (Q : Z -> mmc_s F W -> Prop) : mmc_ok s ->
  (forall data size count, o = Write data size count ->
     0 < size /\ 0 < count /\ size * count <= Z.of_nat (length data)) ->
  (forall r f, mmc_ok (set_fsys f s) -> Q r (set_fsys f s)) ->
  wp (on_fs (run_op o)) Q no_fault s.
Proof.
  intros (Hf & Hrest) Ho HQ. apply wp_on_fs. wp_use ltac:(by apply op_safe); [|done].
  intros r f Hf'. apply HQ. by split.
Qed.

Lemma write_entry_safe entry hard s : mmc_ok s -> (12 <= length entry)%nat ->
  (forall size, entry_header_size entry = Some size ->
     0 <= size /\ size + 12 <= Z.of_nat (length entry) /\ size + 12 < 65536) ->
  wp (write_mmc_entry entry hard) (fun _ s' => mmc_ok s') no_fault s.
Proof.
  intros Hs Hl Hsize. unfold write_mmc_entry, mmc_entry_total_size.
  destruct (entry_header_size entry) as [size|] eqn:E.
  2: { exfalso. unfold entry_header_size, read_at in E. rewrite decide_True in E by lia. done. }
  destruct (Hsize size eq_refl) as (H0' & H1' & H2').
  wp_step. eapply wp_or_fault; [done|]. cbn beta. unfold MMC_ENTRY_HEADER_SIZE, u16.
  rewrite Z.mod_small by lia. wp_step.
  apply (on_fs_safe (Write entry 1 (size + 12))); [done|intros ??? [= <- <- <-]; lia|].
  intros r f Hs'. wp_step. apply wp_logf_abort; [done|done|]. intros _.
  wp_step; [intros _|done]. wp_step. apply (on_fs_safe (Flush 1)); [done|done|].
  intros r' f' Hs2. by wp_step.
Qed.

Lemma count_safe s : mmc_ok s -> wp count_if_enabled (fun _ s' => mmc_ok s') no_fault s.
Proof.
  intros Hs. unfold count_if_enabled. do 2 wp_step. unfold count_entry.
  wp_step; intros _; [by wp_step|done].
Qed.

Lemma entry_log_safe n s : mmc_ok s -> 0 <= n <= 120 ->
  wp (handle_entry_log n) (fun _ s' => mmc_ok s') no_fault s.
Proof.
  intros Hs Hn. pose proof Hs as (Hf & Hr & Hw & Hx & Hxw & Ht & Hev).
  pose proof (length_words _ Hr) as Hlw. unfold rx_ok, seL4_MsgMaxLength in *.
  unfold handle_entry_log. do 3 wp_step. eapply wp_or_fault.
  { apply mr_recv_run; [done|done|]. by apply Forall_take. }
  cbn beta. set (ws := take _ _).
  assert (length ws <= 120)%nat by (unfold ws; rewrite length_take; lia).
  do 3 wp_step. eapply wp_or_fault.
  { change 0 with (Z.of_nat 0). apply write_at_Some. lia. }
  cbn [Nat.add]. rewrite take_0. do 2 wp_step. cbn beta zeta. cbn [app].
  set (buf := ws ++ _). assert (length buf = 120)%nat as Hlb.
  { unfold buf. rewrite length_app, length_drop. lia. }
  assert (Forall word buf) as Hbw.
  { apply Forall_app. split; [by apply Forall_take|by apply Forall_drop]. }
  assert (mmc_ok (set_rx_buffer buf s)) as Hs' by done.
  pose proof (length_bytes_of_words buf) as Hbl. rewrite Hlb in Hbl.
  destruct (entry_header_type (bytes_of_words buf)) as [ty|] eqn:Ety.
  2: { exfalso. unfold entry_header_type, read_at in Ety. rewrite decide_True in Ety by lia. done. }
  destruct (entry_header_size (bytes_of_words buf)) as [size|] eqn:Esz.
  2: { exfalso. unfold entry_header_size, read_at in Esz. rewrite decide_True in Esz by lia. done. }
  wp_step. eapply wp_or_fault; [done|]. cbn beta. wp_step. apply wp_logf_abort; [done|done|intros _].
  wp_step. eapply wp_or_fault; [done|]. cbn beta. wp_step. apply wp_logf_abort; [done|done|].
  intros Hsz%Z.ltb_ge. unfold MMC_ENTRY_DATA_SIZE_MAX, MMC_ENTRY_SIZE_MAX, MMC_ENTRY_HEADER_SIZE in Hsz.
  wp_step. wp_use ltac:(apply write_entry_safe; [exact Hs'|lia|]); [| |done].
  - intros size'. rewrite Esz. intros [= <-]. rewrite Hbl. split; [|lia].
    unfold entry_header_size, read_at in Esz. rewrite decide_True in Esz by lia.
    cbn [fmap option_fmap option_map] in Esz. injection Esz as <-. apply le_val_range.
    apply bytes_take, bytes_drop, bytes_bytes_of_words.
  - intros _ s2 Hs2. by apply count_safe.
Qed.

Lemma set_mr_safe (i : nat) v s (Q : unit -> mmc_s F W -> Prop) : mmc_ok s -> (i < 4)%nat ->
  (forall r, mmc_ok (set_regs r s) -> Q tt (set_regs r s)) ->
  wp (on_regs (seL4_SetMR (Z.of_nat i) v)) Q no_fault s.
Proof.
  intros (Hf & Hr & Hw & Hrest) Hi HQ.
  destruct (set_mr_run (m_regs s) i v Hr Hi) as (r & Hset & Hr' & Hw').
  eapply wp_on_mmc_regs; [exact Hset|]. apply HQ. split; [done|]. split; [done|]. split; [|done].
  cbn [m_regs set_regs]. rewrite Hw'. apply Forall_insert; [done|]. by apply Z.mod_pos_bound.
Qed.

Lemma sample_time_safe s (Q : unit -> mmc_s F W -> Prop) : mmc_ok s ->
  (forall s', mmc_ok s' -> Q tt s') -> wp sample_time Q no_fault s.
Proof.
  intros (Hf & Hr & Hw & Hx & Hxw & Ht & Hev) HQ. unfold sample_time, svc. wp_step.
  apply wp_zoom. wp_use ltac:(by apply ts_get_time_spec); [|done]. intros t w [Hw' _].
  wp_step. by apply HQ.
Qed.

Lemma stats_req_safe s : mmc_ok s -> wp handle_stats_req (fun _ s' => mmc_ok s') no_fault s.
Proof.
  intros Hs. unfold handle_stats_req. wp_step. apply sample_time_safe; [done|].
  intros s1 (Hf & Hr & Hw & Hrest). do 3 wp_step. set (st := stats s1).
  assert (length (stats_bytes st) = 12%nat) as Hl.
  { unfold stats_bytes. by autorewrite with len. }
  assert (bytes (stats_bytes st)) as Hb.
  { unfold stats_bytes. apply bytes_app. split; apply bytes_le_bytes. }
  pose proof (length_words_of_bytes 3 _ Hl) as Hlw. pose proof (words_of_bytes_word _ Hb) as Hww.
  change (SIZEOF_STATS / 4) with 3.
  destruct (mr_send_run 3 (words_of_bytes (stats_bytes st)) (m_regs s1))
    as (r & Hsend & Hr1 & Hw1); [done|lia|lia|done|].
  eapply wp_on_mmc_regs; [exact Hsend|]. unfold seL4_Reply. wp_step.
  split; [done|]. split; [done|]. split; [|done]. cbn [m_regs set_regs set_replies].
  rewrite Hw1. apply Forall_app. split; [by apply Forall_take|by apply Forall_drop].
Qed.

Lemma reply_safe label len s : mmc_ok s -> wp (seL4_Reply label len) (fun _ s' => mmc_ok s') no_fault s.
Proof. intros Hs. unfold seL4_Reply. by wp_step. Qed.

Lemma dispatch_safe label len s : mmc_ok s -> 0 <= len <= 120 ->
  wp (dispatch label len) (fun _ s' => mmc_ok s') no_fault s.
Proof.
  intros Hs Hlen. unfold dispatch. repeat case_match.
  - by apply stats_req_safe.
  - by apply entry_log_safe.
  - unfold handle_file_size_req. wp_step. 
    assert (wp (on_fs mmc_file_size) (fun _ s' => mmc_ok s') no_fault s) as Hsize.
    { apply wp_on_fs. pose proof (op_safe Size (fsys s) ltac:(apply Hs) ltac:(done)) as Hop.
      unfold wp, run_op, mbind, M_bind in *.
      destruct (mmc_file_size (fsys s)) as [[[ret size]|k] f]; [|done].
      split; [exact Hop|apply Hs]. }
    wp_use ltac:(exact Hsize); [|done]. intros [st size] s1 Hs1. wp_step.
    apply (set_mr_safe 0); [done|lia|]. intros r1 Hs2. wp_step.
    apply (set_mr_safe 1); [done|lia|]. intros r2 Hs3. by apply reply_safe.
  - unfold handle_rm_file_req, clear_entries. wp_step. wp_step. wp_step.
    apply (on_fs_safe Rm); [done|done|]. intros st f Hs1. wp_step.
    apply (set_mr_safe 0); [done|lia|]. intros r1 Hs2. by apply reply_safe.
  - unfold handle_state_req. do 2 wp_step. wp_step.
    apply (set_mr_safe 0); [done|lia|]. intros r1 Hs2. by apply reply_safe.
  - unfold handle_state_set_req, get_mr0. pose proof Hs as (_ & Hr & _).
    wp_step. do 2 wp_step. rewrite (get_mr_words _ 0) by (done || lia).
    pose proof (length_words _ Hr) as Hlw. destruct (words (m_regs s)) as [|v ws]; [done|].
    eapply wp_or_fault; [done|]. cbn beta. wp_step.
    apply (on_fs_safe (SetEnabled v)); [done|done|]. intros err f Hs1.
    wp_step. assert (forall s2, mmc_ok s2 -> wp (f0 ← gets (fun s => file (fsys s));
      on_regs (seL4_SetMR 0 (mmc_file_get_enabled f0));; seL4_Reply IPC_MSG_TYPE_STATE_RESP 1)
      (fun _ s' => mmc_ok s') no_fault s2) as Hend.
    { intros s2 Hs2. do 3 wp_step. apply (set_mr_safe 0); [done|lia|]. intros r Hs3.
      by apply reply_safe. }
    wp_step; intros _; [|by apply Hend]. wp_step.
    apply (on_fs_safe (SetEnabled 0)); [done|done|]. intros err' f' Hs2. wp_step. by apply Hend.
  - unfold ZF_LOGF. rewrite aborts. by apply wp_stop.
Qed.

Lemma step_safe s : mmc_ok s -> wp step (fun _ s' => mmc_ok s') no_fault s.
Proof.
  intros Hs. pose proof Hs as (Hf & Hr & Hw & Hx & Hxw & Ht & Hev). unfold step. do 2 wp_step.
  destruct (events s) as [|[m| |i w] evs] eqn:E; [by apply wp_stop|..];
    pose proof (Forall_inv Hev) as He; apply Forall_inv_tail in Hev; do 2 wp_step;
    assert (mmc_ok (set_events evs s)) as Hs1 by done.
  - destruct He as (Hl & Hmw & Hlen). unfold handle_msg. do 2 wp_step. wp_step.
    apply wp_logf_abort; [done|done|intros _]. apply dispatch_safe; [|done].
    split; [done|]. split; [by apply receive_ok|]. split; [|done].
    cbn [m_regs set_regs set_events]. unfold words in *. apply Forall_app in Hw as [Hw1 Hw2].
    apply Forall_app. split; [by apply deliver_word|done].
  - unfold hard_flush_timeout_cb. wp_step. wp_step.
    apply (on_fs_safe (Flush 1)); [done|done|]. intros st f Hs2. by do 2 wp_step.
  - destruct Hr as [Hm Ha]. unfold seL4_MsgMaxLength in Ha. cbn in He.
    eapply wp_on_mmc_regs.
    { unfold set_area, store. cbn. by rewrite decide_True by lia. }
    split; [done|]. split; [split; cbn; [done|by rewrite length_insert]|]. split; [|done].
    cbn [m_regs set_regs set_events]. unfold words in *. cbn.
    apply Forall_app in Hw as [Hw1 Hw2]. apply Forall_app. split; [done|].
    rewrite drop_insert_ge by lia. apply Forall_insert; [done|]. by apply Z.mod_pos_bound.
Qed.

Lemma mmc_loop_safe n : forall s, mmc_ok s -> wp (thread_loop n) (fun _ s' => mmc_ok s') no_fault s.
Proof.
  induction n as [|n IH]; intros s Hs; cbn [thread_loop]; [by wp_step|].
  wp_step. wp_use ltac:(by apply step_safe); [|done]. intros _ s1 Hs1. by apply IH.
Qed.

(** The start of the thread, over a file system in any state. *)
Lemma mmc_thread_init_safe ns s : regs_ok (m_regs s) -> Forall word (words (m_regs s)) -> rx_ok s ->
  Forall word (g_msg_rx_buffer s) -> time_ok (m_services s) -> ids_left (m_services s) ->
  Forall event_ok (events s) ->
  wp (thread_init ns) (fun _ s' => mmc_ok s') no_fault s.
Proof.
  intros Hr Hw Hx Hxw Ht Hids Hev. unfold thread_init. wp_step. apply wp_on_fs.
  unfold mmc_file_init. wp_step. wp_step. apply wp_on_fs, wp_on_fat.
  wp_use ltac:(apply fl_init_spec); [|done]. intros _ f0 (Hok0 & Hno0 & _).
  wp_step. apply wp_on_fs, wp_on_fat.
  wp_use ltac:(by apply fl_attach_locks_spec); [|done]. intros _ f1 (Hok1 & Hop1 & _).
  assert (forall h, ~ is_open h f1) as Hno1 by (intros h Ho%Hop1; by eapply Hno0).
  wp_step. apply wp_on_fs. do 2 wp_step. apply wp_on_fat.
  wp_use ltac:(by apply fl_attach_media_spec); [|done]. intros err f2 (Hok2 & _).
  wp_step. apply wp_logf_abort; [done|done|intros _].
  set (s2 := set_fsys _ _). assert (mmc_ok s2) as Hs2 by (split; [by split_and!|done]).
  wp_step. apply (on_fs_safe Open); [done|done|]. intros r f3 Hs3.
  wp_step. apply wp_logf_abort; [done|done|intros _]. wp_step. unfold svc at 1. apply wp_zoom.
  destruct Hs3 as (Hf3 & Hr3 & Hw3 & Hx3 & Hxw3 & Ht3 & Hev3).
  wp_use ltac:(by apply ts_alloc_id_spec); [|done]. intros id w1 (Hw1 & _ & Hids1). do 2 wp_step.
  wp_step. unfold svc at 1. apply wp_zoom.
  wp_use ltac:(apply ts_register_periodic_cb_spec; [done|cbn; rewrite Hids1; by left]); [|done].
  intros _ w2 [Hw2 _].
  wp_step. apply sample_time_safe; [done|]. intros s4 Hs4. do 3 wp_step.
  wp_use ltac:(apply write_entry_safe; [exact Hs4| |]); [| | |done].
  - by rewrite length_entry_header.
  - intros size Hsz. pose proof (entry_header_fields MMC_ENTRY_TYPE_BEGIN_FLAG 0
      (timestamp (stats s4)) []) as Hh.
    rewrite length_entry_header. rewrite app_nil_r in Hh.
    assert (entry_header_size (entry_header MMC_ENTRY_TYPE_BEGIN_FLAG 0 (timestamp (stats s4))) = Some 0)
      as E by done.
    rewrite E in Hsz. injection Hsz as <-. lia.
  - intros _ s5 Hs5. by apply count_safe.
Qed.

End safety.

(** ** Callers that overlap

    What a call of [mmc_log_entry_data] does to the module, as events: the
    words it writes to the message area, then its message. *)
Section callers.
Context `{LogPolicy} `{!Kernel}.

Definition note (e : mmc_event) : M (list mmc_event) unit := modify (fun l => l ++ [e]).
Definition caller_events (r : regs) (type data_size t : Z) (data : list Z) : list mmc_event :=
  c_peer (mmc_log_entry_data (mret 0) (fun i w => note (EvArea i w)) (fun _ m => note (EvMsg m))
    type data_size (Some t) data 0 (mk_client r [])).2.

(** The events of two callers, in some order. *)
Inductive interleaving : list mmc_event -> list mmc_event -> list mmc_event -> Prop :=
| inter_nil : interleaving [] [] []
| inter_left e l1 l2 l : interleaving l1 l2 l -> interleaving (e :: l1) l2 (e :: l)
| inter_right e l1 l2 l : interleaving l1 l2 l -> interleaving l1 (e :: l2) (e :: l).
End callers.

(** ** Properties *)

Section properties.
Context `{LogPolicy} {F W : Type} `{!Fat F} `{!FatSpec F} `{!TimeServer W} `{!TimeServerSpec W}.
Context `{!Kernel} `{!KernelSpec}.

(** C8: an entry that is logged reaches the file unchanged.  For up to 456 bytes
    of data, in front of a module whose log file is ready, the call returns and
    the file has gained exactly the bytes of one entry - type, size, the given
    time stamp or a time of the time server, and the data - and the statistics
    one logged entry; while the file is disabled both are left alone. *)
Theorem log_entry_stored ty size ts data nonblocking (c : client (mmc_s F W)) :
  card_writes -> client_ready c -> 0 < ty < 65536 -> 0 <= size <= 456 ->
  size <= Z.of_nat (length data) -> bytes (take (Z.to_nat size) data) ->
  (forall t, ts = Some t -> 0 <= t < 2 ^ 64) ->
  exists c' t,
    mmc_log_entry_data peer_time peer_set_msg peer_send ty size ts data nonblocking c =
      (Done tt, c') /\
    client_ready c' /\ (forall t', ts = Some t' -> t = t') /\ 0 <= t < 2 ^ 64 /\
    let f := fsys (c_peer c) in
    let on := negb (enabled (file f) =? 0) in
    contents (fat (fsys (c_peer c'))) = contents (fat f) ++
      (if on then entry_bytes (Entry ty t (take (Z.to_nat size) data)) else []) /\
    entries_logged (stats (c_peer c')) =
      (if on then u32 (entries_logged (stats (c_peer c)) + 1) else entries_logged (stats (c_peer c))).
Proof.
  intros Hcard Hc Hty Hs Hl Hd Hts.
  pose proof (log_entry_run ty size ts data nonblocking c Hcard Hc Hty Hs Hl Hd Hts) as Hwp.
  apply wp_done in Hwp as ([] & c' & Hrun & Hc' & t & Ht & Hteq & (_ & _ & Hcn & _) & Hst & _).
  exists c', t. split; [done|]. split; [done|]. split; [done|]. split; [done|].
  cbn zeta. rewrite Hcn, Hst. unfold counted.
  by destruct (enabled (file (fsys (c_peer c))) =? 0).
Qed.

End properties.

(** *** The properties at concrete inputs *)
#[local] Existing Instance log_aborts.

Definition demo_regs : regs := Regs (replicate 4 0) (replicate 120 0).
Definition demo_mmc (evs : list mmc_event) : mmc_s ram toy :=
  mk_mmc (mk_fs (mk_file 1 1 (Some 1)) (Ram [] [] [1] 2)) (mk_stats 0 0) demo_regs
    (replicate 120 0) 1 evs [] (Toy 1000 [] []).
Definition demo_client : client (mmc_s ram toy) := mk_client demo_regs (demo_mmc []).

Lemma demo_client_ready : client_ready demo_client.
Proof.
  assert (file_inv (fsys (c_peer demo_client))) as Hinv.
  { split; [done|]. split; [by repeat constructor|]. split; [|done].
    intros h'. apply list_elem_of_singleton. }
  split; [by split|]. split; [by split|]. split; [done|]. by apply Toy_ok.
Qed.
Lemma ram_writes : card_writes (F := ram).
Proof. intros on data size count h f _ _. by eexists. Qed.

Lemma log_entry_stored_witness :
  exists c' t,
    mmc_log_entry_data peer_time peer_set_msg peer_send 0x100 5 None [2; 5; 0x72; 4; 0x83] 0
      demo_client = (Done tt, c') /\
    client_ready c' /\ (forall t', None = Some t' -> t = t') /\ 0 <= t < 2 ^ 64 /\
    r_contents (fat (fsys (c_peer c'))) =
      [] ++ entry_bytes (Entry 0x100 t [2; 5; 0x72; 4; 0x83]) /\
    entries_logged (stats (c_peer c')) = 1.
Proof.
  refine (log_entry_stored 0x100 5 None [2; 5; 0x72; 4; 0x83] 0 demo_client ram_writes
    demo_client_ready _ _ _ _ _).
  - lia.
  - lia.
  - cbn. lia.
  - decide_now.
  - discriminate.
Defined.


(** C31: the message area is shared by all callers and taken by none of them: two
    threads that log at the same time can tear an entry.  Here both calls are
    complete and both messages arrive, and the file holds an entry with the
    first data word of one caller and the second of the other. *)
Theorem concurrent_callers_tear_entries :
  let a := caller_events demo_regs 0x100 8 1 [1; 2; 3; 4; 5; 6; 7; 8] in
  let b := caller_events demo_regs 0x20 8 2 [11; 12; 13; 14; 15; 16; 17; 18] in
  exists evs, interleaving a b evs /\
    r_contents (fat (fsys (thread_loop 4 (demo_mmc evs)).2)) =
      entry_bytes (Entry 0x100 1 [1; 2; 3; 4; 15; 16; 17; 18]) ++
      entry_bytes (Entry 0x20 2 [11; 12; 13; 14; 15; 16; 17; 18]).
Proof.
  intros a b. vm_compute in a, b. eexists. split.
  - subst a b. apply inter_left, inter_right, inter_left, inter_right, inter_nil.
  - vm_compute. reflexivity.
Qed.

End MmcModule.
