(* ===== verification/MmcCalls.v ===== *)
(** The calls of modules/mmc/include/mmc.h other than the entry log, in front of
    the module's thread: enabling and disabling the file, its size, its removal
    and the statistics. *)
From S2P Require Import Prelude Services Ipc MmcEntry MmcFile MmcModule.

Module MmcCalls.
Import Ipc MmcFile MmcModule.

(** The thread as the peer of a call: it receives the message, handles it, and
    the caller waits for the reply. *)
Definition serve `{LogPolicy} {F W} `{!Fat F} `{!TimeServer W} `{!Kernel} (m : ipc_msg) :
    M (mmc_s F W) (Z * list Z) :=
  n ← gets (fun s => length (m_replies s));
  handle_msg m;;
  rs ← gets m_replies;
  match rs !! n with Some reply => mret reply | None => stop_with Blocked end.

Section served.
Context `{LogPolicy} {F W : Type} `{!Fat F} `{!FatSpec F} `{!TimeServer W} `{!TimeServerSpec W}.
Context `{!Kernel} `{!KernelSpec}.
Implicit Types f : fs F.
Implicit Types s : mmc_s F W.
Implicit Types c : client (mmc_s F W).

(** *** The file, between the calls *)

Definition flag (z : Z) : Prop := z = 0 \/ z = 1.
Definition status_ok (r : Z) : Prop := 0 <= r <= 4.
Definition fs_ok f : Prop := file_wf f /\ flag (enabled (file f)).

Lemma fopen_fs f : fs_ok f -> wp mmc_fopen (fun r f' => fs_ok f' /\ status_ok r /\
  enabled (file f') = enabled (file f)) never f.
Proof.
  intros [(Hi & Hok & Hh) Hfl]. unfold mmc_fopen. do 3 wp_step. apply wp_on_fat.
  wp_use ltac:(by apply fl_fopen_spec); [|done]. intros r g (Hok' & _ & Hr).
  wp_step. apply wp_on_file. wp_step. split; [split; [|done]|].
  - split; [done|]. split; [done|]. intros h. cbn. intros ->. apply Hr. by left.
  - by destruct r.
Qed.

Lemma fclose_fs f : fs_ok f -> wp mmc_fclose (fun _ f' => fs_ok f' /\
  enabled (file f') = enabled (file f)) never f.
Proof.
  intros [Hwf Hfl]. wp_use ltac:(by apply fclose_wf); [|done]. intros _ f' [Hwf' E].
  rewrite E. split; [split; [done|]|done]. by rewrite E.
Qed.

Lemma set_enabled_fs v f : fs_ok f -> wp (mmc_file_set_enabled v) (fun r f' => fs_ok f' /\
  (v = 0 -> r = 0 /\ enabled (file f') = 0) /\
  (v <> 0 -> r = 0 -> enabled (file f') = 1)) never f.
Proof.
  intros Hf. pose proof Hf as [(Hi & Hok & Hh) Hfl].
  unfold mmc_file_set_enabled. do 2 wp_step. rewrite init_check_dont, Z.eqb_refl by done.
  destruct (Z.eqb_spec v 0) as [->|Hv].
  - wp_step. wp_step.
    + intros _. wp_step. apply wp_on_file.
      wp_use ltac:(apply fclose_fs; split; [split_and!; done|by left]); [|done].
      intros _ f1 [Hf1 E1]. wp_step. split; [done|]. split; [|done]. by rewrite E1.
    + intros E%negb_false_iff%Z.eqb_eq. wp_step. split; [done|]. by split.
  - wp_step. wp_use ltac:(by apply fopen_fs); [|done]. intros r f1 (Hf1 & Hr & E1).
    wp_step. wp_step.
    + intros E%Z.eqb_eq. apply wp_on_file. wp_step. split; [split; [apply Hf1|by right]|]. by split.
    + intros E%Z.eqb_neq. wp_step. split; [done|]. split; [done|]. by intros _ ?.
Qed.

Lemma rm_fs f : fs_ok f -> wp mmc_file_rm (fun r f' => fs_ok f' /\ status_ok r /\
  enabled (file f') = enabled (file f)) never f.
Proof.
  intros Hf. pose proof Hf as [(Hi & Hok & Hh) Hfl]. unfold mmc_file_rm.
  apply if_enabled_run; [done|done|done|]. intros He _. wp_step.
  wp_use ltac:(by apply fclose_fs); [|done]. intros _ f1 [[(Hi1 & Hok1 & Hh1) Hfl1] E1].
  do 3 wp_step. apply wp_on_fat. wp_use ltac:(by apply fl_remove_spec); [|done].
  intros st g (Hok2 & Hop2 & _). wp_step.
  wp_use ltac:(apply fopen_fs; split; [split; [exact Hi1|split; [exact Hok2|]]|exact Hfl1]); [| |done].
  - intros h Hr. by apply Hop2, Hh1.
  - intros r f2 (Hf2 & Hr & E2). wp_step. split; [done|]. split; [|by rewrite E2].
    by destruct (_ && _).
Qed.

Lemma size_fs f : fs_ok f -> wp mmc_file_size (fun '(r, n) f' => f' = f /\ status_ok r /\ word n /\
  (r = 0 -> enabled (file f) <> 0 -> n = u32 (Z.of_nat (length (contents (fat f)))))) never f.
Proof.
  intros [(Hi & Hok & Hh) Hfl]. unfold mmc_file_size. do 2 wp_step. rewrite init_check_run by done.
  cbv [CHECK_FILE MMC_FILE_ERR_OK MMC_FILE_ERR_NOT_OPEN].
  destruct (Z.eqb_spec (enabled (file f)) 0) as [E|E]; cbn [negb andb Z.eqb]; [by wp_step|].
  case_bool_decide as Hr; cbn [andb Z.eqb]; [by wp_step|].
  destruct (ref (file f)) as [h|] eqn:Er; [|done].
  wp_step. eapply wp_or_fault; [done|]. cbn beta. wp_step.
  rewrite filelength_spec by (done || by apply Hh). split; [done|]. split; [done|].
  split; [by apply Z.mod_pos_bound|done].
Qed.

Lemma s32_status r : status_ok r -> s32 (u32 r) = r /\ u32 r = r.
Proof.
  intros Hr. unfold status_ok in Hr. assert (u32 r = r) as E by (unfold u32; apply Z.mod_small; lia).
  rewrite !E. split; [|done]. unfold s32. rewrite E. by rewrite (proj2 (Z.ltb_lt _ _)) by lia.
Qed.
(** *** The module, between the calls *)

Definition mod_ok s : Prop :=
  fs_ok (fsys s) /\ regs_ok (m_regs s) /\ time_ok (m_services s) /\
  0 <= timestamp (stats s) < 2 ^ 64 /\ word (entries_logged (stats s)) /\ rx_ok s.

Lemma serve_wp m (P : Z * list Z -> mmc_s F W -> Prop) s :
  wp (handle_msg m) (fun _ s' => exists reply, m_replies s' = m_replies s ++ [reply] /\ P reply s')
    never s ->
  wp (serve m) P never s.
Proof.
  intros Hm. unfold serve. do 3 wp_step. wp_use ltac:(exact Hm); [|done].
  intros _ s' (reply & E & HP). do 2 wp_step. rewrite E, lookup_app_r, Nat.sub_diag by done. 
  by apply wp_ret.
Qed.

(** The message as the thread gets it. *)
Lemma mmc_handle_wp label len ws s Q X : regs_ok (m_regs s) -> (length ws <= 4)%nat ->
  (forall r l, regs_ok r -> words r = ws ++ l ->
     wp (dispatch label len) Q X (set_regs r s)) ->
  wp (handle_msg (Msg ENDPOINT_BADGE label len ws)) Q X s.
Proof.
  intros Hr Hl HQ. unfold handle_msg. do 2 wp_step. wp_step. wp_step; [done|].
  destruct (receive_words ws (m_regs s) Hr Hl) as [l Hw].
  by apply (HQ _ l); [apply receive_ok|].
Qed.

(** The words of the reply, written one after the other. *)
Lemma set_word (i : nat) v s (Q : unit -> mmc_s F W -> Prop) X : regs_ok (m_regs s) -> (i < 4)%nat ->
  (forall r, regs_ok r -> words r = <[i := u32 v]> (words (m_regs s)) -> Q tt (set_regs r s)) ->
  wp (on_regs (seL4_SetMR (Z.of_nat i) v)) Q X s.
Proof.
  intros Hr Hi HQ. destruct (set_mr_run (m_regs s) i v Hr Hi) as (r & E & Hr' & Hw).
  eapply wp_on_mmc_regs; [exact E|]. by apply HQ.
Qed.

Lemma reply_words label (n : nat) s (P : Z * list Z -> mmc_s F W -> Prop) ws l :
  words (m_regs s) = ws ++ l -> length ws = n ->
  P (label, ws) (set_replies (m_replies s ++ [(label, ws)]) s) ->
  wp (seL4_Reply label (Z.of_nat n)) (fun _ s' => exists reply,
    m_replies s' = m_replies s ++ [reply] /\ P reply s') never s.
Proof.
  intros Hw <- HP. unfold seL4_Reply. wp_step. eexists. split; [done|].
  by rewrite Hw, Nat2Z.id, take_app_length.
Qed.

(** A reply of one word. *)
Lemma answer_word label v s (P : Z * list Z -> mmc_s F W -> Prop) : regs_ok (m_regs s) ->
  (forall r rs, regs_ok r -> P (label, [u32 v]) (set_replies rs (set_regs r s))) ->
  wp (on_regs (seL4_SetMR 0 v);; seL4_Reply label 1) (fun _ s' => exists reply,
    m_replies s' = m_replies s ++ [reply] /\ P reply s') never s.
Proof.
  intros Hr HP. wp_step. apply (set_word 0); [done|lia|]. intros r Hr' Hw.
  pose proof (length_words _ Hr) as Hl. destruct (words (m_regs s)) as [|w l]; [done|].
  pose proof (reply_words label 1 (set_regs r s) P [u32 v] l Hw eq_refl) as Hrep. by apply Hrep, HP.
Qed.

(** *** The handlers *)

Lemma enabled_word f : fs_ok f -> u32 (mmc_file_get_enabled (file f)) = enabled (file f).
Proof.
  intros [(Hi & _) Hfl]. unfold mmc_file_get_enabled. rewrite init_check_dont, Z.eqb_refl by done.
  by destruct Hfl as [E|E]; rewrite E.
Qed.

Definition set_answer v s (reply : Z * list Z) (s' : mmc_s F W) : Prop :=
  mod_ok s' /\ stats s' = stats s /\ reply = (IPC_MSG_TYPE_STATE_RESP, [enabled (file (fsys s'))]) /\
  (v = 0 -> enabled (file (fsys s')) = 0) /\
  (forall f, mmc_file_set_enabled v (fsys s) = (Done 0, f) -> fsys s' = f).
Definition get_answer s (reply : Z * list Z) (s' : mmc_s F W) : Prop :=
  mod_ok s' /\ stats s' = stats s /\ fsys s' = fsys s /\
  reply = (IPC_MSG_TYPE_STATE_RESP, [enabled (file (fsys s))]).
Definition size_answer s (reply : Z * list Z) (s' : mmc_s F W) : Prop :=
  mod_ok s' /\ stats s' = stats s /\ fsys s' = fsys s /\ exists r n, status_ok r /\ word n /\
  reply = (IPC_MSG_TYPE_FILE_SIZE_RESP, [u32 r; n]) /\
  (r = 0 -> enabled (file (fsys s)) <> 0 -> n = u32 (Z.of_nat (length (contents (fat (fsys s)))))) /\
  mmc_file_size (fsys s) = (Done (r, n), fsys s).
Definition rm_answer s (reply : Z * list Z) (s' : mmc_s F W) : Prop :=
  mod_ok s' /\ stats s' = mk_stats (timestamp (stats s)) 0 /\
  enabled (file (fsys s')) = enabled (file (fsys s)) /\
  exists r, status_ok r /\ reply = (IPC_MSG_TYPE_RM_FILE_RESP, [u32 r]) /\
    mmc_file_rm (fsys s) = (Done r, fsys s').

Lemma serve_get s : mod_ok s ->
  wp (serve (Msg ENDPOINT_BADGE IPC_MSG_TYPE_STATE_REQ 0 [])) (get_answer s) never s.
Proof.
  intros (Hf & Hr & Hrest). apply serve_wp, mmc_handle_wp; [done|cbn; lia|]. intros r l Hr1 _.
  change (dispatch IPC_MSG_TYPE_STATE_REQ 0) with (handle_state_req (F := F) (W := W)).
  unfold handle_state_req. do 2 wp_step.
  apply (answer_word _ _ (set_regs r s) (get_answer s)); [done|]. intros r2 rs Hr2.
  split; [done|]. split; [done|]. split; [done|]. do 2 f_equal. by apply enabled_word.
Qed.
Lemma serve_set v s : mod_ok s ->
  wp (serve (Msg ENDPOINT_BADGE IPC_MSG_TYPE_STATE_SET_REQ 1 [v])) (set_answer v s) never s.
Proof.
  intros (Hf & Hr & Hrest). apply serve_wp, mmc_handle_wp; [done|cbn; lia|]. intros r l Hr1 Hw.
  change (dispatch IPC_MSG_TYPE_STATE_SET_REQ 1) with (handle_state_set_req (F := F) (W := W)).
  unfold handle_state_set_req, get_mr0. do 2 wp_step. wp_step. rewrite (get_mr_words _ 0) by (done || lia).
  eapply wp_or_fault; [cbn [m_regs set_regs]; by rewrite Hw|]. cbn beta. wp_step.
  assert (forall f, fs_ok f -> (v = 0 -> enabled (file f) = 0) ->
    (forall f0, mmc_file_set_enabled v (fsys s) = (Done 0, f0) -> f = f0) ->
    wp (f ← gets (fun s => file (fsys s));
        on_regs (seL4_SetMR 0 (mmc_file_get_enabled f));; seL4_Reply IPC_MSG_TYPE_STATE_RESP 1)
       (fun _ s' => exists reply, m_replies s' = m_replies s ++ [reply] /\ set_answer v s reply s')
       never (set_fsys f (set_regs r s))) as Hend.
  { intros f Hf' Hv Hrun. do 2 wp_step.
    apply (answer_word _ _ (set_fsys f (set_regs r s)) (set_answer v s)); [done|]. intros r2 rs Hr2.
    split; [done|]. split; [done|]. split; [|done]. do 2 f_equal. by apply enabled_word. }
  apply wp_on_fs. wp_use ltac:(by apply wp_exact, set_enabled_fs); [|done].
  intros err f [(Hf1 & Hoff & Hon) Hrun]. cbn [fsys set_regs] in Hrun. wp_step. wp_step.
  - intros Herr%negb_true_iff%Z.eqb_neq. wp_step. apply wp_on_fs.
    wp_use ltac:(by apply set_enabled_fs); [|done]. intros err2 f2 (Hf2 & Hoff2 & _). wp_step.
    apply Hend; [done|intros _; by apply Hoff2|]. intros f0. rewrite Hrun. by intros [= E _].
  - intros _. apply Hend; [done|intros Hv; by apply Hoff|]. intros f0. rewrite Hrun. by intros [= _ ->].
Qed.

Lemma serve_size s : mod_ok s ->
  wp (serve (Msg ENDPOINT_BADGE IPC_MSG_TYPE_FILE_SIZE_REQ 0 [])) (size_answer s) never s.
Proof.
  intros (Hf & Hr & Hrest). apply serve_wp, mmc_handle_wp; [done|cbn; lia|]. intros r l Hr1 Hw.
  change (dispatch IPC_MSG_TYPE_FILE_SIZE_REQ 0) with (handle_file_size_req (F := F) (W := W)).
  unfold handle_file_size_req. wp_step. apply wp_on_fs.
  wp_use ltac:(by apply wp_exact, size_fs); [|done]. intros [st n] f [(-> & Hst & Hn & Hval) Hrun].
  wp_step. apply (set_word 0); [done|lia|]. intros r2 Hr2 Hw2.
  wp_step. apply (set_word 1); [done|lia|]. intros r3 Hr3 Hw3.
  cbn [m_regs set_regs set_fsys] in Hw2, Hw3. rewrite Hw2 in Hw3. clear Hw2.
  pose proof (length_words _ Hr1) as Hl. cbn [app] in Hw. rewrite Hw in *.
  destruct l as [|w0 [|w1 l]]; cbn in Hl; [done..|]. cbn in Hw3.
  assert (u32 n = n) as Hun by (unfold u32; by apply Z.mod_small).
  assert (u32 (u32 st) = u32 st) as Hust by (unfold u32; apply Z.mod_mod; lia).
  rewrite Hun, Hust in Hw3.
  pose proof (reply_words IPC_MSG_TYPE_FILE_SIZE_RESP 2 (set_regs r3 (set_regs r2 (set_fsys (fsys s)
    (set_regs r s)))) (size_answer s) [u32 st; n] l Hw3 eq_refl) as Hrep. apply Hrep.
  split; [done|]. split; [done|]. split; [done|]. by exists st, n.
Qed.

Lemma serve_rm s : mod_ok s ->
  wp (serve (Msg ENDPOINT_BADGE IPC_MSG_TYPE_RM_FILE_REQ 0 [])) (rm_answer s) never s.
Proof.
  intros (Hf & Hr & Ht & Hts & Hent & Hx). apply serve_wp, mmc_handle_wp; [done|cbn; lia|]. intros r l Hr1 Hw.
  change (dispatch IPC_MSG_TYPE_RM_FILE_REQ 0) with (handle_rm_file_req (F := F) (W := W)).
  unfold handle_rm_file_req, clear_entries. do 3 wp_step. apply wp_on_fs.
  wp_use ltac:(by apply wp_exact, rm_fs); [|done]. intros st f [(Hf1 & Hst & E) Hrun].
  destruct (s32_status _ Hst) as [_ Hust].
  apply (answer_word _ (u32 st) (set_fsys f (set_stats (mk_stats (timestamp (stats s)) 0)
    (set_regs r s))) (rm_answer s)); [done|]. intros r2 rs Hr2. rewrite !Hust.
  split; [done|]. split; [done|]. split; [done|]. exists st. by rewrite Hust.
Qed.
Definition stats_answer s (reply : Z * list Z) (s' : mmc_s F W) : Prop :=
  mod_ok s' /\ fsys s' = fsys s /\ entries_logged (stats s') = entries_logged (stats s) /\
  (exists t, 0 <= t < 2 ^ 64 /\ stats s' = mk_stats t (entries_logged (stats s))) /\
  reply = (IPC_MSG_TYPE_STATS_RESP, words_of_bytes (stats_bytes (stats s'))).

Lemma stats_bytes_bytes st : bytes (stats_bytes st).
Proof. unfold stats_bytes. apply bytes_app. split; apply bytes_le_bytes. Qed.
Lemma length_mmc_stats_bytes st : length (stats_bytes st) = 12%nat.
Proof. unfold stats_bytes. by autorewrite with len. Qed.

Lemma serve_stats s : mod_ok s ->
  wp (serve (Msg ENDPOINT_BADGE IPC_MSG_TYPE_STATS_REQ 0 [])) (stats_answer s) never s.
Proof.
  intros (Hf & Hr & Ht & Hts & Hent & Hx). apply serve_wp, mmc_handle_wp; [done|cbn; lia|]. intros r l Hr1 _.
  change (dispatch IPC_MSG_TYPE_STATS_REQ 0) with (handle_stats_req (F := F) (W := W)).
  unfold handle_stats_req, sample_time, svc. do 2 wp_step. apply wp_zoom.
  wp_use ltac:(by apply ts_get_time_spec); [|done]. intros t w (Hw & Htr & _). do 2 wp_step.
  do 2 wp_step. set (st := stats _). set (bs := words_of_bytes (stats_bytes st)).
  assert (length bs = 3%nat) as Hl by by apply (length_words_of_bytes 3), length_mmc_stats_bytes.
  destruct (mr_send_run 3 bs r Hr1) as (r2 & Hsend & Hr2 & Hw2);
    [lia|lia|apply words_of_bytes_word, stats_bytes_bytes|].
  eapply wp_on_mmc_regs; [exact Hsend|].
  match goal with |- wp _ _ _ ?s1 => pose proof (reply_words IPC_MSG_TYPE_STATS_RESP 3 s1
    (stats_answer s) bs (drop 3 (words r))) as Hrep end.
  apply Hrep; clear Hrep.
  - cbn [m_regs set_regs set_stats]. rewrite Hw2. by rewrite take_ge by (cbn; lia).
  - done.
  - split; [split; [exact Hf|split; [exact Hr2|split; [exact Hw|by split]]]|].
    split; [done|]. split; [done|]. split; [by exists t|done].
Qed.

(** *** The calls *)

Lemma mmc_check_resp_run label len (X : stop -> client (mmc_s F W) -> Prop) Q c :
  Q tt c -> wp (check_resp label len label len) Q X c.
Proof. intros HQ. unfold check_resp. rewrite !Z.eqb_refl. exact HQ. Qed.

(** A call that is answered by [n] words. *)
Lemma call_wp {A} label resp len req (n : nat) c (P : Z * list Z -> mmc_s F W -> Prop)
    (k : M (client (mmc_s F W)) A) Q X :
  regs_ok (c_regs c) -> take (Z.to_nat len) (mr (c_regs c)) = req -> (n <= 4)%nat ->
  wp (serve (Msg ENDPOINT_BADGE label len req)) P never (c_peer c) ->
  (forall reply s', P reply s' -> exists ws, reply = (resp, ws) /\ length ws = n) ->
  (forall ws l r s', P (resp, ws) s' -> regs_ok r -> words r = ws ++ l ->
     wp k Q X (mk_client r s')) ->
  wp ('(label, len) ← seL4_Call serve ENDPOINT_BADGE label len;
      check_resp label len resp (Z.of_nat n);; k) Q X c.
Proof.
  intros Hr <- Hn Hserve Hreply Hk. apply wp_done in Hserve as (reply & s' & Hrun & HP).
  destruct (Hreply _ _ HP) as (ws & -> & Hl).
  destruct (call_run serve ENDPOINT_BADGE label len c resp ws s' Hr) as (r' & l & Hcall & Hr' & Hw);
    [lia|exact Hrun|].
  wp_step. eapply wp_run; [exact Hcall|]. cbn beta iota. rewrite Hl. wp_step. apply mmc_check_resp_run.
  by eapply Hk.
Qed.

Definition calls_ok c : Prop := regs_ok (c_regs c) /\ mod_ok (c_peer c).
Abbreviation Calls := (M (client (mmc_s F W))).

Lemma get_mr_wp (i : nat) v c (Q : Z -> client (mmc_s F W) -> Prop) X : regs_ok (c_regs c) ->
  (i < 4)%nat -> words (c_regs c) !! i = Some v -> Q v c -> wp (client_GetMR (Z.of_nat i)) Q X c.
Proof.
  intros Hr Hi Hv HQ. unfold client_GetMR. do 2 wp_step. eapply wp_or_fault; [|exact HQ].
  by rewrite get_mr_words.
Qed.

Lemma get_state_wp c : calls_ok c -> wp (mmc_get_state serve : Calls Z) (fun v c' => calls_ok c' /\
  get_answer (c_peer c) (IPC_MSG_TYPE_STATE_RESP, [v]) (c_peer c')) never c.
Proof.
  intros [Hr Hs]. unfold mmc_get_state.
  apply (call_wp _ _ 0 [] 1 c (get_answer (c_peer c))); [done|done|lia|by apply serve_get| |].
  - intros reply s' (_ & _ & _ & ->). by eexists.
  - intros ws l r s' Ha Hr' Hw. destruct Ha as (Hs' & Est & Ef & [= ->]).
    apply (get_mr_wp 0 (enabled (file (fsys (c_peer c))))); [done|lia|cbn [c_regs]; by rewrite Hw|].
    by split.
Qed.

Lemma set_state_wp v c : calls_ok c -> wp (mmc_set_state serve v : Calls Z) (fun v' c' => calls_ok c' /\
  set_answer (u32 v) (c_peer c) (IPC_MSG_TYPE_STATE_RESP, [v']) (c_peer c')) never c.
Proof.
  intros [Hr Hs]. unfold mmc_set_state, client_SetMR. do 2 wp_step.
  destruct (set_mr_run (c_regs c) 0 v Hr) as (r & Hset & Hr1 & Hw); [lia|].
  wp_step. wp_step. eapply wp_or_fault; [exact Hset|]. wp_step.
  pose proof (length_words _ Hr) as Hl. destruct (words (c_regs c)) as [|w l]; [done|].
  destruct (words_mr0 _ _ _ Hr1 Hw) as [l1 El].
  apply (call_wp _ _ 1 [u32 v] 1 (mk_client r (c_peer c)) (set_answer (u32 v) (c_peer c)));
    [done|cbn [c_regs]; by rewrite El|lia|by apply serve_set| |].
  - intros reply s' (_ & _ & -> & _). by eexists.
  - intros ws l2 r2 s' Ha Hr2 Hw2. destruct Ha as (Hs' & Est & [= ->] & Hoff).
    apply (get_mr_wp 0 (enabled (file (fsys s')))); [done|lia|cbn [c_regs]; by rewrite Hw2|].
    by split.
Qed.

Lemma file_size_wp c : calls_ok c -> wp (mmc_get_file_size serve : Calls (Z * Z)) (fun '(r, n) c' =>
  calls_ok c' /\ stats (c_peer c') = stats (c_peer c) /\ fsys (c_peer c') = fsys (c_peer c) /\
  status_ok r /\ word n /\ (r = 0 -> let f := fsys (c_peer c) in enabled (file f) <> 0 ->
    n = u32 (Z.of_nat (length (contents (fat f))))) /\
  exists k, mmc_file_size (fsys (c_peer c)) = (Done (r, k), fsys (c_peer c)) /\
    n = if r =? 0 then k else 0) never c.
Proof.
  intros [Hr Hs]. unfold mmc_get_file_size.
  apply (call_wp _ _ 0 [] 2 c (size_answer (c_peer c))); [done|done|lia|by apply serve_size| |].
  - intros reply s' (_ & _ & _ & r & n & _ & _ & -> & _). by eexists.
  - intros ws l r s' Ha Hr' Hw. destruct Ha as (Hs' & Est & Ef & st & n & Hst & Hn & [= ->] & Hval & Hrun).
    destruct (s32_status _ Hst) as [Hs32 _]. wp_step.
    apply (get_mr_wp 0 (u32 st)); [done|lia|cbn [c_regs]; by rewrite Hw|].
    wp_step. apply (get_mr_wp 1 n); [done|lia|cbn [c_regs]; by rewrite Hw|]. wp_step.
    rewrite Hs32. split; [by split|]. split; [done|]. split; [done|]. split; [done|].
    destruct (Z.eqb_spec st 0); [split; [done|]; split; [done|]|]; [by exists n|].
    split; [unfold word; lia|]. split; [done|]. by exists n.
Qed.

Lemma rm_wp c : calls_ok c -> wp (mmc_rm serve : Calls Z) (fun r c' => calls_ok c' /\ status_ok r /\
  entries_logged (stats (c_peer c')) = 0 /\
  enabled (file (fsys (c_peer c'))) = enabled (file (fsys (c_peer c))) /\
  mmc_file_rm (fsys (c_peer c)) = (Done r, fsys (c_peer c'))) never c.
Proof.
  intros [Hr Hs]. unfold mmc_rm.
  apply (call_wp _ _ 0 [] 1 c (rm_answer (c_peer c))); [done|done|lia|by apply serve_rm| |].
  - intros reply s' (_ & _ & _ & r & _ & -> & _). by eexists.
  - intros ws l r s' Ha Hr' Hw. destruct Ha as (Hs' & Est & Een & st & Hst & [= ->] & Hrun).
    destruct (s32_status _ Hst) as [Hs32 _]. wp_step.
    apply (get_mr_wp 0 (u32 st)); [done|lia|cbn [c_regs]; by rewrite Hw|]. wp_step.
    rewrite Hs32. split; [by split|]. split; [done|]. cbn. by rewrite Est.
Qed.
Lemma mmc_stats_of_stats_bytes st : 0 <= timestamp st < 2 ^ 64 -> word (entries_logged st) ->
  stats_of_bytes (stats_bytes st) = st.
Proof.
  intros Ht He. destruct st as [t e]. unfold stats_of_bytes, stats_bytes. cbn [timestamp entries_logged] in *.
  rewrite take_app_length', drop_app_length' by (symmetry; apply length_le_bytes).
  rewrite take_ge by (rewrite length_le_bytes; lia). rewrite !le_val_bytes; [done|exact He|exact Ht].
Qed.

Lemma mmc_get_stats_wp c : calls_ok c -> wp (mmc_get_stats serve : Calls mmc_stats_s) (fun st c' =>
  calls_ok c' /\ fsys (c_peer c') = fsys (c_peer c) /\ stats (c_peer c') = st /\
  entries_logged st = entries_logged (stats (c_peer c)) /\ 0 <= timestamp st < 2 ^ 64) never c.
Proof.
  intros [Hr Hs]. unfold mmc_get_stats. wp_step. wp_step; [done|].
  apply (call_wp _ _ 0 [] 3 c (stats_answer (c_peer c))); [done|done|lia|by apply serve_stats| |].
  - intros reply s' (_ & _ & _ & _ & ->). eexists. split; [done|].
    by apply (length_words_of_bytes 3), length_mmc_stats_bytes.
  - intros ws l r s' Ha Hr' Hw. destruct Ha as (Hs' & Ef & _ & (t & Ht & Est) & Ews).
    apply (f_equal snd) in Ews. cbn [snd] in Ews. subst ws.
    pose proof (length_words_of_bytes 3 _ (length_mmc_stats_bytes (stats s'))) as Hl.
    unfold client_mr_recv. do 2 wp_step. wp_step. eapply wp_or_fault.
    { apply mr_recv_run; [exact Hr'|done|]. change (Z.to_nat (SIZEOF_STATS / 4)) with 3%nat.
      cbn [c_regs]. rewrite Hw, take_app_length' by done. apply words_of_bytes_word, stats_bytes_bytes. }
    wp_step. change (Z.to_nat (SIZEOF_STATS / 4)) with 3%nat. cbn [c_regs].
    rewrite Hw, take_app_length' by done.
    rewrite (bytes_of_words_of_bytes 3) by first [apply length_mmc_stats_bytes|apply stats_bytes_bytes].
    destruct Hs' as (Hf' & Hr2 & Hw' & Ht' & He' & Hx'). rewrite mmc_stats_of_stats_bytes by done.
    split; [by split|]. split; [done|]. split; [done|]. rewrite Est. by split.
Qed.
End served.

(** ** Properties *)

Section properties.
Context `{LogPolicy} {F W : Type} `{!Fat F} `{!FatSpec F} `{!TimeServer W} `{!TimeServerSpec W}.
Context `{!Kernel} `{!KernelSpec}.

(** What a client of the module gets, through the module's thread, whatever
    the card and the FAT library answer: setting the state returns the state the
    file is then in, 0 or 1, which a later query returns as well, and asking for
    0 always disables the file; a size with status 0 is the length of the
    contents of the file, as a 32-bit number, when the file is enabled, and
    asking for it changes nothing; removing the file returns a status and
    clears the number of logged entries, as the statistics that are asked for
    next show.  No call faults, blocks or trips an assertion. *)
Theorem mmc_calls_served state (c : client (mmc_s F W)) : calls_ok c ->
  (exists v c1 c2, mmc_set_state serve state c = (Done v, c1) /\
     mmc_get_state serve c1 = (Done v, c2) /\ calls_ok c2 /\
     v = enabled (file (fsys (c_peer c2))) /\ flag v /\ (u32 state = 0 -> v = 0) /\
     stats (c_peer c2) = stats (c_peer c)) /\
  (exists r n c1, mmc_get_file_size serve c = (Done (r, n), c1) /\ calls_ok c1 /\ status_ok r /\
     word n /\ fsys (c_peer c1) = fsys (c_peer c) /\
     (r = 0 -> enabled (file (fsys (c_peer c))) <> 0 ->
        n = u32 (Z.of_nat (length (contents (fat (fsys (c_peer c)))))))) /\
  (exists r c1 t c2, mmc_rm serve c = (Done r, c1) /\ status_ok r /\
     mmc_get_stats serve c1 = (Done (mk_stats t 0), c2) /\ 0 <= t < 2 ^ 64 /\ calls_ok c2 /\
     enabled (file (fsys (c_peer c2))) = enabled (file (fsys (c_peer c)))).
Proof.
  intros Hc. split_and!.
  - destruct (wp_done _ _ _ (set_state_wp state c Hc)) as (v & c1 & E1 & Hc1 & (_ & Est & [= Ev] & Hoff & _)).
    destruct (wp_done _ _ _ (get_state_wp c1 Hc1)) as (v' & c2 & E2 & Hc2 & (_ & Est2 & Ef & [= ->])).
    rewrite <- Ev in E2, Hoff. exists v, c1, c2. rewrite Ef, Est2, <- Ev. split_and!; try done.
    rewrite Ev. apply Hc1.
  - destruct (wp_done _ _ _ (file_size_wp c Hc)) as ([r n] & c1 & E1 & Hc1 & _ & ? & ? & ? & ? & _).
    by exists r, n, c1.
  - destruct (wp_done _ _ _ (rm_wp c Hc)) as (r & c1 & E1 & Hc1 & Hr & He & Hen & _).
    destruct (wp_done _ _ _ (mmc_get_stats_wp c1 Hc1)) as ([t e] & c2 & E2 & Hc2 & Ef & _ & Ee & Ht).
    cbn in Ee. rewrite He in Ee. subst e. exists r, c1, t, c2. rewrite Ef.
    split; [done|]. split; [done|]. split; [done|]. by split; [exact Ht|].
Qed.
End properties.

(** *** The properties at concrete inputs *)
#[local] Existing Instance log_aborts.

Lemma demo_calls_ok : calls_ok demo_client.
Proof.
  split; [by split|]. split.
  - split; [|by right]. split; [done|]. split; [by repeat constructor|].
    intros h'. cbn. intros [= <-]. by left.
  - split; [by split|]. split; [by apply Toy_ok|]. split; [done|]. split; [decide_now|done].
Qed.

Lemma mmc_calls_served_witness :
  (exists v c1 c2, mmc_set_state serve 0 demo_client = (Done v, c1) /\
     mmc_get_state serve c1 = (Done v, c2) /\ calls_ok c2 /\
     v = enabled (file (fsys (c_peer c2))) /\ flag v /\ (u32 0 = 0 -> v = 0) /\
     stats (c_peer c2) = mk_stats 0 0) /\
  (exists r n c1, mmc_get_file_size serve demo_client = (Done (r, n), c1) /\ calls_ok c1 /\
     status_ok r /\ word n /\ fsys (c_peer c1) = fsys (c_peer demo_client) /\
     (r = 0 -> 1 <> 0 -> n = u32 (Z.of_nat (length (@nil Z))))) /\
  (exists r c1 t c2, mmc_rm serve demo_client = (Done r, c1) /\ status_ok r /\
     mmc_get_stats serve c1 = (Done (mk_stats t 0), c2) /\ 0 <= t < 2 ^ 64 /\ calls_ok c2 /\
     enabled (file (fsys (c_peer c2))) = 1).
Proof. exact (mmc_calls_served 0 demo_client demo_calls_ok). Defined.

End MmcCalls.
