(* ===== verification/Cli.v ===== *)
(** The console's command tables and the look-up of commands and subcommands
    (modules/console/src/cli.c, include/cli.h).  A C string is a [string]: its
    characters up to the first NUL. *)
From stdpp Require Import strings.
From S2P Require Import Prelude Text.

Module Cli.

(** ** C strings *)

Definition NUL : Ascii.ascii := Ascii.ascii_of_nat 0.
Definition code (c : Ascii.ascii) : Z := Z.of_nat (Ascii.nat_of_ascii c).

(** The characters of a string up to the NUL. *)
Fixpoint c_str (s : string) : string :=
  match s with
  | EmptyString => EmptyString
  | String c s => if decide (c = NUL) then EmptyString else String c (c_str s)
  end.

(** [strcmp]: the difference at the first place where the strings differ. *)
Fixpoint strcmp (s1 s2 : string) : Z :=
  match s1, s2 with
  | EmptyString, EmptyString => 0
  | EmptyString, String c2 _ => - code c2
  | String c1 _, EmptyString => code c1
  | String c1 s1, String c2 s2 =>
      if decide (c1 = c2) then (if decide (c1 = NUL) then 0 else strcmp s1 s2)
      else code c1 - code c2
  end.

Lemma code_inj c1 c2 : code c1 = code c2 -> c1 = c2.
Proof.
  unfold code. intros Hc. apply Nat2Z.inj in Hc.
  by rewrite <- (Ascii.ascii_nat_embedding c1), Hc, Ascii.ascii_nat_embedding.
Qed.

Lemma code_NUL c : code c = 0 <-> c = NUL.
Proof. split; [by intros Hc; apply code_inj|by intros ->]. Qed.

Lemma strcmp_eq s1 : forall s2, strcmp s1 s2 = 0 <-> c_str s1 = c_str s2.
Proof.
  induction s1 as [|c1 s1 IH]; intros [|c2 s2]; cbn [strcmp c_str].
  - done.
  - assert (- code c2 = 0 <-> code c2 = 0) as -> by lia. rewrite code_NUL. by case_decide.
  - rewrite code_NUL. by case_decide.
  - pose proof (code_NUL c1). destruct (decide (c1 = c2)) as [<-|Hc].
    + case_decide; [done|]. rewrite IH. split; congruence.
    + rewrite Z.sub_move_0_r. split; [by intros ?%code_inj|].
      repeat case_decide; congruence.
Qed.

(** ** The tables *)

Definition CLI_IS_CMD_FALSE : Z := 0.
Definition CLI_IS_CMD_TRUE : Z := 1.
Definition CLI_IS_SUBCMD_FALSE : Z := 0.
Definition CLI_IS_SUBCMD_TRUE : Z := 1.
Definition CLI_IS_SUBCMD_MISSING : Z := 2.

(** [cli_cmd_kind], an unsigned integer. *)
Definition CLI_CMD_HELP : Z := 0.
Definition CLI_CMD_VERSION : Z := 1.
Definition CLI_CMD_CLEAR : Z := 2.
Definition CLI_CMD_TIME : Z := 3.
Definition CLI_CMD_INFO : Z := 4.
Definition CLI_CMD_DEBUG_SCHEDULER : Z := 5.
Definition CLI_CMD_MMC : Z := 6.
Definition CLI_CMD_HOBD : Z := 7.
Definition CLI_CMD_KIND_COUNT : Z := 8.

(** [cli_mmc_subcmd_kind] and [cli_hobd_subcmd_kind]. *)
Definition CLI_MMC_SUBCMD_ON : Z := 0.
Definition CLI_MMC_SUBCMD_OFF : Z := 1.
Definition CLI_MMC_SUBCMD_STATUS : Z := 2.
Definition CLI_MMC_SUBCMD_FILE_SIZE : Z := 3.
Definition CLI_MMC_SUBCMD_RM : Z := 4.
Definition CLI_HOBD_SUBCMD_ON : Z := 0.
Definition CLI_HOBD_SUBCMD_OFF : Z := 1.
Definition CLI_HOBD_SUBCMD_STATUS : Z := 2.
Definition CLI_HOBD_SUBCMD_PASSIVE : Z := 3.

(** A pointer is [None] where it is [NULL]. *)
Record cli_subcmd_desc_s := mk_subcmd { subcmd : option string; subcmd_desc : option string }.
Record cli_cmd_desc_s := mk_cmd { cmd : string; cmd_desc : string; subcmds : option (list cli_subcmd_desc_s) }.

Definition the_end : cli_subcmd_desc_s := mk_subcmd None None.
Definition sub (name desc : string) : cli_subcmd_desc_s := mk_subcmd (Some name) (Some desc).

Definition MMC_SUBCMD_DESCRIPTORS : list cli_subcmd_desc_s := [
  sub "on" "         - enable MMC module file logging";
  sub "off" "        - disable MMC module file logging";
  sub "status" "     - get MMC module status";
  sub "size" "       - get the curent MMC file size";
  sub "rm" "         - delete the current MMC file";
  the_end ].

Definition HOBD_SUBCMD_DESCRIPTORS : list cli_subcmd_desc_s := [
  sub "on" "         - enable HOBD K-line comms";
  sub "off" "        - disable HOBD K-line comms";
  sub "status" "     - get HOBD comms module status";
  sub "passive" "    - toggle HOBD comms listen-only mode";
  the_end ].

Definition CMD_DESCRIPTORS : list cli_cmd_desc_s := [
  mk_cmd "help" "           - print this help message" None;
  mk_cmd "version" "        - print version information" None;
  mk_cmd "clear" "          - clear the screen" None;
  mk_cmd "time" "           - get the current time" None;
  mk_cmd "info" "           - print module info, statistics and metrics" None;
  mk_cmd "debug-sched" "    - print the kernel scheduler information" None;
  mk_cmd "mmc" " <subcmd>   - MMC module and file ops" (Some MMC_SUBCMD_DESCRIPTORS);
  mk_cmd "hobd" " <subcmd>  - HOBD and subsystems" (Some HOBD_SUBCMD_DESCRIPTORS) ].

(** ** The functions *)
Section functions.
Context `{LogPolicy} {W : Type}.
#[local] Abbreviation T := (M W).

Definition cli_get_cmd_desc (c : Z) : T cli_cmd_desc_s :=
  ZF_LOGF_IF (CLI_CMD_KIND_COUNT <=? c);;
  or_fault (load CMD_DESCRIPTORS c).
Definition cli_get_cmd_str (c : Z) : T string := d ← cli_get_cmd_desc c; mret (cmd d).
Definition cli_get_cmd_desc_str (c : Z) : T string := d ← cli_get_cmd_desc c; mret (cmd_desc d).
Definition cli_get_subcmd_array (c : Z) : T (option (list cli_subcmd_desc_s)) :=
  d ← cli_get_cmd_desc c; mret (subcmds d).

(** The loop counts to the entry without a name; it reads at most [fuel]
    entries, the whole table and one behind it. *)
Fixpoint count_subcmds (fuel : nat) (cnt : Z) (l : list cli_subcmd_desc_s) : option Z :=
  match fuel with
  | O => None
  | S fuel =>
      e ← load l cnt;
      match subcmd e with
      | None => Some cnt
      | Some _ => count_subcmds fuel (u32 (cnt + 1)) l
      end
  end.
Definition cli_get_subcmd_count (c : Z) : T Z :=
  subs ← cli_get_subcmd_array c;
  match subs with
  | None => mret 0
  | Some l => or_fault (count_subcmds (S (length l)) 0 l)
  end.

(** The first loop over [idx]: the result and [*cmd]. *)
Fixpoint find_cmd (n : nat) (idx : Z) (str : string) (cmd_out : Z) : option (Z * Z) :=
  match n with
  | O => Some (CLI_IS_CMD_FALSE, cmd_out)
  | S n =>
      d ← load CMD_DESCRIPTORS idx;
      if strcmp str (cmd d) =? 0 then Some (CLI_IS_CMD_TRUE, idx)
      else find_cmd n (u32 (idx + 1)) str cmd_out
  end.
Definition cli_is_cmd (str : option string) (cmd_out : Z) : T (Z * Z) :=
  ZF_LOGF_IF (bool_decide (str = None));;
  s ← or_fault str;
  or_fault (find_cmd (Z.to_nat CLI_CMD_KIND_COUNT) 0 s cmd_out).

(** The second, over the subcommands; [strcmp] does not take [NULL]. *)
Fixpoint find_subcmd (n : nat) (idx : Z) (l : list cli_subcmd_desc_s) (str : string) (subcmd_enum : Z) :
    option (Z * Z) :=
  match n with
  | O => Some (CLI_IS_CMD_FALSE, subcmd_enum)
  | S n =>
      e ← load l idx;
      name ← subcmd e;
      if strcmp str name =? 0 then Some (CLI_IS_CMD_TRUE, idx)
      else find_subcmd n (u32 (idx + 1)) l str subcmd_enum
  end.
Definition cli_is_subcmd (str : option string) (c subcmd_enum : Z) : T (Z * Z) :=
  ZF_LOGF_IF (bool_decide (str = None));;
  subcmd_cnt ← cli_get_subcmd_count c;
  subs ← cli_get_subcmd_array c;
  '(ret, subcmd_enum) ←
    match subs with
    | None => mret (CLI_IS_CMD_FALSE, subcmd_enum)
    | Some l => s ← or_fault str; or_fault (find_subcmd (Z.to_nat subcmd_cnt) 0 l s subcmd_enum)
    end;
  mret (if negb (subcmd_cnt =? 0) && (ret =? CLI_IS_CMD_FALSE) then CLI_IS_SUBCMD_MISSING else ret,
        subcmd_enum).
End functions.

(** ** What is looked up *)

(** The place of a name. *)
Fixpoint index_of (s : string) (names : list string) (i : Z) : option Z :=
  match names with
  | [] => None
  | n :: names => if decide (s = n) then Some i else index_of s names (i + 1)
  end.

Definition cmd_names : list string := map cmd CMD_DESCRIPTORS.
(** The names of the subcommands of a command, up to the table's end. *)
Definition sub_names (c : Z) : list string :=
  match load CMD_DESCRIPTORS c with
  | Some (mk_cmd _ _ (Some l)) => omap subcmd l
  | _ => []
  end.

Definition lookup_result (found : option Z) (missing dflt : Z) : Z * Z :=
  match found with Some k => (CLI_IS_CMD_TRUE, k) | None => (missing, dflt) end.

(** Names of the tables do not hold a NUL. *)
Definition plain (s : string) : Prop := c_str s = s.
#[export] Instance plain_dec s : Decision (plain s).
Proof. unfold plain. apply _. Defined.

Lemma strcmp_plain s n : plain n -> (strcmp s n =? 0) = bool_decide (c_str s = n).
Proof.
  intros Hn. unfold plain in Hn. apply Bool.eq_true_iff_eq.
  by rewrite Z.eqb_eq, strcmp_eq, Hn, bool_decide_eq_true.
Qed.

Lemma index_of_Some s l : forall i k, index_of s l i = Some k ->
  i <= k < i + Z.of_nat (length l) /\ l !! Z.to_nat (k - i) = Some s.
Proof.
  induction l as [|n l IH]; intros i k; cbn [index_of]; [done|]. case_decide as Hs.
  - intros [= <-]. rewrite Z.sub_diag. subst. cbn. split; [lia|done].
  - intros Hk. apply IH in Hk as [Hr Hl]. cbn [length]. split; [lia|].
    replace (Z.to_nat (k - i)) with (S (Z.to_nat (k - (i + 1)))) by lia. done.
Qed.

Lemma index_of_None s l : forall i, index_of s l i = None <-> s ∉ l.
Proof.
  induction l as [|n l IH]; intros i; cbn [index_of].
  - split; [intros _; apply not_elem_of_nil|done].
  - rewrite not_elem_of_cons. case_decide; [by split; [|intros []]|]. rewrite IH. tauto.
Qed.

(** The loops look the name up. *)
Lemma find_cmd_run n str c0 : forall i, (i + n = length CMD_DESCRIPTORS)%nat ->
  find_cmd n (Z.of_nat i) str c0 =
  Some (lookup_result (index_of (c_str str) (drop i cmd_names) (Z.of_nat i)) CLI_IS_CMD_FALSE c0).
Proof.
  induction n as [|n IH]; intros i Hi.
  { cbn [find_cmd]. rewrite drop_ge; [done|]. unfold cmd_names. rewrite length_map. lia. }
  cbn [find_cmd]. rewrite load_nat.
  destruct (lookup_lt_is_Some_2 CMD_DESCRIPTORS i) as [d Hd]; [lia|].
  assert (cmd_names !! i = Some (cmd d)) as Hn by (unfold cmd_names; by rewrite list_lookup_fmap, Hd).
  assert (Forall plain cmd_names) as Hp by decide_now.
  rewrite Hd, (drop_S _ _ _ Hn). cbn [mbind option_bind index_of].
  rewrite strcmp_plain by exact (Forall_lookup_1 _ _ _ _ Hp Hn).
  assert (u32 (Z.of_nat i + 1) = Z.of_nat (S i)) as ->.
  { unfold u32. rewrite Z.mod_small; cbn in Hi; lia. }
  case_bool_decide; [by rewrite decide_True|]. rewrite decide_False by done.
  rewrite IH by lia. by replace (Z.of_nat i + 1) with (Z.of_nat (S i)) by lia.
Qed.

(** A table: its names, the end. *)
Definition table_ok (l : list cli_subcmd_desc_s) (names : list string) : Prop :=
  map subcmd l = map Some names ++ [None] /\ Forall plain names /\ Z.of_nat (length names) < 2 ^ 31.

Lemma table_lookup l names i : table_ok l names -> (i <= length names)%nat ->
  exists e, l !! i = Some e /\ subcmd e = names !! i.
Proof.
  intros (Hm & _ & _) Hi. assert (map subcmd l !! i = Some (names !! i)) as Hl.
  { rewrite Hm. destruct (names !! i) as [n|] eqn:E.
    - rewrite lookup_app_l by (rewrite length_map; by eapply lookup_lt_Some). by rewrite list_lookup_fmap, E.
    - apply lookup_ge_None in E. rewrite lookup_app_r, length_map by (rewrite length_map; lia).
      by replace (i - length names)%nat with 0%nat by lia. }
  rewrite list_lookup_fmap in Hl. destruct (l !! i) as [e|]; [|done]. exists e. by injection Hl as ->.
Qed.

Lemma count_run l names : table_ok l names -> forall fuel i,
  (length names < i + fuel)%nat -> (i <= length names)%nat ->
  count_subcmds fuel (Z.of_nat i) l = Some (Z.of_nat (length names)).
Proof.
  intros Ht. induction fuel as [|fuel IH]; intros i Hf Hi; [lia|]. cbn [count_subcmds]. rewrite load_nat.
  destruct (table_lookup l names i Ht Hi) as (e & -> & He). cbn [mbind option_bind]. rewrite He.
  destruct (names !! i) as [n|] eqn:E.
  - apply lookup_lt_Some in E. pose proof Ht as (_ & _ & Hb).
    assert (u32 (Z.of_nat i + 1) = Z.of_nat (S i)) as ->.
    { unfold u32. rewrite Z.mod_small; lia. }
    apply IH; lia.
  - apply lookup_ge_None in E. by replace i with (length names) by lia.
Qed.

Lemma find_subcmd_run l names str e0 : table_ok l names -> forall n i, (i + n = length names)%nat ->
  find_subcmd n (Z.of_nat i) l str e0 =
  Some (lookup_result (index_of (c_str str) (drop i names) (Z.of_nat i)) CLI_IS_CMD_FALSE e0).
Proof.
  intros Ht. induction n as [|n IH]; intros i Hi.
  { cbn [find_subcmd]. by rewrite drop_ge by lia. }
  cbn [find_subcmd]. rewrite load_nat.
  destruct (table_lookup l names i Ht) as (e & -> & He); [lia|]. cbn [mbind option_bind]. rewrite He.
  destruct (lookup_lt_is_Some_2 names i) as [s Hs]; [lia|]. rewrite Hs, (drop_S _ _ _ Hs).
  cbn [mbind option_bind index_of]. pose proof Ht as (_ & Hp & Hb).
  rewrite strcmp_plain by exact (Forall_lookup_1 _ _ _ _ Hp Hs).
  assert (u32 (Z.of_nat i + 1) = Z.of_nat (S i)) as ->.
  { unfold u32. rewrite Z.mod_small; lia. }
  case_bool_decide; [by rewrite decide_True|]. rewrite decide_False by done.
  rewrite IH by lia. by replace (Z.of_nat i + 1) with (Z.of_nat (S i)) by lia.
Qed.

(** The commands, one by one. *)
Lemma cmd_cases (P : Z -> Prop) : P 0 -> P 1 -> P 2 -> P 3 -> P 4 -> P 5 -> P 6 -> P 7 ->
  forall c, 0 <= c < CLI_CMD_KIND_COUNT -> P c.
Proof.
  intros. unfold CLI_CMD_KIND_COUNT in *.
  assert (c = 0 \/ c = 1 \/ c = 2 \/ c = 3 \/ c = 4 \/ c = 5 \/ c = 6 \/ c = 7) as Hc by lia.
  destruct_or! Hc; by rewrite Hc.
Qed.

(** ** The functions, on valid arguments *)
Section runs.
Context `{LogPolicy} {W : Type}.
Implicit Types w : W.

Lemma cmd_str_run c w : 0 <= c < CLI_CMD_KIND_COUNT ->
  cli_get_cmd_str c w = (Done (nth (Z.to_nat c) cmd_names EmptyString), w).
Proof. revert c. by apply cmd_cases. Qed.

Lemma subcmd_array_run c w : 0 <= c < CLI_CMD_KIND_COUNT -> exists subs,
  cli_get_subcmd_array c w = (Done subs, w) /\
  match subs with Some l => table_ok l (sub_names c) | None => sub_names c = [] end.
Proof.
  revert c. apply cmd_cases; (eexists; split; [reflexivity|]; try done);
    (split; [done|]; split; [decide_now|done]).
Qed.

Lemma subcmd_count_run c w : 0 <= c < CLI_CMD_KIND_COUNT ->
  cli_get_subcmd_count c w = (Done (Z.of_nat (length (sub_names c))), w).
Proof. revert c. by apply cmd_cases. Qed.

Lemma is_cmd_run str c0 w :
  cli_is_cmd (Some str) c0 w =
  (Done (lookup_result (index_of (c_str str) cmd_names 0) CLI_IS_CMD_FALSE c0), w).
Proof.
  unfold cli_is_cmd. rewrite bool_decide_eq_false_2 by done.
  unfold mbind, M_bind. change (ZF_LOGF_IF false w) with (Done tt, w). cbn [or_fault].
  change (mret (M := M W) str w) with (Done str, w). cbn iota.
  pose proof (find_cmd_run 8 str c0 0 eq_refl) as Hf. cbn [drop] in Hf.
  change (Z.to_nat CLI_CMD_KIND_COUNT) with 8%nat. change 0 with (Z.of_nat 0) at 1. by rewrite Hf.
Qed.

Lemma is_subcmd_run str c e0 w : 0 <= c < CLI_CMD_KIND_COUNT ->
  cli_is_subcmd (Some str) c e0 w =
  (Done (lookup_result (index_of (c_str str) (sub_names c) 0)
     (if bool_decide (sub_names c = []) then CLI_IS_SUBCMD_FALSE else CLI_IS_SUBCMD_MISSING) e0), w).
Proof.
  intros Hc. unfold cli_is_subcmd. rewrite bool_decide_eq_false_2 by done.
  destruct (subcmd_array_run c w Hc) as (subs & Hsubs & Ht).
  unfold mbind at 1, M_bind at 1. change (ZF_LOGF_IF false w) with (Done tt, w). cbn iota.
  rewrite (bind_done _ _ _ _ _ (subcmd_count_run c w Hc)), (bind_done _ _ _ _ _ Hsubs).
  destruct subs as [l|].
  - unfold mbind, M_bind. cbn [or_fault]. change (mret (M := M W) str w) with (Done str, w). cbn iota.
    pose proof (find_subcmd_run l _ str e0 Ht (length (sub_names c)) 0 eq_refl) as Hf. cbn [drop] in Hf.
    rewrite Nat2Z.id. change 0 with (Z.of_nat 0) at 1. rewrite Hf.
    change (Z.of_nat 0) with 0. cbn [or_fault mret M_ret].
    destruct (index_of _ _ 0) as [k|] eqn:E; cbn [lookup_result]; [by rewrite andb_false_r|].
    case_bool_decide as En; [by rewrite En|].
    by destruct (sub_names c).
  - by rewrite Ht.
Qed.

(** The look-up of names is exact.  For any string the user types, the loop
    over the commands finds it when it is, up to its first NUL, the name of a
    command, at the place of that name, which no other command shares, and
    otherwise reports that there is none and leaves the variable alone.  The same
    holds for the subcommands of every command; a name that is none is reported
    as missing for a command that has subcommands, and as not found for one
    that has none. *)
Theorem names_found (str : string) c0 c e0 w : 0 <= c < CLI_CMD_KIND_COUNT ->
  let s := c_str str in
  NoDup cmd_names /\ NoDup (sub_names c) /\
  ((exists k, cmd_names !! k = Some s /\
      cli_is_cmd (Some str) c0 w = (Done (CLI_IS_CMD_TRUE, Z.of_nat k), w)) \/
   ((s ∉ cmd_names) /\ cli_is_cmd (Some str) c0 w = (Done (CLI_IS_CMD_FALSE, c0), w))) /\
  ((exists k, sub_names c !! k = Some s /\
      cli_is_subcmd (Some str) c e0 w = (Done (CLI_IS_SUBCMD_TRUE, Z.of_nat k), w)) \/
   ((s ∉ sub_names c) /\ cli_is_subcmd (Some str) c e0 w =
      (Done (if bool_decide (sub_names c = []) then CLI_IS_SUBCMD_FALSE else CLI_IS_SUBCMD_MISSING, e0), w))).
Proof.
  intros Hc s. split; [decide_now|]. split; [revert c Hc; apply cmd_cases; decide_now|]. split.
  - rewrite is_cmd_run. fold s. destruct (index_of s cmd_names 0) as [k|] eqn:E.
    + apply index_of_Some in E as [Hr Hk]. left. exists (Z.to_nat k).
      rewrite Z2Nat.id by lia. by rewrite Z.sub_0_r in Hk.
    + apply index_of_None in E. by right.
  - rewrite is_subcmd_run by done. fold s. destruct (index_of s (sub_names c) 0) as [k|] eqn:E.
    + apply index_of_Some in E as [Hr Hk]. left. exists (Z.to_nat k).
      rewrite Z2Nat.id by lia. by rewrite Z.sub_0_r in Hk.
    + apply index_of_None in E. by right.
Qed.
End runs.

(** *** At a concrete input: a command that is none, and the subcommand that
    removes the file. *)
#[local] Existing Instance log_aborts.
Lemma names_found_witness :
  NoDup cmd_names /\ NoDup (sub_names CLI_CMD_MMC) /\
  ((exists k, cmd_names !! k = Some "rm" /\
      cli_is_cmd (Some "rm") 9 tt = (Done (CLI_IS_CMD_TRUE, Z.of_nat k), tt)) \/
   (("rm"%string ∉ cmd_names) /\ cli_is_cmd (Some "rm") 9 tt = (Done (CLI_IS_CMD_FALSE, 9), tt))) /\
  ((exists k, sub_names CLI_CMD_MMC !! k = Some "rm" /\
      cli_is_subcmd (Some "rm") CLI_CMD_MMC 9 tt = (Done (CLI_IS_SUBCMD_TRUE, Z.of_nat k), tt)) \/
   (("rm"%string ∉ sub_names CLI_CMD_MMC) /\ cli_is_subcmd (Some "rm") CLI_CMD_MMC 9 tt =
      (Done (CLI_IS_SUBCMD_MISSING, 9), tt))).
Proof. exact (names_found "rm" 9 CLI_CMD_MMC 9 tt ltac:(by vm_compute)). Defined.

Example rm_found : cli_is_subcmd (Some "rm") CLI_CMD_MMC 9 tt = (Done (CLI_IS_SUBCMD_TRUE, CLI_MMC_SUBCMD_RM), tt).
Proof. reflexivity. Qed.
End Cli.
