(* ===== verification/Console.v ===== *)
(** The console (modules/console/src/console_module.c): the execution of a
    command line on the other modules, and the thread that reads characters.
    The line editor (microrl) and the serial port are interfaces. *)
From stdpp Require Import strings.
From S2P Require Import Prelude Text Services Cli Ipc.

Module Console.
Import Cli.

(** ** What the console calls

    The time server, the MMC module and the HOBD module, over their state [W]:
    time_server_get_time, and the calls of mmc.h and hobd.h. *)
Record mmc_stats := MmcStats { mmc_timestamp : Z; mmc_entries_logged : Z }.
Record hobd_stats := HobdStats {
  hobd_timestamp : Z; valid_rx_count : Z; invalid_rx_count : Z;
  comm_gpio_retry_count : Z; comm_init_retry_count : Z }.

Class Backend (W : Type) := {
  time_server_get_time : M W Z;
  mmc_get_stats : M W mmc_stats;
  mmc_get_state : M W Z;
  mmc_set_state : Z -> M W Z;
  (** The status and the size. *)
  mmc_get_file_size : M W (Z * Z);
  mmc_rm : M W Z;
  hobd_get_stats : M W hobd_stats;
  hobd_get_comm_state : M W Z;
  hobd_set_comm_state : Z -> M W Z;
  hobd_get_listen_only : M W Z;
  hobd_set_listen_only : Z -> M W Z;
}.

(** The build: whether it is a debug build, the version strings, and the
    library's time units. *)
Class Build := {
  CONFIG_DEBUG_BUILD : bool;
  GIT_BRANCH : string;
  GIT_REVISION : string;
  NS_IN_S : Z;
  NS_IN_MINUTE : Z;
}.

Definition ENDPOINT_BADGE : Z := Ipc.IPC_ENDPOINT_BADGE Ipc.CONSOLEMOD_BASE_BADGE.
Definition NOTIFICATION_BADGE : Z := Ipc.IPC_NOTIFICATION_BADGE Ipc.CONSOLEMOD_BASE_BADGE.

(** ** Output *)
Section module.
Context `{LogPolicy} `{!Build} {W : Type} `{!Backend W}.

(** What was written to the port, and the other modules. *)
Record con_s := mk_con { out : string; peers : W }.
#[local] Abbreviation T := (M con_s).

Definition on_peers {A} (m : M W A) : T A := zoom peers (fun w s => mk_con (out s) w) m.

Definition ps_cdev_putchar (c : Ascii.ascii) : T unit :=
  modify (fun s => mk_con (String.append (out s) (String c EmptyString)) (peers s)).

(** A string up to its NUL; [None] is [NULL]. *)
Fixpoint put_chars (s : string) : T unit :=
  match s with
  | EmptyString => mret tt
  | String c s => if decide (c = NUL) then mret tt else ps_cdev_putchar c;; put_chars s
  end.
Definition console_print (str : option string) : T unit :=
  match str with None => mret tt | Some s => put_chars s end.
Definition console_println (str : option string) : T unit :=
  console_print str;;
  ps_cdev_putchar (Ascii.ascii_of_nat 10).

(** [snprintf(str, sizeof(str), ...)] of a number into a buffer of 64. *)
Definition STR_SIZE : nat := 64.
Definition snprintf (s : string) : string := String.substring 0 (STR_SIZE - 1) s.
Definition num (z : Z) : option string := Some (snprintf (dec z)).

(** ** The commands *)
Fixpoint print_subcmds (n : nat) (idx : Z) (l : list cli_subcmd_desc_s) : T unit :=
  match n with
  | O => mret tt
  | S n =>
      e ← or_fault (load l idx);
      console_print (Some "    "%string);;
      console_print (subcmd e);;
      console_println (subcmd_desc e);;
      print_subcmds n (u32 (idx + 1)) l
  end.
Fixpoint print_cmds (n : nat) (idx : Z) : T unit :=
  match n with
  | O => mret tt
  | S n =>
      s ← cli_get_cmd_str idx;
      console_print (Some s);;
      d ← cli_get_cmd_desc_str idx;
      console_println (Some d);;
      cnt ← cli_get_subcmd_count idx;
      subs ← cli_get_subcmd_array idx;
      match subs with None => mret tt | Some l => print_subcmds (Z.to_nat cnt) 0 l end;;
      print_cmds n (u32 (idx + 1))
  end.
Definition print_help : T unit :=
  console_println (Some "--- console ---"%string);;
  console_println (Some "commands:"%string);;
  print_cmds (Z.to_nat (CLI_CMD_KIND_COUNT - CLI_CMD_HELP)) CLI_CMD_HELP;;
  console_print (Some newline).

Definition print_version : T unit :=
  console_println (Some "version information"%string);;
  console_println (Some (String.append "  branch: " GIT_BRANCH));;
  console_println (Some (String.append "  revision: " GIT_REVISION)).

Definition ESC : string := String (Ascii.ascii_of_nat 27) EmptyString.
Definition clear_console : T unit :=
  console_print (Some (String.append ESC "[2J"));;
  console_print (Some (String.append ESC "[H")).

Definition print_time : T unit :=
  time_ns ← on_peers time_server_get_time;
  let time_min := time_ns / NS_IN_MINUTE in
  let time_sec := u64 (time_ns - u64 (time_min * NS_IN_MINUTE)) / NS_IN_S in
  console_print (Some "Current time: "%string);;
  console_print (num time_ns);;
  console_println (Some " ns"%string);;
  console_print (Some "Elapsed: "%string);;
  console_print (num time_min);;
  console_print (Some " min : "%string);;
  console_print (num time_sec);;
  console_println (Some " sec"%string).

(** A line with a number behind its name. *)
Definition field (name : string) (z : Z) : T unit :=
  console_print (Some name);;
  console_println (num z).

Definition print_info : T unit :=
  console_println (Some "Information, Statistics and Metrics"%string);;
  st ← on_peers mmc_get_stats;
  console_println (Some "MMC"%string);;
  field "  timestamp: " (mmc_timestamp st);;
  field "  entries_logged: " (mmc_entries_logged st);;
  console_print (Some "  enabled: "%string);;
  on ← on_peers mmc_get_state;
  console_println (num on);;
  st ← on_peers hobd_get_stats;
  console_println (Some "HOBD"%string);;
  field "  timestamp: " (hobd_timestamp st);;
  field "  valid_rx_count: " (valid_rx_count st);;
  field "  invalid_rx_count: " (invalid_rx_count st);;
  field "  comm_gpio_retry_count: " (comm_gpio_retry_count st);;
  field "  comm_init_retry_count: " (comm_init_retry_count st);;
  console_print (Some "  comm_enabled: "%string);;
  on ← on_peers hobd_get_comm_state;
  console_println (num on);;
  console_print (Some "  comm_listen_only: "%string);;
  on ← on_peers hobd_get_listen_only;
  console_println (num on).

(** The kernel prints its scheduler itself. *)
Definition print_scheduler : T unit :=
  if CONFIG_DEBUG_BUILD then
    console_println (Some "Dumping scheduler (only core 0 TCBs will be displayed?)"%string);;
    console_print (Some newline);;
    console_print (Some newline)
  else console_println (Some "Must be a debug build to do so"%string).

Definition handle_cli_cmd (c : Z) : T unit :=
  if c =? CLI_CMD_HELP then print_help
  else if c =? CLI_CMD_VERSION then print_version
  else if c =? CLI_CMD_CLEAR then clear_console
  else if c =? CLI_CMD_TIME then print_time
  else if c =? CLI_CMD_INFO then print_info
  else if c =? CLI_CMD_DEBUG_SCHEDULER then print_scheduler
  else
    s ← cli_get_cmd_str c;
    console_print (Some s);;
    console_println (Some ": not yet supported"%string).

(** ** The subcommands *)
Definition handle_mmc_subcmd (k : Z) : T unit :=
  if k =? CLI_MMC_SUBCMD_ON then
    console_println (Some "Enabling MMC file"%string);;
    state ← on_peers (mmc_set_state 1);
    field "MMC status: " state
  else if k =? CLI_MMC_SUBCMD_OFF then
    console_println (Some "Disabling MMC file"%string);;
    state ← on_peers (mmc_set_state 0);
    field "MMC status: " state
  else if k =? CLI_MMC_SUBCMD_STATUS then
    console_print (Some "MMC status: "%string);;
    state ← on_peers mmc_get_state;
    console_println (num state)
  else if k =? CLI_MMC_SUBCMD_FILE_SIZE then
    '(status, file_size) ← on_peers mmc_get_file_size;
    if status =? 0 then
      console_print (Some "MMC file size: "%string);;
      console_print (num file_size);;
      console_println (Some " bytes"%string)
    else console_println (Some "Failed to get MMC file size"%string)
  else if k =? CLI_MMC_SUBCMD_RM then
    status ← on_peers mmc_rm;
    if status =? 0 then console_println (Some "Deleted the MMC file"%string)
    else console_println (Some "Failed to delete the MMC file"%string)
  else mret tt.

Definition handle_hobd_subcmd (k : Z) : T unit :=
  if k =? CLI_HOBD_SUBCMD_ON then
    console_println (Some "Enabling HOBD comms"%string);;
    state ← on_peers (hobd_set_comm_state 1);
    field "HOBD comms status: " state
  else if k =? CLI_HOBD_SUBCMD_OFF then
    console_println (Some "Disabling HOBD comms"%string);;
    state ← on_peers (hobd_set_comm_state 0);
    field "HOBD comms status: " state
  else if k =? CLI_HOBD_SUBCMD_STATUS then
    console_print (Some "HOBD comms status: "%string);;
    state ← on_peers hobd_get_comm_state;
    console_println (num state);;
    console_print (Some "HOBD comms listen-only: "%string);;
    state ← on_peers hobd_get_listen_only;
    console_println (num state)
  else if k =? CLI_HOBD_SUBCMD_PASSIVE then
    state ← on_peers hobd_get_listen_only;
    (if state =? 0 then console_println (Some "Enabling listen-only mode"%string)
     else console_println (Some "Disabling listen-only mode"%string));;
    new_state ← on_peers (hobd_set_listen_only (if state =? 0 then 1 else 0));
    field "HOBD comms listen-only: " new_state
  else mret tt.

Definition handle_cli_subcmd (c subcmd_enum : Z) : T unit :=
  if c =? CLI_CMD_MMC then handle_mmc_subcmd subcmd_enum
  else if c =? CLI_CMD_HOBD then handle_hobd_subcmd subcmd_enum
  else mret tt.

(** ** The line editor's callbacks *)
Definition invalid : T unit := console_println (Some "Invalid subcommand/arguments"%string).

(** What follows the look-up of the command. *)
Definition exec_found (cmd_status cmd : Z) (arg0 : option string) (argc : Z) (argv : list (option string)) :
    T unit :=
  if cmd_status =? CLI_IS_CMD_TRUE then
    subcmd_cnt ← cli_get_subcmd_count cmd;
    if subcmd_cnt =? 0 then handle_cli_cmd cmd
    else
      arg1 ← (if argc <? 2 then mret None else or_fault (load argv 1));
      match arg1 with
      | None => invalid
      | Some _ =>
          '(subcmd_status, subcmd_enum) ← cli_is_subcmd arg1 cmd 0;
          if subcmd_status =? CLI_IS_SUBCMD_TRUE then handle_cli_subcmd cmd subcmd_enum
          else invalid
      end
  else
    console_print arg0;;
    console_println (Some ": command not found"%string).

(** [cmd] is not initialized; it is read when it was found only. *)
Definition console_exec (argc : Z) (argv : list (option string)) (cmd : Z) : T Z :=
  when (0 <? argc) (
    arg0 ← or_fault (load argv 0);
    '(cmd_status, cmd) ← cli_is_cmd arg0 cmd;
    console_print (Some newline);;
    exec_found cmd_status cmd arg0 argc argv);;
  mret 0.
Definition console_sigint_handler : T unit := mret tt.
End module.
Arguments con_s : clear implicits.

(** ** The thread

    What the line editor does with a character: it prints, runs the callback for
    a line with its tokens, or the one for the interrupt character. *)
Inductive rl_action :=
| RlPrint (str : option string)
| RlExec (argc : Z) (argv : list (option string))
| RlSigint.
Class LineEditor (R : Type) := {
  microrl_init : R -> R * list rl_action;
  microrl_insert_char : Z -> R -> R * list rl_action;
}.

(** An interrupt of the port: the badge of its notification, the result of its
    acknowledgement, and what the port has then; negative is nothing. *)
Record irq := Irq { irq_badge : Z; irq_ack : Z; irq_data : Z }.

Section thread.
Context `{LogPolicy} `{!Build} {W : Type} `{!Backend W} {R : Type} `{!LineEditor R}.

Record thread_s := mk_thread { g_microrl_state : R; irqs : list irq; con : con_s W }.
#[local] Abbreviation T := (M thread_s).

Definition on_con {A} (m : M (con_s W) A) : T A :=
  zoom con (fun c t => mk_thread (g_microrl_state t) (irqs t) c) m.
Definition on_editor (f : R -> R * list rl_action) : T (list rl_action) := fun t =>
  let '(r, acts) := f (g_microrl_state t) in (Done acts, mk_thread r (irqs t) (con t)).
Definition seL4_Wait : T irq := fun t =>
  match irqs t with
  | [] => (Stop Blocked, t)
  | i :: l => (Done i, mk_thread (g_microrl_state t) l (con t))
  end.

(** The callbacks the editor was given. *)
Definition callback (a : rl_action) : T unit :=
  on_con (match a with
  | RlPrint str => console_print str
  | RlExec argc argv => console_exec argc argv 0;; mret tt
  | RlSigint => console_sigint_handler
  end).
Definition callbacks (acts : list rl_action) : T unit :=
  foldr (fun a k => callback a;; k) (mret tt) acts.

Definition console_iteration : T unit :=
  i ← seL4_Wait;
  ZF_LOGF_IF (negb (irq_badge i =? NOTIFICATION_BADGE));;
  ZF_LOGF_IF (negb (irq_ack i =? 0));;
  when (0 <=? irq_data i) (
    acts ← on_editor (microrl_insert_char (irq_data i));
    callbacks acts).
Fixpoint console_loop (n : nat) : T unit :=
  match n with
  | O => mret tt
  | S n => console_iteration;; console_loop n
  end.
(** [serial_err] is the result of configuring the port. *)
Definition console_thread_fn (serial_err : Z) (n : nat) : T unit :=
  ZF_LOGF_IF (negb (serial_err =? 0));;
  acts ← on_editor microrl_init;
  callbacks acts;;
  console_loop n.
End thread.
Arguments thread_s : clear implicits.

(** ** What a command line means *)

Inductive action :=
| Nothing
| NotFound (name : string)
| BadSubcmd
| Command (c : Z)
| Subcommand (c k : Z).

(** The reference: the first token is looked up in the command names, the second
    in the names of the subcommands. *)
Definition meaning (args : list string) : action :=
  match args with
  | [] => Nothing
  | name :: args =>
      match index_of (c_str name) cmd_names 0 with
      | None => NotFound name
      | Some c =>
          match sub_names c, args with
          | [], _ => Command c
          | _, [] => BadSubcmd
          | names, arg :: _ =>
              match index_of (c_str arg) names 0 with
              | None => BadSubcmd
              | Some k => Subcommand c k
              end
          end
      end
  end.

Section dispatch.
Context `{LogPolicy} `{!Build} {W : Type} `{!Backend W}.
#[local] Abbreviation T := (M (con_s W)).

Definition perform (a : action) : T unit :=
  match a with
  | Nothing => mret tt
  | NotFound name =>
      console_print (Some newline);;
      console_print (Some name);; console_println (Some ": command not found"%string)
  | BadSubcmd => console_print (Some newline);; invalid
  | Command c => console_print (Some newline);; handle_cli_cmd c
  | Subcommand c k => console_print (Some newline);; handle_cli_subcmd c k
  end.

(** Printing appends the string up to its NUL. *)
Lemma put_chars_run str : forall s : con_s W,
  put_chars str s = (Done tt, mk_con (out s +:+ c_str str) (peers s)).
Proof.
  induction str as [|c str IH]; intros s; cbn [put_chars c_str].
  - rewrite string_app_nil. by destruct s.
  - case_decide; [rewrite string_app_nil; by destruct s|]. unfold mbind, M_bind.
    unfold ps_cdev_putchar, modify. rewrite IH. cbn [out peers]. by rewrite string_app_assoc.
Qed.
Lemma print_run str (s : con_s W) :
  console_print (Some str) s = (Done tt, mk_con (out s +:+ c_str str) (peers s)).
Proof. apply put_chars_run. Qed.
Lemma println_run str (s : con_s W) :
  console_println (Some str) s = (Done tt, mk_con (out s +:+ c_str str +:+ newline) (peers s)).
Proof.
  unfold console_println. rewrite (bind_done _ _ _ _ _ (print_run str s)).
  unfold ps_cdev_putchar, modify. cbn [out peers]. by rewrite string_app_assoc.
Qed.

Lemma when_true {S} (m : M S unit) : when true m = m.
Proof. done. Qed.

Lemma ret_unit {S} (m : M S unit) s : (m ≫= fun _ => mret 0) s =
  match m s with (Done _, s') => (Done 0, s') | (Stop k, s') => (Stop k, s') end.
Proof. done. Qed.

Lemma index_of_range s l k : index_of s l 0 = Some k -> 0 <= k < Z.of_nat (length l).
Proof. intros [Hr _]%index_of_Some. lia. Qed.

Lemma exec_meaning (args : list string) cmd s :
  console_exec (Z.of_nat (length args)) (map Some args) cmd s =
  (perform (meaning args);; mret 0) s.
Proof.
  unfold console_exec. destruct args as [|name args]; [done|].
  rewrite (proj2 (Z.ltb_lt _ _)) by (cbn; lia). rewrite when_true, !ret_unit.
  enough ((arg0 ← or_fault (load (map Some (name :: args)) 0);
    '(cmd_status, cmd0) ← cli_is_cmd arg0 cmd; console_print (Some newline);;
    exec_found cmd_status cmd0 arg0 (Z.of_nat (length (name :: args))) (map Some (name :: args))) s =
    perform (meaning (name :: args)) s) as Hin by by rewrite <- Hin.
  rewrite (bind_done _ _ s (Some name) s) by done.
  rewrite (bind_done _ _ _ _ _ (is_cmd_run name cmd s)). cbn [meaning].
  destruct (index_of (c_str name) cmd_names 0) as [c|] eqn:Ec; cbn [lookup_result].
  2: { rewrite (bind_done _ _ _ _ _ (print_run newline s)). unfold perform.
    by rewrite (bind_done _ _ _ _ _ (print_run newline s)). }
  apply index_of_range in Ec. change (Z.of_nat (length cmd_names)) with CLI_CMD_KIND_COUNT in Ec.
  rewrite (bind_done _ _ _ _ _ (print_run newline s)). set (s1 := mk_con _ _).
  assert (forall m : M (con_s W) unit, (console_print (Some newline);; m) s = m s1) as Hp.
  { intros m. by rewrite (bind_done _ _ _ _ _ (print_run newline s)). }
  unfold exec_found. rewrite Z.eqb_refl. rewrite (bind_done _ _ _ _ _ (subcmd_count_run c s1 Ec)).
  destruct (sub_names c) as [|n names] eqn:En; [by cbn [perform]; rewrite Hp|].
  change (Z.of_nat (length (n :: names)) =? 0) with false. cbn iota.
  destruct args as [|arg args]; [by cbn [perform]; rewrite Hp|].
  rewrite (proj2 (Z.ltb_ge _ _)) by (cbn; lia).
  rewrite (bind_done _ _ s1 (Some arg) s1) by done.
  pose proof (is_subcmd_run arg c 0 s1 Ec) as Hs. rewrite En in Hs.
  rewrite (bind_done _ _ _ _ _ Hs). destruct (index_of (c_str arg) (n :: names) 0);
    cbn [lookup_result perform]; by rewrite Hp.
Qed.

(** ** What is printed of a number *)

Lemma substring_all s : forall n, (String.length s <= n)%nat -> String.substring 0 n s = s.
Proof.
  induction s as [|c s IH]; intros [|n] Hn; cbn in *; [done..|lia|]. by rewrite IH by lia.
Qed.

Lemma digit_c_str d s : 0 <= d < 10 -> c_str (String (digit d) s) = String (digit d) (c_str s).
Proof. revert d. by apply digit_cases. Qed.
Lemma num_c_str fuel : forall z s, 0 <= z ->
  c_str (num_acc 10 fuel z s) = num_acc 10 fuel z (c_str s).
Proof.
  induction fuel as [|fuel IH]; intros z s Hz; pose proof (div10 z Hz) as (Hm & Hq & _); cbn [num_acc].
  - by apply digit_c_str.
  - destruct (Z.ltb_spec z 10); [apply digit_c_str; lia|]. rewrite IH by done.
    by rewrite digit_c_str.
Qed.

(** The buffer holds every number. *)
Lemma snprintf_dec z : 0 <= z -> c_str (snprintf (dec z)) = dec z.
Proof.
  intros Hz. unfold snprintf. rewrite substring_all by (pose proof (dec_length z); unfold STR_SIZE; lia).
  by apply num_c_str.
Qed.

End dispatch.

(** ** What the commands do

    The flags the commands are about: logging to the file, communication on the
    K-line, listening only. *)
Record flags := Flags { mmc_on : Z; comm_on : Z; passive : Z }.
Definition is_flag (z : Z) : Prop := z = 0 \/ z = 1.
Definition of_word (v : Z) : Z := if u32 v =? 0 then 0 else 1.

(** What the modules promise: every call returns, the calls that ask do not
    change a flag and tell it, and the calls that set one tell what it is then;
    the file can fail to be enabled. *)
Section interface.
Context {W : Type} (ok : W -> Prop) (flags_in : W -> flags).
Definition calls {A} (m : M W A) (R : flags -> flags -> A -> Prop) : Prop :=
  forall p, ok p -> wp m (fun a p' => ok p' /\ R (flags_in p) (flags_in p') a) total p.
End interface.

Class BackendSpec (W : Type) `{!Backend W} := {
  peers_ok : W -> Prop;
  flags_of : W -> flags;
  time_calls : calls peers_ok flags_of time_server_get_time (fun f f' t => f' = f /\ 0 <= t < 2 ^ 64);
  mmc_stats_calls : calls peers_ok flags_of mmc_get_stats (fun f f' st =>
    f' = f /\ 0 <= mmc_timestamp st /\ 0 <= mmc_entries_logged st);
  mmc_state_calls : calls peers_ok flags_of mmc_get_state (fun f f' v => f' = f /\ v = mmc_on f);
  mmc_set_calls v : calls peers_ok flags_of (mmc_set_state v) (fun f f' r =>
    f' = Flags r (comm_on f) (passive f) /\ is_flag r /\ (u32 v = 0 -> r = 0));
  mmc_size_calls : calls peers_ok flags_of mmc_get_file_size (fun f f' '(_, n) => f' = f /\ 0 <= n);
  mmc_rm_calls : calls peers_ok flags_of mmc_rm (fun f f' _ => f' = f);
  hobd_stats_calls : calls peers_ok flags_of hobd_get_stats (fun f f' _ => f' = f);
  comm_state_calls : calls peers_ok flags_of hobd_get_comm_state (fun f f' v => f' = f /\ v = comm_on f);
  comm_set_calls v : calls peers_ok flags_of (hobd_set_comm_state v) (fun f f' r =>
    r = of_word v /\ f' = Flags (mmc_on f) r (passive f));
  listen_only_calls : calls peers_ok flags_of hobd_get_listen_only (fun f f' v => f' = f /\ v = passive f);
  listen_set_calls v : calls peers_ok flags_of (hobd_set_listen_only v) (fun f f' r =>
    r = of_word v /\ f' = Flags (mmc_on f) (comm_on f) r);
  flags_flags p : peers_ok p -> let f := flags_of p in
    is_flag (mmc_on f) /\ is_flag (comm_on f) /\ is_flag (passive f);
}.

(** The reference: the flags after an action... *)
Definition moves (a : action) (f f' : flags) : Prop :=
  match a with
  | Subcommand c k =>
      if c =? CLI_CMD_MMC then
        if k =? CLI_MMC_SUBCMD_ON then exists v, is_flag v /\ f' = Flags v (comm_on f) (passive f)
        else if k =? CLI_MMC_SUBCMD_OFF then f' = Flags 0 (comm_on f) (passive f)
        else f' = f
      else
        if k =? CLI_HOBD_SUBCMD_ON then f' = Flags (mmc_on f) 1 (passive f)
        else if k =? CLI_HOBD_SUBCMD_OFF then f' = Flags (mmc_on f) 0 (passive f)
        else if k =? CLI_HOBD_SUBCMD_PASSIVE then f' = Flags (mmc_on f) (comm_on f) (1 - passive f)
        else f' = f
  | _ => f' = f
  end.

(** ... and the text it prints, where it tells a flag, the time or a complaint:
    the flag that is told is the one the module has after the command. *)
Definition line (l : string) : string := l +:+ newline.
Definition says `{!Build} (a : action) (f f' : flags) (txt : string) : Prop :=
  match a with
  | Nothing => txt = EmptyString
  | NotFound name => txt = line EmptyString +:+ line (c_str name +:+ ": command not found")
  | BadSubcmd => txt = line EmptyString +:+ line "Invalid subcommand/arguments"
  | Command c =>
      if c =? CLI_CMD_TIME then exists t, 0 <= t < 2 ^ 64 /\
        txt = line EmptyString +:+ line ("Current time: " +:+ dec t +:+ " ns") +:+
          line ("Elapsed: " +:+ dec (t / NS_IN_MINUTE) +:+ " min : " +:+
                dec (t mod NS_IN_MINUTE / NS_IN_S) +:+ " sec")
      else True
  | Subcommand c k =>
      if c =? CLI_CMD_MMC then
        if k =? CLI_MMC_SUBCMD_ON then
          txt = line EmptyString +:+ line "Enabling MMC file" +:+ line ("MMC status: " +:+ dec (mmc_on f'))
        else if k =? CLI_MMC_SUBCMD_OFF then
          txt = line EmptyString +:+ line "Disabling MMC file" +:+ line ("MMC status: " +:+ dec (mmc_on f'))
        else if k =? CLI_MMC_SUBCMD_STATUS then
          txt = line EmptyString +:+ line ("MMC status: " +:+ dec (mmc_on f'))
        else True
      else
        if k =? CLI_HOBD_SUBCMD_ON then
          txt = line EmptyString +:+ line "Enabling HOBD comms" +:+
            line ("HOBD comms status: " +:+ dec (comm_on f'))
        else if k =? CLI_HOBD_SUBCMD_OFF then
          txt = line EmptyString +:+ line "Disabling HOBD comms" +:+
            line ("HOBD comms status: " +:+ dec (comm_on f'))
        else if k =? CLI_HOBD_SUBCMD_STATUS then
          txt = line EmptyString +:+ line ("HOBD comms status: " +:+ dec (comm_on f')) +:+
            line ("HOBD comms listen-only: " +:+ dec (passive f'))
        else txt = line EmptyString +:+
          line (if passive f =? 0 then "Enabling listen-only mode" else "Disabling listen-only mode") +:+
          line ("HOBD comms listen-only: " +:+ dec (passive f'))
  end.

Section commands.
Context `{LogPolicy} `{!Build} {W : Type} `{!Backend W} `{!BackendSpec W}.
Hypothesis units_ok : 0 < NS_IN_S /\ 0 < NS_IN_MINUTE.
Implicit Types s : con_s W.

(** *** Printing and calling *)

Lemma wp_print str o p (Q : unit -> con_s W -> Prop) X :
  Q tt (mk_con (o +:+ c_str str) p) -> wp (console_print (Some str)) Q X (mk_con o p).
Proof. eapply wp_run, print_run. Qed.
Lemma wp_println str o p (Q : unit -> con_s W -> Prop) X :
  Q tt (mk_con (o +:+ line (c_str str)) p) -> wp (console_println (Some str)) Q X (mk_con o p).
Proof. eapply wp_run, println_run. Qed.
Lemma wp_num z o p (Q : unit -> con_s W -> Prop) X : 0 <= z ->
  Q tt (mk_con (o +:+ dec z) p) -> wp (console_print (num z)) Q X (mk_con o p).
Proof. intros Hz HQ. apply wp_print. by rewrite snprintf_dec. Qed.
Lemma wp_numln z o p (Q : unit -> con_s W -> Prop) X : 0 <= z ->
  Q tt (mk_con (o +:+ line (dec z)) p) -> wp (console_println (num z)) Q X (mk_con o p).
Proof. intros Hz HQ. apply wp_println. by rewrite snprintf_dec. Qed.

Lemma wp_call {A} (m : M W A) R o p (Q : A -> con_s W -> Prop) X :
  calls peers_ok flags_of m R -> peers_ok p ->
  (forall a p', peers_ok p' -> R (flags_of p) (flags_of p') a -> Q a (mk_con o p')) ->
  wp (on_peers m) Q X (mk_con o p).
Proof.
  intros Hm Hp HQ. apply wp_zoom. wp_use ltac:(by apply Hm); [|done].
  intros a p' [? ?]. by apply HQ.
Qed.

(** What a piece of the output does: [txt] is printed, and [R] of the flags. *)
Definition does s (R : flags -> flags -> string -> Prop) (s' : con_s W) : Prop :=
  peers_ok (peers s') /\ exists txt, out s' = out s +:+ txt /\
  R (flags_of (peers s)) (flags_of (peers s')) txt.

(** *** Text only *)
Definition prints (m : M (con_s W) unit) : Prop := forall s, 
  wp m (fun _ s' => peers s' = peers s /\ exists txt, out s' = out s +:+ txt) total s.

Lemma prints_bind m k : prints m -> prints k -> prints (m;; k).
Proof.
  intros Hm Hk s. wp_step. wp_use ltac:(apply Hm); [|done]. intros _ s1 [E1 [t1 O1]].
  wp_use ltac:(apply Hk); [|done]. intros _ s2 [E2 [t2 O2]]. rewrite E2, E1. split; [done|].
  exists (t1 +:+ t2). by rewrite O2, O1, string_app_assoc.
Qed.
Lemma prints_get {A} (m : M (con_s W) A) v k : (forall s, m s = (Done v, s)) -> prints (k v) ->
  prints (m ≫= k).
Proof. intros Hm Hk s. wp_step. by eapply wp_run; [apply Hm|]. Qed.
Lemma prints_print str : prints (console_print (Some str)).
Proof. intros [o p]. apply wp_print. split; [done|]. by eexists. Qed.
Lemma prints_println str : prints (console_println (Some str)).
Proof. intros [o p]. apply wp_println. split; [done|]. by eexists. Qed.
Lemma prints_ret : prints (mret tt).
Proof. intros s. wp_step. split; [done|]. exists EmptyString. by rewrite string_app_nil. Qed.

Lemma prints_does m s : prints m -> peers_ok (peers s) ->
  wp m (fun _ s' => does s (fun f f' _ => f' = f) s') total s.
Proof.
  intros Hm Hp. wp_use ltac:(apply Hm); [|done]. intros _ s' [E [txt Ho]]. split; [by rewrite E|].
  exists txt. by rewrite E.
Qed.

Ltac prints_steps := repeat lazymatch goal with
  | |- prints (console_print _) => apply prints_print
  | |- prints (console_println _) => apply prints_println
  | |- prints (mret _) => apply prints_ret
  | |- prints (_ ≫= _) => first [apply prints_bind | eapply prints_get; [intros ?; reflexivity|]; cbn beta]
  | |- prints (match subcmds _ with _ => _ end) => cbn [subcmds]
  end.

Lemma prints_subcmds n : forall idx l, (forall k : nat, (k < n)%nat ->
  exists name desc, l !! (Z.to_nat idx + k)%nat = Some (sub name desc)) ->
  0 <= idx -> idx + Z.of_nat n < 2 ^ 32 -> prints (print_subcmds n idx l).
Proof.
  induction n as [|n IH]; intros idx l Hl Hi Hn; cbn [print_subcmds]; [apply prints_ret|].
  destruct (Hl 0%nat) as (name & desc & E); [lia|]. rewrite Nat.add_0_r in E.
  eapply prints_get; [intros s; unfold load; rewrite decide_True, E by lia; reflexivity|].
  assert (u32 (idx + 1) = idx + 1) as -> by (unfold u32; rewrite Z.mod_small; lia).
  do 3 (apply prints_bind; [prints_steps|]). apply IH; [|lia..].
  intros k Hk. destruct (Hl (S k)) as (nm & d & E'); [lia|]. exists nm, d.
  by replace (Z.to_nat (idx + 1) + k)%nat with (Z.to_nat idx + S k)%nat by lia.
Qed.

Lemma prints_help : prints print_help.
Proof.
  unfold print_help. do 2 (apply prints_bind; [prints_steps|]). apply prints_bind; [|prints_steps].
  change (Z.to_nat (CLI_CMD_KIND_COUNT - CLI_CMD_HELP)) with 8%nat.
  cbn [print_cmds]. prints_steps.
  all: apply prints_subcmds; try done; intros k Hk; vm_compute in Hk;
    do 5 (destruct k as [|k]; [first [by do 2 eexists|lia]|]); lia.
Qed.
Lemma prints_version : prints print_version.
Proof. unfold print_version. prints_steps. Qed.
Lemma prints_clear : prints clear_console.
Proof. unfold clear_console. prints_steps. Qed.
Lemma prints_scheduler : prints print_scheduler.
Proof. unfold print_scheduler. destruct CONFIG_DEBUG_BUILD; prints_steps. Qed.

(** *** The commands that ask the modules *)

Lemma time_does s : peers_ok (peers s) ->
  wp print_time (fun _ s' => does s (fun f f' txt => f' = f /\ exists t, 0 <= t < 2 ^ 64 /\
    txt = line ("Current time: " +:+ dec t +:+ " ns") +:+
      line ("Elapsed: " +:+ dec (t / NS_IN_MINUTE) +:+ " min : " +:+
            dec (t mod NS_IN_MINUTE / NS_IN_S) +:+ " sec")) s') total s.
Proof.
  destruct s as [o p0]. cbn [peers]. intros Hp. destruct units_ok as [Hu1 Hu2]. unfold print_time. wp_step.
  eapply wp_call; [apply time_calls|done|]. intros t p Hp' [Ef Ht].
  assert (0 <= t mod NS_IN_MINUTE < NS_IN_MINUTE) as Hm by (apply Z.mod_pos_bound; lia).
  assert (t = NS_IN_MINUTE * (t / NS_IN_MINUTE) + t mod NS_IN_MINUTE) as Hdm by (apply Z.div_mod; lia).
  assert (0 <= t / NS_IN_MINUTE) by (apply Z.div_pos; lia).
  assert (u64 (t - u64 (t / NS_IN_MINUTE * NS_IN_MINUTE)) = t mod NS_IN_MINUTE) as ->.
  { assert (0 <= t / NS_IN_MINUTE * NS_IN_MINUTE) by (apply Z.mul_nonneg_nonneg; lia).
    unfold u64. rewrite (Z.mod_small (t / _ * _)) by lia. rewrite Z.mod_small; lia. }
  assert (0 <= t mod NS_IN_MINUTE / NS_IN_S) by (apply Z.div_pos; lia).
  wp_step. apply wp_print. wp_step. apply wp_num; [lia|]. wp_step. apply wp_println.
  wp_step. apply wp_print. wp_step. apply wp_num; [lia|]. wp_step. apply wp_print.
  wp_step. apply wp_num; [lia|]. apply wp_println.
  split; [done|]. eexists. split; [cbn [out]; rewrite !string_app_assoc; reflexivity|].
  split; [done|]. exists t. split; [done|]. unfold line. cbn [c_str].
  rewrite !string_app_assoc. reflexivity.
Qed.

Lemma info_does s : peers_ok (peers s) ->
  wp print_info (fun _ s' => does s (fun f f' _ => f' = f) s') total s.
Proof.
  destruct s as [o p0]. cbn [peers]. intros Hp. unfold print_info, field. wp_step. apply wp_println.
  wp_step. eapply wp_call; [apply mmc_stats_calls|done|]. intros st p1 Hp1 (E1 & Ht & He).
  wp_step. apply wp_println. wp_step. wp_step. apply wp_print. apply wp_numln; [done|].
  wp_step. wp_step. apply wp_print. apply wp_numln; [done|]. wp_step. apply wp_print.
  wp_step. eapply wp_call; [apply mmc_state_calls|done|]. intros v p2 Hp2 (E2 & _).
  wp_step. apply wp_println. wp_step. eapply wp_call; [apply hobd_stats_calls|done|].
  intros hs p3 Hp3 E3. wp_step. apply wp_println. do 5 (wp_step; wp_step; apply wp_print; apply wp_println).
  wp_step. apply wp_print. wp_step. eapply wp_call; [apply comm_state_calls|done|].
  intros v4 p4 Hp4 (E4 & _). wp_step. apply wp_println. wp_step. apply wp_print.
  wp_step. eapply wp_call; [apply listen_only_calls|done|]. intros v5 p5 Hp5 (E5 & _). apply wp_println.
  split; [done|]. eexists. split; [cbn [out]; rewrite !string_app_assoc; reflexivity|].
  cbn [peers]. by rewrite E5, E4, E3, E2, E1.
Qed.

(** The flags of the modules, as numbers that are printed. *)
Lemma flag_nonneg p : peers_ok p -> let f := flags_of p in 0 <= mmc_on f /\ 0 <= comm_on f /\ 0 <= passive f.
Proof. intros Hp. cbn zeta. destruct (flags_flags p Hp) as (H1 & H2 & H3). unfold is_flag in *. lia. Qed.

Ltac text_done := eexists; split; [cbn [out]; rewrite ?string_app_assoc; reflexivity|];
  cbn [peers]; unfold line; cbn [c_str]; rewrite ?string_app_assoc.

(** The subcommands, after the line that was ended. *)
Lemma mmc_does k s : peers_ok (peers s) ->
  wp (handle_mmc_subcmd k) (fun _ s' => does s (fun f f' txt =>
    moves (Subcommand CLI_CMD_MMC k) f f' /\
    says (Subcommand CLI_CMD_MMC k) f f' (newline +:+ txt)) s') total s.
Proof.
  destruct s as [o p0]. cbn [peers]. intros Hp. unfold handle_mmc_subcmd, moves, says, field. cbn [Z.eqb]. rewrite Z.eqb_refl.
  destruct (Z.eqb_spec k CLI_MMC_SUBCMD_ON); [|destruct (Z.eqb_spec k CLI_MMC_SUBCMD_OFF);
    [|destruct (Z.eqb_spec k CLI_MMC_SUBCMD_STATUS); [|destruct (Z.eqb_spec k CLI_MMC_SUBCMD_FILE_SIZE);
    [|destruct (Z.eqb_spec k CLI_MMC_SUBCMD_RM)]]]].
  - wp_step. apply wp_println. wp_step. eapply wp_call; [apply mmc_set_calls|done|].
    intros r p Hp' (Ef & Hr & _). wp_step. apply wp_print. pose proof (flag_nonneg p Hp') as (H1 & _).
    rewrite Ef in H1. apply wp_numln; [done|]. split; [done|]. text_done. split; [by exists r|].
    by rewrite Ef.
  - wp_step. apply wp_println. wp_step. eapply wp_call; [apply mmc_set_calls|done|].
    intros r p Hp' (Ef & Hr & Hoff). rewrite Hoff in * by done. wp_step. apply wp_print.
    apply wp_numln; [done|]. split; [done|]. text_done. split; [done|]. by rewrite Ef.
  - wp_step. apply wp_print. wp_step. eapply wp_call; [apply mmc_state_calls|done|].
    intros r p Hp' (Ef & ->). pose proof (flag_nonneg p Hp') as (H1 & _). rewrite Ef in H1.
    apply wp_numln; [done|]. split; [done|]. text_done. split; [done|]. by rewrite Ef.
  - wp_step. eapply wp_call; [apply mmc_size_calls|done|]. intros [r size] p Hp' (Ef & Hn). cbn beta iota.
    destruct (_ =? 0).
    + wp_step. apply wp_print. wp_step. apply wp_num; [done|]. apply wp_println. split; [done|].
      by text_done.
    + apply wp_println. split; [done|]. by text_done.
  - wp_step. eapply wp_call; [apply mmc_rm_calls|done|]. intros r p Hp' Ef.
    destruct (_ =? 0); apply wp_println; (split; [done|]); by text_done.
  - wp_step. split; [done|]. exists EmptyString. by rewrite string_app_nil.
Qed.

Lemma hobd_does k s : 0 <= k < 4 -> peers_ok (peers s) ->
  wp (handle_hobd_subcmd k) (fun _ s' => does s (fun f f' txt =>
    moves (Subcommand CLI_CMD_HOBD k) f f' /\
    says (Subcommand CLI_CMD_HOBD k) f f' (newline +:+ txt)) s') total s.
Proof.
  destruct s as [o p0]. cbn [peers]. intros Hk Hp. unfold handle_hobd_subcmd, moves, says, field.
  change (CLI_CMD_HOBD =? CLI_CMD_MMC) with false. cbn iota.
  destruct (Z.eqb_spec k CLI_HOBD_SUBCMD_ON); [|destruct (Z.eqb_spec k CLI_HOBD_SUBCMD_OFF);
    [|destruct (Z.eqb_spec k CLI_HOBD_SUBCMD_STATUS) as [->|];
      [|destruct (Z.eqb_spec k CLI_HOBD_SUBCMD_PASSIVE)]]].
  - wp_step. apply wp_println. wp_step. eapply wp_call; [apply comm_set_calls|done|].
    intros r p Hp' (-> & Ef). wp_step. apply wp_print. apply wp_numln; [done|]. split; [done|].
    text_done. by rewrite Ef.
  - wp_step. apply wp_println. wp_step. eapply wp_call; [apply comm_set_calls|done|].
    intros r p Hp' (-> & Ef). wp_step. apply wp_print. apply wp_numln; [done|]. split; [done|].
    text_done. by rewrite Ef.
  - wp_step. apply wp_print. wp_step. eapply wp_call; [apply comm_state_calls|done|].
    intros r p Hp' (E1 & ->). pose proof (flag_nonneg _ Hp) as (_ & H2 & H3).
    wp_step. apply wp_numln; [done|]. wp_step. apply wp_print.
    wp_step. eapply wp_call; [apply listen_only_calls|done|]. intros r p2 Hp2 (E2 & ->).
    apply wp_numln; [by rewrite E1|]. split; [done|]. text_done.
    by rewrite E2, E1.
  - wp_step. eapply wp_call; [apply listen_only_calls|done|]. intros r p Hp' (E1 & ->).
    destruct (flags_flags _ Hp) as (_ & _ & Hpass).
    wp_step. destruct Hpass as [E0|E0]; rewrite E0; cbn [Z.eqb Pos.eqb]; apply wp_println;
      (wp_step; eapply wp_call; [apply listen_set_calls|done|]; intros r p2 Hp2 (-> & E2);
       wp_step; apply wp_print; apply wp_numln; [done|]; split; [done|]; text_done;
       by rewrite E2, E1, E0).
  - exfalso. unfold CLI_HOBD_SUBCMD_ON, CLI_HOBD_SUBCMD_OFF, CLI_HOBD_SUBCMD_STATUS,
      CLI_HOBD_SUBCMD_PASSIVE in *. lia.
Qed.

Lemma cmd_does c s : 0 <= c < CLI_CMD_KIND_COUNT -> peers_ok (peers s) ->
  wp (handle_cli_cmd c) (fun _ s' => does s (fun f f' txt =>
    moves (Command c) f f' /\ says (Command c) f f' (newline +:+ txt)) s') total s.
Proof.
  intros Hc Hp. unfold handle_cli_cmd, moves, says.
  assert (forall m : M (con_s W) unit, wp m (fun _ s' => does s (fun f f' _ => f' = f) s') total s ->
    wp m (fun _ s' => does s (fun f f' _ => f' = f /\ True) s') total s) as Hweak.
  { intros m Hm. wp_use ltac:(exact Hm); [|done]. intros _ s' (Hp' & txt & Ho & Hf). split; [done|]. by exists txt. }
  destruct (Z.eqb_spec c CLI_CMD_HELP) as [->|]; [by apply Hweak, prints_does, Hp; apply prints_help|].
  destruct (Z.eqb_spec c CLI_CMD_VERSION) as [->|]; [by apply Hweak, prints_does, Hp; apply prints_version|].
  destruct (Z.eqb_spec c CLI_CMD_CLEAR) as [->|]; [by apply Hweak, prints_does, Hp; apply prints_clear|].
  destruct (Z.eqb_spec c CLI_CMD_TIME) as [->|].
  { wp_use ltac:(by apply time_does); [|done]. intros _ s' (Hp' & txt & Ho & Hf & t & Ht & ->).
    split; [done|]. eexists. split; [exact Ho|]. split; [done|]. by exists t. }
  destruct (Z.eqb_spec c CLI_CMD_INFO) as [->|]; [by apply Hweak, info_does|].
  destruct (Z.eqb_spec c CLI_CMD_DEBUG_SCHEDULER) as [->|];
    [by apply Hweak, prints_does, Hp; apply prints_scheduler|].
  assert (c = CLI_CMD_MMC \/ c = CLI_CMD_HOBD) as [->| ->].
  { unfold CLI_CMD_KIND_COUNT, CLI_CMD_HELP, CLI_CMD_VERSION, CLI_CMD_CLEAR, CLI_CMD_TIME, CLI_CMD_INFO,
      CLI_CMD_DEBUG_SCHEDULER, CLI_CMD_MMC, CLI_CMD_HOBD in *. lia. }
  all: apply Hweak, prints_does, Hp; eapply prints_get; [intros s'; reflexivity|prints_steps].
Qed.

(** What an action names is in the tables. *)
Definition in_tables (a : action) : Prop :=
  match a with
  | Command c => 0 <= c < CLI_CMD_KIND_COUNT
  | Subcommand c k => c = CLI_CMD_MMC \/ c = CLI_CMD_HOBD /\ 0 <= k < 4
  | _ => True
  end.
Lemma meaning_in_tables args : in_tables (meaning args).
Proof.
  destruct args as [|name args]; [done|]. cbn [meaning].
  destruct (index_of (c_str name) cmd_names 0) as [c|] eqn:Ec; [|done].
  apply index_of_range in Ec. change (Z.of_nat (length cmd_names)) with 8 in Ec.
  assert (c < 6 \/ c = 6 \/ c = 7) as [Hc|[->| ->]] by lia.
  - assert (sub_names c = []) as ->; [|done].
    assert (c = 0 \/ c = 1 \/ c = 2 \/ c = 3 \/ c = 4 \/ c = 5) as Hcs by lia.
    by destruct_or! Hcs; rewrite Hcs.
  - change (in_tables (match args with [] => BadSubcmd | arg :: _ =>
      match index_of (c_str arg) (sub_names 6) 0 with None => BadSubcmd | Some k => Subcommand 6 k end end)).
    destruct args as [|arg args]; [done|]. destruct (index_of _ _ _); [by left|done].
  - change (in_tables (match args with [] => BadSubcmd | arg :: _ =>
      match index_of (c_str arg) (sub_names 7) 0 with None => BadSubcmd | Some k => Subcommand 7 k end end)).
    destruct args as [|arg args]; [done|]. destruct (index_of _ _ _) as [k|] eqn:Ek; [|done].
    apply index_of_range in Ek. by right.
Qed.

Lemma perform_does a s : in_tables a -> peers_ok (peers s) ->
  wp (perform a) (fun _ s' => does s (fun f f' txt => moves a f f' /\ says a f f' txt) s') total s.
Proof.
  destruct s as [o p]. cbn [peers]. intros Ha Hp. destruct a as [|name| |c|c k]; cbn [perform].
  - wp_step. split; [done|]. exists EmptyString. by rewrite string_app_nil.
  - wp_step. apply wp_print. wp_step. apply wp_print. apply wp_println. split; [done|].
    cbn [says]. by text_done.
  - wp_step. apply wp_print. apply wp_println. split; [done|]. by text_done.
  - wp_step. apply wp_print. wp_use ltac:(by apply cmd_does); [|done].
    intros _ s' (Hp' & txt & Ho & Hm). split; [done|]. exists (newline +:+ txt).
    split; [|done]. rewrite Ho. cbn [out]. by rewrite string_app_assoc.
  - wp_step. apply wp_print. unfold handle_cli_subcmd.
    destruct Ha as [->|[-> Hk]].
    + change (CLI_CMD_MMC =? CLI_CMD_MMC) with true. wp_use ltac:(by apply mmc_does); [|done].
      intros _ s' (Hp' & txt & Ho & Hm). split; [done|]. exists (newline +:+ txt).
      split; [|done]. rewrite Ho. cbn [out]. by rewrite string_app_assoc.
    + change (CLI_CMD_HOBD =? CLI_CMD_MMC) with false. change (CLI_CMD_HOBD =? CLI_CMD_HOBD) with true.
      wp_use ltac:(by apply hobd_does); [|done].
      intros _ s' (Hp' & txt & Ho & Hm). split; [done|]. exists (newline +:+ txt).
      split; [|done]. rewrite Ho. cbn [out]. by rewrite string_app_assoc.
Qed.

(** A command line: it always returns 0. *)
Lemma exec_does args cmd s : peers_ok (peers s) ->
  wp (console_exec (Z.of_nat (length args)) (map Some args) cmd) (fun r s' => r = 0 /\
    does s (fun f f' txt => moves (meaning args) f f' /\ says (meaning args) f f' txt) s') total s.
Proof.
  intros Hp. unfold wp at 1. rewrite exec_meaning. apply wp_bind.
  wp_use ltac:(apply perform_does; [apply meaning_in_tables|done]); [|done]. intros _ s' Hd. by wp_step.
Qed.
End commands.

(** ** What the other modules see of a command

    The calls an action makes, without the text. *)
Section calls.
Context `{LogPolicy} `{!Build} {W : Type} `{!Backend W}.

Definition mmc_calls_of (k : Z) : M W unit :=
  if k =? CLI_MMC_SUBCMD_ON then mmc_set_state 1;; mret tt
  else if k =? CLI_MMC_SUBCMD_OFF then mmc_set_state 0;; mret tt
  else if k =? CLI_MMC_SUBCMD_STATUS then mmc_get_state;; mret tt
  else if k =? CLI_MMC_SUBCMD_FILE_SIZE then mmc_get_file_size;; mret tt
  else if k =? CLI_MMC_SUBCMD_RM then mmc_rm;; mret tt
  else mret tt.
Definition hobd_calls_of (k : Z) : M W unit :=
  if k =? CLI_HOBD_SUBCMD_ON then hobd_set_comm_state 1;; mret tt
  else if k =? CLI_HOBD_SUBCMD_OFF then hobd_set_comm_state 0;; mret tt
  else if k =? CLI_HOBD_SUBCMD_STATUS then hobd_get_comm_state;; hobd_get_listen_only;; mret tt
  else if k =? CLI_HOBD_SUBCMD_PASSIVE then
    v ← hobd_get_listen_only; hobd_set_listen_only (if v =? 0 then 1 else 0);; mret tt
  else mret tt.
Definition calls_of (a : action) : M W unit :=
  match a with
  | Command c =>
      if c =? CLI_CMD_TIME then time_server_get_time;; mret tt
      else if c =? CLI_CMD_INFO then
        mmc_get_stats;; mmc_get_state;; hobd_get_stats;; hobd_get_comm_state;; hobd_get_listen_only;; mret tt
      else mret tt
  | Subcommand c k => if c =? CLI_CMD_MMC then mmc_calls_of k else hobd_calls_of k
  | _ => mret tt
  end.

(** [m] does to the other modules what [k] does. *)
Definition shows_calls (m : M (con_s W) unit) (k : M W unit) : Prop := forall o p Q X,
  wp k Q X p -> wp m (fun a s' => Q a (peers s')) (fun e s' => X e (peers s')) (mk_con o p).

Lemma shows_text m k : shows_calls m k -> forall str, shows_calls (console_print (Some str);; m) k.
Proof. intros Hm str o p Q X Hk. wp_step. apply wp_print. by apply Hm. Qed.
Lemma shows_line m k : shows_calls m k -> forall str, shows_calls (console_println (Some str);; m) k.
Proof. intros Hm str o p Q X Hk. wp_step. apply wp_println. by apply Hm. Qed.
Lemma shows_call {A} (c : M W A) f k : (forall a, shows_calls (f a) (k a)) -> shows_calls (a ← on_peers c; f a) (c ≫= k).
Proof.
  intros Hf o p Q X Hk. wp_step. apply wp_zoom. apply wp_bind_inv in Hk.
  wp_use ltac:(exact Hk); [|done]. intros a p' Ha. by apply Hf.
Qed.
Lemma shows_prints m : (forall s, wp m (fun _ s' => peers s' = peers s /\ exists txt, out s' = out s +:+ txt) total s) ->
  shows_calls m (mret tt).
Proof.
  intros Hm o p Q X HQ. wp_use ltac:(apply Hm); [|done]. intros [] s' [E _]. by rewrite E.
Qed.
Lemma shows_last str : shows_calls (console_println (Some str)) (mret tt).
Proof. apply shows_prints. intros [o p]. apply wp_println. split; [done|]. by eexists. Qed.
Lemma shows_field m k : shows_calls m k -> forall name z, shows_calls (field name z;; m) k.
Proof.
  intros Hm name z o p Q X Hk. wp_step. unfold field. wp_step. apply wp_print, wp_println. by apply Hm.
Qed.
Lemma shows_last_field name z : shows_calls (field name z) (mret tt).
Proof. apply shows_text, shows_last. Qed.

Ltac shows_steps := repeat first
  [ apply shows_last | apply shows_last_field | apply shows_text | apply shows_line | apply shows_field
  | apply shows_call; intros ? ].

Lemma shows_mmc k : shows_calls (handle_mmc_subcmd k) (mmc_calls_of k).
Proof.
  unfold handle_mmc_subcmd, mmc_calls_of. repeat case_match; shows_steps.
  - destruct a as [r n]. destruct (r =? 0); shows_steps.
  - destruct (_ =? 0); shows_steps.
  - intros o p Q X HQ. exact HQ.
Qed.
Lemma shows_hobd k : shows_calls (handle_hobd_subcmd k) (hobd_calls_of k).
Proof.
  unfold handle_hobd_subcmd, hobd_calls_of. repeat case_match; shows_steps.
  - destruct (a =? 0); shows_steps.
  - intros o p Q X HQ. exact HQ.
Qed.

Lemma shows_action a : in_tables a -> shows_calls (perform a) (calls_of a).
Proof.
  intros Ha. destruct a as [|name| |c|c k]; cbn [perform calls_of].
  - intros o p Q X HQ. exact HQ.
  - shows_steps.
  - unfold invalid. shows_steps.
  - apply shows_text. unfold handle_cli_cmd.
    destruct (Z.eqb_spec c CLI_CMD_HELP) as [->|]; [apply shows_prints, prints_help|].
    destruct (Z.eqb_spec c CLI_CMD_VERSION) as [->|]; [apply shows_prints, prints_version|].
    destruct (Z.eqb_spec c CLI_CMD_CLEAR) as [->|]; [apply shows_prints, prints_clear|].
    destruct (Z.eqb_spec c CLI_CMD_TIME) as [->|]; [unfold print_time; shows_steps|].
    destruct (Z.eqb_spec c CLI_CMD_INFO) as [->|]; [unfold print_info; shows_steps|].
    destruct (Z.eqb_spec c CLI_CMD_DEBUG_SCHEDULER) as [->|]; [apply shows_prints, prints_scheduler|].
    intros o p Q X HQ. wp_step. eapply wp_run; [by apply cmd_str_run|].
    eapply (shows_text _ _ (shows_last _)), HQ.
  - apply shows_text. unfold handle_cli_subcmd. destruct Ha as [->|[-> _]].
    + apply shows_mmc.
    + change (CLI_CMD_HOBD =? CLI_CMD_MMC) with false. rewrite Z.eqb_refl. apply shows_hobd.
Qed.

(** A command line, as the other modules see it. *)
Lemma exec_calls args cmd s Q X : wp (calls_of (meaning args)) Q X (peers s) ->
  wp (console_exec (Z.of_nat (length args)) (map Some args) cmd) (fun _ s' => Q tt (peers s'))
    (fun k s' => X k (peers s')) s.
Proof.
  intros Hw. unfold wp at 1. rewrite exec_meaning. apply wp_bind. destruct s as [o p].
  wp_use ltac:(by apply (shows_action _ (meaning_in_tables args) o p Q X)); [|done].
  intros [] s' HQ. by wp_step.
Qed.
End calls.

(** ** The thread serves its interrupts *)

(** What the line editor promises: it runs the callback for a line with its
    tokens, and their number. *)
Definition action_ok (a : rl_action) : Prop :=
  match a with
  | RlExec argc argv => exists args, argc = Z.of_nat (length args) /\ argv = map Some args
  | _ => True
  end.
Class LineEditorSpec (R : Type) `{!LineEditor R} := {
  editor_ok : R -> Prop;
  init_ok r : editor_ok (microrl_init r).1 /\ Forall action_ok (microrl_init r).2;
  insert_ok c r : editor_ok r ->
    editor_ok (microrl_insert_char c r).1 /\ Forall action_ok (microrl_insert_char c r).2;
}.

Section serving.
Context `{LogPolicy} `{!Build} {W : Type} `{!Backend W} `{!BackendSpec W}.
Context {R : Type} `{!LineEditor R} `{!LineEditorSpec R}.
Hypothesis units_ok : 0 < NS_IN_S /\ 0 < NS_IN_MINUTE.
Implicit Types t : thread_s W R.

Definition thread_ok t : Prop := editor_ok (g_microrl_state t) /\ peers_ok (peers (con t)).
Definition irq_ok (i : irq) : Prop := irq_badge i = NOTIFICATION_BADGE /\ irq_ack i = 0.

Lemma callbacks_safe acts : Forall action_ok acts -> forall t, thread_ok t ->
  wp (callbacks acts) (fun _ t' => thread_ok t' /\ irqs t' = irqs t) total t.
Proof.
  induction 1 as [|a acts Ha _ IH]; intros t [He Hp]; unfold callbacks; cbn [foldr]; [by wp_step|].
  assert (wp (callback a) (fun _ t' => thread_ok t' /\ irqs t' = irqs t) total t) as Hcb.
  { apply wp_zoom. destruct (con t) as [o p] eqn:Ec. destruct a as [[str|]|argc argv|].
    - by apply wp_print.
    - cbn [console_print]. by wp_step.
    - destruct Ha as (args & -> & ->). wp_step. wp_use ltac:(by apply exec_does); [|done].
      intros r s' (_ & Hp' & _). by wp_step.
    - unfold console_sigint_handler. by wp_step. }
  wp_step. wp_use ltac:(exact Hcb); [|done]. intros _ t1 [Ht1 E1].
  wp_use ltac:(by apply IH); [|done]. intros _ t2 [Ht2 E2]. by rewrite E2.
Qed.

Lemma editor_safe f t (Q : list rl_action -> thread_s W R -> Prop) X : thread_ok t ->
  editor_ok (f (g_microrl_state t)).1 /\ Forall action_ok (f (g_microrl_state t)).2 ->
  (forall acts t', thread_ok t' -> irqs t' = irqs t -> Forall action_ok acts -> Q acts t') ->
  wp (on_editor f) Q X t.
Proof.
  intros [_ Hp] Hf HQ. unfold wp, on_editor. destruct (f (g_microrl_state t)) as [r acts].
  destruct Hf as [Hr Ha]. by apply HQ.
Qed.

Lemma console_iteration_safe i l t : thread_ok t -> irqs t = i :: l -> irq_ok i ->
  wp console_iteration (fun _ t' => thread_ok t' /\ irqs t' = l) total t.
Proof.
  intros [He Hp] Hi [Hb Ha]. unfold console_iteration. wp_step.
  unfold wp at 1, seL4_Wait. rewrite Hi. rewrite Hb, Ha. wp_step. wp_step; [done|].
  wp_step. wp_step; [done|]. wp_step; [|by intros _]. intros _. wp_step.
  apply editor_safe; [done|by apply insert_ok|]. intros acts t1 Ht1 E1 Hacts.
  wp_use ltac:(by apply callbacks_safe); [|done]. intros _ t2 [Ht2 E2]. by rewrite E2, E1.
Qed.

Lemma console_loop_safe n : forall t, thread_ok t -> Forall irq_ok (irqs t) ->
  (n <= length (irqs t))%nat ->
  wp (console_loop n) (fun _ t' => thread_ok t' /\ irqs t' = drop n (irqs t)) total t.
Proof.
  induction n as [|n IH]; intros t Ht Hok Hn; cbn [console_loop]; [by wp_step|].
  destruct (irqs t) as [|i l] eqn:Ei; [cbn in Hn; lia|]. apply Forall_cons_iff in Hok as [Hi Hl].
  wp_step. wp_use ltac:(by apply (console_iteration_safe i l)); [|done]. intros _ t1 [Ht1 E1].
  rewrite <- E1 in Hl. wp_use ltac:(apply IH; [done|done|rewrite E1; cbn in Hn; lia]); [|done].
  intros _ t2 [Ht2 E2]. by rewrite E2, E1.
Qed.

Lemma thread_fn_safe n t : peers_ok (peers (con t)) -> Forall irq_ok (irqs t) ->
  (n <= length (irqs t))%nat ->
  wp (console_thread_fn 0 n) (fun _ t' => thread_ok t' /\ irqs t' = drop n (irqs t)) total t.
Proof.
  intros Hp Hok Hn. unfold console_thread_fn. wp_step. wp_step; [done|]. wp_step.
  unfold wp, on_editor. pose proof (init_ok (g_microrl_state t)) as [Hr Ha].
  destruct (microrl_init (g_microrl_state t)) as [r acts]. cbn [fst snd] in Hr, Ha.
  change (wp (callbacks acts;; console_loop n)
    (fun _ t' => thread_ok t' /\ irqs t' = drop n (irqs t)) total (mk_thread r (irqs t) (con t))).
  wp_step. wp_use ltac:(by apply callbacks_safe); [|done]. intros _ t1 [Ht1 E1]. cbn [irqs] in E1.
  wp_use ltac:(apply console_loop_safe; [done|by rewrite E1|by rewrite E1]); [|done].
  intros _ t2 [Ht2 E2]. by rewrite E2, E1.
Qed.
End serving.

(** ** Properties *)

Section properties.
Context `{LogPolicy} `{!Build} {W : Type} `{!Backend W}.

(** C38: a command line does what it means.  For every list of tokens, whatever
    they are and however many follow, executing it is performing its meaning:
    nothing for an empty line, the one command or subcommand the names stand
    for, and a complaint otherwise. *)
Theorem exec_dispatch (args : list string) cmd s :
  console_exec (Z.of_nat (length args)) (map Some args) cmd s =
  (perform (meaning args);; mret 0) s.
Proof. apply exec_meaning. Qed.
End properties.
End Console.
