(* ===== verification/Commands.v ===== *)
(** The console's commands on the real modules: the HOBD module and the MMC
    module behind the console's calls, what each command line does to them and
    what it prints. *)
From stdpp Require Import strings.
From S2P Require Import Prelude Text Services Ipc MmcEntry MmcFile MmcModule MmcCalls Parser Comm HobdModule Cli Console.

Module Commands.
Import Ipc Cli Console.

Section peers.
Context `{LogPolicy} `{!Build} `{!Kernel} `{!KernelSpec}.
Context {F T : Type} `{!MmcFile.Fat F} `{!MmcFile.FatSpec F} `{!TimeServer T} `{!TimeServerSpec T}.
Context `{!Comm.Hw} {W : Type} `{!Services W} `{!ServicesSpec W}.

(** The console thread's registers and the two threads it calls; the time server
    is the one behind the MMC module. *)
Record peers_s := mk_peers {
  p_regs : regs; p_mmc : MmcModule.mmc_s F T; p_hobd : HobdModule.thread_s W }.

Definition on_mmc {A} (m : M (client (MmcModule.mmc_s F T)) A) : M peers_s A :=
  zoom (fun p => mk_client (p_regs p) (p_mmc p)) (fun c p => mk_peers (c_regs c) (c_peer c) (p_hobd p)) m.
Definition on_hobd {A} (m : M (client (HobdModule.thread_s W)) A) : M peers_s A :=
  zoom (fun p => mk_client (p_regs p) (p_hobd p)) (fun c p => mk_peers (c_regs c) (p_mmc p) (c_peer c)) m.

#[local] Instance modules : Backend peers_s := {|
  Console.time_server_get_time := on_mmc (zoom c_peer (fun p c => mk_client (c_regs c) p) MmcModule.peer_time);
  Console.mmc_get_stats := st ← on_mmc (MmcModule.mmc_get_stats MmcCalls.serve);
    mret (MmcStats (MmcModule.timestamp st) (MmcModule.entries_logged st));
  Console.mmc_get_state := on_mmc (MmcModule.mmc_get_state MmcCalls.serve);
  Console.mmc_set_state v := on_mmc (MmcModule.mmc_set_state MmcCalls.serve v);
  Console.mmc_get_file_size := on_mmc (MmcModule.mmc_get_file_size MmcCalls.serve);
  Console.mmc_rm := on_mmc (MmcModule.mmc_rm MmcCalls.serve);
  Console.hobd_get_stats := st ← on_hobd (HobdModule.hobd_get_stats HobdModule.serve);
    mret (HobdStats (Comm.timestamp st) (Comm.valid_rx_count st) (Comm.invalid_rx_count st)
      (Comm.gpio_retry_count st) (Comm.init_retry_count st));
  Console.hobd_get_comm_state := on_hobd (HobdModule.hobd_get_comm_state HobdModule.serve);
  Console.hobd_set_comm_state v := on_hobd (HobdModule.hobd_set_comm_state HobdModule.serve v);
  Console.hobd_get_listen_only := on_hobd (HobdModule.hobd_get_listen_only HobdModule.serve);
  Console.hobd_set_listen_only v := on_hobd (HobdModule.hobd_set_listen_only HobdModule.serve v);
|}.

(** The flags the commands are about. *)
Definition peers_flags (p : peers_s) : flags :=
  Flags (MmcFile.enabled (MmcFile.file (MmcModule.fsys (p_mmc p))))
    (Comm.enabled (Comm.g_comm (HobdModule.hobd (p_hobd p))))
    (Comm.listen_only (Comm.g_comm (HobdModule.hobd (p_hobd p)))).
Definition hobd_ok (t : HobdModule.thread_s W) : Prop :=
  regs_ok (HobdModule.g_regs t) /\
  let s := HobdModule.hobd t in
  services_ok (Comm.services s) /\ Parser.counts_ok (Comm.g_msg_parser s) /\
  HobdModule.stats_ok (Comm.stats s) /\
  is_flag (Comm.enabled (Comm.g_comm s)) /\ is_flag (Comm.listen_only (Comm.g_comm s)).
Definition modules_ok (p : peers_s) : Prop :=
  regs_ok (p_regs p) /\ MmcCalls.mod_ok (p_mmc p) /\ hobd_ok (p_hobd p).

Lemma u32_is_flag z : is_flag z -> u32 z = z.
Proof. by intros [->| ->]. Qed.

(** *** What each call does to the flags *)

Lemma on_mmc_spec {A} (m : M (client (MmcModule.mmc_s F T)) A) (R : flags -> flags -> A -> Prop) p :
  modules_ok p ->
  (MmcCalls.calls_ok (mk_client (p_regs p) (p_mmc p)) ->
   wp m (fun a c => MmcCalls.calls_ok c /\ R (peers_flags p) (peers_flags (mk_peers (c_regs c) (c_peer c) (p_hobd p))) a)
     total (mk_client (p_regs p) (p_mmc p))) ->
  wp (on_mmc m) (fun a p' => modules_ok p' /\ R (peers_flags p) (peers_flags p') a) total p.
Proof.
  intros (Hr & Hm & Hh) Hwp. unfold on_mmc. apply wp_zoom. wp_use ltac:(by apply Hwp); [|done].
  intros a c [[Hr' Hm'] HR]. by split.
Qed.

Lemma modules_time_calls : calls modules_ok peers_flags Console.time_server_get_time (fun f f' t => f' = f /\ 0 <= t < 2 ^ 64).
Proof.
  intros p Hp. apply (on_mmc_spec _ (fun f f' t => f' = f /\ 0 <= t < 2 ^ 64)); [done|].
  intros (Hr & Hf & Hmr & Ht & Hst). apply wp_zoom. unfold MmcModule.peer_time, MmcModule.svc. apply wp_zoom.
  wp_use ltac:(by apply ts_get_time_spec); [|done]. by intros t w (Hw & Htr & _).
Qed.

Lemma modules_mmc_state_calls : calls modules_ok peers_flags Console.mmc_get_state (fun f f' v => f' = f /\ v = mmc_on f).
Proof.
  intros p Hp. apply (on_mmc_spec _ (fun f f' v => f' = f /\ v = mmc_on f)); [done|]. intros Hc.
  wp_use ltac:(by apply MmcCalls.get_state_wp); [|done]. intros v c' (Hc' & _ & _ & Ef & [= ->]).
  split; [done|]. unfold peers_flags. cbn [p_mmc p_hobd mmc_on]. by rewrite Ef.
Qed.

Lemma modules_mmc_set_calls v : calls modules_ok peers_flags (Console.mmc_set_state v) (fun f f' r =>
  f' = Flags r (comm_on f) (passive f) /\ is_flag r /\ (u32 v = 0 -> r = 0)).
Proof.
  intros p Hp. apply (on_mmc_spec _ (fun f f' r =>
    f' = Flags r (comm_on f) (passive f) /\ is_flag r /\ (u32 v = 0 -> r = 0))); [done|]. intros Hc.
  wp_use ltac:(by apply MmcCalls.set_state_wp); [|done].
  intros r c' (Hc' & _ & _ & [= ->] & Hoff & _). split; [done|]. split; [done|]. split; [apply Hc'|done].
Qed.

Lemma modules_mmc_size_calls : calls modules_ok peers_flags Console.mmc_get_file_size (fun f f' '(_, n) => f' = f /\ 0 <= n).
Proof.
  intros p Hp. apply (on_mmc_spec _ (fun f f' '(_, n) => f' = f /\ 0 <= n)); [done|]. intros Hc.
  wp_use ltac:(by apply MmcCalls.file_size_wp); [|done]. intros [r n] c' (Hc' & _ & Ef & _ & Hn & _ & _).
  split; [done|]. unfold peers_flags. cbn [p_mmc p_hobd]. rewrite Ef. split; [done|apply Hn].
Qed.

Lemma modules_mmc_rm_calls : calls modules_ok peers_flags Console.mmc_rm (fun f f' _ => f' = f).
Proof.
  intros p Hp. apply (on_mmc_spec _ (fun f f' _ => f' = f)); [done|]. intros Hc.
  wp_use ltac:(by apply MmcCalls.rm_wp); [|done]. intros r c' (Hc' & _ & _ & Een & _).
  split; [done|]. unfold peers_flags. cbn [p_mmc p_hobd]. by rewrite Een.
Qed.

Lemma modules_mmc_stats_calls : calls modules_ok peers_flags Console.mmc_get_stats (fun f f' st => f' = f /\
  0 <= mmc_timestamp st /\ 0 <= mmc_entries_logged st).
Proof.
  intros p Hp. cbn [Console.mmc_get_stats modules]. wp_step.
  wp_use ltac:(apply (on_mmc_spec _ (fun f f' st => f' = f /\ 0 <= MmcModule.timestamp st /\
    0 <= MmcModule.entries_logged st)); [exact Hp|intros Hc]); [| |done].
  - wp_use ltac:(by apply MmcCalls.mmc_get_stats_wp); [|done]. intros st c' (Hc' & Ef & Est & _ & Ht).
    split; [done|]. unfold peers_flags. cbn [p_mmc p_hobd]. rewrite Ef. split; [done|]. split; [lia|].
    rewrite <- Est. destruct Hc' as (_ & _ & _ & _ & _ & He). apply He.
  - intros st p' (Hp' & Hf & ? & ?). by wp_step.
Qed.

(** The HOBD module's calls restart the connection, or change nothing. *)
Lemma on_hobd_spec {A} (m : M (client (HobdModule.thread_s W)) A) (R : flags -> flags -> A -> Prop) p :
  modules_ok p ->
  (let c := mk_client (p_regs p) (p_hobd p) in regs_ok (c_regs c) -> hobd_ok (c_peer c) ->
   wp m (fun a c => regs_ok (c_regs c) /\ hobd_ok (c_peer c) /\
     R (peers_flags p) (peers_flags (mk_peers (c_regs c) (p_mmc p) (c_peer c))) a) total c) ->
  wp (on_hobd m) (fun a p' => modules_ok p' /\ R (peers_flags p) (peers_flags p') a) total p.
Proof.
  intros (Hr & Hm & Hh) Hwp. unfold on_hobd. apply wp_zoom. wp_use ltac:(by apply Hwp); [|done].
  intros a c (Hr' & Hh' & HR). by split.
Qed.

Lemma of_word_flag v : is_flag (of_word v).
Proof. unfold of_word. destruct (_ =? 0); [by left|by right]. Qed.

(** A get call: the word it returns is the flag [g]. *)
Lemma get_calls (m : M (client (HobdModule.thread_s W)) Z) (g : Comm.comm_s -> Z) (k : flags -> Z) :
  (forall p, k (peers_flags p) = g (Comm.g_comm (HobdModule.hobd (p_hobd p)))) ->
  (forall t, hobd_ok t -> is_flag (g (Comm.g_comm (HobdModule.hobd t)))) ->
  (forall c Q X, regs_ok (c_regs c) -> regs_ok (HobdModule.g_regs (c_peer c)) ->
    (forall c', regs_ok (c_regs c') -> regs_ok (HobdModule.g_regs (c_peer c')) ->
       HobdModule.hobd (c_peer c') = HobdModule.hobd (c_peer c) ->
       Q (u32 (g (Comm.g_comm (HobdModule.hobd (c_peer c))))) c') -> wp m Q X c) ->
  calls modules_ok peers_flags (on_hobd m) (fun f f' v => f' = f /\ v = k f).
Proof.
  intros Hk Hg Hm p Hp. apply (on_hobd_spec _ (fun f f' v => f' = f /\ v = k f)); [done|].
  intros c Hr Hh. apply Hm; [done|apply Hh|]. intros c' Hr' Hrt' E.
  split; [done|]. split; [unfold hobd_ok; by rewrite E; split; [|apply Hh]|].
  split; [unfold peers_flags; cbn [p_hobd p_mmc]; by rewrite E|].
  rewrite u32_is_flag by by apply Hg. by rewrite (Hk p).
Qed.

Lemma modules_comm_state_calls : calls modules_ok peers_flags Console.hobd_get_comm_state (fun f f' v => f' = f /\ v = comm_on f).
Proof.
  apply (get_calls _ Comm.enabled); [done| |intros; by apply HobdModule.get_comm_state_wp].
  by intros t (_ & _ & _ & _ & ? & _).
Qed.
Lemma modules_listen_only_calls : calls modules_ok peers_flags Console.hobd_get_listen_only (fun f f' v => f' = f /\ v = passive f).
Proof.
  apply (get_calls _ Comm.listen_only); [done| |intros; by apply HobdModule.get_listen_only_wp].
  by intros t (_ & _ & _ & _ & _ & ?).
Qed.

Lemma restart_hobd_ok f t t' : hobd_ok t -> regs_ok (HobdModule.g_regs t') ->
  HobdModule.hobd t' = HobdModule.restart f (HobdModule.hobd t) ->
  (forall c, is_flag (Comm.enabled c) -> is_flag (Comm.listen_only c) ->
     is_flag (Comm.enabled (f c)) /\ is_flag (Comm.listen_only (f c))) ->
  hobd_ok t'.
Proof.
  intros (_ & Hs & Hc & Hst & He & Hl) Hr E Hf. destruct (Hf _ He Hl) as [He' Hl'].
  unfold hobd_ok. rewrite E. done.
Qed.

Lemma modules_comm_set_calls v : calls modules_ok peers_flags (Console.hobd_set_comm_state v) (fun f f' r =>
  r = of_word v /\ f' = Flags (mmc_on f) r (passive f)).
Proof.
  intros p Hp. apply (on_hobd_spec _ (fun f f' r =>
    r = of_word v /\ f' = Flags (mmc_on f) r (passive f))); [done|]. intros c Hr Hh.
  apply HobdModule.set_comm_state_wp; [done|apply Hh|]. intros c' Hr' Hrt' E.
  split; [done|]. split.
  - eapply restart_hobd_ok; [exact Hh|done|exact E|]. intros k _ Hl. split; [apply of_word_flag|done].
  - unfold peers_flags. cbn [p_hobd p_mmc]. by rewrite E.
Qed.
Lemma modules_listen_set_calls v : calls modules_ok peers_flags (Console.hobd_set_listen_only v) (fun f f' r =>
  r = of_word v /\ f' = Flags (mmc_on f) (comm_on f) r).
Proof.
  intros p Hp. apply (on_hobd_spec _ (fun f f' r =>
    r = of_word v /\ f' = Flags (mmc_on f) (comm_on f) r)); [done|]. intros c Hr Hh.
  apply HobdModule.set_listen_only_wp; [done|apply Hh|]. intros c' Hr' Hrt' E.
  split; [done|]. split.
  - eapply restart_hobd_ok; [exact Hh|done|exact E|]. intros k He _. split; [done|apply of_word_flag].
  - unfold peers_flags. cbn [p_hobd p_mmc]. by rewrite E.
Qed.

Lemma modules_hobd_stats_calls : calls modules_ok peers_flags Console.hobd_get_stats (fun f f' st => f' = f).
Proof.
  intros p Hp. cbn [Console.hobd_get_stats modules]. wp_step.
  wp_use ltac:(apply (on_hobd_spec _ (fun f f' st => f' = f)); [exact Hp|intros c Hr Hh]); [| |done].
  - pose proof Hh as (Hrt & Hs & Hc & Hst & He & Hl).
    apply HobdModule.get_stats_wp; [done..|]. intros tm w c' Htm Hr' Hrt' Hw _ E pr.
    split; [done|]. unfold hobd_ok, peers_flags. cbn [p_hobd p_mmc]. rewrite E. cbn.
    assert (HobdModule.stats_ok (HobdModule.sample_stats tm
      (Parser.valid_count (Comm.g_msg_parser (HobdModule.hobd (p_hobd p))))
      (Parser.invalid_count (Comm.g_msg_parser (HobdModule.hobd (p_hobd p))))
      (Comm.stats (HobdModule.hobd (p_hobd p))))).
    { destruct Hst as (?&?&?&?&?), Hc as [Hv Hi]. unfold HobdModule.stats_ok. cbn in *.
      rewrite <- Hv, <- Hi. split; [done|]. by split; [apply HobdModule.u16_range|split; [apply HobdModule.u16_range|]]. }
    by split_and!.
  - intros st p' (Hp' & Hf). by wp_step.
Qed.

(** The modules keep what the console relies on. *)
#[local] Instance modules_spec : BackendSpec peers_s.
Proof.
  refine {| peers_ok := modules_ok; flags_of := peers_flags; time_calls := modules_time_calls;
    mmc_stats_calls := modules_mmc_stats_calls; mmc_state_calls := modules_mmc_state_calls;
    mmc_set_calls := modules_mmc_set_calls; mmc_size_calls := modules_mmc_size_calls;
    mmc_rm_calls := modules_mmc_rm_calls; hobd_stats_calls := modules_hobd_stats_calls;
    comm_state_calls := modules_comm_state_calls; comm_set_calls := modules_comm_set_calls;
    listen_only_calls := modules_listen_only_calls; listen_set_calls := modules_listen_set_calls |}.
  intros p (_ & Hm & _ & _ & _ & _ & He & Hl). split; [apply Hm|done].
Defined.

(** ** Properties *)


(** C39: the console thread serves its port.  For any line editor that hands out
    lines as tokens, a thread whose next [n] interrupts carry its badge and are
    acknowledged gets through them all, whatever the characters are: no
    command and no module stops it, and the modules are well after it. *)
Theorem console_keeps_serving {R} `{!LineEditor R} `{!LineEditorSpec R} n (t : thread_s peers_s R) :
  0 < NS_IN_S /\ 0 < NS_IN_MINUTE -> modules_ok (peers (con t)) -> Forall irq_ok (irqs t) ->
  (n <= length (irqs t))%nat ->
  exists t', console_thread_fn 0 n t = (Done tt, t') /\ irqs t' = drop n (irqs t) /\
    modules_ok (peers (con t')).
Proof.
  intros Hu Hp Hi Hn. pose proof (thread_fn_safe Hu n t) as Hs.
  destruct (wp_done _ _ _ (Hs Hp Hi Hn)) as ([] & t' & Hrun & [_ Hp'] & E).
  by exists t'.
Qed.
End peers.

(** *** The properties at concrete inputs *)
#[local] Existing Instance log_aborts.
#[local] Existing Instance Comm.demo_hw.
#[local] Existing Instances MmcFile.ram_fat MmcFile.ram_fat_spec.
#[local] Existing Instances modules modules_spec.

Definition demo_build : Build := {| CONFIG_DEBUG_BUILD := true; GIT_BRANCH := "master";
  GIT_REVISION := "0"; NS_IN_S := 1000000000; NS_IN_MINUTE := 60000000000 |}.
#[local] Existing Instance demo_build.

(** The log file and communication are enabled. *)
Definition demo_peers : peers_s :=
  mk_peers HobdModule.demo_regs (MmcModule.demo_mmc []) (HobdModule.demo_thread Comm.COMM_STATE_SEND_REQ0 1 0 [] []).

Lemma demo_peers_ok : modules_ok demo_peers.
Proof.
  split; [by split|]. split; [apply MmcCalls.demo_calls_ok|]. split; [by split|].
  split; [apply (HobdModule.demo_hobd_inv Comm.COMM_STATE_SEND_REQ0 1 0 [])|].
  split; [done|]. split; [done|]. split; [by right|by left].
Qed.


(** A line editor: words up to a blank are tokens, the end of a line executes
    them; everything is echoed. *)
Definition words_of (l : string) : list string :=
  let '(w, ws) := (fix go l := match l with
    | EmptyString => (EmptyString, [])
    | String c l => let '(w, ws) := go l in
        if decide (c = Ascii.ascii_of_nat 32) then (EmptyString, w :: ws) else (String c w, ws)
    end) l in w :: ws.
Definition small_editor : LineEditor string := {|
  microrl_init _ := (EmptyString, [RlPrint (Some "> "%string)]);
  microrl_insert_char c l :=
    if c =? 10 then (EmptyString, [RlExec (Z.of_nat (length (words_of l))) (map Some (words_of l))])
    else if c =? 3 then (EmptyString, [RlSigint])
    else let k := String (Ascii.ascii_of_nat (Z.to_nat c)) EmptyString in (l +:+ k, [RlPrint (Some k)]) |}.
#[local] Existing Instance small_editor.
#[local] Instance small_editor_spec : LineEditorSpec string.
Proof.
  refine {| editor_ok _ := True |}.
  - intros l. split; [done|]. by constructor.
  - intros c l _. cbn. repeat case_match; (split; [done|]); repeat constructor. by eexists.
Defined.

(** The characters of a line. *)
Definition demo_irqs (l : string) : list irq :=
  map (fun c => Irq NOTIFICATION_BADGE 0 (code c)) (String.list_ascii_of_string l).

Lemma console_keeps_serving_witness :
  exists t', console_thread_fn 0 8 (mk_thread EmptyString (demo_irqs ("mmc off" +:+ newline))
      (mk_con EmptyString demo_peers)) = (Done tt, t') /\ irqs t' = [] /\ modules_ok (peers (con t')).
Proof.
  exact (console_keeps_serving 8 (mk_thread EmptyString (demo_irqs ("mmc off" +:+ newline))
    (mk_con EmptyString demo_peers)) ltac:(by split) demo_peers_ok
    ltac:(by repeat constructor) ltac:(by apply Nat.leb_le)).
Defined.

(** The line was echoed, executed, and the file is disabled. *)
Example mmc_off_here :
  let t' := (console_thread_fn 0 8 (mk_thread EmptyString (demo_irqs ("mmc off" +:+ newline))
    (mk_con EmptyString demo_peers))).2 in
  mmc_on (peers_flags (peers (con t'))) = 0 /\
  out (con t') = ("> mmc off" +:+ newline +:+ line "Disabling MMC file" +:+ line "MMC status: 0")%string.
Proof. split; vm_compute; reflexivity. Qed.

End Commands.
