(* ===== verification/LogDump.v ===== *)
(** The reader of the log file, testing-tools/hobd-log-entry-dump/src/main.c:
    it prints every entry and writes the engine tables found in the logged
    messages to two CSV files.  Files are byte or character sequences; reading
    and writing them does not fail other than at the end of the file. *)
From stdpp Require Import strings pretty.
From S2P Require Import Prelude Text Kline Services MmcEntry.

Module LogDump.

(** ** The entry buffer

    [g_entry_buffer] overlaid with an entry: the logged message starts at offset
    12, its [data] at 15, and the table of a table response at 17. *)
Definition ENTRY_BUFFER_SIZE : Z := 2 * MMC_ENTRY_SIZE_MAX.

Definition msg_header_type (b : list Z) : option Z := load b 12.
Definition msg_header_size (b : list Z) : option Z := load b 13.
Definition msg_header_subtype (b : list Z) : option Z := load b 14.
Definition msg_data (b : list Z) (i : Z) : option Z := load b (15 + i).

Definition get_entry_type_str (type : Z) : string :=
  if type =? MMC_ENTRY_TYPE_INVALID then "INVALID"
  else if type =? MMC_ENTRY_TYPE_BEGIN_FLAG then "BEGIN-FLAG"
  else if type =? MMC_ENTRY_TYPE_HOBD_MSG then "HOBD-MSG"
  else if type =? MMC_ENTRY_TYPE_FAULT then "FAULT"
  else if type =? MMC_ENTRY_TYPE_HEARTBEAT then "HEARTBEAT"
  else "NA".

Definition line (l : list string) : string := foldr String.append EmptyString l +:+ newline.

(** The text of [print_hobd_msg]. *)
Definition print_hobd_msg (b : list Z) : option string :=
  type ← msg_header_type b;
  size ← msg_header_size b;
  subtype ← msg_header_subtype b;
  checksum ← msg_data b (size - HOBD_MSG_HEADERCS_SIZE);
  detail ←
    (if type =? HOBD_MSG_TYPE_QUERY then
       if subtype =? HOBD_MSG_SUBTYPE_TABLE_SUBGROUP then
         table ← msg_data b 0; offset ← msg_data b 1; count ← msg_data b 2;
         Some (line ["      -> query"] +:+ line ["        table-subgroup"] +:+
               line ["        table: 0x"; pad 2 (hex table)] +:+
               line ["        offset: 0x"; pad 2 (hex offset)] +:+
               line ["        count: "; dec count])
       else Some (line ["      -> query"])
     else if type =? HOBD_MSG_TYPE_RESPONSE then
       if subtype =? HOBD_MSG_SUBTYPE_TABLE_SUBGROUP then
         table ← msg_data b 0; offset ← msg_data b 1;
         Some (line ["      <- response"] +:+ line ["        table-subgroup"] +:+
               line ["        table: 0x"; pad 2 (hex table)] +:+
               line ["        offset: 0x"; pad 2 (hex offset)] +:+
               line ["        count: "; dec (u64 (size - HOBD_MSG_HEADERCS_SIZE - 2))])
       else if subtype =? HOBD_MSG_SUBTYPE_INIT then
         Some (line ["      <- response"] +:+ line ["        init"])
       else Some (line ["      <- response"])
     else if type =? HOBD_MSG_TYPE_WAKE_UP then Some (line ["      -> wake-up"])
     else Some EmptyString);
  Some (line ["  hobd-msg"] +:+
        line ["    type: 0x"; pad 2 (hex type)] +:+
        line ["    size: "; dec size; " bytes"] +:+
        line ["    subtype: 0x"; pad 2 (hex subtype)] +:+
        line ["    checksum: 0x"; pad 2 (hex checksum)] +:+ detail).

(** The text of [print_entry] behind the number of the entry, and with it. *)
Definition entry_body (b : list Z) : option string :=
  type ← entry_header_type b;
  size ← entry_header_size b;
  timestamp ← entry_header_timestamp b;
  msg ← (if type =? MMC_ENTRY_TYPE_HOBD_MSG then print_hobd_msg b else Some EmptyString);
  Some (line ["  type: 0x"; pad 4 (hex type); " | "; get_entry_type_str type] +:+
        line ["  size: "; dec size; " bytes"] +:+
        line ["  timestamp: "; dec timestamp; " ns"] +:+ msg +:+ newline).
Definition entry_text (entry_count : Z) (b : list Z) : option string :=
  body ← entry_body b; Some (line ["["; pad 4 (dec entry_count); "]"] +:+ body).

Definition t10_header : string :=
  "timestamp,engine_rpm,tps_volt,tps_percent,ect_volt,ect_temp," +:+
  "iat_volt,iat_temp,map_volt,map_pressure,reserved_0,reserved_1," +:+
  "battery_volt,wheel_speed,fuel_injectors".
Definition td1_header : string := "timestamp,gear,reserved_0,reserved_1,reserved_2,engine_on".

(** A format string of conversions separated by [,], and one in three parts. *)
Fixpoint commas (l : list string) : string :=
  match l with
  | [] => EmptyString
  | [s] => s
  | s :: l => s +:+ "," +:+ commas l
  end.

(** [hobd_table_10_s]: its fields and the row. *)
Definition table_10_fields (b : list Z) : option (list Z) :=
  rpm ← read_at b 17 2;
  small ← read_at b 19 12;
  injectors ← read_at b 31 2;
  Some (le_val rpm :: small ++ [le_val injectors]).
Definition t10_row (timestamp : Z) (fields : list Z) : string :=
  commas (dec timestamp :: map dec (take 5 fields)) +:+
  commas (map dec (take 6 (drop 5 fields))) +:+ commas (map dec (drop 11 fields)).
Definition log_csv_table_10 (timestamp : Z) (b : list Z) : option string :=
  fields ← table_10_fields b; Some (t10_row timestamp fields +:+ newline).

Definition td1_row (timestamp : Z) (fields : list Z) : string :=
  commas (dec timestamp :: map dec fields).
Definition log_csv_table_d1 (timestamp : Z) (b : list Z) : option string :=
  fields ← read_at b 17 5; Some (td1_row timestamp fields +:+ newline).

(** What [log_csv_entry] writes to the two files. *)
Definition log_csv_entry (b : list Z) : option (string * string) :=
  type ← entry_header_type b;
  if type =? MMC_ENTRY_TYPE_HOBD_MSG then
    msg_type ← msg_header_type b;
    if msg_type =? HOBD_MSG_TYPE_RESPONSE then
      subtype ← msg_header_subtype b;
      if subtype =? HOBD_MSG_SUBTYPE_TABLE_SUBGROUP then
        table ← msg_data b 0;
        if table =? HOBD_TABLE_10 then
          timestamp ← entry_header_timestamp b;
          row ← log_csv_table_10 timestamp b; Some (row, EmptyString)
        else if table =? HOBD_TABLE_D1 then
          timestamp ← entry_header_timestamp b;
          row ← log_csv_table_d1 timestamp b; Some (EmptyString, row)
        else Some (EmptyString, EmptyString)
      else Some (EmptyString, EmptyString)
    else Some (EmptyString, EmptyString)
  else Some (EmptyString, EmptyString).

(** ** The program

    [signals]: whether [SIGINT] arrived before each test of the loop. *)
Record dump_s := mk_dump {
  input : list Z;
  pos : nat;
  eof : bool;
  g_entry_buffer : list Z;
  g_exit_signaled : Z;
  signals : list bool;
  out : string;
  t10_csv : string;
  td1_csv : string;
}.
Abbreviation T := (M dump_s).

Definition set_input_pos p e s := mk_dump (input s) p e (g_entry_buffer s) (g_exit_signaled s)
  (signals s) (out s) (t10_csv s) (td1_csv s).
Definition set_buffer v s := mk_dump (input s) (pos s) (eof s) v (g_exit_signaled s)
  (signals s) (out s) (t10_csv s) (td1_csv s).
Definition set_exit v s := mk_dump (input s) (pos s) (eof s) (g_entry_buffer s) v
  (signals s) (out s) (t10_csv s) (td1_csv s).
Definition set_signals v s := mk_dump (input s) (pos s) (eof s) (g_entry_buffer s)
  (g_exit_signaled s) v (out s) (t10_csv s) (td1_csv s).
Definition put_out t s := mk_dump (input s) (pos s) (eof s) (g_entry_buffer s)
  (g_exit_signaled s) (signals s) (out s +:+ t) (t10_csv s) (td1_csv s).
Definition put_csv t10 td1 s := mk_dump (input s) (pos s) (eof s) (g_entry_buffer s)
  (g_exit_signaled s) (signals s) (out s) (t10_csv s +:+ t10) (td1_csv s +:+ td1).

(** [fread] of [n] bytes to offset [off] of the buffer: it reads what is left of
    the file, and the end-of-file indicator is set when that is not enough. *)
Definition fread (off : Z) (n : nat) : T nat :=
  s ← gets (fun s => s);
  let data := take n (drop (pos s) (input s)) in
  buf ← or_fault (write_at (g_entry_buffer s) off data);
  modify (set_buffer buf);;
  modify (set_input_pos (pos s + length data) (eof s || bool_decide (length data < n)%nat));;
  mret (length data).

(** Whether there is an entry (the result is not [NULL]). *)
Definition read_next_entry : T bool :=
  bytes_read ← fread 0 12;
  at_eof ← gets eof;
  if negb at_eof then
    c_assert (Z.of_nat bytes_read =? MMC_ENTRY_HEADER_SIZE);;
    buf ← gets g_entry_buffer;
    size ← or_fault (entry_header_size buf);
    when (negb (size =? 0))
      (data_bytes_read ← fread 12 (Z.to_nat size);
       c_assert (Z.of_nat data_bytes_read =? size));;
    mret true
  else mret false.

Definition print_entry (entry_count : Z) : T unit :=
  buf ← gets g_entry_buffer;
  text ← or_fault (entry_text entry_count buf);
  modify (put_out text).

Definition log_csv : T unit :=
  buf ← gets g_entry_buffer;
  rows ← or_fault (log_csv_entry buf);
  modify (put_csv rows.1 rows.2).

Definition sig_handler : T unit := modify (set_exit 1).
Definition poll_signal : T unit :=
  l ← gets signals;
  match l with
  | [] => mret tt
  | sig :: l => modify (set_signals l);; when sig sig_handler
  end.

Fixpoint main_loop (fuel : nat) (entry_count : Z) : T unit :=
  match fuel with
  | O => stop_with Blocked
  | S fuel =>
      poll_signal;;
      exit_signaled ← gets g_exit_signaled;
      if exit_signaled =? 0 then
        entry ← read_next_entry;
        entry_count ←
          (if entry : bool then print_entry entry_count;; log_csv;; mret (u32 (entry_count + 1))
           else mret entry_count);
        when (negb entry) (modify (set_exit 1));;
        main_loop fuel entry_count
      else mret tt
  end.

Definition log_csv_headers : T unit :=
  modify (put_csv (t10_header +:+ newline) (td1_header +:+ newline)).

(** The exit status; the files exist. *)
Definition EXIT_SUCCESS : Z := 0.
Definition main (fuel : nat) : T Z :=
  modify (set_exit 0);;
  log_csv_headers;;
  main_loop fuel 0;;
  mret EXIT_SUCCESS.

(** The program before it starts. *)
Definition start (file : list Z) (sigs : list bool) : dump_s :=
  mk_dump file 0 false (replicate (Z.to_nat ENTRY_BUFFER_SIZE) 0) 0 sigs EmptyString EmptyString EmptyString.

(** The example of the tool's README. *)
Example readme_entries :
  entry_text 0 (entry_bytes (Entry 0x0020 10330568000 [])) = Some
    (line ["[0000]"] +:+ line ["  type: 0x0020 | HEARTBEAT"] +:+ line ["  size: 0 bytes"] +:+
     line ["  timestamp: 10330568000 ns"] +:+ line []) /\
  entry_text 5 (entry_bytes (Entry 0x0100 27443230000 [0xFE; 4; 0xFF; 0xFF])) = Some
    (line ["[0005]"] +:+ line ["  type: 0x0100 | HOBD-MSG"] +:+ line ["  size: 4 bytes"] +:+
     line ["  timestamp: 27443230000 ns"] +:+ line ["  hobd-msg"] +:+ line ["    type: 0xFE"] +:+
     line ["    size: 4 bytes"] +:+ line ["    subtype: 0xFF"] +:+ line ["    checksum: 0xFF"] +:+
     line ["      -> wake-up"] +:+ line []).
Proof. by vm_compute. Qed.

(** ** The texts depend on the entry, not on what the buffer holds behind it *)

Definition stable {A} (f : list Z -> option A) : Prop :=
  forall b r x, f b = Some x -> f (b ++ r) = Some x.

Lemma stable_some {A} (x : A) : stable (fun _ => Some x).
Proof. by intros b r y. Qed.

Lemma stable_load i : stable (fun b => load b i).
Proof.
  intros b r x. unfold load. case_decide; [|done]. intros Hx. by apply lookup_app_l_Some.
Qed.

Lemma stable_read i n : stable (fun b => read_at b i n).
Proof.
  intros b r x. unfold read_at. case_decide as Hb; [|done]. intros [= <-].
  rewrite decide_True by (autorewrite with len; lia). f_equal.
  rewrite drop_app_le, take_app_le by (autorewrite with len; lia). done.
Qed.

Lemma stable_bind {A B} (f : list Z -> option A) (g : A -> list Z -> option B) :
  stable f -> (forall a, stable (g a)) -> stable (fun b => a ← f b; g a b).
Proof.
  intros Hf Hg b r y (a & Ha & Hy)%bind_Some. rewrite (Hf _ _ _ Ha). cbn. by apply Hg.
Qed.

Lemma stable_fmap {A B} (g : A -> B) f : stable f -> stable (fun b => g <$> f b).
Proof. intros Hf b r y (a & Ha & ->)%fmap_Some. by rewrite (Hf _ _ _ Ha). Qed.

Lemma stable_if {A} (c : bool) (f g : list Z -> option A) :
  stable f -> stable g -> stable (fun b => if c then f b else g b).
Proof. by destruct c. Qed.

Ltac stable_steps :=
  repeat first [ apply stable_some | apply stable_load | apply stable_read | apply stable_fmap
               | apply stable_bind; [|intros ?] | apply stable_if ].

Lemma stable_entry_body : stable entry_body.
Proof.
  unfold entry_body, print_hobd_msg, entry_header_type, entry_header_size, entry_header_timestamp,
    msg_header_type, msg_header_size, msg_header_subtype, msg_data. stable_steps.
Qed.

Lemma stable_csv_entry : stable log_csv_entry.
Proof.
  unfold log_csv_entry, log_csv_table_10, log_csv_table_d1, table_10_fields, entry_header_type,
    entry_header_timestamp, msg_header_type, msg_header_subtype, msg_data. stable_steps.
Qed.

Lemma stable_entry_text k : stable (entry_text k).
Proof. unfold entry_text. apply stable_bind; [apply stable_entry_body|intros body; stable_steps]. Qed.

(** An entry that is complete by itself. *)
Definition dumpable (e : log_entry) : Prop :=
  is_Some (entry_body (entry_bytes e)) /\ is_Some (log_csv_entry (entry_bytes e)).

#[export] Instance dumpable_dec e : Decision (dumpable e).
Proof. unfold dumpable. apply _. Defined.

(** What is printed for a list of entries, and written to the two tables. *)
Fixpoint dump_text (k : Z) (es : list log_entry) : string :=
  match es with
  | [] => EmptyString
  | e :: es => default EmptyString (entry_text k (entry_bytes e)) +:+ dump_text (u32 (k + 1)) es
  end.
Definition csv_of (e : log_entry) : string * string :=
  default (EmptyString, EmptyString) (log_csv_entry (entry_bytes e)).
Definition concat_strings (l : list string) : string := foldr String.append EmptyString l.
Definition dump_t10 (es : list log_entry) : string := concat_strings ((fun e => (csv_of e).1) <$> es).
Definition dump_td1 (es : list log_entry) : string := concat_strings ((fun e => (csv_of e).2) <$> es).

(** ** Reading an entry *)

(** The rest of the file is [rest], and its end was not reached. *)
Definition at_rest (rest : list Z) (s : dump_s) : Prop :=
  drop (pos s) (input s) = rest /\ eof s = false /\ length (g_entry_buffer s) = 960%nat.

Lemma fread_wp off n Q X s buf :
  write_at (g_entry_buffer s) off (take n (drop (pos s) (input s))) = Some buf ->
  Q (length (take n (drop (pos s) (input s))))
    (set_input_pos (pos s + length (take n (drop (pos s) (input s))))
       (eof s || bool_decide (length (take n (drop (pos s) (input s))) < n)%nat) (set_buffer buf s)) ->
  wp (fread off n) Q X s.
Proof.
  intros Hb HQ. unfold fread. do 2 wp_step. wp_step. eapply wp_or_fault; [exact Hb|].
  cbn beta. do 4 wp_step. by wp_step.
Qed.

Lemma write_front (l xs : list Z) : (length xs <= length l)%nat ->
  write_at l 0 xs = Some (xs ++ drop (length xs) l).
Proof. intros H. unfold write_at. by rewrite decide_True by lia. Qed.

(** The header of an entry, then its data. *)
Definition header_of (e : log_entry) : list Z :=
  entry_header (entry_type e) (Z.of_nat (length (entry_data e))) (entry_time e).

Local Ltac proj :=
  repeat match goal with x := _ : dump_s |- _ => unfold x end;
  cbn [input pos eof g_entry_buffer set_input_pos set_buffer].

Lemma read_entry_wp e rest Q X s :
  entry_ok e -> (length (entry_data e) <= 948)%nat -> at_rest (entry_bytes e ++ rest) s ->
  (forall p r, at_rest rest (set_input_pos p false (set_buffer (entry_bytes e ++ r) s)) ->
     Q true (set_input_pos p false (set_buffer (entry_bytes e ++ r) s))) ->
  wp read_next_entry Q X s.
Proof.
  intros (Hty & Htm & Hb & Hl) Hcap (Hrest & Heof & Hbuf) HQ. unfold read_next_entry.
  pose proof (length_entry_header (entry_type e) (Z.of_nat (length (entry_data e))) (entry_time e)) as Hh.
  fold (header_of e) in Hh. unfold entry_bytes in *. fold (header_of e) in *.
  assert (take 12 (drop (pos s) (input s)) = header_of e) as Hd.
  { rewrite Hrest, <- app_assoc, <- Hh. apply take_app_length. }
  wp_step. eapply fread_wp; rewrite Hd, ?Hh.
  { apply write_front. rewrite Hh, Hbuf; lia. }
  rewrite Heof. cbn [orb]. rewrite bool_decide_eq_false_2 by lia. do 2 wp_step. cbn [eof set_input_pos].
  cbn [negb]. wp_step. change (c_assert (Z.of_nat 12 =? MMC_ENTRY_HEADER_SIZE)) with
    (mret (M := M dump_s) tt). do 4 wp_step. eapply wp_or_fault.
  { apply (entry_header_fields (entry_type e) _ (entry_time e)); lia. }
  cbn beta. wp_step. set (s1 := set_input_pos _ _ _).
  assert (drop (pos s1) (input s1) = entry_data e ++ rest) as Hr1.
  { proj. rewrite <- drop_drop, Hrest, <- app_assoc, <- Hh, drop_app_length. done. }
  destruct (entry_data e) as [|x data] eqn:E; [|rewrite <- E in *].
  - change (when _ _) with (mret (M := M dump_s) tt). do 2 wp_step.
    specialize (HQ (pos s + 12)%nat (drop 12 (g_entry_buffer s))). rewrite app_nil_r in HQ.
    apply HQ. split; [exact Hr1|]. split; [done|]. proj. autorewrite with len. rewrite Hh, Hbuf. lia.
  - assert (0 < Z.of_nat (length (entry_data e))) as Hpos by (rewrite E; cbn; lia).
    rewrite (proj2 (Z.eqb_neq _ 0)) by lia. cbn [negb]. unfold when. wp_step.
    assert (take (Z.to_nat (Z.of_nat (length (entry_data e)))) (drop (pos s1) (input s1)) = entry_data e)
      as Hd1 by (rewrite Hr1, Nat2Z.id; apply take_app_length).
    eapply fread_wp; rewrite Hd1, ?Nat2Z.id.
    { unfold write_at. rewrite decide_True; [done|]. proj. autorewrite with len. rewrite Hh, Hbuf. lia. }
    rewrite Z.eqb_refl. rewrite bool_decide_eq_false_2 by lia. unfold c_assert. do 2 wp_step.
    cbn [eof orb s1 set_input_pos set_buffer]. change (Z.to_nat 12) with 12%nat.
    replace (take 12 (header_of e ++ drop 12 (g_entry_buffer s))) with (header_of e)
      by (rewrite <- Hh; by rewrite take_app_length).
    rewrite app_assoc. apply HQ. split; [|split; [done|]].
    + proj. rewrite <- drop_drop.
      change (drop (pos s + 12) (input s) = entry_data e ++ rest) in Hr1. rewrite Hr1. apply drop_app_length.
    + proj. autorewrite with len. rewrite Hh, Hbuf. lia.
Qed.

(** The end of the file, also in the middle of a header. *)
Lemma read_end_wp tail Q X s :
  (length tail < 12)%nat -> at_rest tail s ->
  (forall p b, Q false (set_input_pos p true (set_buffer b s))) ->
  wp read_next_entry Q X s.
Proof.
  intros Ht (Hrest & Heof & Hbuf) HQ. unfold read_next_entry. wp_step.
  eapply fread_wp; rewrite Hrest, take_ge by lia.
  { apply write_front. lia. }
  rewrite Heof, bool_decide_eq_true_2 by lia. cbn [orb]. do 2 wp_step.
  cbn [eof set_input_pos negb]. by wp_step.
Qed.

(** ** The loop *)

(** One turn of the loop, without a signal. *)
Lemma turn_wp fuel k Q X s :
  g_exit_signaled s = 0 -> Forall (.= false) (take 1 (signals s)) ->
  wp (entry ← read_next_entry;
      entry_count ←
        (if entry : bool then print_entry k;; log_csv;; mret (u32 (k + 1)) else mret k);
      when (negb entry) (modify (set_exit 1));;
      main_loop fuel entry_count) Q X (set_signals (drop 1 (signals s)) s) ->
  wp (main_loop (S fuel) k) Q X s.
Proof.
  intros Hx Hs Hwp. cbn [main_loop]. wp_step. unfold poll_signal. do 2 wp_step.
  assert (forall s', g_exit_signaled s' = 0 -> s' = set_signals (drop 1 (signals s)) s ->
    wp (exit_signaled ← gets g_exit_signaled;
      if exit_signaled =? 0 then
        entry ← read_next_entry;
        entry_count ←
          (if entry : bool then print_entry k;; log_csv;; mret (u32 (k + 1)) else mret k);
        when (negb entry) (modify (set_exit 1));;
        main_loop fuel entry_count
      else mret tt) Q X s') as Hrest.
  { intros s' Hx' ->. do 2 wp_step. by rewrite Hx'. }
  destruct (signals s) as [|sig l] eqn:E.
  - wp_step. apply Hrest; [done|]. destruct s. cbn in *. by subst.
  - cbn in Hs. inversion_clear Hs as [|? ? -> _]. do 2 wp_step. wp_step; [done|]. intros _.
    by apply Hrest.
Qed.

(** Printing a complete entry. *)
Lemma print_wp e r k (Q : Z -> dump_s -> Prop) X s :
  dumpable e -> g_entry_buffer s = entry_bytes e ++ r ->
  Q (u32 (k + 1)) (put_csv (csv_of e).1 (csv_of e).2
    (put_out (default EmptyString (entry_text k (entry_bytes e))) s)) ->
  wp (print_entry k;; log_csv;; mret (u32 (k + 1))) Q X s.
Proof.
  intros [[body Hbody] [rows Hrows]] Hbuf HQ. unfold print_entry, log_csv.
  assert (entry_text k (entry_bytes e) = Some ((line ["["; pad 4 (dec k); "]"] +:+ body)%string)) as Htext.
  { unfold entry_text. by rewrite Hbody. }
  wp_step. do 2 wp_step. rewrite Hbuf. wp_step.
  eapply wp_or_fault; [by apply stable_entry_text|]. cbn beta. do 2 wp_step. do 2 wp_step.
  cbn [g_entry_buffer put_out]. rewrite Hbuf. wp_step.
  eapply wp_or_fault; [by apply stable_csv_entry|]. cbn beta. do 2 wp_step.
  unfold csv_of in HQ. by rewrite Htext, Hrows in HQ.
Qed.

(** What the loop has done after the entries [es]. *)
Definition dumped (k : Z) (es : list log_entry) (s s' : dump_s) : Prop :=
  g_exit_signaled s' = 0 /\ signals s' = drop (length es) (signals s) /\
  out s' = out s +:+ dump_text k es /\
  t10_csv s' = t10_csv s +:+ dump_t10 es /\ td1_csv s' = td1_csv s +:+ dump_td1 es.

Definition readable (e : log_entry) : Prop :=
  entry_ok e /\ (length (entry_data e) <= 948)%nat /\ dumpable e.

#[export] Instance readable_dec e : Decision (readable e).
Proof. unfold readable. apply _. Defined.

(** The number of the entry behind [es]. *)
Fixpoint count_from (k : Z) (es : list log_entry) : Z :=
  match es with [] => k | _ :: es => count_from (u32 (k + 1)) es end.

Lemma loop_entries es : forall rest fuel k Q X s,
  Forall readable es -> at_rest (concat (map entry_bytes es) ++ rest) s ->
  g_exit_signaled s = 0 -> Forall (.= false) (take (length es) (signals s)) ->
  (forall s', at_rest rest s' -> dumped k es s s' ->
     wp (main_loop fuel (count_from k es)) Q X s') ->
  wp (main_loop (length es + fuel) k) Q X s.
Proof.
  induction es as [|e es IH]; intros rest fuel k Q X s Hes Hrest Hx Hs Hk.
  { apply (Hk s); [done|]. split_and!; try done; by rewrite string_app_nil. }
  apply Forall_cons_iff in Hes as [(Hok & Hcap & Hd) Hes].
  cbn [length Nat.add]. apply turn_wp; [done| |].
  { cbn [length] in Hs. destruct (signals s); [constructor|].
    apply Forall_cons_iff in Hs as [-> _]. by repeat constructor. }
  wp_step. eapply read_entry_wp; [done|done| |].
  { destruct Hrest as (Hr & He & Hb). split; [|done]. cbn [concat map] in Hr.
    rewrite <- app_assoc in Hr. exact Hr. }
  intros p r Hrest'. cbn [negb]. wp_step. eapply print_wp; [exact Hd|done|].
  change (when false _) with (mret (M := M dump_s) tt). do 2 wp_step.
  apply (IH rest); [done|exact Hrest'|done| |].
  - cbn [length] in Hs. cbn [signals put_csv put_out set_input_pos set_buffer set_signals].
    destruct (signals s) as [|sig l]; cbn [drop]; [rewrite take_nil; constructor|].
    by apply Forall_cons_iff in Hs as [_ ?].
  - intros s' Hrest2 (Hx' & Hs' & Ho & H10 & H1). apply Hk; [done|].
    split_and!; [done| |rewrite Ho|rewrite H10|rewrite H1]; cbn [out t10_csv td1_csv signals
      set_signals set_input_pos set_buffer put_out put_csv] in *.
    + rewrite Hs'. by destruct (signals s); rewrite ?drop_nil.
    + by rewrite string_app_assoc.
    + by rewrite string_app_assoc.
    + by rewrite string_app_assoc.
Qed.

(** The program up to its loop. *)
Lemma main_wp file sigs es rest fuel (Q : Z -> dump_s -> Prop) X :
  Forall readable es -> file = concat (map entry_bytes es) ++ rest ->
  Forall (.= false) (take (length es) sigs) ->
  (forall s', at_rest rest s' -> signals s' = drop (length es) sigs -> g_exit_signaled s' = 0 ->
     out s' = dump_text 0 es -> t10_csv s' = t10_header +:+ newline +:+ dump_t10 es ->
     td1_csv s' = td1_header +:+ newline +:+ dump_td1 es ->
     wp (main_loop fuel (count_from 0 es)) (fun _ => Q EXIT_SUCCESS) X s') ->
  wp (main (length es + fuel)) Q X (start file sigs).
Proof.
  intros Hes -> Hs Hk. unfold main, log_csv_headers. do 4 wp_step. wp_step.
  apply (wp_mono _ (fun _ => Q EXIT_SUCCESS) _ X); [|intros [] s' HQ; by wp_step|done].
  apply loop_entries with (rest := rest); [done|by split_and!|done|done|].
  intros s' Hrest (Hx & Hsig & Ho & H10 & H1). by apply Hk.
Qed.

(** The last turns: at the end of the file the loop ends. *)
Lemma end_wp tail fuel k Q X s :
  (length tail < 12)%nat -> at_rest tail s -> g_exit_signaled s = 0 ->
  Forall (.= false) (take 1 (signals s)) ->
  (forall s', out s' = out s -> t10_csv s' = t10_csv s -> td1_csv s' = td1_csv s -> Q tt s') ->
  wp (main_loop (2 + fuel) k) Q X s.
Proof.
  intros Ht Hrest Hx Hs HQ. cbn [Nat.add]. apply turn_wp; [done|done|].
  wp_step. apply read_end_wp with (tail := tail); [done|by destruct Hrest|].
  intros p b. do 2 wp_step. wp_step. wp_step; [intros _|done]. wp_step.
  set (s1 := set_exit 1 _).
  assert (out s1 = out s /\ t10_csv s1 = t10_csv s /\ td1_csv s1 = td1_csv s /\
    g_exit_signaled s1 = 1) as (Ho & H10 & H1 & Hx1) by done.
  clearbody s1. cbn [main_loop]. wp_step. unfold poll_signal. do 2 wp_step.
  assert (forall s2, out s2 = out s -> t10_csv s2 = t10_csv s -> td1_csv s2 = td1_csv s ->
    g_exit_signaled s2 = 1 -> wp (exit_signaled ← gets g_exit_signaled;
      if exit_signaled =? 0 then
        entry ← read_next_entry;
        entry_count ←
          (if entry : bool then print_entry k;; log_csv;; mret (u32 (k + 1)) else mret k);
        when (negb entry) (modify (set_exit 1));;
        main_loop fuel entry_count
      else mret tt) Q X s2) as Hend.
  { intros s2 ??? Hx2. do 2 wp_step. rewrite Hx2. change (1 =? 0) with false. cbn iota. wp_step. by apply HQ. }
  destruct (signals s1) as [|sig l]; [wp_step; by apply Hend|].
  do 2 wp_step. wp_step; intros _; [unfold sig_handler; wp_step|]; by apply Hend.
Qed.

(** ** Termination

    The bytes that are left; every entry that is read takes 12 of them at least. *)
Definition remaining (s : dump_s) : nat := length (drop (pos s) (input s)).
Definition not_blocked : stop -> dump_s -> Prop := fun k _ => k <> Blocked.

Lemma fread_progress off n s :
  wp (fread off n) (fun m s' => (m + remaining s' = remaining s)%nat /\
    g_exit_signaled s' = g_exit_signaled s) not_blocked s.
Proof.
  unfold fread. do 2 wp_step. wp_step. destruct (write_at _ _ _) as [buf|]; cbn [or_fault];
    [|by wp_step]. do 5 wp_step. wp_step. split; [|done]. unfold remaining. proj.
  autorewrite with len. lia.
Qed.

Lemma read_progress s :
  wp read_next_entry (fun entry s' => (entry = true -> remaining s' + 12 <= remaining s)%nat /\
    (remaining s' <= remaining s)%nat) not_blocked s.
Proof.
  unfold read_next_entry. wp_step. wp_use ltac:(apply fread_progress); [|done].
  intros n s1 [Hn _]. do 2 wp_step. destruct (eof s1); cbn [negb]; [wp_step; lia|].
  wp_step. unfold c_assert. destruct (Z.eqb_spec (Z.of_nat n) MMC_ENTRY_HEADER_SIZE) as [E|];
    [|by wp_step]. unfold MMC_ENTRY_HEADER_SIZE in E. do 3 wp_step. wp_step.
  destruct (entry_header_size _) as [size|]; cbn [or_fault]; [|by wp_step].
  do 2 wp_step. wp_step; intros _; [|wp_step; lia]. wp_step.
  wp_use ltac:(apply fread_progress); [|done]. intros m s2 [Hm _].
  destruct (_ =? _); wp_step; [wp_step; lia|done].
Qed.

Lemma loop_terminates fuel : forall k s,
  (remaining s + 24 <= 12 * fuel)%nat \/ (g_exit_signaled s <> 0 /\ (0 < fuel)%nat) ->
  wp (main_loop fuel k) (fun _ _ => True) not_blocked s.
Proof.
  induction fuel as [|fuel IH]; intros k s Hf; [lia|]. cbn [main_loop]. wp_step.
  assert (forall s1, (remaining s1 + 24 <= 12 * S fuel)%nat \/ g_exit_signaled s1 <> 0 ->
    wp (exit_signaled ← gets g_exit_signaled;
      if exit_signaled =? 0 then
        entry ← read_next_entry;
        entry_count ←
          (if entry : bool then print_entry k;; log_csv;; mret (u32 (k + 1)) else mret k);
        when (negb entry) (modify (set_exit 1));;
        main_loop fuel entry_count
      else mret tt) (fun _ _ => True) not_blocked s1) as Hrest.
  { intros s1 Hs1. do 2 wp_step. destruct (Z.eqb_spec (g_exit_signaled s1) 0); [|by wp_step].
    destruct Hs1 as [Hs1|]; [|done].
    wp_step. wp_use ltac:(apply read_progress); [|done]. intros entry s2 [Hr Hr'].
    destruct entry; cbn [negb].
    - wp_step. unfold print_entry, log_csv. wp_step. do 3 wp_step.
      destruct (entry_text _ _); cbn [or_fault]; [|by wp_step]. do 5 wp_step.
      destruct (log_csv_entry _); cbn [or_fault]; [|by wp_step]. do 4 wp_step.
      change (when false _) with (mret (M := M dump_s) tt). do 2 wp_step. apply IH. left.
      specialize (Hr eq_refl). unfold remaining in *. proj. cbn in *. lia.
    - do 2 wp_step. wp_step. wp_step; [intros _|done]. wp_step. apply IH. right.
      split; [done|lia]. }
  unfold poll_signal. do 2 wp_step. destruct (signals s) as [|sig l].
  - wp_step. apply Hrest. tauto.
  - do 2 wp_step. wp_step; intros _; [unfold sig_handler; wp_step|]; apply Hrest.
    + by right.
    + unfold remaining in *. cbn in *. tauto.
Qed.

(** ** Reading a CSV row back *)

Definition comma : Ascii.ascii := Ascii.ascii_of_nat 44.

(** The columns of a row. *)
Fixpoint columns (s : string) : list string :=
  match s with
  | EmptyString => [EmptyString]
  | String c s =>
      if decide (c = comma) then EmptyString :: columns s
      else match columns s with [] => [] | f :: l => String c f :: l end
  end.

Fixpoint no_comma (s : string) : Prop :=
  match s with EmptyString => True | String c s => c <> comma /\ no_comma s end.

Lemma digit_comma d : 0 <= d < 10 -> digit d <> comma.
Proof. revert d. by apply digit_cases. Qed.

Lemma num_no_comma fuel : forall z acc, 0 <= z -> no_comma acc -> no_comma (num_acc 10 fuel z acc).
Proof.
  induction fuel as [|fuel IH]; intros z acc Hz Ha; pose proof (div10 z Hz); cbn [num_acc].
  - split; [apply digit_comma; lia|done].
  - destruct (Z.ltb_spec z 10); [split; [apply digit_comma; lia|done]|].
    apply IH; [lia|]. split; [apply digit_comma; lia|done].
Qed.

Lemma columns_app s1 : forall s2, no_comma s1 ->
  columns (s1 +:+ s2) = match columns s2 with [] => [] | f :: l => (s1 +:+ f) :: l end.
Proof.
  induction s1 as [|c s1 IH]; intros s2 Hs; [change (EmptyString +:+ s2) with s2; by destruct (columns s2)|].
  rewrite string_app_cons. cbn [columns]. destruct Hs as [Hc Hs].
  rewrite decide_False by done. rewrite IH by done. by destruct (columns s2).
Qed.

Lemma columns_plain s : no_comma s -> columns s = [s].
Proof.
  intros Hs. rewrite <- (string_app_nil s) at 1. rewrite columns_app by done. cbn [columns].
  by rewrite string_app_nil.
Qed.

Lemma commas_cons s s2 l : commas (s :: s2 :: l) = s +:+ String comma (commas (s2 :: l)).
Proof. done. Qed.

Lemma columns_commas l : Forall no_comma l -> l <> [] -> columns (commas l) = l.
Proof.
  induction l as [|s l IH]; intros Hl Hne; [done|].
  apply Forall_cons_iff in Hl as [Hs Hl]. destruct l as [|s2 l]; [by apply columns_plain|].
  rewrite commas_cons, columns_app by done. cbn [columns]. rewrite decide_True by done.
  rewrite IH by done. by rewrite string_app_nil.
Qed.

(** Rows written one behind the other share a column. *)
Lemma columns_length_app s1 : forall s2,
  length (columns (s1 +:+ s2)) = (length (columns s1) + length (columns s2) - 1)%nat.
Proof.
  assert (forall s, columns s <> []) as Hne.
  { induction s as [|c s IH]; [done|]. cbn [columns]. case_decide; [done|]. by destruct (columns s). }
  induction s1 as [|c s1 IH]; intros s2; [change (EmptyString +:+ s2) with s2; cbn [columns length]; lia|]. rewrite string_app_cons. cbn [columns].
  specialize (IH s2). pose proof (Hne s1). pose proof (Hne (s1 +:+ s2)).
  case_decide; cbn [length]; [|destruct (columns s1), (columns (s1 +:+ s2)); try done; cbn in *];
    destruct (columns s1); cbn in *; (done || lia).
Qed.

Lemma decs_no_comma l : Forall (fun z => 0 <= z) l -> Forall no_comma (map dec l).
Proof. intros Hl. apply Forall_map. eapply Forall_impl; [|exact Hl]. intros z Hz. by apply num_no_comma. Qed.

Lemma decs_roundtrip l : Forall (fun z => 0 <= z < 2 ^ 64) l -> map dec_val (map dec l) = l.
Proof.
  induction l as [|z l IH]; intros Hl; [done|]. apply Forall_cons_iff in Hl as [Hz Hl].
  cbn [map]. by rewrite dec_roundtrip, IH.
Qed.

(** A whole log. *)
Lemma dump_run es tail sigs fuel :
  Forall readable es -> (length tail < 12)%nat -> Forall (.= false) sigs ->
  (length es + 2 <= fuel)%nat ->
  wp (main fuel) (fun r s' => r = EXIT_SUCCESS /\ out s' = dump_text 0 es /\
    t10_csv s' = t10_header +:+ newline +:+ dump_t10 es /\
    td1_csv s' = td1_header +:+ newline +:+ dump_td1 es) (fun _ _ => False)
    (start (concat (map entry_bytes es) ++ tail) sigs).
Proof.
  intros Hes Ht Hs Hf.
  replace fuel with (length es + (2 + (fuel - length es - 2)))%nat by lia.
  apply main_wp with (rest := tail); [done|done|by apply Forall_take|].
  intros s' Hrest Hsig Hx Ho H10 H1. apply end_wp with (tail := tail); [done|done|done| |].
  - rewrite Hsig. by apply Forall_take, Forall_drop.
  - intros s2 -> -> ->. done.
Qed.

(** ** Properties *)

(** C20: reading a log is the inverse of writing it.  For a file that holds any
    entries one after the other, each complete and of at most 948 bytes of data,
    and behind them the beginning of another header, the program prints exactly
    these entries in order and numbered, writes the tables found in them to the
    two CSV files below their headers, and succeeds; two turns of the loop more
    than there are entries are enough. *)
Theorem dump_log es tail sigs fuel :
  Forall readable es -> (length tail < 12)%nat -> Forall (.= false) sigs ->
  (length es + 2 <= fuel)%nat ->
  exists s', main fuel (start (concat (map entry_bytes es) ++ tail) sigs) =
      (Done EXIT_SUCCESS, s') /\
    out s' = dump_text 0 es /\
    t10_csv s' = t10_header +:+ newline +:+ dump_t10 es /\
    td1_csv s' = td1_header +:+ newline +:+ dump_td1 es.
Proof.
  intros Hes Ht Hs Hf. pose proof (dump_run es tail sigs fuel Hes Ht Hs Hf) as Hwp.
  apply wp_done in Hwp as (r & s' & Hrun & -> & ?). by exists s'.
Qed.

(** C34: the program trusts the size in a header: behind any complete entries, an
    entry with more than 948 bytes of data is read beyond the end of the entry
    buffer, although the size field allows up to 65535. *)
Theorem dump_overflows es ty size ts data fuel :
  Forall readable es -> 0 <= ty < 65536 -> 0 <= ts < 2 ^ 64 ->
  948 < size < 65536 -> (948 < length data)%nat -> (length es < fuel)%nat ->
  (main fuel (start (concat (map entry_bytes es) ++ entry_header ty size ts ++ data) [])).1 =
    Stop Fault.
Proof.
  intros Hes Hty Hts Hsz Hd Hf.
  assert (wp (main fuel) (fun _ _ => False) (fun k _ => k = Fault)
    (start (concat (map entry_bytes es) ++ entry_header ty size ts ++ data) [])) as Hwp.
  { replace fuel with (length es + S (fuel - length es - 1))%nat by lia.
    apply main_wp with (rest := entry_header ty size ts ++ data); [done|done|by rewrite take_nil|].
    intros s' (Hr & He & Hb) Hsig Hx _ _ _. apply turn_wp; [done|by rewrite Hsig, drop_nil|].
    pose proof (length_entry_header ty size ts) as Hh.
    wp_step. unfold read_next_entry. wp_step.
    assert (take 12 (drop (pos s') (input s')) = entry_header ty size ts) as Hd1.
    { rewrite Hr, <- Hh. apply take_app_length. }
    eapply fread_wp; cbn [pos input set_signals]; rewrite Hd1, ?Hh.
    { apply write_front. cbn [g_entry_buffer set_signals]. lia. }
    cbn [eof set_signals]. rewrite He, bool_decide_eq_false_2 by lia. do 2 wp_step.
    cbn [eof set_input_pos negb orb]. wp_step.
    change (c_assert (Z.of_nat 12 =? MMC_ENTRY_HEADER_SIZE)) with (mret (M := M dump_s) tt).
    do 4 wp_step. eapply wp_or_fault; [apply (entry_header_fields ty size ts); lia|]. cbn beta.
    rewrite (proj2 (Z.eqb_neq size 0)) by lia. wp_step. unfold when. cbn [negb]. wp_step.
    unfold fread. do 2 wp_step. wp_step.
    assert (write_at (entry_header ty size ts ++ drop (length (entry_header ty size ts)) (g_entry_buffer s')) 12
      (take (Z.to_nat size) (drop (pos s' + 12) (input s'))) = None) as Hw.
    { unfold write_at. rewrite decide_False; [done|].
      rewrite <- drop_drop, Hr, <- Hh, drop_app_length. autorewrite with len. rewrite Hh, Hb. lia. }
    cbn [g_entry_buffer pos input set_input_pos set_buffer set_signals]. rewrite Hw.
    cbn [or_fault]. by wp_step. }
  unfold wp in Hwp. by destruct (main fuel _) as [[r|k] s']; subst.
Qed.

(** The rows of the table D1 can be read back: a row has the columns its
    header names, and they hold the time stamp and the fields of the table. *)
Theorem td1_row_roundtrip ts fields :
  0 <= ts < 2 ^ 64 -> bytes fields -> length fields = 5%nat ->
  map dec_val (columns (td1_row ts fields)) = ts :: fields /\
  length (columns (td1_row ts fields)) = length (columns td1_header).
Proof.
  intros Hts Hf Hl. unfold td1_row. change (dec ts :: map dec fields) with (map dec (ts :: fields)).
  assert (Forall (fun z => 0 <= z < 2 ^ 64) (ts :: fields)) as Hall.
  { constructor; [done|]. eapply Forall_impl; [|exact Hf]. unfold byte. lia. }
  rewrite columns_commas; [|apply decs_no_comma; eapply Forall_impl; [|exact Hall]; cbn; lia|done].
  split; [by apply decs_roundtrip|]. rewrite length_map. cbn [length]. rewrite Hl. by vm_compute.
Qed.

(** The rows of the table 10 cannot: two of the commas are missing from the
    format, so every row has 13 columns below a header of 15, and there are
    different tables with the same row. *)
Theorem t10_row_ambiguous :
  (forall ts fields, 0 <= ts -> Forall (fun z => 0 <= z) fields -> length fields = 14%nat ->
     length (columns (t10_row ts fields)) = 13%nat) /\
  length (columns t10_header) = 15%nat /\
  exists f1 f2, bytes f1 /\ bytes f2 /\ length f1 = 14%nat /\ length f2 = 14%nat /\ f1 <> f2 /\
    forall ts, t10_row ts f1 = t10_row ts f2.
Proof.
  split; [|split; [by vm_compute|]].
  - intros ts fields Hts Hf Hl. unfold t10_row.
    change (dec ts :: map dec (take 5 fields)) with (map dec (ts :: take 5 fields)).
    rewrite !columns_length_app, !columns_commas, !length_map; cbn [length];
      autorewrite with len; rewrite ?Hl; try done;
      try (apply decs_no_comma; repeat constructor; auto using Forall_take, Forall_drop);
      intros E%(f_equal length); revert E; cbn [length]; rewrite ?length_map;
      autorewrite with len; rewrite ?Hl; done.
  - exists [0; 0; 0; 0; 1; 12; 0; 0; 0; 0; 0; 0; 0; 0], [0; 0; 0; 0; 11; 2; 0; 0; 0; 0; 0; 0; 0; 0].
    split_and!; [decide_now|decide_now|done|done|decide_now|]. intros ts. unfold t10_row.
    cbn [take drop map]. rewrite !(commas_cons (dec ts)), !string_app_assoc. by f_equal.
Qed.

(** C33: the program ends for every file and however [SIGINT] arrives: a turn of
    the loop more than the file can have entries, and the one that finds the
    end, are enough for it to return or to be stopped by an assertion or a fault. *)
Theorem dump_terminates file sigs fuel :
  (length file / 12 + 3 <= fuel)%nat ->
  (main fuel (start file sigs)).1 <> Stop Blocked.
Proof.
  intros Hf. assert (wp (main fuel) (fun _ _ => True) not_blocked (start file sigs)) as Hwp.
  { unfold main, log_csv_headers. do 4 wp_step. wp_step.
    wp_use ltac:(apply loop_terminates); [|by intros [] ? _; wp_step|done]. left.
    unfold remaining. cbn [pos input put_csv set_exit start drop].
    change (length file + 24 <= 12 * fuel)%nat. pose proof (Nat.div_mod_eq (length file) 12).
    pose proof (Nat.mod_upper_bound (length file) 12 ltac:(done)). lia. }
  unfold wp in Hwp. destruct (main fuel _) as [[r|k] s']; [done|]. by intros [= ->].
Qed.

(** A response that is too short for the table it names gets a row too, made of
    what the entries before it left in the buffer. *)
Example short_response_repeats :
  let es := [Entry 0x100 1 (mk_frame 0x02 0x72 [0xD1; 0; 1; 2; 3; 4; 5]);
             Entry 0x100 2 (mk_frame 0x02 0x72 [0xD1; 0])] in
  td1_csv (main 4 (start (concat (map entry_bytes es)) [])).2 =
    td1_header +:+ newline +:+ line ["1,1,2,3,4,5"] +:+ line ["2,181,2,3,4,5"].
Proof. by vm_compute. Qed.

(** *** The properties at concrete inputs *)
Definition demo_entries : list log_entry :=
  [Entry 0x20 10330568000 []; Entry 0x100 27443230000 [0xFE; 4; 0xFF; 0xFF];
   Entry 0x100 27498084000 (mk_frame 0x02 0x72 [0xD1; 0; 1; 2; 3; 4; 5])].

Lemma dump_log_witness :
  exists s', main 5 (start (concat (map entry_bytes demo_entries) ++ [0; 1; 5]) [false]) =
      (Done EXIT_SUCCESS, s') /\
    out s' = dump_text 0 demo_entries /\
    t10_csv s' = t10_header +:+ newline +:+ EmptyString /\
    td1_csv s' = td1_header +:+ newline +:+ line ["27498084000,1,2,3,4,5"].
Proof.
  refine (dump_log demo_entries [0; 1; 5] [false] 5 _ _ _ _).
  - decide_now.
  - cbn. lia.
  - by repeat constructor.
  - cbn. lia.
Defined.

Lemma dump_overflows_witness :
  (main 2 (start (entry_header 0x20 949 7 ++ replicate 949 0) [])).1 = Stop Fault.
Proof. apply (dump_overflows [] 0x20 949 7 (replicate 949 0) 2); decide_now. Defined.

Lemma dump_terminates_witness : (main 4 (start [1; 2; 3; 4; 5; 6; 7; 8; 9; 10; 11; 12] [])).1 <> Stop Blocked.
Proof. apply (dump_terminates [1; 2; 3; 4; 5; 6; 7; 8; 9; 10; 11; 12] [] 4). cbn. lia. Defined.

Lemma td1_row_roundtrip_witness :
  map dec_val (columns "27498084000,1,2,3,4,250") = [27498084000; 1; 2; 3; 4; 250] /\
  length (columns "27498084000,1,2,3,4,250") = 6%nat.
Proof. by apply (td1_row_roundtrip 27498084000 [1; 2; 3; 4; 250]); [lia|decide_now|]. Defined.

End LogDump.
