(* ===== verification/MmcLog.v ===== *)
(** What the MMC module is to the others: a log (modules/mmc/include/mmc.h).
    The abstract log has no messages, handles or bytes; the module - its thread,
    the calls of its clients, the hard-flush timeout, the log file - refines it,
    for any calls by any clients. *)
From S2P Require Import Prelude Text Services Ipc MmcEntry MmcFile MmcModule MmcCalls LogDump.

Module MmcLog.
Import Ipc MmcFile MmcModule MmcCalls.

(** ** The abstract log

    Whether it is on; the entries in the file, and those a reader of the card
    finds, where known; the number of entries logged.  Entries that were
    written but not flushed may be on the card or not, and so the card is not
    known behind a write; the file is not known after it was off. *)
Record log_s := mk_log {
  on : bool; entries : option (list log_entry); card : option (list log_entry); count : Z }.

(** A call of a client, or the timeout of the time server. *)
Inductive call :=
| Log (type size : Z) (ts : option Z) (data : list Z) (nonblocking : Z)
| SetState (v : Z)
| GetState
| FileSize
| Rm
| GetStats
| HardFlush.

Inductive answer := Nothing | State (v : Z) | Size (r n : Z) | Status (r : Z) | Stats (st : mmc_stats_s).

Definition log_add (e : log_entry) (l : log_s) : log_s :=
  if on l then mk_log true ((fun es => es ++ [e]) <$> entries l) None (u32 (count l + 1)) else l.
Definition log_set (v : Z) (l : log_s) : log_s :=
  if u32 v =? 0 then mk_log false None (card l) (count l) else mk_log true None (card l) (count l).
Definition log_rm (l : log_s) : log_s :=
  if on l then mk_log true (Some []) (Some []) 0 else mk_log false (entries l) (card l) 0.
Definition log_flush (l : log_s) : log_s :=
  if on l then mk_log true (entries l) (entries l) (count l) else l.

Definition flag_of (b : bool) : Z := if b then 1 else 0.
Definition file_bytes (es : list log_entry) : list Z := concat (map entry_bytes es).

(** What a call makes of the log, and its answer.  An entry carries the given
    time stamp or the time of the call. *)
Definition log_does (k : call) (l : log_s) (a : answer) (l' : log_s) : Prop :=
  match k with
  | Log ty size ts data _ => a = Nothing /\ exists t, 0 <= t < 2 ^ 64 /\
      (forall t', ts = Some t' -> t = t') /\
      l' = log_add (Entry ty t (take (Z.to_nat size) data)) l
  | SetState v => l' = log_set v l /\ a = State (flag_of (on l'))
  | GetState => l' = l /\ a = State (flag_of (on l))
  | FileSize => l' = l /\ exists n, a = Size 0 n /\ word n /\
      if on l then forall es, entries l = Some es -> n = u32 (Z.of_nat (length (file_bytes es)))
      else n = 0
  | Rm => l' = log_rm l /\ a = Status 0
  | GetStats => l' = l /\ exists t, 0 <= t < 2 ^ 64 /\ a = Stats (mk_stats t (count l))
  | HardFlush => l' = log_flush l /\ a = Nothing
  end.

Inductive log_runs : log_s -> list call -> list answer -> log_s -> Prop :=
| runs_nil l : log_runs l [] [] l
| runs_cons l k a l1 ks rest l2 : log_does k l a l1 -> log_runs l1 ks rest l2 ->
    log_runs l (k :: ks) (a :: rest) l2.

(** The calls the module is made for: data of up to 456 bytes under a type, a
    64-bit time stamp; the log is not enabled when it is on. *)
Definition call_ok (k : call) (is_on : bool) : Prop :=
  match k with
  | Log ty size ts data _ => 0 < ty < 65536 /\ 0 <= size <= 456 /\ size <= Z.of_nat (length data) /\
      bytes (take (Z.to_nat size) data) /\ (forall t, ts = Some t -> 0 <= t < 2 ^ 64)
  | SetState v => u32 v <> 0 -> is_on = false
  | _ => True
  end.
Definition on_after (k : call) (is_on : bool) : bool :=
  match k with SetState v => negb (u32 v =? 0) | _ => is_on end.
Fixpoint calls_fit (ks : list call) (is_on : bool) : Prop :=
  match ks with [] => True | k :: ks => call_ok k is_on /\ calls_fit ks (on_after k is_on) end.

Lemma log_does_on k l a l' : log_does k l a l' -> on l' = on_after k (on l).
Proof.
  destruct k; cbn; unfold log_add, log_set, log_rm, log_flush; intros Hd; destruct_and?;
    repeat match goal with H : exists _, _ |- _ => destruct H | H : _ /\ _ |- _ => destruct H end;
    subst; repeat case_match; by simplify_eq.
Qed.

(** ** The file, on a card that works *)
Section file.
Context {F : Type} `{!Fat F} `{!FatSpec F}.
Implicit Types f : fs F.

(** The card takes and gives what it is asked for: it can be attached, files
    open, are removed and take every byte. *)
Record card_works : Prop := {
  works_open on (g : F) : fat_ok g -> exists h g', fl_fopen on g = (Done (Some h), g');
  works_rm on (g : F) : fat_ok g -> exists g', fl_remove on g = (Done 0, g');
  works_attach on (g : F) : fat_ok g -> exists g', fl_attach_media on g = (Done FAT_INIT_OK, g');
  works_write : card_writes (F := F);
}.
Hypothesis works : card_works.

(** Between the calls: the file is open when it is enabled. *)
Definition file_ready f : Prop :=
  file_inv f /\ flag (enabled (file f)) /\ (enabled (file f) <> 0 -> ref (file f) <> None).

Lemma ready_fs_ok f : file_ready f -> fs_ok f.
Proof. intros (Hinv & Hfl & _). split; [by apply inv_wf|done]. Qed.

Lemma open_works f : is_init (file f) = IS_INIT_VALUE -> fat_ok (fat f) ->
  (forall h, ~ is_open h (fat f)) ->
  wp mmc_fopen (fun r f' => r = MMC_FILE_ERR_OK /\ exists h, file f' = set_ref (Some h) (file f) /\
    fat_ok (fat f') /\ stored (fat f') = stored (fat f) /\ handles_ok f' /\
    (enabled (file f) <> 0 -> contents (fat f') = stored (fat f))) never f.
Proof.
  intros Hi Hok Hno.
  assert (wp mmc_fopen (fun _ f' => ref (file f') <> None) never f) as Hopen.
  { unfold mmc_fopen. do 3 wp_step. apply wp_on_fat.
    destruct (works_open works (media_on f) (fat f) Hok) as (h & g & Hrun).
    eapply wp_run; [exact Hrun|]. wp_step. apply wp_on_file. by wp_step. }
  eapply wp_mono; [exact (wp_conj _ _ _ _ _ _ (fopen_spec f Hi Hok Hno) Hopen)| |by intros k s []].
  intros r f' [(h & Ef & Hok' & Hst & Hh & Hr) Hne]. rewrite Ef in Hne.
  destruct Hr as [(-> & _ & Hc)|[-> ->]]; [|done]. destruct h as [h|]; [|done].
  split; [done|]. by exists h.
Qed.

(** Each operation, on a ready file. *)
Lemma flush_ready f : file_ready f ->
  wp (mmc_file_flush 1) (fun _ f' => file_ready f' /\ enabled (file f') = enabled (file f) /\
    (enabled (file f) = 0 -> f' = f) /\
    (enabled (file f) <> 0 -> contents (fat f') = contents (fat f) /\
       stored (fat f') = contents (fat f))) never f.
Proof.
  intros Hf. pose proof Hf as ((Hi & Hok & Hh & He0) & Hfl & Hr).
  unfold mmc_file_flush. apply if_enabled_run; [done|by intros ?|by intros He _ ?; destruct (Hr He)|].
  intros He _. change (negb (1 =? 0)) with true. cbn iota. wp_step.
  wp_use ltac:(by apply fclose_spec); [|done]. intros _ f1 (E1 & Hok1 & Hh1 & Hst1).
  rewrite bool_decide_true, (proj2 (Z.eqb_neq _ _) He) in Hst1 by by apply Hr.
  wp_use ltac:(apply open_works; [by rewrite E1|done|apply handles_none; [done|by rewrite E1]]); [|done].
  intros r f2 (-> & h & E2 & Hok2 & Hst2 & Hh2 & Hc). rewrite E1 in E2, Hc.
  unfold file_ready, file_inv. rewrite E2. split; [|by split; [|split; [|rewrite Hc, Hst2]]].
  by split_and!.
Qed.

Lemma rm_ready f : file_ready f ->
  wp mmc_file_rm (fun r f' => r = 0 /\ file_ready f' /\ enabled (file f') = enabled (file f) /\
    (enabled (file f) = 0 -> f' = f) /\
    (enabled (file f) <> 0 -> contents (fat f') = [] /\ stored (fat f') = [])) never f.
Proof.
  intros Hf. pose proof Hf as ((Hi & Hok & Hh & He0) & Hfl & Hr).
  unfold mmc_file_rm. apply if_enabled_run; [done|by intros ?|by intros He ?|].
  intros He _. wp_step. wp_use ltac:(by apply fclose_spec); [|done]. intros _ f1 (E1 & Hok1 & Hh1 & _).
  do 2 wp_step. wp_step. rewrite media_on_run by by rewrite E1.
  rewrite E1. cbn [enabled set_ref]. rewrite (proj2 (Z.eqb_neq _ _) He). apply wp_on_fat.
  destruct (works_rm works true (fat f1) Hok1) as (g & Hrm).
  pose proof (fl_remove_spec true (fat f1) Hok1) as Hs. unfold wp in Hs. rewrite Hrm in Hs.
  destruct Hs as (Hokg & Hopg & Hstg). eapply wp_run; [exact Hrm|]. wp_step.
  assert (forall h, ~ is_open h g) as Hno.
  { intros h Ho. apply Hopg in Ho. by apply (handles_none f1) in Ho; [..|rewrite E1]. }
  wp_use ltac:(apply open_works; [by rewrite E1|done|done]); [|done].
  intros r f2 (-> & h & E2 & Hok2 & Hst2 & Hh2 & Hc). cbn [file] in E2, Hc. rewrite E1 in E2, Hc.
  wp_step. cbn in Hstg, Hst2. unfold file_ready, file_inv. rewrite E2.
  split; [done|]. split; [by split_and!|]. split; [done|]. split; [done|]. intros _.
  rewrite Hc by done. cbn. by rewrite Hst2, Hstg.
Qed.

Lemma size_ready f : file_ready f ->
  wp mmc_file_size (fun '(r, n) f' => f' = f /\ r = 0 /\ word n /\
    n = if enabled (file f) =? 0 then 0 else u32 (Z.of_nat (length (contents (fat f))))) never f.
Proof.
  intros Hf. pose proof Hf as ((Hi & Hok & Hh & He0) & Hfl & Hr).
  unfold mmc_file_size. do 2 wp_step. rewrite init_check_run by done.
  cbv [CHECK_FILE MMC_FILE_ERR_OK MMC_FILE_ERR_NOT_OPEN].
  destruct (Z.eqb_spec (enabled (file f)) 0) as [E|E]; cbn [negb andb Z.eqb]; [by wp_step|].
  rewrite bool_decide_false by by apply Hr. cbn iota. destruct (ref (file f)) as [h|] eqn:Er; [|by destruct Hr].
  cbn [andb Z.eqb]. wp_step. eapply wp_or_fault; [done|]. cbn beta. wp_step.
  unfold handles_ok in Hh. rewrite Er in Hh.
  rewrite filelength_spec by (done || by apply Hh). do 2 (split; [done|]).
  split; [by apply Z.mod_pos_bound|done].
Qed.

Lemma set_ready v f : file_ready f -> (v <> 0 -> enabled (file f) = 0) ->
  wp (mmc_file_set_enabled v) (fun r f' => r = 0 /\ file_ready f' /\
    enabled (file f') = flag_of (negb (v =? 0)) /\ stored (fat f') = stored (fat f)) never f.
Proof.
  intros Hf Hv. pose proof Hf as ((Hi & Hok & Hh & He0) & Hfl & Hr).
  unfold mmc_file_set_enabled. do 2 wp_step. rewrite init_check_dont, Z.eqb_refl by done.
  destruct (Z.eqb_spec v 0) as [->|Hne].
  - wp_step. wp_step.
    + intros _. wp_step. apply wp_on_file. wp_use ltac:(by apply fclose_spec); [|done].
      intros _ f1 (E1 & Hok1 & Hh1 & Hst1). wp_step. cbn in Hst1. rewrite andb_false_r in Hst1.
      unfold file_ready, file_inv. rewrite E1. cbn. split_and!; try done. by left.
    + intros E%negb_false_iff%Z.eqb_eq. wp_step. by rewrite E.
  - specialize (Hv Hne). wp_step.
    wp_use ltac:(apply open_works; [done|done|apply handles_none; [done|by apply He0]]); [|done].
    intros r f1 (-> & h & E1 & Hok1 & Hst1 & Hh1 & _). wp_step. wp_step; [intros _|done].
    apply wp_on_file. wp_step. unfold handles_ok in Hh1. rewrite E1 in Hh1.
    unfold file_ready, file_inv, handles_ok. cbn. rewrite E1. cbn.
    split_and!; try done. by right.
Qed.
End file.

(** ** The module *)
Section module.
Context `{LogPolicy} {F W : Type} `{!Fat F} `{!FatSpec F} `{!TimeServer W} `{!TimeServerSpec W}.
Context `{!Kernel} `{!KernelSpec}.
Implicit Types m : mmc_s F W.

(** A call, by a client with the registers [r]: through the endpoint, to the
    module's thread.  The timeout runs the callback. *)
Abbreviation Client := (M (client (mmc_s F W))).
Definition client_call (k : call) : Client answer :=
  match k with
  | Log ty size ts data nonblocking =>
      mmc_log_entry_data peer_time peer_set_msg peer_send ty size ts data nonblocking;; mret Nothing
  | SetState v => v ← mmc_set_state serve v; mret (State v)
  | GetState => v ← mmc_get_state serve; mret (State v)
  | FileSize => '(r, n) ← mmc_get_file_size serve; mret (Size r n)
  | Rm => r ← mmc_rm serve; mret (Status r)
  | GetStats => st ← mmc_get_stats serve; mret (Stats st)
  | HardFlush => on_peer hard_flush_timeout_cb;; mret Nothing
  end.
Definition do_call (r : regs) (k : call) : M (mmc_s F W) answer :=
  zoom (mk_client r) (fun c _ => c_peer c) (client_call k).
Fixpoint do_calls (l : list (regs * call)) : M (mmc_s F W) (list answer) :=
  match l with
  | [] => mret []
  | (r, k) :: l => a ← do_call r k; rest ← do_calls l; mret (a :: rest)
  end.

(** The module holds the log. *)
Definition known (bs : list Z) (es : option (list log_entry)) : Prop :=
  forall l, es = Some l -> bs = file_bytes l.
Definition holds (l : log_s) m : Prop :=
  mod_ok m /\ file_ready (fsys m) /\ enabled (file (fsys m)) = flag_of (on l) /\
  (on l = true -> known (contents (fat (fsys m))) (entries l)) /\
  known (stored (fat (fsys m))) (card l) /\ entries_logged (stats m) = count l.

Lemma flag_of_0 b : (flag_of b =? 0) = negb b.
Proof. by destruct b. Qed.
Lemma flag_of_inj b b' : flag_of b = flag_of b' -> b = b'.
Proof. by destruct b, b'. Qed.

Lemma file_bytes_snoc es e : file_bytes (es ++ [e]) = file_bytes es ++ entry_bytes e.
Proof. unfold file_bytes. by rewrite map_app, concat_app, <- (app_nil_r (entry_bytes e)). Qed.

(** What the file does shows in the log. *)
Lemma known_none bs : known bs None.
Proof. by intros l. Qed.
Lemma known_add bs es e : known bs es -> known (bs ++ entry_bytes e) ((fun l => l ++ [e]) <$> es).
Proof.
  intros Hk l. destruct es as [es|]; [|done]. intros [= <-]. rewrite file_bytes_snoc.
  by rewrite (Hk es eq_refl).
Qed.

Hypothesis works : card_works (F := F).

(** A logged entry, under its time stamp; the time server is only asked for the
    time. *)
Lemma log_call_holds ty size ts data nonblocking l c : holds l (c_peer c) -> regs_ok (c_regs c) ->
  call_ok (Log ty size ts data nonblocking) (on l) ->
  let t := stamp ts (m_services (c_peer c)) in
  wp (mmc_log_entry_data peer_time peer_set_msg peer_send ty size ts data nonblocking) (fun _ c' =>
    regs_ok (c_regs c') /\ holds (log_add (Entry ty t (take (Z.to_nat size) data)) l) (c_peer c') /\
    0 <= t < 2 ^ 64 /\ (forall t', ts = Some t' -> t = t') /\
    m_services (c_peer c') = clock_after ts (m_services (c_peer c))) never c.
Proof.
  destruct c as [r m]. cbn [c_peer c_regs].
  intros (Hm & Hf & Hen & Hk & Hc & Hcnt) Hr (Hty & Hs & Hl & Hd & Hts).
  pose proof Hm as (Hfs & Hmr & Ht & Hst & He & Hx). pose proof Hf as (Hinv & Hfl & Hopen).
  assert (client_ready (mk_client r m)) as Hready by done.
  wp_use ltac:(by apply (log_entry_run ty size ts data nonblocking _ (works_write works) Hready)); [|done].
  intros _ c' (((Hr' & Hmr') & (Hinv' & Hopen') & Hx' & Ht') & t & Htr & Hteq & (_ & Ef & Ecn & Esame) & Est & Ew & Estamp).
  cbn [c_peer] in *. rewrite <- Estamp. split; [done|]. split; [|done].
  unfold counted in Est. rewrite Hen in *. rewrite flag_of_0 in *.
  assert (enabled (file (fsys (c_peer c'))) = flag_of (on l)) as Hen' by by rewrite Ef.
  assert (mod_ok (c_peer c')) as Hm'.
  { split; [split; [by apply inv_wf|by rewrite Hen']|]. do 2 (split; [done|]). rewrite Est.
    destruct (on l); cbn; (split; [apply Hst|split; [|done]]); [apply u32_range|done]. }
  assert (file_ready (fsys (c_peer c'))) as Hf' by (split; [done|split; [by rewrite Hen'|done]]).
  unfold log_add. destruct (on l) eqn:Eon; cbn [negb flag_of] in *.
  - do 3 (split; [done|]). split; [|split; [apply known_none|]].
    + intros _. rewrite Ecn. by apply known_add, Hk.
    + rewrite Est. cbn. by rewrite Hcnt.
  - do 2 (split; [done|]). rewrite Esame by done. rewrite Eon. by rewrite Est.
Qed.

Lemma holds_calls_ok l r m : holds l m -> regs_ok r -> calls_ok (mk_client r m).
Proof. by intros (Hm & _) Hr. Qed.
Lemma client_flush_run l m : holds l m -> wp (on_fs (mmc_file_flush 1)) (fun _ m' => holds (log_flush l) m') never m.
Proof.
  intros (Hm & Hf & Hen & Hk & Hc & Hcnt). apply wp_on_fs. wp_use ltac:(by apply flush_ready); [|done].
  intros _ f' (Hf' & E & Hoff & Hon). rewrite Hen in *. unfold log_flush.
  assert (mod_ok (set_fsys f' m)) as Hm' by (split; [by apply ready_fs_ok|apply Hm]).
  destruct (on l) eqn:Eon; cbn [flag_of] in *.
  - destruct Hon as [Hcn Hst]; [done|]. unfold holds, known. cbn. rewrite Hcn, Hst.
    specialize (Hk eq_refl). by split_and!.
  - rewrite Hoff in * by done. unfold holds. by rewrite Eon.
Qed.

(** A call, with the registers its client has then. *)
Definition called (k : call) (l : log_s) (a : answer) (c' : client (mmc_s F W)) : Prop :=
  regs_ok (c_regs c') /\ exists l', log_does k l a l' /\ holds l' (c_peer c').

Lemma set_state_refines v l r m : holds l m -> regs_ok r -> call_ok (SetState v) (on l) ->
  wp (client_call (SetState v)) (called (SetState v) l) never (mk_client r m).
Proof.
  intros Hh Hr Hv. pose proof Hh as (Hm & Hf & Hen & Hk & Hc & Hcnt). cbn [client_call]. wp_step.
  wp_use ltac:(by eapply set_state_wp, holds_calls_ok); [|done].
  intros a c' ((Hr' & Hm') & (_ & Est & [= ->] & _ & Hrun)). wp_step. cbn [c_peer] in *.
  split; [done|]. exists (log_set v l). pose proof (set_ready works (u32 v) (fsys m) Hf) as Hs.
  destruct (wp_done _ _ _ (Hs ltac:(intros E; by rewrite Hen, Hv by done)))
    as (err & f & Hset & -> & Hf' & E & Hst). rewrite (Hrun _ Hset). rewrite E.
  assert (on (log_set v l) = negb (u32 v =? 0)) as Hon by (unfold log_set; by destruct (u32 v =? 0)).
  split; [split; [done|by rewrite Hon]|]. unfold holds. rewrite (Hrun _ Hset), Hon. do 2 (split; [done|]).
  split; [done|]. unfold log_set. rewrite Hst, Est. destruct (u32 v =? 0); cbn; by split.
Qed.

Lemma client_call_refines k l r m : holds l m -> regs_ok r -> call_ok k (on l) ->
  wp (client_call k) (called k l) never (mk_client r m).
Proof.
  intros Hh Hr Hk. pose proof (holds_calls_ok l r m Hh Hr) as Hc.
  pose proof Hh as (Hm & Hf & Hen & Hkn & Hcd & Hcnt).
  destruct k as [ty size ts data nonblocking|v| | | | |].
  - cbn [client_call]. wp_step. wp_use ltac:(by apply (log_call_holds ty size ts data nonblocking l)); [|done].
    intros _ c' (Hr' & Hh' & Ht & Hts & _). wp_step. split; [done|]. eexists. split; [|exact Hh'].
    split; [done|]. by eexists.
  - by apply set_state_refines.
  - cbn [client_call]. wp_step. wp_use ltac:(by apply get_state_wp); [|done].
    intros v c' ([Hr' Hm'] & (_ & Est & Ef & [= ->])). wp_step. cbn [c_peer] in *.
    split; [done|]. exists l.
    unfold holds. rewrite Ef, Est, Hen. by split_and!.
  - cbn [client_call]. wp_step. wp_use ltac:(by apply file_size_wp); [|done].
    intros [rr n] c' ([Hr' Hm'] & Est & Ef & _ & Hn & _ & j & Hrun & ->). wp_step. cbn [c_peer] in *.
    pose proof (size_ready (fsys m) Hf) as Hs. unfold wp in Hs. rewrite Hrun in Hs.
    destruct Hs as (_ & -> & Hw & ->). split; [done|]. exists l. split.
    + split; [done|]. eexists. split; [done|]. split; [done|]. rewrite Hen, flag_of_0.
      destruct (on l); [|done]. cbn. intros es Hes. by rewrite (Hkn eq_refl es Hes).
    + unfold holds. by rewrite Ef, Est.
  - cbn [client_call]. wp_step. wp_use ltac:(by apply rm_wp); [|done].
    intros st c' ([Hr' Hm'] & _ & Eent & _ & Hrun). wp_step. cbn [c_peer] in *.
    pose proof (rm_ready works (fsys m) Hf) as Hs. unfold wp in Hs. rewrite Hrun in Hs.
    destruct Hs as (-> & Hf' & E & Hoff & Hon). split; [done|]. exists (log_rm l). split; [done|].
    rewrite Hen in *. unfold log_rm, holds. destruct (on l) eqn:Eon; cbn [flag_of on entries card count] in *.
    + destruct Hon as [Hcn Hst]; [done|]. unfold known. rewrite Hcn, Hst.
      split_and!; try done; intros; by simplify_eq.
    + rewrite Hoff by done. by split_and!.
  - cbn [client_call]. wp_step. wp_use ltac:(by apply mmc_get_stats_wp); [|done].
    intros st c' ([Hr' Hm'] & Ef & Est & Ee & Ht). wp_step. cbn [c_peer] in *. split; [done|]. exists l. split.
    + split; [done|]. exists (timestamp st). split; [done|]. rewrite <- Hcnt, <- Ee. by destruct st.
    + unfold holds. by rewrite Ef, Est, Ee.
  - cbn [client_call]. unfold on_peer, hard_flush_timeout_cb. wp_step. apply wp_zoom. wp_step.
    wp_use ltac:(by apply client_flush_run); [|done]. intros _ m' Hh'. do 2 wp_step.
    split; [done|]. by exists (log_flush l).
Qed.

Lemma call_refines k l r m : holds l m -> regs_ok r -> call_ok k (on l) ->
  wp (do_call r k) (fun a m' => exists l', log_does k l a l' /\ holds l' m') never m.
Proof.
  intros Hh Hr Hk. unfold do_call. apply wp_zoom.
  wp_use ltac:(by apply client_call_refines); [|done]. by intros a c' [_ ?].
Qed.

Lemma calls_refine cs : forall l m, holds l m -> Forall (fun c => regs_ok c.1) cs ->
  calls_fit (map snd cs) (on l) ->
  wp (do_calls cs) (fun as' m' => exists l', log_runs l (map snd cs) as' l' /\ holds l' m') never m.
Proof.
  induction cs as [|[r k] cs IH]; intros l m Hh Hr Hfit; cbn [do_calls map snd].
  - wp_step. exists l. split; [constructor|done].
  - apply Forall_cons_iff in Hr as [Hr Hrs]. destruct Hfit as [Hk Hfit].
    cbn [fst snd] in *. wp_step.
    wp_use ltac:(by apply call_refines); [|done]. intros a m1 (l1 & Hd & Hh1). wp_step.
    rewrite <- (log_does_on _ _ _ _ Hd) in Hfit.
    wp_use ltac:(by apply IH); [|done]. intros rest m2 (l2 & Hrun & Hh2). wp_step.
    exists l2. split; [by econstructor|done].
Qed.

(** The start of the thread: it marks the beginning of a log behind what is on
    the card, and puts the mark there. *)
Definition begin_entry (t : Z) : log_entry := Entry MMC_ENTRY_TYPE_BEGIN_FLAG t [].

Lemma begin_bytes t : entry_bytes (begin_entry t) = entry_header MMC_ENTRY_TYPE_BEGIN_FLAG 0 t.
Proof. unfold entry_bytes. by rewrite app_nil_r. Qed.

Lemma write_begin_run t m : file_ready (fsys m) -> enabled (file (fsys m)) <> 0 -> 0 <= t < 2 ^ 64 ->
  wp (write_mmc_entry (entry_header MMC_ENTRY_TYPE_BEGIN_FLAG 0 t) 1) (fun _ m' => exists f,
    m' = set_fsys f m /\ file_ready f /\ enabled (file f) = enabled (file (fsys m)) /\
    contents (fat f) = contents (fat (fsys m)) ++ entry_bytes (begin_entry t) /\
    stored (fat f) = contents (fat f)) never m.
Proof.
  intros Hf He Ht. pose proof Hf as (Hinv & Hfl & Hopen). unfold write_mmc_entry.
  pose proof (entry_header_fields MMC_ENTRY_TYPE_BEGIN_FLAG 0 t [] ltac:(done) ltac:(done) Ht)
    as (_ & Hsize & _). rewrite app_nil_r in Hsize.
  wp_step. eapply wp_or_fault; [unfold mmc_entry_total_size; by rewrite Hsize|]. cbn beta.
  change (u16 (0 + MMC_ENTRY_HEADER_SIZE)) with 12. wp_step. apply wp_on_fs.
  wp_use ltac:(apply write_exact; [apply (works_write works)|done|done|lia|by rewrite length_entry_header]);
    [|done].
  intros r f [-> (Hinv1 & Ef & Ecn & _)]. wp_step. wp_step; [done|].
  rewrite take_ge in Ecn by (rewrite length_entry_header; lia).
  rewrite (proj2 (Z.eqb_neq _ _) He), <- begin_bytes in Ecn.
  wp_step; [intros _|done]. wp_step. apply wp_on_fs.
  assert (file_ready f) as Hf1 by (split; [done|by rewrite Ef]).
  wp_use ltac:(by apply (flush_ready works)); [|done].
  intros _ f2 (Hf2 & E2 & _ & Hon). cbn [fsys set_fsys] in Hon, E2. wp_step. exists f2.
  rewrite Ef in E2, Hon. destruct Hon as [Hcn Hst]; [done|]. by rewrite Hst, Hcn, Ecn.
Qed.

Lemma start_run ns m es : regs_ok (m_regs m) -> rx_ok m -> time_ok (m_services m) ->
  ids_left (m_services m) -> stats m = mk_stats 0 0 -> stored (fat (fsys m)) = file_bytes es ->
  wp (thread_init ns) (fun _ m' => exists t, 0 <= t < 2 ^ 64 /\
    (let es' := es ++ [begin_entry t] in holds (mk_log true (Some es') (Some es') 1) m') /\
    length (allocated (m_services m')) = S (length (allocated (m_services m)))) never m.
Proof.
  intros Hr Hx Ht Hids Hst0 Hst. unfold thread_init. wp_step. apply wp_on_fs.
  unfold mmc_file_init. wp_step. wp_step. apply wp_on_fs, wp_on_fat.
  wp_use ltac:(apply fl_init_spec); [|done]. intros _ g0 (Hok0 & Hno0 & Est0).
  wp_step. apply wp_on_fs, wp_on_fat.
  wp_use ltac:(by apply fl_attach_locks_spec); [|done]. intros _ g1 (Hok1 & Hop1 & Est1).
  cbn [fat fsys set_fsys] in Est1. rewrite Est0 in Est1. assert (forall h, ~ is_open h g1) as Hno1 by (intros h Ho%Hop1; by eapply Hno0).
  wp_step. apply wp_on_fs. do 2 wp_step. apply wp_on_fat.
  destruct (works_attach works true g1 Hok1) as (g2 & Hatt).
  pose proof (fl_attach_media_spec true g1 Hok1) as Hs. unfold wp in Hs. rewrite Hatt in Hs.
  destruct Hs as (Hok2 & Hop2 & Est2). eapply wp_run; [exact Hatt|].
  wp_step. wp_step; [by rewrite Z.eqb_refl|]. wp_step. apply wp_on_fs.
  unfold mmc_file_open. apply if_enabled_run; [done|done|done|]. intros _ _. do 2 wp_step. cbn [ref file fsys set_fsys].
  wp_use ltac:(apply (open_works works); [done|done|intros h Ho; by apply Hop2, Hno1 in Ho]); [|done].
  intros r f (-> & h & Ef & Hok & Hstf & Hh & Hc). wp_step. wp_step; [done|].
  cbn [file fat] in Ef, Hstf, Hc. specialize (Hc ltac:(done)).
  assert (file_ready f) as Hf by (unfold file_ready, file_inv; rewrite Ef; split_and!; try done; by right).
  assert (stored (fat f) = file_bytes es) as Hcard by by rewrite Hstf, Est2, Est1.
  wp_step. unfold svc at 1. apply wp_zoom.
  wp_use ltac:(by apply ts_alloc_id_spec); [|done]. intros id w1 (Hw1 & _ & Hids1). do 2 wp_step.
  wp_step. unfold svc at 1. apply wp_zoom.
  wp_use ltac:(apply ts_register_periodic_cb_spec; [done|cbn; rewrite Hids1; by left]); [|done].
  intros _ w2 (Hw2 & Hids2 & _). unfold sample_time, svc. wp_step. wp_step. apply wp_zoom.
  wp_use ltac:(by apply ts_get_time_spec); [|done]. intros t w3 (Hw3 & Htr & Hids3). wp_step.
  do 2 wp_step. wp_step. cbn [stats timestamp set_stats].
  wp_use ltac:(apply write_begin_run; [exact Hf|cbn; by rewrite Ef|done]); [|done].
  intros _ m' (f2 & -> & Hf2 & E2 & Hcn & Hst2). unfold count_if_enabled, count_entry.
  cbn [file fat fsys set_fsys set_stats set_services set_timeout_id] in *.
  assert (contents (fat f2) = file_bytes (es ++ [begin_entry t])) as Hall.
  { by rewrite Hcn, Hc, <- Hstf, Hcard, file_bytes_snoc. }
  rewrite Ef in E2. cbn in E2. do 2 wp_step. cbn [file fsys set_fsys].
  rewrite E2. wp_step; [intros _|done]. wp_step. exists t. split; [done|]. cbn zeta.
  split; [|by cbn in *; rewrite Hids3, Hids2, Hids1]. unfold holds, mod_ok. cbn. rewrite E2, Hst2, Hst0, Hall. unfold known.
  split_and!; try done; try lia; try (by apply ready_fs_ok); intros; by simplify_eq.
Qed.

(** ** The property *)

(** C4: the MMC module is the abstract log.  On a card that works, its thread
    starts, marks the beginning of a log behind the entries on the card, and
    from then on serves any calls by any clients, and the hard-flush timeouts,
    in any order: nothing stops, and the answers, the file and the counter are
    those of a run of the abstract log - entries are appended in the order of
    the calls, only while the log is on, a flush puts all of them on the card,
    and a removal clears all.  Whenever the abstract log knows what is on the
    card, the reader of the card prints and tabulates exactly these entries. *)
Theorem log_refines ns m es (cs : list (regs * call)) :
  regs_ok (m_regs m) -> rx_ok m -> time_ok (m_services m) -> ids_left (m_services m) ->
  stats m = mk_stats 0 0 -> stored (fat (fsys m)) = file_bytes es ->
  Forall (fun c => regs_ok c.1) cs -> calls_fit (map snd cs) true ->
  exists m1 t as' m2 l, thread_init ns m = (Done tt, m1) /\ do_calls cs m1 = (Done as', m2) /\
    (let es1 := es ++ [begin_entry t] in
     log_runs (mk_log true (Some es1) (Some es1) 1) (map snd cs) as' l) /\ holds l m2 /\
    forall es2 fuel, card l = Some es2 -> Forall LogDump.readable es2 ->
      (length es2 + 2 <= fuel)%nat ->
      exists d, LogDump.main fuel (LogDump.start (stored (fat (fsys m2))) []) =
          (Done LogDump.EXIT_SUCCESS, d) /\
        LogDump.out d = LogDump.dump_text 0 es2 /\
        LogDump.t10_csv d = String.append LogDump.t10_header
          (String.append newline (LogDump.dump_t10 es2)) /\
        LogDump.td1_csv d = String.append LogDump.td1_header
          (String.append newline (LogDump.dump_td1 es2)).
Proof.
  intros Hr Hx Ht Hids Hst Hcard Hcs Hfit.
  destruct (wp_done _ _ _ (start_run ns m es Hr Hx Ht Hids Hst Hcard)) as ([] & m1 & Hinit & t & Htr & Hh & _).
  destruct (wp_done _ _ _ (calls_refine cs _ m1 Hh Hcs Hfit)) as (as' & m2 & Hrun & l & Hlog & Hh2).
  exists m1, t, as', m2, l. do 4 (split; [done|]). intros es2 fuel Hes Hread Hfuel.
  pose proof Hh2 as (_ & _ & _ & _ & Hknown & _). rewrite (Hknown es2 Hes), <- (app_nil_r (file_bytes es2)).
  pose proof (LogDump.dump_run es2 [] [] fuel Hread ltac:(cbn; lia) ltac:(done) Hfuel) as Hd.
  destruct (wp_done _ _ _ Hd) as (rr & d & Hmain & -> & Hout). by exists d.
Qed.
End module.

(** *** At a concrete input: a fresh system with one entry on the card; two
    clients log, the file is flushed, read, removed and disabled. *)
#[local] Existing Instance log_aborts.

Definition demo_entry : log_entry := Entry MMC_ENTRY_TYPE_HEARTBEAT 900 [].
Definition demo_start : mmc_s ram toy :=
  mk_mmc (mk_fs (mk_file 0 0 None) (Ram (entry_bytes demo_entry) [] [] 1)) (mk_stats 0 0) demo_regs
    (replicate 120 0) 0 [] [] (mk_toy 1000 [] [] []).
Definition demo_calls : list (regs * call) := map (pair demo_regs)
  [Log MMC_ENTRY_TYPE_HOBD_MSG 4 (Some 7) [0xFE; 4; 0xFF; 0xFF] 0; HardFlush;
   Log MMC_ENTRY_TYPE_HEARTBEAT 0 (Some 8) [] 1; FileSize; HardFlush; GetStats].

Lemma ram_works : card_works (F := ram).
Proof. constructor; intros; by repeat eexists. Qed.

Lemma log_refines_witness :
  exists m1 t as' m2 l, thread_init 1000000000 demo_start = (Done tt, m1) /\
    do_calls demo_calls m1 = (Done as', m2) /\
    log_runs (mk_log true (Some [demo_entry; begin_entry t]) (Some [demo_entry; begin_entry t]) 1)
      (map snd demo_calls) as' l /\ holds l m2.
Proof.
  destruct (log_refines ram_works 1000000000 demo_start [demo_entry] demo_calls)
    as (m1 & t & as' & m2 & l & H1 & H2 & H3 & H4 & _).
  - by split.
  - done.
  - split; [cbn; lia|by constructor].
  - unfold ids_left. cbn. by apply Nat.ltb_lt.
  - done.
  - by vm_compute.
  - by repeat constructor.
  - assert (call_ok (Log MMC_ENTRY_TYPE_HOBD_MSG 4 (Some 7) [0xFE; 4; 0xFF; 0xFF] 0) true /\
      call_ok (Log MMC_ENTRY_TYPE_HEARTBEAT 0 (Some 8) [] 1) true) as [H1 H2].
    { split; (split; [done|split; [done|split; [done|split; [decide_now|by intros t' [= <-]]]]]). }
    do 6 (split; [done|]). done.
  - exists m1, t, as', m2, l. exact (conj H1 (conj H2 (conj H3 H4))).
Defined.

(** The card, and the answers. *)
Example log_here :
  let '(o, m1) := thread_init 1000000000 demo_start in
  let '(o2, m2) := do_calls demo_calls m1 in
  o2 = Done [Nothing; Nothing; Nothing; Size 0 52; Nothing; Stats (mk_stats 1001 3)] /\
  stored (fat (fsys m2)) = file_bytes [demo_entry; begin_entry 1000;
    Entry MMC_ENTRY_TYPE_HOBD_MSG 7 [0xFE; 4; 0xFF; 0xFF]; Entry MMC_ENTRY_TYPE_HEARTBEAT 8 []].
Proof. vm_compute. done. Qed.
End MmcLog.
