(* ===== verification/EcuParser.v ===== *)
(** The simulator's own copy of the message parser,
    testing-tools/fake-hobd-ecu-data/src/hobd_parser.c, statement by statement on the
    record of the header it shares with the module (hobd_parser.h).  At the end:
    it is the module's parser ([Parser]), whose theorems therefore hold of it. *)
From S2P Require Import Prelude Kline Parser.

Module EcuParser.
Import Parser.

Abbreviation P := (M hobd_parser_s).

Definition ecu_valid_type (type : Z) : Z :=
  if type =? HOBD_MSG_TYPE_QUERY then type
  else if type =? HOBD_MSG_TYPE_RESPONSE then type
  else if type =? HOBD_MSG_TYPE_WAKE_UP then type
  else u8 HOBD_ERROR_MSG_TYPE.

Definition ecu_valid_subtype (subtype : Z) : Z :=
  if subtype =? HOBD_MSG_SUBTYPE_WAKE_UP then subtype
  else if subtype =? HOBD_MSG_SUBTYPE_INIT then subtype
  else if subtype =? HOBD_MSG_SUBTYPE_TABLE_SUBGROUP then subtype
  else if subtype =? HOBD_MSG_SUBTYPE_TABLE then subtype
  else u8 HOBD_ERROR_MSG_SUBTYPE.

Definition ecu_invalid_reset : P unit :=
  modify (fun p => set_invalid_count (u16 (invalid_count p + 1)) p);;
  modify (set_state HOBD_PARSER_STATE_GET_TYPE).

Definition ecu_ready_parser : P unit :=
  modify (set_bytes_read 0);;
  modify (set_total_size 0);;
  modify (set_checksum 0).

(** [parser->rx_buffer[parser->bytes_read] = byte; parser->bytes_read += 1]. *)
Definition ecu_put_byte (byte : Z) : P unit :=
  p ← gets id;
  buf ← or_fault (store (rx_buffer p) (bytes_read p) byte);
  modify (set_rx_buffer buf);;
  modify (fun p => set_bytes_read (u8 (bytes_read p + 1)) p).

Definition ecu_update_byte (byte : Z) : P unit :=
  ecu_put_byte byte;;
  modify (fun p => set_checksum (u16 (checksum p + byte)) p).

(** The parser itself is given (the simulator passes a field's address). *)
Definition ecu_parser_init (buffer : list Z) (size : Z) : P unit :=
  c_assert (negb (bool_decide (buffer = [])));;
  c_assert (HOBD_MSG_SIZE_MIN <? size);;
  modify (set_state HOBD_PARSER_STATE_GET_TYPE);;
  ecu_ready_parser;;
  modify (set_valid_count 0);;
  modify (set_invalid_count 0);;
  modify (set_rx_buffer buffer);;
  modify (set_rx_buffer_size size).

Definition ecu_parser_reset : P unit :=
  ecu_ready_parser;;
  modify (set_state HOBD_PARSER_STATE_GET_TYPE).

(** The last byte; the result is [ret]. *)
Definition ecu_get_checksum (byte : Z) : P Z :=
  ecu_put_byte byte;;
  cs ← gets checksum;
  (if 0x0100 <? cs
   then modify (set_checksum (u16 (0x0100 - Z.land cs 0x00FF)))
   else modify (set_checksum (u16 (0x0100 - cs))));;
  cs ← gets checksum;
  ret ← (if byte =? u8 (Z.land cs 0x00FF)
         then modify (fun p => set_valid_count (u16 (valid_count p + 1)) p);; mret HOBD_ERROR_NONE
         else modify (fun p => set_invalid_count (u16 (invalid_count p + 1)) p);;
              mret HOBD_ERROR_CHECKSUM);
  modify (set_state HOBD_PARSER_STATE_GET_TYPE);;
  mret ret.

Definition ecu_parser_parse_byte (byte : Z) : P Z :=
  st ← gets state;
  match st with
  | HOBD_PARSER_STATE_GET_TYPE =>
      ecu_ready_parser;;
      ecu_update_byte byte;;
      when (negb (ecu_valid_type byte =? HOBD_MSG_TYPE_INVALID))
        (modify (set_state HOBD_PARSER_STATE_GET_SIZE));;
      mret HOBD_ERROR_NO_MSG
  | HOBD_PARSER_STATE_GET_SIZE =>
      ecu_update_byte byte;;
      (if HOBD_MSG_DATA_SIZE_MAX <? byte then ecu_invalid_reset
       else if byte <? HOBD_MSG_SIZE_MIN then ecu_invalid_reset
       else modify (set_total_size byte);;
            modify (set_state HOBD_PARSER_STATE_GET_SUBTYPE));;
      mret HOBD_ERROR_NO_MSG
  | HOBD_PARSER_STATE_GET_SUBTYPE =>
      ecu_update_byte byte;;
      (if negb (ecu_valid_subtype byte =? HOBD_MSG_SUBTYPE_INVALID)
       then total ← gets total_size;
            if total =? HOBD_MSG_SIZE_MIN
            then modify (set_state HOBD_PARSER_STATE_GET_CHECKSUM)
            else modify (set_state HOBD_PARSER_STATE_GET_DATA)
       else ecu_invalid_reset);;
      mret HOBD_ERROR_NO_MSG
  | HOBD_PARSER_STATE_GET_DATA =>
      ecu_update_byte byte;;
      p ← gets id;
      when (bytes_read p + 1 =? total_size p)
        (modify (set_state HOBD_PARSER_STATE_GET_CHECKSUM));;
      mret HOBD_ERROR_NO_MSG
  | HOBD_PARSER_STATE_GET_CHECKSUM => ecu_get_checksum byte
  end.

(** The loop of the checksum on its locals, [idx] and [cs]; [fuel] bounds its turns. *)
Fixpoint ecu_checksum_for (fuel : nat) (data : list Z) (size : Z) : M (Z * Z) unit :=
  match fuel with
  | O => stop_with Blocked
  | S fuel =>
      '(idx, cs) ← gets id;
      when (idx <? size)
        (b ← or_fault (load data idx);
         modify (fun _ => (u16 (idx + 1), u16 (cs + b)));;
         ecu_checksum_for fuel data size)
  end.

Definition ecu_parser_checksum (data : list Z) (size : Z) : option Z :=
  match ecu_checksum_for (S (Z.to_nat size)) data size (0, 0) with
  | (Done _, (_, cs)) =>
      let cs := if 0x0100 <? cs then u16 (0x0100 - Z.land cs 0x00FF) else u16 (0x0100 - cs) in
      Some (u8 (Z.land cs 0x00FF))
  | (Stop _, _) => None
  end.

(** ** It is the module's parser *)

Lemma ecu_update_byte_run b p : ecu_update_byte b p =
  match update_byte b p with Some p' => (Done tt, p') | None => (Stop Fault, p) end.
Proof.
  unfold ecu_update_byte, ecu_put_byte, update_byte, put_byte, gets, modify, id, mbind, M_bind.
  by destruct (store _ _ _).
Qed.
Lemma ecu_put_byte_run b p : ecu_put_byte b p =
  match put_byte b p with Some p' => (Done tt, p') | None => (Stop Fault, p) end.
Proof.
  unfold ecu_put_byte, put_byte, gets, modify, id, mbind, M_bind. by destruct (store _ _ _).
Qed.

Lemma ecu_parser_reset_run p : ecu_parser_reset p = (Done tt, hobd_parser_reset p).
Proof. done. Qed.

Lemma parser_init_same buffer size p : ecu_parser_init buffer size p = @hobd_parser_init log_aborts buffer size p.
Proof.
  unfold ecu_parser_init, hobd_parser_init, ZF_LOGF_IF, c_assert, mbind, M_bind.
  rewrite Z.ltb_antisym. by destruct (bool_decide _), (_ <=? _).
Qed.

(** A result as the module's parser gives it: a store behind the buffer is a fault. *)
Definition answers (r : outcome Z * hobd_parser_s) (o : option (Z * hobd_parser_s)) : Prop :=
  match o with
  | Some (st, p') => r = (Done st, p')
  | None => exists p', r = (Stop Fault, p')
  end.

Lemma answers_update b p k f : (forall p', answers (k p') (f p')) ->
  answers ((ecu_update_byte b;; k) p) (update_byte b p ≫= f).
Proof.
  intros H. unfold mbind, M_bind. rewrite ecu_update_byte_run.
  destruct (update_byte b p) as [p'|]; [apply H|by exists p].
Qed.
Lemma answers_put b p k f : (forall p', answers (k p') (f p')) ->
  answers ((ecu_put_byte b;; k) p) (put_byte b p ≫= f).
Proof.
  intros H. unfold mbind, M_bind. rewrite ecu_put_byte_run.
  destruct (put_byte b p) as [p'|]; [apply H|by exists p].
Qed.

Lemma bind_gets_run {S A B} (f : S -> A) (k : A -> M S B) s : (gets f ≫= k) s = k (f s) s.
Proof. done. Qed.

Lemma ready_first {A} (k : P A) p : (ecu_ready_parser;; k) p = k (ready_parser p).
Proof. done. Qed.

(** Every byte, in every state: the same answer and the same record. *)
Lemma ecu_parse_byte_run b p : answers (ecu_parser_parse_byte b p) (hobd_parser_parse_byte b p).
Proof.
  unfold ecu_parser_parse_byte, hobd_parser_parse_byte, ecu_get_checksum.
  rewrite bind_gets_run.
  destruct (state p).
  - rewrite ready_first. apply answers_update. intros p'. change (ecu_valid_type b) with (valid_type b).
    by destruct (negb _).
  - apply answers_update. intros p'. by destruct (HOBD_MSG_DATA_SIZE_MAX <? b), (b <? HOBD_MSG_SIZE_MIN).
  - apply answers_update. intros p'. change (ecu_valid_subtype b) with (valid_subtype b).
    destruct (negb _); [|done]. unfold mbind, M_bind, gets. by destruct (total_size p' =? _).
  - apply answers_update. intros p'. unfold mbind, M_bind, gets, id. by destruct (_ =? _).
  - apply answers_put. intros p'. unfold mbind, M_bind, gets. destruct (_ <? checksum p'); cbn [modify].
    all: by destruct (b =? _).
Qed.

Lemma ecu_parse_byte_done b p st p' : hobd_parser_parse_byte b p = Some (st, p') ->
  ecu_parser_parse_byte b p = (Done st, p').
Proof. intros H. pose proof (ecu_parse_byte_run b p) as Hr. by rewrite H in Hr. Qed.

Lemma ecu_checksum_for_run data size fuel : forall idx cs,
  match checksum_loop fuel data size idx cs with
  | Some cs' => exists idx', ecu_checksum_for fuel data size (idx, cs) = (Done tt, (idx', cs'))
  | None => exists k s, ecu_checksum_for fuel data size (idx, cs) = (Stop k, s)
  end.
Proof.
  induction fuel as [|fuel IH]; intros idx cs; [by exists Blocked, (idx, cs)|].
  cbn [checksum_loop ecu_checksum_for]. rewrite bind_gets_run. unfold id, when.
  destruct (idx <? size); [|by exists idx]. unfold mbind at 1 3, M_bind, or_fault.
  destruct (load data idx) as [b|]; [apply IH|by exists Fault, (idx, cs)].
Qed.

Lemma ecu_checksum_run data size : ecu_parser_checksum data size = hobd_parser_checksum data size.
Proof.
  unfold ecu_parser_checksum, hobd_parser_checksum.
  pose proof (ecu_checksum_for_run data size (S (Z.to_nat size)) 0 0) as H.
  destruct (checksum_loop _ _ _ _ _) as [cs|].
  - destruct H as [idx ->]. cbn. by destruct (_ <? cs).
  - by destruct H as (k & [??] & ->).
Qed.
End EcuParser.
