(* ===== verification/Ecu.v ===== *)
(** The ECU at the other end of the K-line, as the simulator
    testing-tools/fake-hobd-ecu-data/src/ecu.c plays it.  Its receive buffer is
    the one of its parser.  The debugging output is left out. *)
From S2P Require Import Prelude Kline Parser EcuParser Msg.

Module Ecu.
Import Parser EcuParser.

Inductive ecu_state_kind := STATE_WAIT4_WAKEUP | STATE_WAIT4_DIAG_INIT | STATE_ACTIVE_LISTEN.

#[export] Instance ecu_state_eq_dec : EqDecision ecu_state_kind.
Proof. solve_decision. Defined.

(** What [recv] finds: a byte, nothing (also the end of the stream), or an error. *)
Inductive poll := RecvByte (b : Z) | RecvEmpty | RecvFailed.

(** [polls]: what the coming polls find; [sent]: what was given to [send]. *)
Record ecu_s := mk_ecu {
  ecu_state : ecu_state_kind;
  rx_parser : hobd_parser_s;
  table_0_page : list Z;
  table_10_page : list Z;
  table_20_page : list Z;
  table_D1_page : list Z;
  tx_buffer : list Z;
  polls : list poll;
  sent : list (list Z);
}.
Abbreviation T := (M ecu_s).

Definition set_ecu_state v e := mk_ecu v (rx_parser e) (table_0_page e) (table_10_page e)
  (table_20_page e) (table_D1_page e) (tx_buffer e) (polls e) (sent e).
Definition set_parser v e := mk_ecu (ecu_state e) v (table_0_page e) (table_10_page e)
  (table_20_page e) (table_D1_page e) (tx_buffer e) (polls e) (sent e).
Definition set_tables t0 t10 t20 td1 e := mk_ecu (ecu_state e) (rx_parser e) t0 t10 t20 td1
  (tx_buffer e) (polls e) (sent e).
Definition set_tx_buffer v e := mk_ecu (ecu_state e) (rx_parser e) (table_0_page e)
  (table_10_page e) (table_20_page e) (table_D1_page e) v (polls e) (sent e).
Definition set_polls v e := mk_ecu (ecu_state e) (rx_parser e) (table_0_page e) (table_10_page e)
  (table_20_page e) (table_D1_page e) (tx_buffer e) v (sent e).
Definition set_sent v e := mk_ecu (ecu_state e) (rx_parser e) (table_0_page e) (table_10_page e)
  (table_20_page e) (table_D1_page e) (tx_buffer e) (polls e) v.

Definition ecu_rx_buffer (e : ecu_s) : list Z := rx_buffer (rx_parser e).
(** A field of the transmit buffer is written, or read. *)
Definition on_tx (f : list Z -> option (list Z)) : T unit :=
  tx ← gets tx_buffer; tx ← or_fault (f tx); modify (set_tx_buffer tx).
Definition get_tx (f : list Z -> option Z) : T Z := tx ← gets tx_buffer; or_fault (f tx).

(** The number of bytes, and the byte. *)
Definition check_for_data : T (Z * Z) :=
  l ← gets polls;
  match l with
  | [] => stop_with Blocked
  | RecvByte b :: l => modify (set_polls l);; mret (1, b)
  | RecvEmpty :: l => modify (set_polls l);; mret (0, 0)
  | RecvFailed :: l => modify (set_polls l);; mret (-1, 0)
  end.

(** The simulator's parser, on the field. *)
Definition on_parser {A} (m : M hobd_parser_s A) : T A := zoom rx_parser set_parser m.

Definition check_for_message : T Z :=
  '(num_bytes, data) ← check_for_data;
  if 0 <? num_bytes then
    status ← on_parser (ecu_parser_parse_byte data);
    if status =? HOBD_ERROR_NONE
    then buf ← gets ecu_rx_buffer; or_fault (header_type buf)
    else mret HOBD_MSG_TYPE_INVALID
  else mret HOBD_MSG_TYPE_INVALID.

(** The message is in the transmit buffer; the result of [send] only matters
    for an error message. *)
Definition send_message : T unit :=
  tx ← gets tx_buffer;
  size ← or_fault (header_size tx);
  bytes ← or_fault (read_at tx 0 size);
  modify (fun e => set_sent (sent e ++ [bytes]) e).

Definition get_data_table (table : Z) (e : ecu_s) : option (list Z) :=
  if table =? HOBD_TABLE_0 then Some (table_0_page e)
  else if table =? HOBD_TABLE_10 then Some (table_10_page e)
  else if table =? HOBD_TABLE_20 then Some (table_20_page e)
  else if table =? HOBD_TABLE_D1 then Some (table_D1_page e)
  else None.

(** [tx_msg->data[index] = hobd_parser_checksum(tx_msg, tx_msg->header.size - 1)]. *)
Definition put_checksum (index : Z) : T unit :=
  size ← get_tx header_size;
  cs ← get_tx (fun tx => ecu_parser_checksum tx (u16 (size - 1)));
  on_tx (set_data index cs).

Definition answer_init : T unit :=
  on_tx (set_header_type HOBD_MSG_TYPE_RESPONSE);;
  on_tx (set_header_size HOBD_MSG_HEADERCS_SIZE);;
  on_tx (set_header_subtype HOBD_MSG_SUBTYPE_INIT);;
  put_checksum 0;;
  send_message.

Definition answer_table (subtype : Z) (msg : list Z) : T unit :=
  c_assert (subtype =? HOBD_MSG_SUBTYPE_TABLE_SUBGROUP);;
  offset ← or_fault (data_at msg 1);
  count ← or_fault (data_at msg 2);
  c_assert (offset + count <=? HOBD_TABLE_SIZE_MAX);;
  on_tx (set_header_type HOBD_MSG_TYPE_RESPONSE);;
  on_tx (set_header_size HOBD_MSG_HEADERCS_SIZE);;
  on_tx (set_header_subtype subtype);;
  size ← get_tx header_size;
  on_tx (set_header_size (size + 2));;
  size ← get_tx header_size;
  on_tx (set_header_size (size + count));;
  table ← or_fault (data_at msg 0);
  on_tx (set_data 0 table);;
  on_tx (set_data 1 offset);;
  when (negb (count =? 0))
    (data_table ← gets (get_data_table table);
     c_assert (bool_decide (is_Some data_table));;
     data_table ← or_fault data_table;
     data ← or_fault (read_at data_table offset count);
     on_tx (fun tx => write_at tx 5 data));;
  size ← get_tx header_size;
  put_checksum (size - HOBD_MSG_HEADER_SIZE - 1);;
  send_message.

(** [msg] is the receive buffer. *)
Definition handle_rx_message : T unit :=
  msg ← gets ecu_rx_buffer;
  type ← or_fault (header_type msg);
  subtype ← or_fault (header_subtype msg);
  if (type =? HOBD_MSG_TYPE_QUERY) && (subtype =? HOBD_MSG_SUBTYPE_INIT) then answer_init
  else if (type =? HOBD_MSG_TYPE_QUERY) &&
          ((subtype =? HOBD_MSG_SUBTYPE_TABLE_SUBGROUP) || (subtype =? HOBD_MSG_SUBTYPE_TABLE))
  then answer_table subtype msg
  else mret tt.

Definition reset_state : T unit :=
  modify (set_ecu_state STATE_WAIT4_WAKEUP);; on_parser ecu_parser_reset.

Definition wait4_wakeup : T unit :=
  msg_type ← check_for_message;
  buf ← gets ecu_rx_buffer;
  when (msg_type =? HOBD_MSG_TYPE_WAKE_UP)
    (subtype ← or_fault (header_subtype buf);
     when (subtype =? HOBD_MSG_SUBTYPE_WAKE_UP)
       (modify (set_ecu_state STATE_WAIT4_DIAG_INIT);; on_parser ecu_parser_reset)).

Definition wait4_diag_init : T unit :=
  msg_type ← check_for_message;
  buf ← gets ecu_rx_buffer;
  when (msg_type =? HOBD_MSG_TYPE_QUERY)
    (subtype ← or_fault (header_subtype buf);
     when (subtype =? HOBD_MSG_SUBTYPE_INIT)
       (data ← or_fault (data_at buf 0);
        when (data =? HOBD_INIT_DATA)
          (modify (set_ecu_state STATE_ACTIVE_LISTEN);;
           on_parser ecu_parser_reset;;
           handle_rx_message))).

Definition active_listen : T unit :=
  msg_type ← check_for_message;
  when (msg_type =? HOBD_MSG_TYPE_QUERY) handle_rx_message.

Definition ecu_update : T Z :=
  st ← gets ecu_state;
  match st with
  | STATE_WAIT4_WAKEUP => wait4_wakeup
  | STATE_WAIT4_DIAG_INIT => wait4_diag_init
  | STATE_ACTIVE_LISTEN => active_listen
  end;;
  mret 0.

(** [calloc], then the initialisation; [l] is what the polls will find.  *)
Definition RX_BUFFER_SIZE : Z := HOBD_MSG_SIZE_MAX + HOBD_MSG_HEADERCS_SIZE.
Definition zeroed (n : Z) : list Z := replicate (Z.to_nat n) 0.
Definition calloc_ecu (l : list poll) : ecu_s :=
  mk_ecu STATE_WAIT4_WAKEUP (mk_parser HOBD_PARSER_STATE_GET_TYPE 0 0 0 0 0 [] 0)
    (zeroed HOBD_TABLE_SIZE_MAX) (zeroed HOBD_TABLE_SIZE_MAX) (zeroed HOBD_TABLE_SIZE_MAX)
    (zeroed HOBD_TABLE_SIZE_MAX) (zeroed RX_BUFFER_SIZE) l [].
Definition ecu_init : T unit :=
  on_parser (ecu_parser_init (zeroed RX_BUFFER_SIZE) RX_BUFFER_SIZE);;
  modify (fun e => set_tables (table_0_page e)
    (replicate (Z.to_nat HOBD_TABLE_SIZE_MAX) 0xAA) (table_20_page e)
    (replicate (Z.to_nat HOBD_TABLE_SIZE_MAX) 0xBB) e);;
  reset_state.
Definition ecu_new (l : list poll) : ecu_s := (ecu_init (calloc_ecu l)).2.

(** [n] turns of the main loop. *)
Fixpoint ecu_run (n : nat) : T unit :=
  match n with O => mret tt | S n => ecu_update;; ecu_run n end.

(** ** The reference ECU

    What it does with a complete message, over the frames instead of the bytes
    and buffers; [None] for a query outside of its contract: a full-table query,
    a query too short for its fields, a range beyond the table, an unknown
    table, or a count too large for a message. *)
Definition page_of (e : ecu_s) (table : Z) : option (list Z) := get_data_table table e.

Definition answer (page : Z -> option (list Z)) (f : list Z) : option (list (list Z)) :=
  subtype ← f !! 2%nat;
  if subtype =? HOBD_MSG_SUBTYPE_INIT then
    Some [mk_frame HOBD_MSG_TYPE_RESPONSE HOBD_MSG_SUBTYPE_INIT []]
  else if subtype =? HOBD_MSG_SUBTYPE_TABLE_SUBGROUP then
    table ← f !! 3%nat; offset ← f !! 4%nat; count ← f !! 5%nat;
    if (offset + count <=? HOBD_TABLE_SIZE_MAX) && (count <=? 249) then
      data ← (if count =? 0 then Some []
              else t ← page table; Some (take (Z.to_nat count) (drop (Z.to_nat offset) t)));
      Some [mk_frame HOBD_MSG_TYPE_RESPONSE subtype (table :: offset :: data)]
    else None
  else if subtype =? HOBD_MSG_SUBTYPE_TABLE then None
  else Some [].

Definition react (page : Z -> option (list Z)) (k : ecu_state_kind) (f : list Z) :
    option (ecu_state_kind * list (list Z)) :=
  match k with
  | STATE_WAIT4_WAKEUP =>
      Some (if bool_decide (f !! 0%nat = Some HOBD_MSG_TYPE_WAKE_UP /\
                            f !! 2%nat = Some HOBD_MSG_SUBTYPE_WAKE_UP)
            then STATE_WAIT4_DIAG_INIT else k, [])
  | STATE_WAIT4_DIAG_INIT =>
      if bool_decide (f !! 0%nat = Some HOBD_MSG_TYPE_QUERY /\
                      f !! 2%nat = Some HOBD_MSG_SUBTYPE_INIT /\
                      f !! 3%nat = Some HOBD_INIT_DATA)
      then out ← answer page f; Some (STATE_ACTIVE_LISTEN, out) else Some (k, [])
  | STATE_ACTIVE_LISTEN =>
      if bool_decide (f !! 0%nat = Some HOBD_MSG_TYPE_QUERY)
      then out ← answer page f; Some (k, out) else Some (k, [])
  end.

(** The message a poll completes, and what is pending after it. *)
Definition receive (p : poll) (pend : list Z) : option (list Z) * list Z :=
  match p with
  | RecvByte b =>
      let '(v, pend) := framer_step pend b in
      (match v with Framed f => Some f | _ => None end, pend)
  | _ => (None, pend)
  end.

Definition spec_step (page : Z -> option (list Z)) (k : ecu_state_kind) (pend : list Z) (p : poll) :
    option (ecu_state_kind * list Z * list (list Z)) :=
  let '(msg, pend) := receive p pend in
  match msg with
  | Some f => '(k, out) ← react page k f; Some (k, pend, out)
  | None => Some (k, pend, [])
  end.

Fixpoint spec_run (page : Z -> option (list Z)) (k : ecu_state_kind) (pend : list Z) (l : list poll) :
    option (ecu_state_kind * list Z * list (list Z)) :=
  match l with
  | [] => Some (k, pend, [])
  | p :: l =>
      '(k, pend, out) ← spec_step page k pend p;
      '(k, pend, outs) ← spec_run page k pend l;
      Some (k, pend, out ++ outs)
  end.


(** ** The transmit buffer *)

Implicit Types e : ecu_s.

Lemma wp_on_ecu_tx f tx (Q : unit -> ecu_s -> Prop) X e :
  f (tx_buffer e) = Some tx -> Q tt (set_tx_buffer tx e) -> wp (on_tx f) Q X e.
Proof.
  intros Hf HQ. unfold on_tx. do 2 wp_step. wp_step. eapply wp_or_fault; [exact Hf|].
  cbn beta. by wp_step.
Qed.

Lemma wp_get_tx f v (Q : Z -> ecu_s -> Prop) X e :
  f (tx_buffer e) = Some v -> Q v e -> wp (get_tx f) Q X e.
Proof.
  intros Hf HQ. unfold get_tx. do 2 wp_step. eapply wp_or_fault; [exact Hf|done].
Qed.

Lemma wp_tx_store i v (Q : unit -> ecu_s -> Prop) X e :
  length (tx_buffer e) = 259%nat -> 0 <= i < 259 ->
  Q tt (set_tx_buffer (<[Z.to_nat i := v]> (tx_buffer e)) e) ->
  wp (on_tx (fun tx => store tx i v)) Q X e.
Proof.
  intros Hl Hi. apply wp_on_ecu_tx. unfold store. by rewrite decide_True by lia.
Qed.

(** A statement that writes one byte of the transmit buffer. *)
Ltac tx_store :=
  wp_step; eapply wp_tx_store;
    [cbn [tx_buffer set_tx_buffer]; rewrite ?length_insert; assumption|lia|].

(** The checksum behind a message, and sending it. *)
Lemma finish_wp ty st data old rest (Q : unit -> ecu_s -> Prop) X e :
  byte ty -> byte st -> (length data <= 251)%nat ->
  tx_buffer e = frame_body ty st data ++ [old] ++ rest ->
  Q tt (set_sent (sent e ++ [mk_frame ty st data]) (set_tx_buffer (mk_frame ty st data ++ rest) e)) ->
  wp (put_checksum (Z.of_nat (length data));; send_message) Q X e.
Proof.
  intros Hty Hst Hl Htx HQ.
  pose proof (Msg.update_checksum_spec ty st data rest old Hty Hst Hl) as Hup.
  assert (header_size (tx_buffer e) = Some (Z.of_nat (length data) + 4)) as Hsz by by rewrite Htx.
  rewrite <- Htx in Hup. unfold Msg.hobd_msg_update_checksum in Hup. rewrite Hsz in Hup.
  cbn [mbind option_bind] in Hup. apply bind_Some in Hup as (cs & Hcs & Hset).
  replace (Z.of_nat (length data) + 4 - HOBD_MSG_HEADERCS_SIZE) with (Z.of_nat (length data)) in Hset
    by (unfold HOBD_MSG_HEADERCS_SIZE; lia).
  wp_step. unfold put_checksum. wp_step. eapply wp_get_tx; [exact Hsz|]. wp_step.
  rewrite <- ecu_checksum_run in Hcs. eapply wp_get_tx; [exact Hcs|]. eapply wp_on_ecu_tx; [exact Hset|].
  unfold send_message. do 2 wp_step. wp_step. apply (wp_or_fault _ (Z.of_nat (length data) + 4)); [done|].
  cbn beta. wp_step. apply (wp_or_fault _ (mk_frame ty st data)).
  { change (read_at (mk_frame ty st data ++ rest) 0 (Z.of_nat (length data) + 4) =
      Some (mk_frame ty st data)).
    replace (Z.of_nat (length data) + 4) with (Z.of_nat (length (mk_frame ty st data)))
      by (rewrite length_mk_frame; lia).
    unfold read_at. rewrite decide_True by (rewrite length_app; lia).
    rewrite Nat2Z.id, drop_0, take_app_length. done. }
  cbn beta. by wp_step.
Qed.

Lemma byte_u8 b : byte b -> u8 b = b.
Proof. intros Hb. apply Z.mod_small, Hb. Qed.

Lemma answer_init_wp (Q : unit -> ecu_s -> Prop) X e :
  length (tx_buffer e) = 259%nat ->
  (forall tx, length tx = 259%nat -> Q tt (set_sent
     (sent e ++ [mk_frame HOBD_MSG_TYPE_RESPONSE HOBD_MSG_SUBTYPE_INIT []]) (set_tx_buffer tx e))) ->
  wp answer_init Q X e.
Proof.
  intros Hl HQ. unfold answer_init. do 3 tx_store.
  destruct (tx_buffer e) as [|x0 [|x1 [|x2 [|x3 rest]]]] eqn:E; cbn in Hl; try lia.
  apply (finish_wp HOBD_MSG_TYPE_RESPONSE HOBD_MSG_SUBTYPE_INIT [] x3 rest);
    [decide_now|decide_now|cbn; lia| |].
  - cbn [tx_buffer set_tx_buffer]. done.
  - apply HQ. rewrite length_app, length_mk_frame. cbn. lia.
Qed.

(** The answer to a table query, given the fields of the query. *)
Lemma answer_table_wp msg table offset count data (Q : unit -> ecu_s -> Prop) X e :
  length (tx_buffer e) = 259%nat -> byte table -> byte offset -> 0 <= count <= 249 ->
  offset + count <= 255 -> data_at msg 0 = Some table -> data_at msg 1 = Some offset ->
  data_at msg 2 = Some count -> length data = Z.to_nat count ->
  (count <> 0 -> exists page, get_data_table table e = Some page /\
     read_at page offset count = Some data) ->
  (forall tx, length tx = 259%nat -> Q tt (set_sent
     (sent e ++ [mk_frame HOBD_MSG_TYPE_RESPONSE HOBD_MSG_SUBTYPE_TABLE_SUBGROUP
        (table :: offset :: data)]) (set_tx_buffer tx e))) ->
  wp (answer_table HOBD_MSG_SUBTYPE_TABLE_SUBGROUP msg) Q X e.
Proof.
  intros Hl Ht Ho Hc Hr H0 H1 H2 Hd Hpage HQ. unfold answer_table. wp_step.
  change (c_assert _) with (mret (M := M ecu_s) tt) at 1. do 2 wp_step.
  eapply wp_or_fault; [exact H1|]. cbn beta. wp_step. eapply wp_or_fault; [exact H2|]. cbn beta.
  wp_step. unfold c_assert at 1. unfold HOBD_TABLE_SIZE_MAX.
  rewrite (proj2 (Z.leb_le _ _) Hr). wp_step. do 3 tx_store.
  destruct (tx_buffer e) as [|x0 [|x1 [|x2 [|x3 [|x4 rest]]]]] eqn:E; cbn in Hl; try lia.
  wp_step. apply wp_get_tx with (v := 4); [done|]. tx_store.
  wp_step. apply wp_get_tx with (v := 6); [done|]. tx_store.
  wp_step. eapply wp_or_fault; [exact H0|]. cbn beta. do 2 tx_store.
  match goal with |- wp _ _ _ ?s =>
    replace s with (set_tx_buffer ([2; 6 + count; 0x72; table; offset] ++ rest) e)
      by (unfold set_tx_buffer; cbn; by rewrite !byte_u8 by (done || (unfold byte; lia))) end.
  assert (length rest = 254%nat) as Hrest by lia.
  set (body := frame_body HOBD_MSG_TYPE_RESPONSE HOBD_MSG_SUBTYPE_TABLE_SUBGROUP
    (table :: offset :: data)).
  assert (body = [2; 6 + count; 0x72; table; offset] ++ data) as Hbody.
  { unfold body, frame_body. cbn [length app]. rewrite Hd.
    by replace (Z.of_nat (S (S (Z.to_nat count))) + 4) with (6 + count) by lia. }
  assert (forall e', e' = set_tx_buffer ([2; 6 + count; 0x72; table; offset] ++ data ++
      drop (length data) rest) e ->
    wp (size ← get_tx header_size; put_checksum (size - HOBD_MSG_HEADER_SIZE - 1);; send_message)
      Q X e') as Hfinish.
  { intros e' ->. wp_step. apply wp_get_tx with (v := 6 + count); [done|].
    replace (6 + count - HOBD_MSG_HEADER_SIZE - 1) with (Z.of_nat (length (table :: offset :: data)))
      by (unfold HOBD_MSG_HEADER_SIZE; cbn [length]; lia).
    destruct (drop (length data) rest) as [|old rest'] eqn:Er.
    { apply (f_equal length) in Er. rewrite length_drop in Er. cbn in Er. lia. }
    apply (finish_wp HOBD_MSG_TYPE_RESPONSE HOBD_MSG_SUBTYPE_TABLE_SUBGROUP _ old rest');
      [decide_now|decide_now|cbn [length]; lia| |].
    - fold body. rewrite Hbody. cbn [tx_buffer set_tx_buffer]. by rewrite <- app_assoc.
    - apply HQ. apply (f_equal length) in Er. rewrite length_drop in Er. cbn [length] in Er.
      rewrite length_app, length_mk_frame. cbn [length]. lia. }
  wp_step. wp_step; intros Hc0.
  - apply negb_true_iff, Z.eqb_neq in Hc0. destruct (Hpage Hc0) as (page & Hp & Hdata).
    do 2 wp_step. change (get_data_table table (set_tx_buffer _ e)) with (get_data_table table e).
    rewrite Hp. wp_step. change (c_assert _) with (mret (M := M ecu_s) tt). do 2 wp_step.
    eapply wp_or_fault; [done|]. cbn beta. wp_step. eapply wp_or_fault; [exact Hdata|]. cbn beta.
    eapply wp_on_ecu_tx; [|by apply Hfinish].
    cbn [tx_buffer set_tx_buffer]. unfold write_at. rewrite decide_True.
    + done.
    + autorewrite with len. cbn [length]. lia.
  - apply negb_false_iff, Z.eqb_eq in Hc0. subst count. destruct data; [|done]. by apply Hfinish.
Qed.

(** ** Receiving *)

(** The state between two turns, and the answers a table gives. *)
Definition ecu_ok (page : Z -> option (list Z)) (pend : list Z) e : Prop :=
  repr (rx_parser e) pend /\ length (ecu_rx_buffer e) = 259%nat /\
  length (tx_buffer e) = 259%nat /\ (forall t, get_data_table t e = page t) /\
  (forall t p, page t = Some p -> length p = 255%nat).

Definition poll_ok (p : poll) : Prop := match p with RecvByte b => byte b | _ => True end.

#[export] Instance poll_ok_dec p : Decision (poll_ok p).
Proof. destruct p; cbn; apply _. Defined.

Definition never : stop -> ecu_s -> Prop := fun _ _ => False.

Lemma msg_field (f buf : list Z) (i : nat) (x : Z) :
  take (length f) buf = f -> f !! i = Some x -> load buf (Z.of_nat i) = Some x.
Proof.
  intros Ht Hx. rewrite load_nat. pose proof (lookup_lt_Some _ _ _ Hx).
  rewrite <- (lookup_take_lt buf (length f)) by done. by rewrite Ht.
Qed.

Lemma receive_framed p pend f : (receive p pend).1 = Some f -> (receive p pend).2 = [].
Proof.
  destruct p as [b| |]; [|done..]. unfold receive, framer_step.
  destruct (_ !! 1%nat) as [size|]; [|done]. by repeat case_match; cbn; intros; simplify_eq.
Qed.

Lemma wp_on_parser {A} (m : M hobd_parser_s A) a p' Q X e :
  m (rx_parser e) = (Done a, p') -> Q a (set_parser p' e) -> wp (on_parser m) Q X e.
Proof. intros Hm HQ. apply wp_zoom. unfold wp. by rewrite Hm. Qed.

Lemma check_wp page pend e p l :
  ecu_ok page pend e -> polls e = p :: l -> poll_ok p ->
  wp check_for_message (fun ty e' => exists p', e' = set_parser p' (set_polls l e) /\
    repr p' (receive p pend).2 /\ length (rx_buffer p') = 259%nat /\
    match (receive p pend).1 with
    | Some f => frame_ok f /\ take (length f) (rx_buffer p') = f /\ f !! 0%nat = Some ty
    | None => ty = HOBD_MSG_TYPE_INVALID
    end) never e.
Proof.
  intros (Hr & Hrx & _) Hp Hok. unfold check_for_message, check_for_data.
  wp_step. do 2 wp_step. rewrite Hp.
  destruct p as [b| |]; wp_step; wp_step; wp_step; cbn beta iota.
  - pose proof (parse_step b (rx_parser e) pend Hok Hr) as Hstep. unfold step_refines in Hstep.
    unfold receive. destruct (framer_step pend b) as [v pend'].
    destruct Hstep as (p' & Hparse & Hr' & _ & Hlen & _ & Hf).
    change (0 <? 1) with true. cbn iota. wp_step.
    eapply wp_on_parser; [exact (ecu_parse_byte_done _ _ _ _ Hparse)|].
    assert (length (rx_buffer p') = 259%nat) as Hlen' by (by rewrite Hlen).
    destruct v as [| | |f]; cbn [status_of fst snd].
    1-3: change (_ =? HOBD_ERROR_NONE) with false; cbn iota; wp_step; exists p'; by split_and!.
    specialize (Hf f eq_refl) as [Hfok Htake]. change (HOBD_ERROR_NONE =? HOBD_ERROR_NONE) with true.
    cbn iota. do 2 wp_step. pose proof Hfok as (_ & Hfl & _).
    destruct (lookup_lt_is_Some_2 f 0) as [ty Hty]; [lia|].
    apply (wp_or_fault _ ty); [exact (msg_field f _ 0 ty Htake Hty)|]. exists p'. by split_and!.
  - change (0 <? 0) with false. cbn iota. wp_step. by exists (rx_parser e).
  - change (0 <? -1) with false. cbn iota. wp_step. by exists (rx_parser e).
Qed.

(** ** Answering *)

Lemma handle_wp page f out e :
  frame_ok f -> take (length f) (ecu_rx_buffer e) = f -> f !! 0%nat = Some HOBD_MSG_TYPE_QUERY ->
  length (tx_buffer e) = 259%nat -> (forall t, get_data_table t e = page t) ->
  (forall t p, page t = Some p -> length p = 255%nat) -> answer page f = Some out ->
  wp handle_rx_message (fun _ e' => exists tx, length tx = 259%nat /\
    e' = set_sent (sent e ++ out) (set_tx_buffer tx e)) never e.
Proof.
  intros (Hb & Hl & _) Htake H0 Htx Hpage Hpages Hans.
  apply bind_Some in Hans as (st & H2 & Hans).
  assert (forall (i : nat) x, f !! i = Some x -> byte x) as Hbyte.
  { intros i x. by apply bytes_lookup. }
  unfold handle_rx_message. do 2 wp_step. wp_step.
  eapply wp_or_fault; [exact (msg_field f _ 0 _ Htake H0)|]. cbn beta. wp_step.
  eapply wp_or_fault; [exact (msg_field f _ 2 _ Htake H2)|]. cbn beta.
  change (HOBD_MSG_TYPE_QUERY =? HOBD_MSG_TYPE_QUERY) with true. cbn [andb].
  destruct (st =? HOBD_MSG_SUBTYPE_INIT) eqn:Ei.
  { injection Hans as <-. apply answer_init_wp; [done|]. intros tx Hltx. by exists tx. }
  destruct (st =? HOBD_MSG_SUBTYPE_TABLE_SUBGROUP) eqn:Es; cbn [orb].
  - apply Z.eqb_eq in Es. subst st. cbn [andb]. apply bind_Some in Hans as (table & H3 & Hans).
    apply bind_Some in Hans as (offset & H4 & Hans). apply bind_Some in Hans as (count & H5 & Hans).
    destruct (_ && _) eqn:Hr; [|done]. apply andb_true_iff in Hr as [Hr1 Hr2].
    apply Z.leb_le in Hr1, Hr2. unfold HOBD_TABLE_SIZE_MAX in Hr1.
    apply bind_Some in Hans as (data & Hdata & [= <-]).
    pose proof (Hbyte _ _ H3) as Bt. pose proof (Hbyte _ _ H4) as Bo. pose proof (Hbyte _ _ H5) as Bc.
    unfold byte in Bo, Bc.
    assert (length data = Z.to_nat count /\ (count <> 0 -> exists p, get_data_table table e = Some p /\
      read_at p offset count = Some data)) as [Hld Hpg].
    { destruct (Z.eqb_spec count 0) as [->|Hc0]; [by injection Hdata as <-|].
      apply bind_Some in Hdata as (p & Hp & [= <-]). pose proof (Hpages _ _ Hp) as Hlp.
      split; [rewrite length_take, length_drop; lia|]. intros _. exists p. rewrite Hpage.
      split; [done|]. unfold read_at. by rewrite decide_True by lia. }
    apply (answer_table_wp _ table offset count data); try done; try lia.
    + exact (msg_field f _ 3 _ Htake H3).
    + exact (msg_field f _ 4 _ Htake H4).
    + exact (msg_field f _ 5 _ Htake H5).
    + intros tx Hltx. by exists tx.
  - destruct (st =? HOBD_MSG_SUBTYPE_TABLE); [done|]. injection Hans as <-. wp_step.
    exists (tx_buffer e). split; [done|]. rewrite app_nil_r. by destruct e.
Qed.

(** ** The refinement *)

Lemma repr_reset p : repr p [] -> (251 <= length (rx_buffer p))%nat ->
  repr (hobd_parser_reset p) [].
Proof. intros _ Hl. by apply repr_nil. Qed.

(** What one turn leaves behind. *)
Definition turn_ok page k pend (out : list (list Z)) (l : list poll) e (e' : ecu_s) : Prop :=
  ecu_ok page pend e' /\ ecu_state e' = k /\ sent e' = sent e ++ out /\ polls e' = l.

Lemma after_check page pend pend' l e p' :
  ecu_ok page pend e -> repr p' pend' -> length (rx_buffer p') = 259%nat ->
  turn_ok page (ecu_state e) pend' [] l e (set_parser p' (set_polls l e)).
Proof.
  intros (_ & _ & Htx & Hpg & Hpl) Hr Hl. split_and!; [by split_and!|done| |done].
  cbn. by rewrite app_nil_r.
Qed.

(** Taking a transition, and answering in the new state. *)
Lemma turn_state page k k' pend out l e e' :
  turn_ok page k pend out l e e' -> turn_ok page k' pend out l e (set_ecu_state k' e').
Proof. intros (Hok & _ & Hs & Hl). by split_and!. Qed.

Lemma turn_reset page k out l e e' :
  turn_ok page k [] out l e e' ->
  turn_ok page k [] out l e (set_parser (hobd_parser_reset (rx_parser e')) e').
Proof.
  intros ((Hr & Hl & Hrest) & Hrest2). split; [|done]. split; [|by split].
  apply repr_reset; [done|]. unfold ecu_rx_buffer in Hl. lia.
Qed.

Lemma turn_answer page k f out l e e' :
  turn_ok page k [] [] l e e' -> frame_ok f -> take (length f) (ecu_rx_buffer e') = f ->
  f !! 0%nat = Some HOBD_MSG_TYPE_QUERY -> answer page f = Some out ->
  wp handle_rx_message (fun _ e'' => turn_ok page k [] out l e e'') never e'.
Proof.
  intros ((Hr & Hl & Htx & Hpg & Hpl) & Hk & Hs & Hp) Hf Ht H0 Ha.
  wp_use ltac:(by apply (handle_wp page f out)); [|done]. intros _ e'' (tx & Hltx & ->).
  rewrite app_nil_r in Hs. split_and!; [by split_and!|done| |done]. cbn. by rewrite Hs.
Qed.

Lemma update_wp page k pend p l k' pend' out e :
  ecu_ok page pend e -> ecu_state e = k -> polls e = p :: l -> poll_ok p ->
  spec_step page k pend p = Some (k', pend', out) ->
  wp ecu_update (fun r e' => r = 0 /\ turn_ok page k' pend' out l e e') never e.
Proof.
  intros Hok Hk Hp Hpk Hspec. unfold ecu_update. wp_step. wp_step. rewrite Hk. wp_step.
  apply (wp_mono _ (fun _ e' => turn_ok page k' pend' out l e e') _ never);
    [|intros _ e' ?; by wp_step|done].
  unfold spec_step in Hspec. pose proof (receive_framed p pend) as Hnil.
  pose proof (check_wp page pend e p l Hok Hp Hpk) as Hcheck.
  destruct (receive p pend) as [msg pend2] eqn:Er. cbn [fst snd] in *.
  destruct k; unfold wait4_wakeup, wait4_diag_init, active_listen; wp_step;
    (wp_use ltac:(exact Hcheck); [|done]); intros ty e1 (p' & -> & Hr' & Hl' & Hmsg);
    pose proof (after_check page pend pend2 l e p' Hok Hr' Hl') as Hturn; rewrite Hk in Hturn.
  - do 2 wp_step. destruct msg as [f|]; [|injection Hspec as <- <- <-; subst ty; by wp_step].
    destruct Hmsg as (Hfok & Htake & Hty). specialize (Hnil f eq_refl) as ->.
    pose proof Hfok as (_ & Hfl & _). destruct (lookup_lt_is_Some_2 f 2) as [st Hst]; [lia|].
    injection Hspec as <- <- <-. rewrite Hty, Hst. wp_step; intros Et.
    + apply Z.eqb_eq in Et as ->. wp_step.
      eapply wp_or_fault; [exact (msg_field f _ 2 _ Htake Hst)|]. cbn beta.
      wp_step; intros Es.
      * apply Z.eqb_eq in Es as ->. rewrite bool_decide_eq_true_2 by done. do 2 wp_step.
        eapply wp_on_parser; [done|]. by apply turn_reset, (turn_state _ STATE_WAIT4_WAKEUP).
      * rewrite bool_decide_eq_false_2; [done|]. intros [_ [= ->]]. by rewrite Z.eqb_refl in Es.
    + rewrite bool_decide_eq_false_2; [done|]. intros [[= ->] _]. by rewrite Z.eqb_refl in Et.
  - do 2 wp_step. destruct msg as [f|]; [|injection Hspec as <- <- <-; subst ty; by wp_step].
    destruct Hmsg as (Hfok & Htake & Hty). specialize (Hnil f eq_refl) as ->.
    pose proof Hfok as (_ & Hfl & _). destruct (lookup_lt_is_Some_2 f 2) as [st Hst]; [lia|].
    destruct (lookup_lt_is_Some_2 f 3) as [d Hd]; [lia|].
    unfold react in Hspec. rewrite Hty, Hst, Hd in Hspec.
    wp_step; intros Et; [|rewrite bool_decide_eq_false_2 in Hspec;
      [by injection Hspec as <- <- <-|intros [[= ->] _]; by rewrite Z.eqb_refl in Et]].
    apply Z.eqb_eq in Et as ->. wp_step.
    eapply wp_or_fault; [exact (msg_field f _ 2 _ Htake Hst)|]. cbn beta.
    wp_step; intros Es; [|rewrite bool_decide_eq_false_2 in Hspec;
      [by injection Hspec as <- <- <-|intros (_ & [= ->] & _); by rewrite Z.eqb_refl in Es]].
    apply Z.eqb_eq in Es as ->. wp_step.
    eapply wp_or_fault; [exact (msg_field f _ 3 _ Htake Hd)|]. cbn beta.
    wp_step; intros Ed; [|rewrite bool_decide_eq_false_2 in Hspec;
      [by injection Hspec as <- <- <-|intros (_ & _ & [= ->]); by rewrite Z.eqb_refl in Ed]].
    apply Z.eqb_eq in Ed as ->. rewrite bool_decide_eq_true_2 in Hspec by done.
    apply bind_Some in Hspec as ([k2 out2] & Hreact & Hspec).
    apply bind_Some in Hreact as (out3 & Ha & [= <- <-]). injection Hspec as <- <- <-.
    do 3 wp_step. eapply wp_on_parser; [done|]. apply (turn_answer page _ f); [|done..].
    by apply turn_reset, (turn_state _ STATE_WAIT4_DIAG_INIT).
  - destruct msg as [f|]; [|injection Hspec as <- <- <-; subst ty; by wp_step].
    destruct Hmsg as (Hfok & Htake & Hty). specialize (Hnil f eq_refl) as ->.
    unfold react in Hspec. rewrite Hty in Hspec.
    wp_step; intros Et; [|rewrite bool_decide_eq_false_2 in Hspec;
      [by injection Hspec as <- <- <-|intros [= ->]; by rewrite Z.eqb_refl in Et]].
    apply Z.eqb_eq in Et as ->. rewrite bool_decide_eq_true_2 in Hspec by done.
    apply bind_Some in Hspec as ([k2 out2] & Hreact & Hspec).
    apply bind_Some in Hreact as (out3 & Ha & [= <- <-]). injection Hspec as <- <- <-.
    by apply (turn_answer page _ f).
Qed.

Lemma run_wp page l : forall pend k' pend' out e,
  ecu_ok page pend e -> Forall poll_ok l -> polls e = l ->
  spec_run page (ecu_state e) pend l = Some (k', pend', out) ->
  wp (ecu_run (length l)) (fun _ e' => turn_ok page k' pend' out [] e e') never e.
Proof.
  induction l as [|p l IH]; intros pend k' pend' out e Hok Hl Hp Hspec; cbn [length ecu_run].
  { injection Hspec as <- <- <-. wp_step. split_and!; try done. by rewrite app_nil_r. }
  apply Forall_cons_iff in Hl as [Hpk Hl]. cbn [spec_run] in Hspec.
  apply bind_Some in Hspec as ([[k1 pend1] out1] & Hstep & Hspec).
  apply bind_Some in Hspec as ([[k2 pend2] out2] & Hrun & Hspec). injection Hspec as <- <- <-.
  wp_step. wp_use ltac:(by eapply update_wp); [|done].
  intros r e1 (_ & Hok1 & <- & Hs1 & Hp1).
  wp_use ltac:(by eapply IH); [|done]. intros _ e2 (Hok2 & Hk2 & Hs2 & Hp2).
  split_and!; try done. by rewrite Hs2, Hs1, app_assoc.
Qed.

(** The simulator as it is created. *)
Lemma ecu_new_ok l : ecu_ok (page_of (ecu_new [])) [] (ecu_new l) /\
  ecu_state (ecu_new l) = STATE_WAIT4_WAKEUP /\ sent (ecu_new l) = [] /\ polls (ecu_new l) = l.
Proof.
  split; [|by split_and!]. unfold ecu_ok. split_and!; try done.
  - apply repr_nil; [|done]. apply Nat.leb_le. by vm_compute.
  - intros t p. unfold page_of, get_data_table. by repeat case_match; intros [= <-].
Qed.

(** The specification over the bytes only: empty polls and errors do nothing. *)
Definition poll_byte (p : poll) : option Z := match p with RecvByte b => Some b | _ => None end.

Lemma spec_run_bytes page l : forall k pend,
  spec_run page k pend l = spec_run page k pend (RecvByte <$> omap poll_byte l).
Proof.
  induction l as [|p l IH]; intros k pend; [done|]. destruct p as [b| |].
  - cbn [omap list_omap poll_byte fmap list_fmap spec_run]. destruct (spec_step _ _ _ _) as [[[k1 p1] o1]|];
      [|done]. cbn [mbind option_bind]. by rewrite IH.
  - cbn [omap list_omap poll_byte spec_run]. change (spec_step page k pend RecvEmpty) with (Some (k, pend, @nil (list Z))).
    cbn [mbind option_bind]. rewrite IH. by destruct (spec_run _ _ _ _) as [[[??]?]|].
  - cbn [omap list_omap poll_byte spec_run]. change (spec_step page k pend RecvFailed) with (Some (k, pend, @nil (list Z))).
    cbn [mbind option_bind]. rewrite IH. by destruct (spec_run _ _ _ _) as [[[??]?]|].
Qed.

(** A whole frame. *)
Lemma spec_run_frame page f l : forall k pend,
  frame_ok (pend ++ f) -> f <> [] ->
  spec_run page k pend ((RecvByte <$> f) ++ l) =
    ('(k, out) ← react page k (pend ++ f);
     '(k, pend, outs) ← spec_run page k [] l; Some (k, pend, out ++ outs)).
Proof.
  induction f as [|b f IH]; intros k pend Hok Hne; [done|].
  cbn [fmap list_fmap app spec_run]. unfold spec_step, receive.
  destruct f as [|b2 f].
  - pose proof (framer_frame _ Hok) as Hf. rewrite framer_run_app in Hf.
    assert (framer_run [] pend = (replicate (length pend) Pending, pend)) as Hpre
      by (apply (framer_prefix pend [b] []); done).
    rewrite Hpre in Hf. cbn [framer_run] in Hf. destruct (framer_step pend b) as [v pend'].
    injection Hf as Hv ->. apply app_inj_2 in Hv as [_ [= ->]]; [|done].
    destruct (react page k _) as [[k1 o1]|]; [|done]. done.
  - rewrite (framer_step_more pend b (b2 :: f)); [|done|by rewrite <- app_assoc].
    cbn [mbind option_bind].
    rewrite (IH k (pend ++ [b])); [|by rewrite <- app_assoc|done].
    rewrite <- app_assoc. cbn [app]. destruct (react page k _) as [[k1 o1]|]; [|done].
    cbn [mbind option_bind]. by destruct (spec_run _ _ _ _) as [[[??]?]|].
Qed.

(** ** Properties *)

(** C18: the simulator refines the reference ECU.  For any table pages, any
    sequence of polls (bytes in any split, pauses, errors) and any state, as
    long as the queries stay inside of the contract, the simulator sends exactly
    the messages of the reference, reaches its state and keeps its pending
    bytes, and no access is out of bounds. *)
Theorem ecu_refines page l pend k' pend' out e :
  ecu_ok page pend e -> Forall poll_ok l -> polls e = l ->
  spec_run page (ecu_state e) pend l = Some (k', pend', out) ->
  exists e', ecu_run (length l) e = (Done tt, e') /\
    ecu_state e' = k' /\ sent e' = sent e ++ out /\ ecu_ok page pend' e'.
Proof.
  intros Hok Hl Hp Hs. pose proof (run_wp page l pend k' pend' out e Hok Hl Hp Hs) as Hwp.
  apply wp_done in Hwp as ([] & e' & Hrun & Hok' & ? & ? & _). by exists e'.
Qed.


(** *** The properties at concrete inputs *)
Definition demo_polls : list poll :=
  (RecvByte <$> [0xFE; 4; 0xFF; 0xFF]) ++ [RecvEmpty; RecvFailed] ++
  (RecvByte <$> [0x72; 5; 0; 0xF0; 0x99] ++
     mk_frame HOBD_MSG_TYPE_QUERY HOBD_MSG_SUBTYPE_TABLE_SUBGROUP [HOBD_TABLE_D1; 250; 3]) ++
  [RecvByte 0x72].

Lemma ecu_refines_witness :
  exists e', ecu_run 19 (ecu_new demo_polls) = (Done tt, e') /\
    ecu_state e' = STATE_ACTIVE_LISTEN /\
    sent e' = [[2; 4; 0; 0xFA]; [2; 9; 0x72; 0xD1; 250; 0xBB; 0xBB; 0xBB; 0x87]] /\
    ecu_ok (page_of (ecu_new [])) [0x72] e'.
Proof.
  destruct (ecu_new_ok demo_polls) as (Hok & _ & _ & Hp).
  refine (ecu_refines (page_of (ecu_new [])) demo_polls [] STATE_ACTIVE_LISTEN [0x72] _
    (ecu_new demo_polls) Hok _ Hp _).
  - decide_now.
  - by vm_compute.
Defined.

End Ecu.
