(* ===== verification/EcuMain.v ===== *)
(** The ECU simulator's program, testing-tools/fake-hobd-ecu-data/src/main.c: it
    connects to the system's port, plays the ECU until SIGINT, and cleans up. *)
From stdpp Require Import strings.
From S2P Require Import Prelude Kline Parser Msg Text Ecu.

Module EcuMain.
Import Ecu.

Definition TCP_PORT : Z := 1235.
Definition TCP_ADDR : string := "127.0.0.1"%string.
Definition EXIT_SUCCESS : Z := 0.
Definition EXIT_FAILURE : Z := 1.

(** The calls of the operating system and of the C library whose results the
    program looks at, and their results, given the calls before. *)
Inductive sys_call := InetPton | Socket | Connect (fd : Z) | Sigaction | Calloc | Free | Close (fd : Z).
Class Os := os_result : list sys_call -> sys_call -> Z.

#[export] Instance sys_call_eq_dec : EqDecision sys_call.
Proof. solve_decision. Defined.

(** [interrupts]: whether SIGINT arrives before the next look at the flag. *)
Record prog_s := mk_prog {
  calls : list sys_call;
  err_out : string;
  g_exit_signaled : Z;
  interrupts : list bool;
  ecu : option ecu_s;
}.
Abbreviation T := (M prog_s).

Definition set_calls v s := mk_prog v (err_out s) (g_exit_signaled s) (interrupts s) (ecu s).
Definition put_err t s := mk_prog (calls s) (err_out s +:+ t) (g_exit_signaled s) (interrupts s) (ecu s).
Definition set_exit v s := mk_prog (calls s) (err_out s) v (interrupts s) (ecu s).
Definition set_interrupts v s := mk_prog (calls s) (err_out s) (g_exit_signaled s) v (ecu s).
Definition set_ecu v s := mk_prog (calls s) (err_out s) (g_exit_signaled s) (interrupts s) v.

Section program.
Context `{!Os}.

Definition sys (c : sys_call) : T Z :=
  l ← gets calls; modify (set_calls (l ++ [c]));; mret (os_result l c).

(** What [ecu] points to; [NULL] is [None]. *)
Definition on_ecu {A} (m : M ecu_s A) : T A := fun s =>
  match ecu s with
  | None => (Stop Fault, s)
  | Some e => let '(o, e) := m e in (o, set_ecu (Some e) s)
  end.

(** [ecu_new], with the allocation: [calloc] fails with [NULL].  [l] is what
    the polls of the socket will find. *)
Definition new_ecu (l : list poll) : T unit :=
  p ← sys Calloc;
  modify (set_ecu (if p =? 0 then None else Some (calloc_ecu l)));;
  on_ecu ecu_init.

Definition sig_handler : T unit := modify (set_exit 1).
Definition poll_signal : T unit :=
  l ← gets interrupts;
  match l with
  | [] => mret tt
  | sig :: l => modify (set_interrupts l);; when sig sig_handler
  end.

(** The loop, with the error of its last turn. *)
Fixpoint main_loop (fuel : nat) (err : Z) : T Z :=
  match fuel with
  | O => stop_with Blocked
  | S fuel =>
      poll_signal;;
      exit_signaled ← gets g_exit_signaled;
      if exit_signaled =? 0 then
        err ← on_ecu ecu_update;
        when (negb (err =? 0)) (modify (set_exit 1));;
        main_loop fuel err
      else mret err
  end.

Definition main (l : list poll) (fuel : nat) : T Z :=
  err ← sys InetPton;
  c_assert (err =? 1);;
  socket_fd ← sys Socket;
  c_assert (0 <=? socket_fd);;
  err ← sys (Connect socket_fd);
  when (negb (err =? 0))
    (modify (put_err ("failed to connect to "%string +:+ TCP_ADDR +:+ ":"%string +:+ dec TCP_PORT +:+ newline));;
     c_assert (err =? 0));;
  modify (set_exit 0);;
  err ← sys Sigaction;
  c_assert (err =? 0);;
  new_ecu l;;
  e ← gets ecu;
  c_assert (bool_decide (is_Some e));;
  err ← main_loop fuel err;
  e ← gets ecu;
  when (bool_decide (is_Some e)) (sys Free;; mret tt);;
  when (0 <=? socket_fd) (sys (Close socket_fd);; mret tt);;
  mret (if err =? 0 then EXIT_SUCCESS else EXIT_FAILURE).
End program.

(** Before it starts; [sigs] is when SIGINT arrives. *)
Definition start (sigs : list bool) : prog_s := mk_prog [] EmptyString 0 sigs None.

(** ** The loop *)
Section proofs.
Context `{!Os}.

Definition never {S} : stop -> S -> Prop := fun _ _ => False.

Lemma wp_on_ecu {A} (m : M ecu_s A) e Q X s : ecu s = Some e ->
  wp m (fun a e => Q a (set_ecu (Some e) s)) (fun k e => X k (set_ecu (Some e) s)) e ->
  wp (on_ecu m) Q X s.
Proof. intros He. unfold wp, on_ecu. rewrite He. by destruct (m e) as [[a|k] e']. Qed.

Lemma wp_sys c Q X s : Q (os_result (calls s) c) (set_calls (calls s ++ [c]) s) -> wp (sys c) Q X s.
Proof. intros HQ. unfold sys. by wp_steps. Qed.

(** Up to the interrupt, the loop is the reference ECU. *)
Lemma loop_run page (l rest : list poll) (sigs : list bool) : forall k pend k' pend' out e fuel s Q,
  ecu_ok page pend e -> ecu_state e = k -> polls e = app l rest -> Forall poll_ok l ->
  spec_run page k pend l = Some (k', pend', out) -> ecu s = Some e -> g_exit_signaled s = 0 ->
  interrupts s = app (replicate (length l) false) (true :: sigs) -> (length l < fuel)%nat ->
  (forall e', ecu_ok page pend' e' -> ecu_state e' = k' -> sent e' = app (sent e) out ->
     polls e' = rest -> Q 0 (mk_prog (calls s) (err_out s) 1 sigs (Some e'))) ->
  wp (main_loop fuel 0) Q never s.
Proof.
  induction l as [|p l IH]; intros k pend k' pend' out e fuel s Q Hok Hk Hp Hl Hspec He Hx Hint Hf HQ.
  - destruct fuel as [|fuel]; [cbn in Hf; lia|]. injection Hspec as <- <- <-. cbn [main_loop].
    unfold poll_signal, sig_handler. do 3 wp_step. rewrite Hint. cbn [app length replicate].
    wp_steps. wp_step; [intros _|done]. wp_steps. cbn [Z.eqb g_exit_signaled set_exit]. wp_step.
    unfold set_exit, set_interrupts. cbn. rewrite He. apply HQ; try done. by rewrite app_nil_r.
  - destruct fuel as [|fuel]; [cbn in Hf; lia|]. apply Forall_cons_iff in Hl as [Hpk Hl].
    cbn [spec_run] in Hspec.
    apply bind_Some in Hspec as ([[k1 pend1] out1] & Hstep & Hspec).
    apply bind_Some in Hspec as ([[k2 pend2] out2] & Hrun & Hspec). injection Hspec as <- <- <-.
    cbn [main_loop]. unfold poll_signal. do 3 wp_step. rewrite Hint. cbn [app length replicate].
    wp_steps. wp_step; [done|intros _]. wp_steps. cbn [g_exit_signaled set_interrupts]. rewrite Hx.
    cbn [Z.eqb].
    wp_step. eapply wp_on_ecu; [exact He|].
    wp_use ltac:(by eapply update_wp); [|done].
    intros r e1 (-> & Hok1 & Hk1 & Hs1 & Hp1). wp_step. wp_step; [done|intros _].
    eapply (IH k1 pend1 k2 pend2 out2 e1); try done; [cbn in Hf; lia|].
    intros e' Hok' Hk' Hs' Hp'. cbn. apply HQ; try done. by rewrite Hs', Hs1, app_assoc.
Qed.

(** Whatever the polls find and the ECU does, only an interrupt ends the loop,
    and then without an error. *)
Definition any {S} : stop -> S -> Prop := fun _ _ => True.

Lemma wp_any {A} (m : M ecu_s A) e : wp m (fun _ _ => True) any e.
Proof. unfold wp. by destruct (m e) as [[a|k] e']. Qed.

Lemma update_no_error e : wp ecu_update (fun r _ => r = 0) any e.
Proof.
  unfold ecu_update. wp_step. wp_step. wp_step. wp_use ltac:(apply wp_any); [|done].
  intros _ e' _. by wp_step.
Qed.

Lemma poll_wp Q X s :
  (interrupts s = [] -> Q tt s) ->
  (forall l, interrupts s = false :: l -> Q tt (set_interrupts l s)) ->
  (forall l, interrupts s = true :: l -> Q tt (set_exit 1 (set_interrupts l s))) ->
  wp poll_signal Q X s.
Proof.
  intros H0 H1 H2. unfold poll_signal. do 2 wp_step. destruct (interrupts s) as [|[] l]; [by apply H0|..].
  - do 2 wp_step. wp_step; [intros _|done]. unfold sig_handler. wp_step. by apply H2.
  - do 2 wp_step. wp_step; [done|intros _]. by apply H1.
Qed.

(** The program's part of a state that the loop leaves alone. *)
Definition same_calls (s s' : prog_s) : Prop := calls s' = calls s /\ err_out s' = err_out s.

Lemma loop_exit fuel : forall s, g_exit_signaled s = 0 -> is_Some (ecu s) ->
  wp (main_loop fuel 0) (fun r s' => r = 0 /\ true ∈ interrupts s /\ same_calls s s' /\
    is_Some (ecu s')) any s.
Proof.
  induction fuel as [|fuel IH]; intros s Hx [e He]; [done|]. cbn [main_loop].
  assert (forall sigs, (forall l, true ∈ l -> l = sigs -> true ∈ interrupts s) ->
    wp (err ← on_ecu ecu_update; when (negb (err =? 0)) (modify (set_exit 1));; main_loop fuel err)
      (fun r s' => r = 0 /\ true ∈ interrupts s /\ same_calls s s' /\ is_Some (ecu s')) any
      (set_interrupts sigs s)) as Hturn.
  { intros sigs Hin. wp_step. eapply wp_on_ecu; [exact He|].
    wp_use ltac:(apply update_no_error); [|done]. intros r e' ->. wp_step. wp_step; [done|intros _].
    wp_use ltac:(by apply IH; [|eexists]); [|done]. intros r s' (-> & Hi & Hc & Hs).
    split; [done|]. by split; [eapply Hin|]. }
  wp_step. apply poll_wp; [intros Hi|intros sg Hi|intros sg Hi]; do 2 wp_step;
    cbn [g_exit_signaled set_interrupts set_exit]; rewrite ?Hx; cbn [Z.eqb].
  - replace s with (set_interrupts [] s) at 1 by (destruct s; cbn in *; by subst).
    apply Hturn. intros l' Hin ->. by apply elem_of_nil in Hin.
  - apply Hturn. intros l' Hin ->. rewrite Hi. by right.
  - wp_step. split; [done|]. rewrite Hi. split; [by left|]. by split; [|eexists].
Qed.

(** ** The program *)

(** The answers of a system in which everything succeeds; the socket is [fd]. *)
Definition succeeds (fd : Z) : Prop :=
  os_result [] InetPton = 1 /\ os_result [InetPton] Socket = fd /\ 0 <= fd /\
  os_result [InetPton; Socket] (Connect fd) = 0 /\
  os_result [InetPton; Socket; Connect fd] Sigaction = 0 /\
  os_result [InetPton; Socket; Connect fd; Sigaction] Calloc <> 0.

Definition session_calls (fd : Z) : list sys_call :=
  [InetPton; Socket; Connect fd; Sigaction; Calloc; Free; Close fd].

Lemma wp_assert b Q X (s : prog_s) : (b = true -> Q tt s) -> (b = false -> X Halted s) ->
  wp (c_assert b) Q X s.
Proof. destruct b; intros H1 H2; [by apply H1|by apply H2]. Qed.

Lemma ecu_init_run l : ecu_init (calloc_ecu l) = (Done tt, ecu_new l).
Proof. reflexivity. Qed.

(** The start, up to the loop: all of the calls succeeded, or it stops. *)
Lemma program_wp l fuel s Q X : calls s = [] ->
  (forall fd, succeeds fd ->
     wp (main_loop fuel 0) (fun r s' => is_Some (ecu s') /\
       let s' := set_calls (calls s' ++ [Free; Close fd]) s' in
       Q (if r =? 0 then EXIT_SUCCESS else EXIT_FAILURE) s') X
       (mk_prog [InetPton; Socket; Connect fd; Sigaction; Calloc] (err_out s) 0 (interrupts s) (Some (ecu_new l)))) ->
  (~ (exists fd, succeeds fd) -> forall k s', X k s') ->
  wp (main l fuel) Q X s.
Proof.
  intros Hc Hloop HX. unfold main. wp_step. apply wp_sys. rewrite Hc. cbn [app set_calls calls]. wp_step.
  apply wp_assert; [intros H1%Z.eqb_eq|intros H1%Z.eqb_neq; apply HX; by intros (fd & ? & _)].
  wp_step. apply wp_sys. cbn [app set_calls calls]. set (fd := os_result _ Socket). wp_step.
  apply wp_assert; [intros H2%Z.leb_le|intros H2%Z.leb_gt; apply HX; intros (? & _ & <- & ? & _); lia].
  wp_step. apply wp_sys. cbn [app set_calls calls]. wp_step. wp_step.
  { intros H3%negb_true_iff. wp_steps. rewrite H3. apply HX.
    intros (? & _ & <- & _ & E & _). by apply Z.eqb_neq in H3. }
  intros H3%negb_false_iff%Z.eqb_eq. do 2 wp_step. wp_step. apply wp_sys. cbn [app set_calls set_exit calls].
  wp_step. apply wp_assert; [intros H4%Z.eqb_eq|intros H4%Z.eqb_neq; apply HX; by intros (? & _ & <- & _ & _ & ? & _)].
  unfold new_ecu. do 2 wp_step. apply wp_sys. cbn [app set_calls set_exit calls]. do 2 wp_step.
  destruct (Z.eqb_spec (os_result [InetPton; Socket; Connect fd; Sigaction] Calloc) 0) as [E|E].
  { apply HX. by intros (? & _ & <- & _ & _ & _ & ?). }
  eapply wp_on_ecu; [done|]. eapply wp_run; [apply ecu_init_run|]. do 3 wp_step.
  apply wp_assert; [intros _|by rewrite bool_decide_eq_true_2 by by eexists].
  assert (succeeds fd) as Hs by by repeat split.
  wp_step. rewrite H4. wp_use ltac:(exact (Hloop fd Hs)); [|done].
  intros r s' [Hecu HQ]. do 2 wp_step. wp_step. rewrite bool_decide_eq_true_2 by done.
  wp_step; [intros _|done]. wp_step. apply wp_sys. wp_step. wp_step.
  wp_step; [intros _|intros Hn%Z.leb_gt; lia]. wp_step. apply wp_sys. wp_step. wp_step.
  unfold set_calls in *. cbn in *. by rewrite <- app_assoc.
Qed.

(** C19: the simulator's program.  When every call of the system succeeds, it
    plays the reference ECU over its polls until SIGINT arrives, and then ends
    with success, having freed its memory and closed its socket, once, in this
    order.  Whatever the system answers, it ends in no other way: if it
    returns, every call succeeded, SIGINT arrived, nothing was printed as an
    error, and the status is success; a failing call, or a failing
    allocation, stops it. *)
Theorem runs_until_interrupt :
  (forall fd l rest sigs k pend out fuel, succeeds fd -> Forall poll_ok l ->
     spec_run (page_of (ecu_new [])) STATE_WAIT4_WAKEUP [] l = Some (k, pend, out) ->
     (length l < fuel)%nat ->
     exists e, main (app l rest) fuel (start (app (replicate (length l) false) (true :: sigs))) =
         (Done EXIT_SUCCESS, mk_prog (session_calls fd) EmptyString 1 sigs (Some e)) /\
       sent e = out /\ ecu_state e = k /\ polls e = rest) /\
  (forall l fuel sigs r s, main l fuel (start sigs) = (Done r, s) ->
     r = EXIT_SUCCESS /\ true ∈ sigs /\ err_out s = EmptyString /\
     exists fd, succeeds fd /\ calls s = session_calls fd).
Proof.
  split.
  - intros fd l rest sigs k pend out fuel Hs Hl Hspec Hf.
    destruct (ecu_new_ok (app l rest)) as (Hok & Hk & Hsent & Hp).
    assert (wp (main (app l rest) fuel) (fun r s' => r = EXIT_SUCCESS /\ exists e,
      s' = mk_prog (session_calls fd) EmptyString 1 sigs (Some e) /\ sent e = out /\ ecu_state e = k /\
      polls e = rest) never (start (app (replicate (length l) false) (true :: sigs)))) as Hw.
    { apply program_wp; [done| |intros Hn; destruct Hn; by exists fd].
      intros fd' (_ & <- & _). destruct Hs as (_ & -> & _).
      eapply (loop_run _ l rest sigs STATE_WAIT4_WAKEUP []); try done.
      intros e Hok' Hk' Hs' Hp'. split; [by eexists|]. split; [done|]. exists e.
      split; [done|]. split; [|done]. by rewrite Hs', Hsent. }
    destruct (wp_done _ _ _ Hw) as (r & s & Hrun & -> & e & -> & ?). by exists e.
  - intros l fuel sigs r s Hrun.
    assert (wp (main l fuel) (fun r s => r = EXIT_SUCCESS /\ true ∈ sigs /\ err_out s = EmptyString /\
      exists fd, succeeds fd /\ calls s = session_calls fd) any (start sigs)) as Hw.
    { apply program_wp; [done| |done]. intros fd Hs.
      wp_use ltac:(apply loop_exit; [done|by eexists]); [|done].
      intros r' s' (-> & Hin & [Hc He] & Hecu). cbn in *. split; [done|]. do 3 (split; [done|]).
      exists fd. split; [done|]. by rewrite Hc. }
    unfold wp in Hw. by rewrite Hrun in Hw.
Qed.
End proofs.

(** *** At a concrete input *)
#[local] Instance demo_os : Os := fun _ c =>
  match c with InetPton => 1 | Socket => 3 | Connect _ => 0 | Sigaction => 0 | Calloc => 1 | _ => 0 end.

Lemma runs_until_interrupt_witness :
  exists e, main (app demo_polls []) 20 (start (app (replicate 19 false) [true])) =
      (Done EXIT_SUCCESS, mk_prog (session_calls 3) EmptyString 1 [] (Some e)) /\
    sent e = [[2; 4; 0; 0xFA]; [2; 9; 0x72; 0xD1; 250; 0xBB; 0xBB; 0xBB; 0x87]] /\
    ecu_state e = STATE_ACTIVE_LISTEN /\ polls e = [].
Proof.
  destruct runs_until_interrupt as [Hrun _].
  apply (Hrun 3 demo_polls [] [] STATE_ACTIVE_LISTEN [0x72]).
  - repeat split; done.
  - decide_now.
  - by vm_compute.
  - by apply Nat.ltb_lt.
Defined.

(** A failing allocation is not caught: [ecu_new] writes to the memory before
    [main] looks at the pointer. *)
Theorem calloc_failure_faults (os : Os) l fuel sigs :
  (exists fd, os [] InetPton = 1 /\ os [InetPton] Socket = fd /\ 0 <= fd /\
     os [InetPton; Socket] (Connect fd) = 0 /\ os [InetPton; Socket; Connect fd] Sigaction = 0 /\
     os [InetPton; Socket; Connect fd; Sigaction] Calloc = 0) ->
  (main l fuel (start sigs)).1 = Stop Fault.
Proof.
  intros (fd & H1 & H2 & H3 & H4 & H5 & H6).
  cut (wp (main l fuel) (fun _ _ => False) (fun k _ => k = Fault) (start sigs)).
  { unfold wp. destruct (main l fuel (start sigs)) as [[r|k] s]; [done|]. by intros ->. }
  unfold main, new_ecu. wp_step. apply wp_sys. cbn [calls start app set_calls]. unfold os_result. rewrite H1.
  wp_step. apply wp_assert; [intros _|done]. wp_step. apply wp_sys.
  cbn [calls start app set_calls]. unfold os_result. rewrite H2.
  wp_step. apply wp_assert; [intros _|intros Hn%Z.leb_gt; lia].
  wp_step. apply wp_sys. cbn [calls start app set_calls]. unfold os_result. rewrite H4.
  wp_step. wp_step; [done|intros _]. do 2 wp_step. wp_step. apply wp_sys.
  cbn [calls start app set_calls set_exit]. unfold os_result. rewrite H5.
  wp_step. apply wp_assert; [intros _|done]. wp_step.
  wp_step. apply wp_sys. cbn [calls start app set_calls set_exit]. unfold os_result. rewrite H6.
  by do 2 wp_step.
Qed.
End EcuMain.
