(* ===== verification/Link.v ===== *)
(** The two ends of the K-line together: the HOBD module's thread and the
    simulated ECU, each fed with what the other one sends. *)
From S2P Require Import Prelude Kline Parser Services Ipc Comm HobdModule Ecu.

Module Link.
Import Ipc Comm HobdModule.

(** The states of a thread whose requests are all answered. *)
Fixpoint path (n : nat) (st : comm_state_kind) : list comm_state_kind :=
  match n with O => [] | S n => st :: path n (next_state st true) end.
Fixpoint after (n : nat) (st : comm_state_kind) : comm_state_kind :=
  match n with O => st | S n => after n (next_state st true) end.

(** What the ECU answers in such a state, with its two tables. *)
Definition table_answer (table : Z) (data : list Z) : list Z :=
  mk_frame HOBD_MSG_TYPE_RESPONSE HOBD_MSG_SUBTYPE_TABLE_SUBGROUP (table :: 0 :: data).
Definition answers (p10 pd1 : list Z) (st : comm_state_kind) : list (list Z) :=
  match st with
  | COMM_STATE_GPIO_INIT => []
  | COMM_STATE_SEND_ECU_INIT => [mk_frame HOBD_MSG_TYPE_RESPONSE HOBD_MSG_SUBTYPE_INIT []]
  | COMM_STATE_SEND_REQ0 => [table_answer HOBD_TABLE_10 (take 0x80 p10)]
  | COMM_STATE_SEND_REQ1 => [table_answer HOBD_TABLE_D1 (take 6 pd1)]
  end.

(** The ECU's state while the thread is in such a state. *)
Definition ecu_at (st : comm_state_kind) : Ecu.ecu_state_kind :=
  match st with
  | COMM_STATE_GPIO_INIT | COMM_STATE_SEND_ECU_INIT => Ecu.STATE_WAIT4_WAKEUP
  | _ => Ecu.STATE_ACTIVE_LISTEN
  end.

(** The bytes driven on the line. *)
Definition driven `{Hw} (ev : list line_event) : list Z :=
  omap (fun e => match e with Putchar b => Some b | _ => None end) ev.

Lemma driven_app `{Hw} ev1 ev2 : driven (ev1 ++ ev2) = driven ev1 ++ driven ev2.
Proof.
  induction ev1 as [|e ev1 IH]; [done|]. unfold driven in *. cbn. destruct e; cbn; by rewrite IH.
Qed.

Lemma driven_traffic `{Hw} st : driven (traffic st) = concat (sends st).
Proof. by destruct st; vm_compute. Qed.

(** ** The thread's side *)

Lemma framer_poll_byte pend b : byte b -> framer_poll pend (Poll b false) = Parser.framer_step pend b.
Proof.
  unfold byte. intros Hb. unfold framer_poll. cbn [poll_data].
  rewrite (proj2 (Z.leb_le _ _)) by lia. unfold u8. by rewrite Z.mod_small by lia.
Qed.

Definition byte_polls (bs : list Z) : list poll := (fun b => Poll b false) <$> bs.

(** A response that arrives without a pause is received. *)
Lemma wait_spec_response subtype rest f : forall pend,
  frame_ok (pend ++ f) -> f <> [] -> is_resp subtype (pend ++ f) = true ->
  wait_spec true subtype pend (byte_polls (f ++ rest)) = (RMsg (pend ++ f), [], byte_polls rest).
Proof.
  induction f as [|b f IH]; intros pend Hok Hne Hr; [done|].
  assert (byte b) as Hb.
  { destruct Hok as [Hbs _]. apply bytes_app in Hbs as [_ Hbs]. by apply Forall_inv in Hbs. }
  cbn [app byte_polls fmap list_fmap wait_spec]. rewrite framer_poll_byte by done.
  destruct f as [|b2 f].
  - pose proof (Parser.framer_frame _ Hok) as Hf. rewrite Parser.framer_run_app in Hf.
    rewrite (Parser.framer_prefix pend [b] [] Hok ltac:(done)) in Hf.
    cbn [Parser.framer_run app] in Hf. destruct (Parser.framer_step pend b) as [v pend'].
    injection Hf as Hv ->. apply app_inj_2 in Hv as [_ [= ->]]; [|done]. by rewrite Hr.
  - rewrite (Parser.framer_step_more pend b (b2 :: f)); [|done|by rewrite <- app_assoc].
    cbn [poll_timeout andb]. specialize (IH (pend ++ [b])). rewrite <- app_assoc in IH.
    by apply IH.
Qed.

Section conversation.
Context (p10 pd1 : list Z).
Hypothesis (H10 : bytes p10) (Hd1 : bytes pd1).

Lemma table_answer_ok table data : byte table -> bytes data -> (length data <= 245)%nat ->
  frame_ok (table_answer table data).
Proof.
  intros Ht Hd Hl. apply mk_frame_ok; [decide_now|decide_now| |cbn [length]; lia].
  constructor; [done|]. constructor; [done|done].
Qed.

Lemma answers_ok st : Forall frame_ok (answers p10 pd1 st).
Proof.
  destruct st; cbn [answers]; [constructor| | |]; (constructor; [|constructor]);
    [decide_now|..]; apply table_answer_ok;
    (decide_now || (by apply bytes_take) || (rewrite length_take; lia)).
Qed.

(** What the thread sends, receives, logs and drives in [n] iterations. *)
Definition all_sends n st : list (list Z) := concat (sends <$> path n st).
Definition all_answers n st : list (list Z) := concat (answers p10 pd1 <$> path n st).
Definition all_logged n st : list (list Z) :=
  concat ((fun st => sends st ++ answers p10 pd1 st) <$> path n st).
Definition all_traffic `{Hw} n st : list line_event := concat (traffic <$> path n st).

Lemma state_answered `{Hw} st rest :
  exists r, state_receives st [] (byte_polls (concat (answers p10 pd1 st) ++ rest)) =
      (r, [], byte_polls rest) /\ r <> RBlocked /\
    next_state st (answered r) = next_state st true /\ received_frames r = answers p10 pd1 st.
Proof.
  pose proof (answers_ok st) as Hok.
  destruct st; cbn [answers concat app] in *;
    [by exists RTimeout|..]; apply Forall_inv in Hok; rewrite app_nil_r; eexists;
    (split; [apply (wait_spec_response _ rest _ []); [exact Hok|done|done]|by split_and!]).
Qed.

Lemma session_answered `{Hw} n : forall st,
  session n st [] (byte_polls (concat (all_answers n st))) =
    Some (after n st, [], [], all_logged n st, all_traffic n st).
Proof.
  induction n as [|n IH]; intros st; [done|].
  change (all_answers (S n) st) with (answers p10 pd1 st ++ all_answers n (next_state st true)).
  change (all_logged (S n) st) with ((sends st ++ answers p10 pd1 st) ++ all_logged n (next_state st true)).
  cbn [session after]. rewrite concat_app.
  destruct (state_answered st (concat (all_answers n (next_state st true))))
    as (r & -> & Hnb & Hnext & Hf).
  destruct r; [| |done]; rewrite Hnext, IH; cbn [mbind option_bind]; by rewrite Hf, app_assoc.
Qed.

(** ** The ECU's side *)

Lemma sends_frames st : Forall frame_ok (sends st).
Proof. destruct st; decide_now. Qed.

Lemma ecu_answers_state page l st :
  page HOBD_TABLE_10 = Some p10 -> page HOBD_TABLE_D1 = Some pd1 ->
  Ecu.spec_run page (ecu_at st) [] ((Ecu.RecvByte <$> concat (sends st)) ++ l) =
    ('(k, pend, outs) ← Ecu.spec_run page (ecu_at (next_state st true)) [] l;
     Some (k, pend, answers p10 pd1 st ++ outs)).
Proof.
  intros Hp10 Hpd1. pose proof (sends_frames st) as Hok.
  destruct st; cbn [sends concat next_state ecu_at answers] in *.
  - cbn [fmap list_fmap app]. by destruct (Ecu.spec_run _ _ _ _) as [[[??]?]|].
  - apply Forall_cons_iff in Hok as [H1 Hok]. apply Forall_inv in Hok.
    rewrite app_nil_r, fmap_app, <- app_assoc.
    rewrite (Ecu.spec_run_frame page wake_up_frame _ _ []) by done.
    change (Ecu.react page Ecu.STATE_WAIT4_WAKEUP ([] ++ wake_up_frame)) with
      (Some (Ecu.STATE_WAIT4_DIAG_INIT, @nil (list Z))). cbn [mbind option_bind].
    rewrite (Ecu.spec_run_frame page init_frame _ _ []) by done.
    change (Ecu.react page Ecu.STATE_WAIT4_DIAG_INIT ([] ++ init_frame)) with
      (Some (Ecu.STATE_ACTIVE_LISTEN, [mk_frame HOBD_MSG_TYPE_RESPONSE HOBD_MSG_SUBTYPE_INIT []])).
    cbn [mbind option_bind]. by destruct (Ecu.spec_run _ _ _ _) as [[[??]?]|].
  - rewrite app_nil_r. apply Forall_inv in Hok.
    rewrite (Ecu.spec_run_frame page _ _ _ []) by done.
    change (Ecu.react page Ecu.STATE_ACTIVE_LISTEN ([] ++ query_frame HOBD_TABLE_10 0x80)) with
      (out ← (data ← (t ← page HOBD_TABLE_10; Some (take 0x80 t));
         Some [mk_frame HOBD_MSG_TYPE_RESPONSE HOBD_MSG_SUBTYPE_TABLE_SUBGROUP (HOBD_TABLE_10 :: 0 :: data)]);
       Some (Ecu.STATE_ACTIVE_LISTEN, out)). by rewrite Hp10.
  - rewrite app_nil_r. apply Forall_inv in Hok.
    rewrite (Ecu.spec_run_frame page _ _ _ []) by done.
    change (Ecu.react page Ecu.STATE_ACTIVE_LISTEN ([] ++ query_frame HOBD_TABLE_D1 0x06)) with
      (out ← (data ← (t ← page HOBD_TABLE_D1; Some (take 6 t));
         Some [mk_frame HOBD_MSG_TYPE_RESPONSE HOBD_MSG_SUBTYPE_TABLE_SUBGROUP (HOBD_TABLE_D1 :: 0 :: data)]);
       Some (Ecu.STATE_ACTIVE_LISTEN, out)). by rewrite Hpd1.
Qed.

Lemma ecu_answers_all page n :
  page HOBD_TABLE_10 = Some p10 -> page HOBD_TABLE_D1 = Some pd1 -> forall st,
  Ecu.spec_run page (ecu_at st) [] (Ecu.RecvByte <$> concat (all_sends n st)) =
    Some (ecu_at (after n st), [], all_answers n st).
Proof.
  intros Hp10 Hpd1. induction n as [|n IH]; intros st; [done|].
  change (all_sends (S n) st) with (sends st ++ all_sends n (next_state st true)).
  change (all_answers (S n) st) with (answers p10 pd1 st ++ all_answers n (next_state st true)).
  rewrite concat_app, fmap_app, ecu_answers_state by done. cbn [after]. by rewrite IH.
Qed.

(** *** An ECU in any state

    The connection request is answered in every state, and listened to after it. *)
Definition ecu_fits (st : comm_state_kind) (k : Ecu.ecu_state_kind) : Prop :=
  match st with
  | COMM_STATE_GPIO_INIT | COMM_STATE_SEND_ECU_INIT => True
  | _ => k = Ecu.STATE_ACTIVE_LISTEN
  end.
Definition ecu_next (st : comm_state_kind) (k : Ecu.ecu_state_kind) : Ecu.ecu_state_kind :=
  match st with COMM_STATE_GPIO_INIT => k | _ => Ecu.STATE_ACTIVE_LISTEN end.
Fixpoint ecu_after (n : nat) (st : comm_state_kind) (k : Ecu.ecu_state_kind) : Ecu.ecu_state_kind :=
  match n with O => k | S n => ecu_after n (next_state st true) (ecu_next st k) end.

Lemma ecu_answers_request page k l :
  Ecu.spec_run page k [] ((Ecu.RecvByte <$> concat (sends COMM_STATE_SEND_ECU_INIT)) ++ l) =
    ('(k', pend, outs) ← Ecu.spec_run page Ecu.STATE_ACTIVE_LISTEN [] l;
     Some (k', pend, answers p10 pd1 COMM_STATE_SEND_ECU_INIT ++ outs)).
Proof.
  pose proof (sends_frames COMM_STATE_SEND_ECU_INIT) as Hok. cbn [sends concat] in *.
  apply Forall_cons_iff in Hok as [H1 Hok]. apply Forall_inv in Hok.
  rewrite app_nil_r, fmap_app, <- app_assoc. rewrite (Ecu.spec_run_frame page wake_up_frame _ _ []) by done.
  assert (exists k1, k1 <> Ecu.STATE_WAIT4_WAKEUP /\
    Ecu.react page k ([] ++ wake_up_frame) = Some (k1, [])) as (k1 & Hk1 & ->).
  { destruct k; [by exists Ecu.STATE_WAIT4_DIAG_INIT..|by exists Ecu.STATE_ACTIVE_LISTEN]. }
  cbn [mbind option_bind]. rewrite (Ecu.spec_run_frame page init_frame _ _ []) by done.
  assert (Ecu.react page k1 ([] ++ init_frame) = Some (Ecu.STATE_ACTIVE_LISTEN,
    [mk_frame HOBD_MSG_TYPE_RESPONSE HOBD_MSG_SUBTYPE_INIT []])) as -> by by destruct k1.
  cbn [mbind option_bind]. by destruct (Ecu.spec_run _ _ _ _) as [[[??]?]|].
Qed.

Lemma ecu_answers_from page n :
  page HOBD_TABLE_10 = Some p10 -> page HOBD_TABLE_D1 = Some pd1 -> forall st k, ecu_fits st k ->
  Ecu.spec_run page k [] (Ecu.RecvByte <$> concat (all_sends n st)) = Some (ecu_after n st k, [], all_answers n st).
Proof.
  intros Hp10 Hpd1. induction n as [|n IH]; intros st k Hk; [done|].
  change (all_sends (S n) st) with (sends st ++ all_sends n (next_state st true)).
  change (all_answers (S n) st) with (answers p10 pd1 st ++ all_answers n (next_state st true)).
  rewrite concat_app, fmap_app. cbn [ecu_after].
  assert (ecu_fits (next_state st true) (ecu_next st k)) as Hk' by by destruct st.
  destruct st; cbn [ecu_fits] in Hk.
  - cbn [sends concat fmap list_fmap app answers]. by apply IH.
  - rewrite ecu_answers_request. cbn [next_state ecu_next]. by rewrite (IH COMM_STATE_SEND_REQ0).
  - subst k. rewrite (ecu_answers_state page _ COMM_STATE_SEND_REQ0) by done.
    change (ecu_at (next_state COMM_STATE_SEND_REQ0 true)) with Ecu.STATE_ACTIVE_LISTEN. by rewrite IH.
  - subst k. rewrite (ecu_answers_state page _ COMM_STATE_SEND_REQ1) by done.
    change (ecu_at (next_state COMM_STATE_SEND_REQ1 true)) with Ecu.STATE_ACTIVE_LISTEN. by rewrite IH.
Qed.

Lemma driven_all `{Hw} n : forall st, driven (all_traffic n st) = concat (all_sends n st).
Proof.
  induction n as [|n IH]; intros st; [done|].
  change (all_traffic (S n) st) with (traffic st ++ all_traffic n (next_state st true)).
  change (all_sends (S n) st) with (sends st ++ all_sends n (next_state st true)).
  by rewrite driven_app, driven_traffic, IH, concat_app.
Qed.

Lemma sends_bytes n : forall st, bytes (concat (all_sends n st)).
Proof.
  induction n as [|n IH]; intros st; [constructor|].
  change (all_sends (S n) st) with (sends st ++ all_sends n (next_state st true)).
  rewrite concat_app. apply bytes_app. split; [|apply IH]. destruct st; decide_now.
Qed.
End conversation.

(** *** A step that fails

    What comes in before the timeout is consumed; the next states start from
    nothing pending. *)
Lemma wait_spec_timeout armed subtype noise rest : forall pend pend',
  wait_spec armed subtype pend noise = (RTimeout, pend', []) ->
  wait_spec armed subtype pend (noise ++ rest) = (RTimeout, pend', rest).
Proof.
  induction noise as [|p noise IH]; intros pend pend'; cbn [wait_spec app]; [done|].
  destruct (framer_poll pend p) as [[| | |f] pend1].
  1-3: destruct (_ && _); [by intros [= <- ->]|by apply IH].
  destruct (is_resp subtype f); [done|by apply IH].
Qed.
Lemma receives_timeout st noise rest pend pend' :
  state_receives st pend noise = (RTimeout, pend', []) ->
  state_receives st pend (noise ++ rest) = (RTimeout, pend', rest).
Proof.
  destruct st; cbn [state_receives]; [by intros [= <- ->]| | |]; apply wait_spec_timeout.
Qed.

(** A thread that lost the connection does not look at what is pending. *)
Lemma session_lost `{Hw} n st pend rx :
  session (S (S n)) (next_state st false) pend rx = session (S (S n)) (next_state st false) [] rx.
Proof. by destruct st. Qed.

(** Two answered steps behind a failure, the connection is there. *)
Lemma connected_step n : forall st, st = COMM_STATE_SEND_REQ0 \/ st = COMM_STATE_SEND_REQ1 ->
  after n st = COMM_STATE_SEND_REQ0 \/ after n st = COMM_STATE_SEND_REQ1.
Proof.
  induction n as [|n IH]; intros st Hst; [done|]. cbn [after]. apply IH.
  destruct Hst as [->| ->]; [by right|by left].
Qed.
Lemma connected_after n st : let lost := next_state st false in
  after (2 + n) lost = COMM_STATE_SEND_REQ0 \/ after (2 + n) lost = COMM_STATE_SEND_REQ1.
Proof.
  destruct st; cbn [next_state Nat.add after]; apply connected_step; tauto.
Qed.
Lemma listens_after n : forall st, ecu_after n st Ecu.STATE_ACTIVE_LISTEN = Ecu.STATE_ACTIVE_LISTEN.
Proof.
  induction n as [|n IH]; intros st; [done|]. cbn [ecu_after].
  assert (ecu_next st Ecu.STATE_ACTIVE_LISTEN = Ecu.STATE_ACTIVE_LISTEN) as -> by by destruct st. apply IH.
Qed.
Lemma ecu_after_lost n st k : ecu_after (2 + n) (next_state st false) k = Ecu.STATE_ACTIVE_LISTEN.
Proof. destruct st; cbn [next_state Nat.add ecu_after ecu_next]; apply listens_after. Qed.

(** ** Properties *)

(** C16: the module and the ECU understand each other.  A thread with K-line
    access that starts to connect, and a simulated ECU that waits for it, run
    for any number of iterations on what the other one sends: the bytes the
    thread drives on the line are exactly the bytes the ECU receives, the
    messages the ECU sends are exactly those on the thread's line (which echoes
    nothing); the connection is made, both tables are read in turn for ever,
    every message of both directions is logged once and in order, and nothing is
    left over. *)
Theorem hobd_meets_ecu `{LogPolicy} `{Hw} {W} `{!Services W} `{!ServicesSpec W} `{!Kernel}
    n (t : thread_s W) page p10 pd1 (e : Ecu.ecu_s) :
  drivers_ok -> inv [] (hobd t) -> tx_ok (g_msg_tx_buffer (hobd t)) ->
  enabled (g_comm (hobd t)) <> 0 -> listen_only (g_comm (hobd t)) = 0 -> ep t = [] ->
  state (g_comm (hobd t)) = COMM_STATE_GPIO_INIT ->
  Ecu.ecu_ok page [] e -> Ecu.ecu_state e = Ecu.STATE_WAIT4_WAKEUP ->
  page HOBD_TABLE_10 = Some p10 -> page HOBD_TABLE_D1 = Some pd1 -> bytes p10 -> bytes pd1 ->
  let st := COMM_STATE_GPIO_INIT in
  rx_line (hobd t) = byte_polls (concat (all_answers p10 pd1 n st)) ->
  Ecu.polls e = Ecu.RecvByte <$> concat (all_sends n st) ->
  exists t' e' ev,
    thread_loop n t = (Done tt, t') /\
    Ecu.ecu_run (length (concat (all_sends n st))) e = (Done tt, e') /\
    line (hobd t') = line (hobd t) ++ ev /\ driven ev = concat (all_sends n st) /\
    Ecu.sent e' = Ecu.sent e ++ all_answers p10 pd1 n st /\
    logs (all_logged p10 pd1 n st) (hobd t) (hobd t') /\
    state (g_comm (hobd t')) = after n st /\ rx_line (hobd t') = [] /\
    Ecu.ecu_state e' = ecu_at (after n st).
Proof.
  intros Hd Hi Htx He Hl Hep Hst Hok Hk H10 Hd1 Hb10 Hbd1 st Hrx Hpolls.
  pose proof (session_answered p10 pd1 Hb10 Hbd1 n st) as Hs. rewrite <- Hrx in Hs.
  pose proof (session_run n t [] _ _ _ _ _ Hd Hi Htx He Hl Hep
    ltac:(rewrite Hst; exact Hs)) as Ht.
  apply wp_done in Ht as ([] & t' & Hrun & Hst' & _ & Hrx' & Hline & Hlogs & _).
  pose proof (ecu_answers_all p10 pd1 page n H10 Hd1 st) as Hspec.
  pose proof (Ecu.run_wp page (Ecu.RecvByte <$> concat (all_sends n st)) [] _ _ _ e Hok
    ltac:(apply Forall_fmap; exact (sends_bytes n st)) Hpolls ltac:(rewrite Hk; exact Hspec)) as Hecu.
  apply wp_done in Hecu as ([] & e' & Herun & (_ & Hk' & Hsent & _)).
  rewrite length_fmap in Herun. exists t', e', (all_traffic n st). split_and!; try done.
  apply driven_all.
Qed.

(** C17: the connection comes back.  Whatever the state of the thread and the bytes
    its parser has pending, whatever came in during an outage that made its wait
    time out, and whatever the state of the ECU, with nothing pending: when the
    line works again, each running on what the other one sends, the thread is
    connected within three iterations and from then on reads both tables in
    turn for ever; every message since the outage is logged once and in order and
    nothing is left over on the line. *)
Theorem hobd_reconnects `{LogPolicy} `{Hw} {W} `{!Services W} `{!ServicesSpec W} `{!Kernel}
    n (t : thread_s W) pend pend1 noise page p10 pd1 (e : Ecu.ecu_s) :
  drivers_ok -> inv pend (hobd t) -> tx_ok (g_msg_tx_buffer (hobd t)) ->
  enabled (g_comm (hobd t)) <> 0 -> listen_only (g_comm (hobd t)) = 0 -> ep t = [] ->
  let lost := state (g_comm (hobd t)) in let st := next_state lost false in
  state_receives lost pend noise = (RTimeout, pend1, []) ->
  Ecu.ecu_ok page [] e -> page HOBD_TABLE_10 = Some p10 -> page HOBD_TABLE_D1 = Some pd1 ->
  bytes p10 -> bytes pd1 ->
  rx_line (hobd t) = noise ++ byte_polls (concat (all_answers p10 pd1 (2 + n) st)) ->
  Ecu.polls e = Ecu.RecvByte <$> concat (all_sends (2 + n) st) ->
  exists t' e' ev,
    thread_loop (3 + n) t = (Done tt, t') /\
    Ecu.ecu_run (length (concat (all_sends (2 + n) st))) e = (Done tt, e') /\
    line (hobd t') = line (hobd t) ++ traffic lost ++ ev /\ driven ev = concat (all_sends (2 + n) st) /\
    Ecu.sent e' = Ecu.sent e ++ all_answers p10 pd1 (2 + n) st /\
    logs (sends lost ++ all_logged p10 pd1 (2 + n) st) (hobd t) (hobd t') /\
    state (g_comm (hobd t')) = after (2 + n) st /\
    (state (g_comm (hobd t')) = COMM_STATE_SEND_REQ0 \/ state (g_comm (hobd t')) = COMM_STATE_SEND_REQ1) /\
    rx_line (hobd t') = [] /\ Ecu.ecu_state e' = Ecu.STATE_ACTIVE_LISTEN.
Proof.
  intros Hd Hi Htx He Hl Hep lost st Hnoise Hok H10 Hd1 Hb10 Hbd1 Hrx Hpolls.
  assert (session (3 + n) lost pend (rx_line (hobd t)) =
    Some (after (2 + n) st, [], [], sends lost ++ all_logged p10 pd1 (2 + n) st,
      traffic lost ++ all_traffic (2 + n) st)) as Hs.
  { change (3 + n)%nat with (S (2 + n)). cbn [session]. rewrite Hrx, (receives_timeout _ _ _ _ _ Hnoise).
    change (answered RTimeout) with false. change (received_frames RTimeout) with (@nil (list Z)).
    change (2 + n)%nat with (S (S n)). rewrite session_lost. fold st.
    by rewrite (session_answered p10 pd1 Hb10 Hbd1 (S (S n)) st). }
  pose proof (session_run (3 + n) t pend _ _ _ _ _ Hd Hi Htx He Hl Hep Hs) as Ht.
  apply wp_done in Ht as ([] & t' & Hrun & Hst' & _ & Hrx' & Hline & Hlogs & _).
  assert (ecu_fits st (Ecu.ecu_state e)) as Hfit by (subst st; by destruct lost).
  pose proof (ecu_answers_from p10 pd1 page (2 + n) H10 Hd1 st (Ecu.ecu_state e) Hfit) as Hspec.
  pose proof (Ecu.run_wp page (Ecu.RecvByte <$> concat (all_sends (2 + n) st)) [] _ _ _ e Hok
    ltac:(apply Forall_fmap; exact (sends_bytes (2 + n) st)) Hpolls Hspec) as Hecu.
  apply wp_done in Hecu as ([] & e' & Herun & (_ & Hk' & Hsent & _)).
  rewrite length_fmap in Herun. exists t', e', (all_traffic (2 + n) st).
  split; [done|]. split; [done|]. split; [done|]. split; [apply driven_all|].
  split; [done|]. split; [done|]. split; [done|]. split; [rewrite Hst'; by apply connected_after|].
  split; [done|]. rewrite Hk'. apply ecu_after_lost.
Qed.

(** *** At concrete inputs: the fresh simulator and four iterations; a restarted one. *)
#[local] Existing Instance demo_hw.
#[local] Existing Instance log_aborts.

Definition page_AA : list Z := replicate 255 0xAA.
Definition page_BB : list Z := replicate 255 0xBB.
Definition link_thread : thread_s toy :=
  demo_thread COMM_STATE_GPIO_INIT 1 0
    (byte_polls (concat (all_answers page_AA page_BB 4 COMM_STATE_GPIO_INIT))) [].
Definition link_ecu : Ecu.ecu_s :=
  Ecu.ecu_new (Ecu.RecvByte <$> concat (all_sends 4 COMM_STATE_GPIO_INIT)).

Lemma hobd_meets_ecu_witness :
  exists t' e' ev,
    thread_loop 4 link_thread = (Done tt, t') /\ Ecu.ecu_run 25 link_ecu = (Done tt, e') /\
    line (hobd t') = [] ++ ev /\
    driven ev = [0xFE; 4; 0xFF; 0xFF; 0x72; 5; 0; 0xF0; 0x99; 0x72; 8; 0x72; 0x10; 0; 0x80; 0; 0x84;
                 0x72; 8; 0x72; 0xD1; 0; 6; 0; 0x3D] /\
    Ecu.sent e' = [] ++ [[2; 4; 0; 0xFA]; table_answer 0x10 (replicate 128 0xAA);
                         [2; 12; 0x72; 0xD1; 0; 0xBB; 0xBB; 0xBB; 0xBB; 0xBB; 0xBB; 0x4D]] /\
    logs (all_logged page_AA page_BB 4 COMM_STATE_GPIO_INIT) (hobd link_thread) (hobd t') /\
    state (g_comm (hobd t')) = COMM_STATE_SEND_REQ0 /\ rx_line (hobd t') = [] /\
    Ecu.ecu_state e' = Ecu.STATE_ACTIVE_LISTEN.
Proof.
  destruct (Ecu.ecu_new_ok (Ecu.RecvByte <$> concat (all_sends 4 COMM_STATE_GPIO_INIT)))
    as (Hok & Hst & _ & Hp).
  refine (hobd_meets_ecu 4 link_thread (Ecu.page_of (Ecu.ecu_new [])) page_AA page_BB link_ecu
    _ (demo_hobd_inv _ _ _ _) (demo_tx_ok _ _ _ _) _ eq_refl eq_refl eq_refl Hok Hst
    eq_refl eq_refl _ _ eq_refl Hp); [by intros h|discriminate|decide_now|decide_now].
Defined.

(** A connection lost in the middle of a response, to an ECU that was restarted. *)
Definition outage : list Comm.poll := [Comm.Poll 2 false; Comm.Poll 5 false; Comm.Poll (-1) true].
Definition lost_thread : thread_s toy :=
  demo_thread COMM_STATE_SEND_REQ1 1 0
    (outage ++ byte_polls (concat (all_answers page_AA page_BB 3 COMM_STATE_SEND_ECU_INIT))) [].
Definition restarted_ecu : Ecu.ecu_s :=
  Ecu.ecu_new (Ecu.RecvByte <$> concat (all_sends 3 COMM_STATE_SEND_ECU_INIT)).

Lemma hobd_reconnects_witness :
  exists t' e' ev,
    thread_loop 4 lost_thread = (Done tt, t') /\ Ecu.ecu_run 25 restarted_ecu = (Done tt, e') /\
    line (hobd t') = [] ++ traffic COMM_STATE_SEND_REQ1 ++ ev /\
    driven ev = [0xFE; 4; 0xFF; 0xFF; 0x72; 5; 0; 0xF0; 0x99; 0x72; 8; 0x72; 0x10; 0; 0x80; 0; 0x84;
                 0x72; 8; 0x72; 0xD1; 0; 6; 0; 0x3D] /\
    Ecu.sent e' = [] ++ [[2; 4; 0; 0xFA]; table_answer 0x10 (replicate 128 0xAA);
                         [2; 12; 0x72; 0xD1; 0; 0xBB; 0xBB; 0xBB; 0xBB; 0xBB; 0xBB; 0x4D]] /\
    logs (sends COMM_STATE_SEND_REQ1 ++ all_logged page_AA page_BB 3 COMM_STATE_SEND_ECU_INIT)
      (hobd lost_thread) (hobd t') /\
    state (g_comm (hobd t')) = COMM_STATE_SEND_REQ0 /\
    (state (g_comm (hobd t')) = COMM_STATE_SEND_REQ0 \/ state (g_comm (hobd t')) = COMM_STATE_SEND_REQ1) /\
    rx_line (hobd t') = [] /\ Ecu.ecu_state e' = Ecu.STATE_ACTIVE_LISTEN.
Proof.
  destruct (Ecu.ecu_new_ok (Ecu.RecvByte <$> concat (all_sends 3 COMM_STATE_SEND_ECU_INIT)))
    as (Hok & _ & _ & Hp).
  refine (hobd_reconnects 1 lost_thread [] [2; 5] outage (Ecu.page_of (Ecu.ecu_new [])) page_AA page_BB
    restarted_ecu _ (demo_hobd_inv _ _ _ _) (demo_tx_ok _ _ _ _) _ eq_refl eq_refl _ Hok
    eq_refl eq_refl _ _ eq_refl Hp);
    [by intros h|discriminate|reflexivity|decide_now|decide_now].
Defined.
End Link.
