(* ===== verification/System.v ===== *)
(** The whole path of a message: the HOBD module over the MMC module as the
    implementation of its services, the log file, and the reader of the file. *)
From S2P Require Import Prelude Text Kline Services Sync TimeServer Ipc MmcEntry MmcFile MmcModule Parser Comm HobdModule Session LogDump.

Module System.
Import Ipc MmcFile.

Section implementation.
Context `{LogPolicy} {F W : Type} `{!Fat F} `{!FatSpec F} `{!TimeServer W} `{!TimeServerSpec W}.
Context `{!TimerSpec W} `{!Kernel} `{!KernelSpec}.
(** The wait for the system module's signal. *)
Context (wait_for_start : M W unit).
Hypothesis wait_for_start_spec : forall w, time_ok w ->
  wp wait_for_start (fun _ w' => time_ok w' /\ allocated w' = allocated w) total w.
Hypothesis writes : MmcModule.card_writes (F := F).

(** What the HOBD module's thread calls into: its own registers, and the MMC
    module that waits for messages, with the time server behind both. *)
Abbreviation C := (client (MmcModule.mmc_s F W)).
Implicit Types c : C.

Definition clock c : W := MmcModule.m_services (c_peer c).
Definition set_clock (w : W) c : C := mk_client (c_regs c) (MmcModule.set_services w (c_peer c)).
Definition on_clock {A} (m : M W A) : M C A := zoom clock set_clock m.

#[local] Instance mmc_time : TimeServer C := {|
  time_server_get_time := on_clock time_server_get_time;
  time_server_alloc_id := on_clock time_server_alloc_id;
  time_server_register_rel_cb time id := on_clock (time_server_register_rel_cb time id);
  time_server_register_periodic_cb period start id :=
    on_clock (time_server_register_periodic_cb period start id);
  time_server_deregister_cb id := on_clock (time_server_deregister_cb id);
  allocated c := allocated (clock c);
  cb_registered id c := cb_registered id (clock c);
  cb_expire id c := set_clock (cb_expire id (clock c)) c;
|}.

#[local] Instance mmc_services : Services C := {|
  services_time := mmc_time;
  system_module_wait_for_start := on_clock wait_for_start;
  mmc_log_entry_data := MmcModule.mmc_log_entry_data MmcModule.peer_time MmcModule.peer_set_msg
    MmcModule.peer_send;
|}.

(** The bytes of the log file, and the log they hold. *)
Definition log_file c : list Z := contents (fat (MmcModule.fsys (c_peer c))).
Definition log_enabled c : Z := enabled (file (MmcModule.fsys (c_peer c))).
Definition mmc_ok c : Prop :=
  MmcModule.client_ready c /\ log_enabled c <> 0 /\
  exists es, Forall entry_ok es /\ log_file c = concat (map entry_bytes es).
Definition mmc_logged c : list log_entry := entries_of (log_file c).

Lemma mmc_ok_file c es : Forall entry_ok es -> log_file c = concat (map entry_bytes es) ->
  mmc_logged c = es.
Proof. intros Hes Hf. unfold mmc_logged. rewrite Hf. by apply entries_of_concat. Qed.

Lemma mmc_ok_clock c w : mmc_ok c -> time_ok w -> mmc_ok (set_clock w c).
Proof. intros ((Hrpc & Hlr & Hx & _) & Hrest) Hw. by split. Qed.

Lemma mmc_ok_time c : mmc_ok c -> time_ok (clock c).
Proof. intros ((_ & _ & _ & Ht) & _). exact Ht. Qed.

(** What only concerns the time server leaves the log alone. *)
Lemma on_clock_spec {A} (m : M W A) (R : A -> W -> Prop) c :
  mmc_ok c -> wp m (fun a w => time_ok w /\ R a w) total (clock c) ->
  wp (on_clock m) (fun a c' => mmc_ok c' /\ mmc_logged c' = mmc_logged c /\ R a (clock c')) total c.
Proof.
  intros Hc Hm. unfold on_clock. apply wp_zoom. wp_use ltac:(exact Hm); [|done].
  intros a w [Hw HR]. by split; [apply mmc_ok_clock|].
Qed.

(** A logged entry is at the end of the file. *)
Lemma mmc_log_spec ty size ts data nonblocking c : mmc_ok c -> 0 < ty < 65536 -> 0 <= size <= 255 ->
  size <= Z.of_nat (length data) -> bytes (take (Z.to_nat size) data) ->
  (forall t, ts = Some t -> 0 <= t < 2 ^ 64) ->
  wp (mmc_log_entry_data (W := C) ty size ts data nonblocking) (fun _ c' => mmc_ok c' /\
    allocated (clock c') = allocated (clock c) /\
    (forall id, cb_registered id (clock c') = cb_registered id (clock c)) /\
    exists t, 0 <= t < 2 ^ 64 /\ (forall t', ts = Some t' -> t = t') /\
      mmc_logged c' = mmc_logged c ++ [Entry ty t (take (Z.to_nat size) data)]) total c.
Proof.
  intros Hc Hty Hs Hl Hd Hts. pose proof Hc as (Hready & Hen & es & Hes & Hf).
  wp_use ltac:(apply (MmcModule.log_entry_run ty size ts data nonblocking c writes Hready Hty ltac:(lia)
    Hl Hd Hts)); [|done].
  intros _ c' (Hready' & t & Ht & Hteq & (_ & Hfile & Hcn & _) & _ & Hw & _).
  set (e := Entry ty t (take (Z.to_nat size) data)) in *.
  assert (entry_ok e) as He.
  { unfold entry_ok. cbn. split; [lia|]. split; [done|]. split; [done|]. rewrite length_take. lia. }
  unfold log_enabled in Hen. rewrite (proj2 (Z.eqb_neq _ _)) in Hcn by done.
  assert (log_file c' = concat (map entry_bytes (es ++ [e]))) as Hf'.
  { unfold log_file in *. rewrite Hcn, Hf, map_app, concat_app. cbn [map concat].
    by rewrite app_nil_r. }
  assert (Forall entry_ok (es ++ [e])) as Hes' by (apply Forall_app; by split; [|constructor]).
  split; [split; [done|]; split; [by unfold log_enabled; rewrite Hfile|by exists (es ++ [e])]|].
  assert (allocated (clock c') = allocated (clock c) /\
    forall id, cb_registered id (clock c') = cb_registered id (clock c)) as [Hids Hcb].
  { unfold clock. rewrite Hw. destruct ts; [done|].
    split; [|by apply ts_time_keeps, (mmc_ok_time c Hc)]. cbn [MmcModule.clock_after].
    pose proof (ts_get_time_spec (clock c) (mmc_ok_time c Hc)) as Hg.
    apply wp_done in Hg as (tm & w & Hrun & _ & _ & Ha). unfold clock in *. by rewrite Hrun. }
  split; [done|]. split.
  - exact Hcb.
  - exists t. split; [done|]. split; [done|].
    by rewrite (mmc_ok_file c' (es ++ [e])), (mmc_ok_file c es).
Qed.

(** The MMC module and the time server keep what the HOBD module relies on. *)
#[local] Instance mmc_services_spec : ServicesSpec C.
Proof.
  refine {| services_ok := mmc_ok; logged := mmc_logged |}.
  - intros c Hc. wp_use ltac:(apply (on_clock_spec _ (fun t w => 0 <= t < 2 ^ 64 /\
      allocated w = allocated (clock c) /\
      forall id, cb_registered id w = cb_registered id (clock c)) c Hc)); [| |done].
    + pose proof (mmc_ok_time c Hc) as Ht. wp_use ltac:(by apply wp_final, ts_get_time_spec); [|done].
      intros t w [(Hw & Htr & Ha) ->]. do 3 (split; [done|]). by apply ts_time_keeps.
    + intros t c' (? & ? & ? & ?). done.
  - intros c Hc Hids. wp_use ltac:(apply (on_clock_spec _ (fun id w =>
      allocated w = id :: allocated (clock c)) c Hc)); [|done|done].
    wp_use ltac:(by apply ts_alloc_id_spec; [apply (mmc_ok_time c Hc)|]); [|done].
    by intros id w (? & _ & ?).
  - intros c Hc. wp_use ltac:(apply (on_clock_spec _ (fun _ w =>
      allocated w = allocated (clock c)) c Hc)); [|done|done].
    apply wait_for_start_spec, (mmc_ok_time c Hc).
  - intros time id c Hc Hid. apply (on_clock_spec _ (fun _ w => allocated w = allocated (clock c) /\
      cb_registered id w = true) c Hc).
    by apply ts_register_rel_cb_spec; [apply (mmc_ok_time c Hc)|].
  - intros period start id c Hc Hid. apply (on_clock_spec _ (fun _ w =>
      allocated w = allocated (clock c) /\ cb_registered id w = true) c Hc).
    by apply ts_register_periodic_cb_spec; [apply (mmc_ok_time c Hc)|].
  - intros id c Hc Hid. apply (on_clock_spec _ (fun _ w => allocated w = allocated (clock c) /\
      cb_registered id w = false) c Hc).
    by apply ts_deregister_cb_spec; [apply (mmc_ok_time c Hc)|].
  - intros id c Hc Hid. destruct (ts_expire_spec id (clock c) (mmc_ok_time c Hc) Hid) as (Ht & Ha & Hr).
    split; [by apply mmc_ok_clock|done].
  - intros ty size ts data nonblocking c Hc Hty Hs Hl Hd Hts.
    wp_use ltac:(by apply mmc_log_spec); [|done]. intros _ c' (? & ? & ? & ?). do 3 (split; [done|]).
    by right.
Defined.

(** A hard flush of the module puts the log on the card. *)
Lemma flush_run c : mmc_ok c ->
  wp MmcModule.hard_flush_timeout_cb (fun r m => r = 0 /\
    stored (fat (MmcModule.fsys m)) = log_file c) total (c_peer c).
Proof.
  intros ((_ & [Hinv Hopen] & _) & Hen & _). unfold MmcModule.hard_flush_timeout_cb. wp_step.
  apply MmcModule.wp_on_fs. wp_use ltac:(by apply hard_flush_run, Hopen); [|done].
  intros r f (_ & Hst & _). by wp_step.
Qed.

(** ** From the line to the reader's output *)
Context `{!Comm.Hw}.

(** The message [f], logged at any time, is printed and tabulated without the
    reader looking behind it. *)
Definition frame_readable (f : list Z) : Prop := forall t, 0 <= t < 2 ^ 64 ->
  LogDump.readable (Entry MMC_ENTRY_TYPE_HOBD_MSG t f).

Lemma entries_readable fs es : Forall frame_readable fs ->
  Forall2 HobdModule.entry_of fs es -> Forall LogDump.readable es.
Proof.
  intros Hfs Hes. induction Hes as [|f e fs es (Ht & Htm & Hd) Hes IH]; [constructor|].
  apply Forall_cons_iff in Hfs as [Hf Hfs]. constructor; [|by apply IH].
  destruct e as [ty tm d]. cbn in *. subst. by apply Hf.
Qed.

(** What is logged behind the entries [es] is read behind them. *)
Definition card_shows (es : list log_entry) (m : MmcModule.mmc_s F W) : Prop :=
  forall fuel, (length es + 2 <= fuel)%nat ->
    exists d, LogDump.main fuel (LogDump.start (stored (fat (MmcModule.fsys m))) []) =
        (Done LogDump.EXIT_SUCCESS, d) /\
      LogDump.out d = LogDump.dump_text 0 es /\
      LogDump.t10_csv d = String.append LogDump.t10_header (String.append newline (LogDump.dump_t10 es)) /\
      LogDump.td1_csv d = String.append LogDump.td1_header (String.append newline (LogDump.dump_td1 es)).

Lemma flushed_and_read fs c c' es : mmc_ok c' -> log_file c = concat (map entry_bytes es) ->
  Forall LogDump.readable es -> Forall frame_readable fs ->
  (exists new, mmc_logged c' = mmc_logged c ++ new /\ Forall2 HobdModule.entry_of fs new) ->
  exists new m, Forall2 HobdModule.entry_of fs new /\
    MmcModule.hard_flush_timeout_cb (c_peer c') = (Done 0, m) /\ card_shows (es ++ new) m.
Proof.
  intros Hok' Hfile Hes Hfs (new & Hlog & Hnew).
  assert (Forall entry_ok es) as Hes_ok by (eapply Forall_impl; [|exact Hes]; by intros e []).
  pose proof (mmc_ok_file _ es Hes_ok Hfile) as Hold.
  pose proof Hok' as (_ & _ & es' & Hes' & Hfile').
  pose proof (mmc_ok_file _ es' Hes' Hfile') as Hall.
  rewrite Hall, Hold in Hlog. subst es'.
  pose proof (flush_run _ Hok') as Hflush. apply wp_done in Hflush as (r & m & Hflush & -> & Hst).
  exists new, m. split; [done|]. split; [done|]. intros fuel Hf.
  rewrite Hst, Hfile'. rewrite <- (app_nil_r (concat _)).
  pose proof (LogDump.dump_run (es ++ new) [] [] fuel) as Hdump.
  apply wp_done in Hdump as (r & d & Hd' & -> & Hout); [by exists d| |cbn; lia|done|done].
  apply Forall_app. split; [done|]. by eapply entries_readable.
Qed.

(** C2: every message the HOBD module exchanges with the ECU can be read from
    the card.  Over the MMC module and the FAT library, a thread that runs any
    number of iterations of a session appends one entry per message, in order,
    to the log that was there; after the next hard flush the reader, run on the
    file on the card, prints exactly the old entries and the new ones, writes
    the tables found in them to its CSV files, and succeeds. *)
Theorem messages_reach_dump n (t : HobdModule.thread_s C) pend st' pend' rx' fs ev es :
  HobdModule.drivers_ok -> Comm.inv pend (HobdModule.hobd t) ->
  HobdModule.tx_ok (Comm.g_msg_tx_buffer (HobdModule.hobd t)) ->
  Comm.enabled (Comm.g_comm (HobdModule.hobd t)) <> 0 ->
  Comm.listen_only (Comm.g_comm (HobdModule.hobd t)) = 0 -> HobdModule.ep t = [] ->
  HobdModule.session n (Comm.state (Comm.g_comm (HobdModule.hobd t))) pend
    (Comm.rx_line (HobdModule.hobd t)) = Some (st', pend', rx', fs, ev) ->
  log_file (Comm.services (HobdModule.hobd t)) = concat (map entry_bytes es) ->
  Forall LogDump.readable es -> Forall frame_readable fs ->
  exists t' new m,
    HobdModule.thread_loop n t = (Done tt, t') /\ Forall2 HobdModule.entry_of fs new /\
    MmcModule.hard_flush_timeout_cb (c_peer (Comm.services (HobdModule.hobd t'))) = (Done 0, m) /\
    card_shows (es ++ new) m.
Proof.
  intros Hd Hi Htx He Hl Hep Hs Hfile Hes Hfs.
  pose proof (HobdModule.session_run n t pend st' pend' rx' fs ev Hd Hi Htx He Hl Hep Hs) as Ht.
  apply wp_done in Ht as ([] & t' & Hrun & _ & (_ & _ & [Hok' _]) & _ & _ & Hlogs & _).
  destruct (flushed_and_read fs _ _ es Hok' Hfile Hes Hfs Hlogs) as (new & m & ?).
  by exists t', new, m.
Qed.

(** C3: from the start of the module to the reader.  The HOBD thread, set up as
    the module's initialization leaves it - communication disabled, listen-only -
    over the MMC module and the FAT library, starts, waits, answers the two
    requests that give it the line and enable communication, and then keeps the
    session with the ECU for any number of steps: up to the requests nothing but
    the opening of the port is done to the line, both replies tell the new
    states, and the reader of the card prints and tabulates the log that was
    there followed by every message of the session, in order. *)
Theorem power_on_to_reader n buf (t : HobdModule.thread_s C) cm st' pend' rx' fs ev es :
  Session.gpio_ok -> HobdModule.drivers_ok -> length buf = 512%nat ->
  HobdModule.tx_ok (Comm.g_msg_tx_buffer (HobdModule.hobd t)) ->
  mmc_ok (Comm.services (HobdModule.hobd t)) -> ids_left (Comm.services (HobdModule.hobd t)) ->
  regs_ok (HobdModule.g_regs t) -> Comm.g_comm (HobdModule.hobd t) = HobdModule.hobd_module_init cm ->
  HobdModule.ep t = [Session.give_line; Session.enable_comms] ->
  HobdModule.session n Comm.COMM_STATE_GPIO_INIT [] (Comm.rx_line (HobdModule.hobd t)) =
    Some (st', pend', rx', fs, ev) ->
  log_file (Comm.services (HobdModule.hobd t)) = concat (map entry_bytes es) ->
  Forall LogDump.readable es -> Forall frame_readable fs ->
  exists t' new m,
    HobdModule.obd_comm_thread_fn buf (2 + n) t = (Done tt, t') /\
    HobdModule.replies t' = HobdModule.replies t ++
      [(HobdModule.IPC_MSG_TYPE_LISTEN_ONLY_RESP, [0]); (HobdModule.IPC_MSG_TYPE_COMM_STATE_RESP, [1])] /\
    Comm.line (HobdModule.hobd t') = Comm.line (HobdModule.hobd t) ++ Session.start_traffic ++ ev /\
    Comm.state (Comm.g_comm (HobdModule.hobd t')) = st' /\ Comm.rx_line (HobdModule.hobd t') = rx' /\
    Forall2 HobdModule.entry_of fs new /\
    MmcModule.hard_flush_timeout_cb (c_peer (Comm.services (HobdModule.hobd t'))) = (Done 0, m) /\
    card_shows (es ++ new) m.
Proof.
  intros Hg Hd Hl Htx Hok Hids Hr Hc Hep Hs Hfile Hes Hfs.
  pose proof (Session.powered_on_run n buf t st' pend' rx' fs ev Hg Hd Hl Htx Hok Hids Hr) as Ht.
  rewrite Hc in Ht. specialize (Ht eq_refl ltac:(done) Hep Hs).
  apply wp_done in Ht as ([] & t' & Hrun & Hst & (_ & _ & [Hok' _]) & Hrx & Hline & Hlogs & Hrep).
  destruct (flushed_and_read fs _ _ es Hok' Hfile Hes Hfs Hlogs) as (new & m & ?).
  by exists t', new, m.
Qed.
End implementation.

(** *** At a concrete input: a heartbeat in the log, a connection and a table. *)
#[local] Existing Instance Comm.demo_hw.
#[local] Existing Instance log_aborts.
#[local] Existing Instances TimeServer.ts_time_server TimeServer.ts_time_server_spec
  TimeServer.ts_timer_spec.

(** The time server, with two ids handed out: to the MMC module and to the HOBD
    module. *)
Abbreviation demo_ts := (TimeServer.ts_s bool small_tm).
Definition no_wait : M demo_ts unit := mret tt.
Definition heartbeat : log_entry := Entry MMC_ENTRY_TYPE_HEARTBEAT 900 [].
Definition demo_module : client (MmcModule.mmc_s ram demo_ts) :=
  mk_client MmcModule.demo_regs (MmcModule.mk_mmc
    (mk_fs (mk_file 1 1 (Some 1)) (Ram [] (entry_bytes heartbeat) [1] 2)) (MmcModule.mk_stats 0 1)
    MmcModule.demo_regs (replicate 120 0) 1 [] [] (TimeServer.mk_ts false (mk_tm 1000 3 2 [] []))).
Definition demo_rx : list Comm.poll :=
  Comm.polls (HobdModule.init_response ++ HobdModule.table_response [0xD1; 0; 1; 2; 3; 4; 5]).
Definition demo_thread : HobdModule.thread_s (client (MmcModule.mmc_s ram demo_ts)) :=
  HobdModule.mk_thread (Comm.mk_hobd (Comm.mk_comm 1 0 Comm.COMM_STATE_GPIO_INIT 1 0 0 0)
    Parser.zero_parser (replicate 256 0) (Comm.mk_stats 0 0 0 0 0) demo_rx false [] demo_module)
    HobdModule.demo_regs [] [].

#[local] Instance demo_services : Services (client (MmcModule.mmc_s ram demo_ts)) := mmc_services no_wait.

Lemma no_wait_spec (w : demo_ts) : time_ok w ->
  wp no_wait (fun _ w' => time_ok w' /\ allocated w' = allocated w) total w.
Proof. done. Qed.

Lemma demo_module_ok : mmc_ok demo_module.
Proof.
  assert (file_inv (MmcModule.fsys (c_peer demo_module))) as Hinv.
  { split; [done|]. split; [by repeat constructor|]. split; [|done].
    intros h'. apply list_elem_of_singleton. }
  split; [|split; [done|]].
  - split; [by split|]. split; [by split|]. split; [done|]. split; [done|]. split; [split; cbn; lia|done].
  - exists [heartbeat]. split; [decide_now|]. by vm_compute.
Qed.

(** The messages of the session. *)
Definition demo_messages : list (list Z) :=
  [[0xFE; 4; 0xFF; 0xFF]; [0x72; 5; 0; 0xF0; 0x99]; [2; 4; 0; 0xFA];
   [0x72; 8; 0x72; 0x10; 0; 0x80; 0; 0x84]; HobdModule.table_response [0xD1; 0; 1; 2; 3; 4; 5]].

Local Ltac readable_frame :=
  intros t Ht; split; [split; [done|split; [exact Ht|split; [decide_now|done]]]|];
  split; [apply Nat.leb_le; by vm_compute|]; split; eexists; reflexivity.

Lemma demo_messages_readable : Forall frame_readable demo_messages.
Proof.
  unfold demo_messages. do 5 (apply Forall_cons_2; [readable_frame|]). constructor.
Qed.

Lemma messages_reach_dump_witness :
  exists t' new m,
    HobdModule.thread_loop 3 demo_thread = (Done tt, t') /\
    Forall2 HobdModule.entry_of demo_messages new /\
    MmcModule.hard_flush_timeout_cb (c_peer (Comm.services (HobdModule.hobd t'))) = (Done 0, m) /\
    forall fuel, (length (heartbeat :: new) + 2 <= fuel)%nat ->
      exists d, LogDump.main fuel (LogDump.start (r_stored (fat (MmcModule.fsys m))) []) =
          (Done LogDump.EXIT_SUCCESS, d) /\
        LogDump.out d = LogDump.dump_text 0 (heartbeat :: new) /\
        LogDump.t10_csv d = String.append LogDump.t10_header
          (String.append newline (LogDump.dump_t10 (heartbeat :: new))) /\
        LogDump.td1_csv d = String.append LogDump.td1_header
          (String.append newline (LogDump.dump_td1 (heartbeat :: new))).
Proof.
  pose proof demo_module_ok as Hok.
  assert (Comm.inv (ServicesSpec0 := mmc_services_spec no_wait no_wait_spec MmcModule.ram_writes)
    [] (HobdModule.hobd demo_thread)) as Hinv.
  { split; [apply (Comm.demo_inv demo_rx)|]. split; [apply (Comm.demo_inv demo_rx)|].
    split; [exact Hok|by left]. }
  assert (HobdModule.session 3 (Comm.state (Comm.g_comm (HobdModule.hobd demo_thread))) []
    (Comm.rx_line (HobdModule.hobd demo_thread)) = Some (Comm.COMM_STATE_SEND_REQ1, [], [],
      demo_messages, concat (HobdModule.traffic <$> [Comm.COMM_STATE_GPIO_INIT;
        Comm.COMM_STATE_SEND_ECU_INIT; Comm.COMM_STATE_SEND_REQ0]))) as Hs by by vm_compute.
  eapply (messages_reach_dump no_wait no_wait_spec MmcModule.ram_writes 3 demo_thread []
    Comm.COMM_STATE_SEND_REQ1 [] [] demo_messages _ [heartbeat]); [by intros h|exact Hinv| |
    discriminate|done|done|exact Hs|done|decide_now|apply demo_messages_readable].
  apply (HobdModule.demo_tx_ok Comm.COMM_STATE_GPIO_INIT 1 0 demo_rx).
Defined.

(** The module as it starts: one id is handed out, to the MMC module; the two
    requests wait at the endpoint. *)
Definition start_module : client (MmcModule.mmc_s ram demo_ts) :=
  mk_client MmcModule.demo_regs (MmcModule.set_services
    (TimeServer.mk_ts false (mk_tm 1000 3 1 [] [])) (c_peer demo_module)).
Definition start_thread : HobdModule.thread_s (client (MmcModule.mmc_s ram demo_ts)) :=
  HobdModule.mk_thread (Comm.mk_hobd
    (HobdModule.hobd_module_init (Comm.mk_comm 0 0 Comm.COMM_STATE_GPIO_INIT 0 0 0 0))
    Parser.zero_parser (replicate 256 0) (Comm.mk_stats 0 0 0 0 0) demo_rx false [] start_module)
    HobdModule.demo_regs [Session.give_line; Session.enable_comms] [].

Lemma start_module_ok : mmc_ok start_module.
Proof.
  apply (mmc_ok_clock (mk_client MmcModule.demo_regs (c_peer demo_module))).
  - exact demo_module_ok.
  - split; [split; cbn; lia|done].
Qed.

Lemma power_on_to_reader_witness :
  exists t' new m,
    HobdModule.obd_comm_thread_fn (replicate 512 0) 5 start_thread = (Done tt, t') /\
    HobdModule.replies t' = [(HobdModule.IPC_MSG_TYPE_LISTEN_ONLY_RESP, [0]);
      (HobdModule.IPC_MSG_TYPE_COMM_STATE_RESP, [1])] /\
    Forall2 HobdModule.entry_of demo_messages new /\
    MmcModule.hard_flush_timeout_cb (c_peer (Comm.services (HobdModule.hobd t'))) = (Done 0, m) /\
    card_shows (heartbeat :: new) m.
Proof.
  assert (HobdModule.session 3 Comm.COMM_STATE_GPIO_INIT []
    (Comm.rx_line (HobdModule.hobd start_thread)) = Some (Comm.COMM_STATE_SEND_REQ1, [], [],
      demo_messages, concat (HobdModule.traffic <$> [Comm.COMM_STATE_GPIO_INIT;
        Comm.COMM_STATE_SEND_ECU_INIT; Comm.COMM_STATE_SEND_REQ0]))) as Hs by by vm_compute.
  destruct (power_on_to_reader no_wait no_wait_spec MmcModule.ram_writes 3 (replicate 512 0) start_thread
    (Comm.mk_comm 0 0 Comm.COMM_STATE_GPIO_INIT 0 0 0 0)
    Comm.COMM_STATE_SEND_REQ1 [] [] demo_messages (concat (HobdModule.traffic <$> [Comm.COMM_STATE_GPIO_INIT;
        Comm.COMM_STATE_SEND_ECU_INIT; Comm.COMM_STATE_SEND_REQ0])) [heartbeat])
    as (t' & new & m & H1 & H2 & _ & _ & _ & H3 & H4 & H5).
  - by intros h.
  - by intros h.
  - done.
  - apply (HobdModule.demo_tx_ok Comm.COMM_STATE_GPIO_INIT 1 0 demo_rx).
  - exact start_module_ok.
  - unfold ids_left. cbn. by apply Nat.ltb_lt.
  - by split.
  - done.
  - done.
  - exact Hs.
  - done.
  - decide_now.
  - apply demo_messages_readable.
  - exists t', new, m. exact (conj H1 (conj H2 (conj H3 (conj H4 H5)))).
Defined.
End System.
