(* ===== verification/Shared.v ===== *)
(** The MMC module as its clients share it: the HOBD module, the console, the
    system thread and the root task call the one module, one call at a time
    (modules/mmc/include/mmc.h).  What the calls and the hard flush do to the log
    is recorded, so that the module can be compared with the abstract log of
    MmcLog after any of them, also while the log is off. *)
From S2P Require Import Prelude Services Ipc MmcEntry MmcFile MmcModule MmcCalls MmcLog.

Module Shared.
Import Ipc MmcFile MmcLog.

(** ** The history of the log *)
Inductive event :=
| EvLog (e : log_entry)
| EvSet (v : Z)
| EvRm
| EvFlush.

Definition log_event (l : log_s) (ev : event) : log_s :=
  match ev with
  | EvLog e => log_add e l
  | EvSet v => log_set v l
  | EvRm => log_rm l
  | EvFlush => log_flush l
  end.
Definition replay (l : log_s) (h : list event) : log_s := foldl log_event l h.

(** The entries that were to be logged. *)
Definition entries_in (h : list event) : list log_entry :=
  omap (fun ev => match ev with EvLog e => Some e | _ => None end) h.

Lemma replay_app l h1 h2 : replay l (h1 ++ h2) = replay (replay l h1) h2.
Proof. apply foldl_app. Qed.
Lemma replay_snoc l h ev : replay l (h ++ [ev]) = log_event (replay l h) ev.
Proof. by rewrite replay_app. Qed.
Lemma entries_in_app h1 h2 : entries_in (h1 ++ h2) = entries_in h1 ++ entries_in h2.
Proof. unfold entries_in. apply omap_app. Qed.
Lemma entries_in_logs es : entries_in (map EvLog es) = es.
Proof. induction es as [|e es IH]; [done|]. unfold entries_in in *. cbn. by rewrite IH. Qed.

(** Only enabling and disabling turns the log on and off. *)
Lemma log_event_on l ev : on (log_event l ev) = match ev with EvSet v => negb (u32 v =? 0) | _ => on l end.
Proof.
  destruct ev as [e|v| |]; cbn; unfold log_add, log_set, log_rm, log_flush;
    repeat case_match; try done; cbn; congruence.
Qed.
Lemma replay_logs_on l es : on (replay l (map EvLog es)) = on l.
Proof.
  revert l. induction es as [|e es IH]; intros l; [done|]. unfold replay in *. cbn [map foldl].
  by rewrite IH, (log_event_on l (EvLog e)).
Qed.

(** ** A client whose id stays its own

    The specification of a time server, for somebody who holds an id: calls of
    others do not take it away. *)
Section owned.
Context {W : Type} `{!TimeServer W} `{!TimeServerSpec W} (id : Z).

Definition owned_ok (w : W) : Prop := time_ok w /\ id ∈ allocated w.

Lemma owned_get_time w : owned_ok w ->
  wp time_server_get_time (fun t w' => owned_ok w' /\ 0 <= t < 2 ^ 64 /\ allocated w' = allocated w) total w.
Proof.
  intros [Hw Hid]. wp_use ltac:(by apply ts_get_time_spec); [|done].
  intros t w' (? & ? & E). unfold owned_ok. by rewrite E.
Qed.

Definition owned_spec : TimeServerSpec W.
Proof.
  refine {| time_ok := owned_ok |}.
  - exact owned_get_time.
  - intros w [Hw Hid] Hl. wp_use ltac:(by apply ts_alloc_id_spec); [|done].
    intros i w' (? & ? & E). unfold owned_ok. rewrite E. split; [split; [done|by right]|done].
  - intros period start i w [Hw Hid] Hi. wp_use ltac:(by apply ts_register_periodic_cb_spec); [|done].
    intros _ w' (? & E & ?). unfold owned_ok. by rewrite E.
Defined.

Definition owned_timer `{!TimerSpec W} : @TimerSpec W _ owned_spec.
Proof.
  constructor.
  - intros w [Hw _]. by apply ts_time_keeps.
  - intros time i w [Hw Hid] Hi. wp_use ltac:(by apply ts_register_rel_cb_spec); [|done].
    intros _ w' (? & E & ?). split; [split; [done|by rewrite E]|done].
  - intros i w [Hw Hid] Hi. wp_use ltac:(by apply ts_deregister_cb_spec); [|done].
    intros _ w' (? & E & ?). split; [split; [done|by rewrite E]|done].
  - intros i w [Hw Hid] Hi. destruct (ts_expire_spec i w Hw Hi) as (? & E & ?).
    split; [split; [done|by rewrite E]|done].
Defined.

Lemma owned_wait (m : M W unit) :
  (forall w, time_ok w -> wp m (fun _ w' => time_ok w' /\ allocated w' = allocated w) total w) ->
  forall w, owned_ok w -> wp m (fun _ w' => owned_ok w' /\ allocated w' = allocated w) total w.
Proof.
  intros Hm w [Hw Hid]. wp_use ltac:(by apply Hm); [|done]. intros _ w' [? E].
  unfold owned_ok. by rewrite E.
Qed.
End owned.

(** ** The module and its history *)
Section implementation.
Context `{LogPolicy} {F W : Type} `{!Fat F} `{!TimeServer W} `{!Kernel}.

Record module_s := mk_module { mmc : MmcModule.mmc_s F W; history : list event }.

(** A client: its registers, in front of the module. *)
Abbreviation C := (client module_s).
Implicit Types c : C.

Definition on_mmc {A} (m : M (client (MmcModule.mmc_s F W)) A) : M C A :=
  zoom (fun c => mk_client (c_regs c) (mmc (c_peer c)))
       (fun k c => mk_client (c_regs k) (mk_module (c_peer k) (history (c_peer c)))) m.
Definition record (ev : event) : M C unit := modify (fun c =>
  mk_client (c_regs c) (mk_module (mmc (c_peer c)) (history (c_peer c) ++ [ev]))).

(** The time server, which is behind the module. *)
Definition clock c : W := MmcModule.m_services (mmc (c_peer c)).
Definition set_clock (w : W) c : C :=
  mk_client (c_regs c) (mk_module (MmcModule.set_services w (mmc (c_peer c))) (history (c_peer c))).
Definition on_clock {A} (m : M W A) : M C A := zoom clock set_clock m.

(** The entry is recorded under its time stamp. *)
Definition log_data (type size : Z) (ts : option Z) (data : list Z) (nonblocking : Z) : M C unit :=
  t ← gets (fun c => MmcModule.stamp ts (clock c));
  on_mmc (MmcModule.mmc_log_entry_data MmcModule.peer_time MmcModule.peer_set_msg
    MmcModule.peer_send type size ts data nonblocking);;
  record (EvLog (Entry type t (take (Z.to_nat size) data))).

Definition set_state (v : Z) : M C Z :=
  r ← on_mmc (MmcModule.mmc_set_state MmcCalls.serve v); record (EvSet v);; mret r.
Definition rm : M C Z := r ← on_mmc (MmcModule.mmc_rm MmcCalls.serve); record EvRm;; mret r.
(** The callback of the hard flush runs on the time server's thread. *)
Definition flush : M C unit :=
  on_mmc (MmcModule.on_peer MmcModule.hard_flush_timeout_cb);; record EvFlush.

Context (wait_for_start : M W unit).

Definition shared_time : TimeServer C := {|
  time_server_get_time := on_clock time_server_get_time;
  time_server_alloc_id := on_clock time_server_alloc_id;
  time_server_register_rel_cb time id := on_clock (time_server_register_rel_cb time id);
  time_server_register_periodic_cb period start id :=
    on_clock (time_server_register_periodic_cb period start id);
  time_server_deregister_cb id := on_clock (time_server_deregister_cb id);
  allocated c := allocated (clock c);
  cb_registered id c := cb_registered id (clock c);
  cb_expire id c := set_clock (cb_expire id (clock c)) c;
|}.
Definition shared_services : Services C := {|
  services_time := shared_time;
  system_module_wait_for_start := on_clock wait_for_start;
  mmc_log_entry_data := log_data;
|}.
End implementation.
Arguments module_s : clear implicits.

(** ** What a client of the shared module can rely on *)
Section spec.
Context `{LogPolicy} {F W : Type} `{!Fat F} `{!FatSpec F} `{!TimeServer W} `{!TimeServerSpec W}.
Context `{!TimerSpec W} `{!Kernel} `{!KernelSpec}.
Hypothesis works : card_works (F := F).
(** The log when the history began. *)
Context (l0 : log_s).
Abbreviation C := (client (module_s F W)).
Implicit Types c : C.

Definition shared_ok c : Prop :=
  regs_ok (c_regs c) /\ holds (replay l0 (history (c_peer c))) (mmc (c_peer c)).

Lemma holds_time l (m : MmcModule.mmc_s F W) : holds l m -> time_ok (MmcModule.m_services m).
Proof. intros ((_ & _ & Ht & _) & _). exact Ht. Qed.
Lemma holds_clock l (m : MmcModule.mmc_s F W) w : holds l m -> time_ok w -> holds l (MmcModule.set_services w m).
Proof. intros ((Hf & Hr & _ & Hst) & Hrest) Hw. by split. Qed.
Lemma shared_time_ok c : shared_ok c -> time_ok (clock c).
Proof. intros [_ Hh]. by eapply holds_time. Qed.

(** A call of the module, by its effect on the abstract log. *)
Lemma shared_call {A} (m : M (client (MmcModule.mmc_s F W)) A) (g : A -> M _ answer) (f : A -> answer) k c Q :
  client_call k = m ≫= g -> (forall a s, g a s = (Done (f a), s)) ->
  shared_ok c -> call_ok k (on (replay l0 (history (c_peer c)))) ->
  (forall a c' l', regs_ok (c_regs c') -> log_does k (replay l0 (history (c_peer c))) (f a) l' ->
     holds l' (mmc (c_peer c')) -> history (c_peer c') = history (c_peer c) -> Q a c') ->
  wp (on_mmc m) Q total c.
Proof.
  intros Ek Eg [Hr Hh] Hk HQ. apply wp_zoom.
  pose proof (client_call_refines works k _ _ _ Hh Hr Hk) as Hw. rewrite Ek in Hw. apply wp_bind_inv in Hw.
  wp_use ltac:(exact Hw); [|done]. intros a k' Ha. unfold wp in Ha. rewrite Eg in Ha.
  destruct Ha as (Hr' & l' & Hd & Hh'). by eapply HQ.
Qed.

(** What only concerns the time server. *)
Lemma on_clock_wp {A} (m : M W A) Q c : shared_ok c ->
  wp m (fun a w => time_ok w /\ (shared_ok (set_clock w c) -> Q a (set_clock w c))) total (clock c) ->
  wp (on_clock m) Q total c.
Proof.
  intros [Hr Hh] Hm. apply wp_zoom. wp_use ltac:(exact Hm); [|done]. intros a w [Hw HQ]. apply HQ.
  split; [done|]. by apply holds_clock.
Qed.

(** A logged entry. *)
Lemma log_data_wp ty size ts data nonblocking c : shared_ok c -> 0 < ty < 65536 -> 0 <= size <= 456 ->
  size <= Z.of_nat (length data) -> bytes (take (Z.to_nat size) data) ->
  (forall t, ts = Some t -> 0 <= t < 2 ^ 64) ->
  wp (log_data ty size ts data nonblocking) (fun _ c' => shared_ok c' /\
    allocated (clock c') = allocated (clock c) /\
    (forall id, cb_registered id (clock c') = cb_registered id (clock c)) /\
    exists t, 0 <= t < 2 ^ 64 /\ (forall t', ts = Some t' -> t = t') /\
      history (c_peer c') = history (c_peer c) ++ [EvLog (Entry ty t (take (Z.to_nat size) data))]) total c.
Proof.
  intros Hc Hty Hs Hl Hd Hts. pose proof (shared_time_ok c Hc) as Htime. pose proof Hc as [Hr Hh].
  unfold log_data. do 3 wp_step. apply wp_zoom.
  wp_use ltac:(apply (log_call_holds works ty size ts data nonblocking (replay l0 (history (c_peer c)))); done);
    [|done].
  intros _ k (Hr' & Hh' & Ht & Htseq & Hw). cbn [c_peer c_regs] in *. unfold record. wp_step.
  split; [split; [done|by cbn [c_peer mmc history]; rewrite replay_snoc]|].
  unfold clock in *. cbn [c_peer mmc] in *. rewrite Hw. split; [|split; [|by eexists]]; unfold MmcModule.clock_after;
    (destruct ts as [t|]; [done|]).
  - pose proof (ts_get_time_spec _ Htime) as Hg. apply wp_done in Hg as (tm & w & Hrun & _ & _ & Ha).
    by rewrite Hrun.
  - by apply ts_time_keeps.
Qed.

(** ** The interface the modules are verified against

    From a history [h0] on, by somebody who only logs. *)
Context (h0 : list event) (wait_for_start : M W unit).
Hypothesis wait_for_start_spec : forall w, time_ok w ->
  wp wait_for_start (fun _ w' => time_ok w' /\ allocated w' = allocated w) total w.

Definition logging_ok c : Prop := shared_ok c /\ exists es, history (c_peer c) = h0 ++ map EvLog es.
Definition shared_logged c : list log_entry := entries_in (drop (length h0) (history (c_peer c))).

Lemma logging_ok_logged c : logging_ok c ->
  history (c_peer c) = h0 ++ map EvLog (shared_logged c).
Proof.
  intros [_ [es E]]. unfold shared_logged. by rewrite E, drop_app_length, entries_in_logs.
Qed.

(** *** The operations, as the class asks for them. *)
Lemma logging_clock {A} (m : M W A) (R : A -> W -> Prop) c : logging_ok c ->
  wp m (fun a w => time_ok w /\ R a w) total (clock c) ->
  wp (on_clock m) (fun a c' => logging_ok c' /\ shared_logged c' = shared_logged c /\ R a (clock c')) total c.
Proof.
  intros [Hc Hes] Hm. apply on_clock_wp; [done|]. wp_use ltac:(exact Hm); [|done].
  intros a w [Hw HR]. by split.
Qed.

Lemma logging_log ty size ts data nonblocking c : logging_ok c ->
  0 < ty < 65536 -> 0 <= size <= 255 -> size <= Z.of_nat (length data) ->
  bytes (take (Z.to_nat size) data) -> (forall t, ts = Some t -> 0 <= t < 2 ^ 64) ->
  wp (log_data ty size ts data nonblocking) (fun _ c' => logging_ok c' /\
    allocated (clock c') = allocated (clock c) /\
    (forall id, cb_registered id (clock c') = cb_registered id (clock c)) /\
    exists t, 0 <= t < 2 ^ 64 /\ (forall t', ts = Some t' -> t = t') /\
      shared_logged c' = shared_logged c ++ [Entry ty t (take (Z.to_nat size) data)]) total c.
Proof.
  intros [Hc [es Hes]] Hty Hs Hl Hd Hts. wp_use ltac:(apply log_data_wp; try done; lia); [|done].
  intros _ c' (Hc' & Ha & Hcb & t & Ht & Hteq & Hh). unfold logging_ok, shared_logged.
  rewrite Hh, Hes, <- app_assoc, !drop_app_length.
  split; [split; [done|]; eexists (es ++ [_]); by rewrite map_app|].
  do 2 (split; [done|]). exists t. split; [done|]. split; [done|].
  by rewrite entries_in_app, entries_in_logs.
Qed.

Definition shared_spec : @ServicesSpec C (shared_services wait_for_start).
Proof.
  pose proof (fun c (Hc : logging_ok c) => shared_time_ok c (proj1 Hc)) as Htime.
  refine (@Build_ServicesSpec C (shared_services wait_for_start) logging_ok shared_logged _ _ _ _ _ _ _ _).
  - intros c Hc. wp_use ltac:(apply (logging_clock _ (fun t w => 0 <= t < 2 ^ 64 /\
      allocated w = allocated (clock c) /\
      forall id, cb_registered id w = cb_registered id (clock c)) c Hc)); [| |done].
    + wp_use ltac:(by apply wp_final, ts_get_time_spec, Htime); [|done].
      intros t w [(Hw & Htr & Ha) ->]. do 3 (split; [done|]). by apply ts_time_keeps, Htime.
    + by intros t c' (? & ? & ? & ?).
  - intros c Hc Hids. apply (logging_clock _ (fun id w => allocated w = id :: allocated (clock c)) c Hc).
    wp_use ltac:(by apply ts_alloc_id_spec; [apply Htime|]); [|done]. by intros id w (? & _ & ?).
  - intros c Hc. apply (logging_clock _ (fun _ w => allocated w = allocated (clock c)) c Hc).
    apply wait_for_start_spec, (Htime c Hc).
  - intros time id c Hc Hid. apply (logging_clock _ (fun _ w => allocated w = allocated (clock c) /\
      cb_registered id w = true) c Hc). by apply ts_register_rel_cb_spec; [apply Htime|].
  - intros period start id c Hc Hid. apply (logging_clock _ (fun _ w =>
      allocated w = allocated (clock c) /\ cb_registered id w = true) c Hc).
    by apply ts_register_periodic_cb_spec; [apply Htime|].
  - intros id c Hc Hid. apply (logging_clock _ (fun _ w => allocated w = allocated (clock c) /\
      cb_registered id w = false) c Hc). by apply ts_deregister_cb_spec; [apply Htime|].
  - intros id c Hc Hid. destruct (ts_expire_spec id (clock c) (Htime c Hc) Hid) as (Ht & Ha & Hr).
    destruct Hc as [[Hrg Hh] Hes]. split; [|done]. split; [|done]. split; [done|]. by apply holds_clock.
  - intros ty size ts data nonblocking c Hc Hty Hs Hl Hd Hts.
    wp_use ltac:(by apply logging_log); [|done]. intros _ c' (? & ? & ? & ?). do 3 (split; [done|]).
    by right.
Defined.
End spec.

(** ** The calls, by a client that also needs the id [id] of its timeout *)
Section calls.
Context `{LogPolicy} {F W : Type} `{!Fat F} `{!FatSpec F} `{!TimeServer W} `{!TimeServerSpec W}.
Context `{!TimerSpec W} `{!Kernel} `{!KernelSpec}.
Hypothesis works : card_works (F := F).
Context (l0 : log_s) (id : Z).
Abbreviation C := (client (module_s F W)).
Implicit Types c : C.

(** The module after the history [h]. *)
Definition module_at (h : list event) c : Prop :=
  shared_ok l0 c /\ id ∈ allocated (clock c) /\ history (c_peer c) = h.

Lemma owned_shared c : shared_ok (TimeServerSpec0 := owned_spec id) l0 c <-> shared_ok l0 c /\ id ∈ allocated (clock c).
Proof.
  unfold shared_ok, holds, MmcCalls.mod_ok, clock. cbn [time_ok owned_spec]. unfold owned_ok. tauto.
Qed.

Lemma module_call {A} (m : M (client (MmcModule.mmc_s F W)) A) (g : A -> M _ answer) (f : A -> answer) k h c Q :
  client_call k = m ≫= g -> (forall a s, g a s = (Done (f a), s)) ->
  module_at h c -> call_ok k (on (replay l0 h)) ->
  (forall a c' l', regs_ok (c_regs c') -> log_does k (replay l0 h) (f a) l' ->
     holds l' (mmc (c_peer c')) -> id ∈ allocated (clock c') -> history (c_peer c') = h -> Q a c') ->
  wp (on_mmc m) Q total c.
Proof.
  intros Ek Eg (Hc & Hid & <-) Hk HQ.
  eapply (shared_call (TimeServerSpec0 := owned_spec id) works l0); [exact Ek|exact Eg|by apply owned_shared|done|].
  intros a c' l' Hr Hd Hh Eh.
  assert (holds l' (mmc (c_peer c')) /\ id ∈ allocated (clock c')) as [Hh' Hid'].
  { unfold holds, MmcCalls.mod_ok, clock in *. cbn [time_ok owned_spec] in Hh. unfold owned_ok in Hh. tauto. }
  by eapply HQ.
Qed.

(** An event, recorded. *)
Lemma record_wp ev h c (Q : unit -> C -> Prop) : regs_ok (c_regs c) ->
  holds (log_event (replay l0 h) ev) (mmc (c_peer c)) -> id ∈ allocated (clock c) ->
  history (c_peer c) = h -> (forall c', module_at (h ++ [ev]) c' -> Q tt c') -> wp (record ev) Q total c.
Proof.
  intros Hr Hh Hid <- HQ. unfold record. wp_step. apply HQ. split; [|done].
  split; [done|]. cbn [c_peer mmc history]. by rewrite replay_snoc.
Qed.

Lemma set_state_at v h c : module_at h c -> (u32 v <> 0 -> on (replay l0 h) = false) ->
  wp (set_state v) (fun r c' => module_at (h ++ [EvSet v]) c' /\ r = flag_of (negb (u32 v =? 0))) total c.
Proof.
  intros Hc Hv. unfold set_state. wp_step.
  eapply (module_call _ _ State (SetState v)); [done|done|exact Hc|exact Hv|].
  intros r c' l' Hr (-> & [= ->]) Hh Hid Eh. wp_step.
  eapply (record_wp (EvSet v)); [done..|]. intros c'' Hc''. wp_step. split; [done|].
  f_equal. apply (log_event_on _ (EvSet v)).
Qed.
Lemma rm_at h c : module_at h c ->
  wp rm (fun r c' => module_at (h ++ [EvRm]) c' /\ r = 0) total c.
Proof.
  intros Hc. unfold rm. wp_step. eapply (module_call _ _ Status Rm); [done|done|exact Hc|done|].
  intros r c' l' Hr (-> & [= ->]) Hh Hid Eh. wp_step.
  eapply (record_wp EvRm); [done..|]. intros c'' Hc''. by wp_step.
Qed.
Lemma flush_at h c : module_at h c -> wp flush (fun _ c' => module_at (h ++ [EvFlush]) c') total c.
Proof.
  intros Hc. unfold flush. wp_step.
  eapply (module_call _ (fun _ => mret Nothing) (fun _ => Nothing) HardFlush); [done|done|exact Hc|done|].
  intros _ c' l' Hr (-> & _) Hh Hid Eh. by eapply (record_wp EvFlush).
Qed.
Lemma get_state_at h c : module_at h c -> wp (on_mmc (MmcModule.mmc_get_state MmcCalls.serve)) (fun r c' =>
  module_at h c' /\ r = flag_of (on (replay l0 h))) total c.
Proof.
  intros Hc. eapply (module_call _ _ State GetState); [done|done|exact Hc|done|].
  intros r c' l' Hr (-> & [= ->]) Hh Hid Eh. split; [|done]. split; [|done]. split; [done|]. by rewrite Eh.
Qed.
Lemma file_size_at h c : module_at h c ->
  wp (on_mmc (MmcModule.mmc_get_file_size MmcCalls.serve)) (fun _ c' => module_at h c') total c.
Proof.
  intros Hc. eapply (module_call _ _ (fun '(r, n) => Size r n) FileSize); [done|by intros [r n]|exact Hc|done|].
  intros r c' l' Hr (-> & _) Hh Hid Eh. split; [|done]. split; [done|]. by rewrite Eh.
Qed.
Lemma stats_at h c : module_at h c ->
  wp (on_mmc (MmcModule.mmc_get_stats MmcCalls.serve)) (fun _ c' => module_at h c') total c.
Proof.
  intros Hc. eapply (module_call _ _ Stats GetStats); [done|done|exact Hc|done|].
  intros r c' l' Hr (-> & _) Hh Hid Eh. split; [|done]. split; [done|]. by rewrite Eh.
Qed.
Lemma time_at h c : module_at h c -> wp (on_clock time_server_get_time) (fun _ c' => module_at h c') total c.
Proof.
  intros (Hc & Hid & Eh). apply (on_clock_wp l0); [done|].
  wp_use ltac:(by apply ts_get_time_spec, (shared_time_ok l0)); [|done]. intros t w (Hw & _ & Ha).
  split; [done|]. intros Hc'. split; [done|]. split; [|done]. unfold clock, set_clock. cbn. by rewrite Ha.
Qed.

(** An entry without data. *)
Lemma marker_at ty nonblocking h c : module_at h c -> 0 < ty < 65536 ->
  wp (log_data ty 0 None [] nonblocking) (fun _ c' => exists t, 0 <= t < 2 ^ 64 /\
    module_at (h ++ [EvLog (Entry ty t [])]) c') total c.
Proof.
  intros (Hc & Hid & <-) Hty. wp_use ltac:(apply (log_data_wp works l0); try done; constructor); [|done].
  intros _ c' (Hc' & Ha & _ & t & Ht & _ & Eh). exists t. split; [done|]. split; [done|]. by rewrite Ha.
Qed.
End calls.
End Shared.
