(* ===== verification/Whole.v ===== *)
(** The system as a whole: the threads of the HOBD module, the console, the system
    module and the root task, and the hard flush of the time server, take turns
    over one MMC module with one log; and the abstract machine they refine. *)
From stdpp Require Import strings.
From S2P Require Import Prelude Text Services Sync TimeServer Ipc MmcEntry MmcFile MmcModule MmcCalls LogDump MmcLog.
From S2P Require Import Shared Parser Comm HobdModule Session SystemModule Cli Console Commands System.

Module Whole.
Import Ipc MmcFile MmcLog Shared.

(** ** The state *)
Section system.
Context `{LogPolicy} `{!Console.Build} `{!Comm.Hw} `{!Kernel}.
Context {F W X : Type} `{!Fat F} `{!TimeServer W} `{!SyncMutex X} (wait_for_start : M W unit).

Abbreviation C := (client (module_s F W)).
#[local] Instance services : Services C := shared_services wait_for_start.

(** The thread of the HOBD module has the shared module behind its registers; the
    others are given it for their turn. *)
Definition module_of (t : HobdModule.thread_s C) : module_s F W :=
  c_peer (Comm.services (HobdModule.hobd t)).
Definition set_module (mo : module_s F W) (t : HobdModule.thread_s C) : HobdModule.thread_s C :=
  let h := HobdModule.hobd t in
  HobdModule.mk_thread (Comm.set_services (mk_client (c_regs (Comm.services h)) mo) h)
    (HobdModule.g_regs t) (HobdModule.ep t) (HobdModule.replies t).

(** What the console's thread calls: its registers, and the modules. *)
Record peers_s := mk_peers { p_regs : regs; p_hobd : HobdModule.thread_s C }.

Definition on_module {A} (m : M C A) : M peers_s A :=
  zoom (fun p => mk_client (p_regs p) (module_of (p_hobd p)))
       (fun c p => mk_peers (c_regs c) (set_module (c_peer c) (p_hobd p))) m.
Definition on_hobd {A} (m : M (client (HobdModule.thread_s C)) A) : M peers_s A :=
  zoom (fun p => mk_client (p_regs p) (p_hobd p)) (fun c _ => mk_peers (c_regs c) (c_peer c)) m.

#[local] Instance modules : Console.Backend peers_s := {|
  Console.time_server_get_time := on_module (on_clock time_server_get_time);
  Console.mmc_get_stats := st ← on_module (on_mmc (MmcModule.mmc_get_stats MmcCalls.serve));
    mret (Console.MmcStats (MmcModule.timestamp st) (MmcModule.entries_logged st));
  Console.mmc_get_state := on_module (on_mmc (MmcModule.mmc_get_state MmcCalls.serve));
  Console.mmc_set_state v := on_module (set_state v);
  Console.mmc_get_file_size := on_module (on_mmc (MmcModule.mmc_get_file_size MmcCalls.serve));
  Console.mmc_rm := on_module rm;
  Console.hobd_get_stats := st ← on_hobd (HobdModule.hobd_get_stats HobdModule.serve);
    mret (Console.HobdStats (Comm.timestamp st) (Comm.valid_rx_count st) (Comm.invalid_rx_count st)
      (Comm.gpio_retry_count st) (Comm.init_retry_count st));
  Console.hobd_get_comm_state := on_hobd (HobdModule.hobd_get_comm_state HobdModule.serve);
  Console.hobd_set_comm_state v := on_hobd (HobdModule.hobd_set_comm_state HobdModule.serve v);
  Console.hobd_get_listen_only := on_hobd (HobdModule.hobd_get_listen_only HobdModule.serve);
  Console.hobd_set_listen_only v := on_hobd (HobdModule.hobd_set_listen_only HobdModule.serve v);
|}.

(** The console with the modules behind it, the system module's thread and the
    root task with their registers. *)
Record system_s := mk_system {
  console : Console.con_s peers_s; sys : SystemModule.sys_s X regs; root_regs : regs }.

Definition hobd_thread (s : system_s) : HobdModule.thread_s C := p_hobd (Console.peers (console s)).
Definition put_hobd (t : HobdModule.thread_s C) (s : system_s) : system_s :=
  mk_system (Console.mk_con (Console.out (console s)) (mk_peers (p_regs (Console.peers (console s))) t)) (sys s) (root_regs s).

Definition on_thread {A} (m : M (HobdModule.thread_s C) A) : M system_s A := zoom hobd_thread put_hobd m.
Definition on_console {A} (m : M (Console.con_s peers_s) A) : M system_s A :=
  zoom console (fun c s => mk_system c (sys s) (root_regs s)) m.
(** A client with its registers elsewhere. *)
Definition on_client {A} (get : system_s -> regs) (put : regs -> system_s -> system_s) (m : M C A) :
    M system_s A :=
  zoom (fun s => mk_client (get s) (module_of (hobd_thread s)))
       (fun c s => put (c_regs c) (put_hobd (set_module (c_peer c) (hobd_thread s)) s)) m.
Definition on_root {A} : M C A -> M system_s A :=
  on_client root_regs (fun r s => mk_system (console s) (sys s) r).
Definition with_services {V V'} (w : V') (k : SystemModule.sys_s X V) : SystemModule.sys_s X V' :=
  SystemModule.mk_sys (SystemModule.g_is_init k) (SystemModule.g_sys_ready_mutex k)
    (SystemModule.g_timeout_id k) (SystemModule.ep k) w.
Definition on_sys {A} (m : M (SystemModule.sys_s X C) A) : M system_s A :=
  zoom (fun s => with_services (mk_client (SystemModule.services (sys s)) (module_of (hobd_thread s))) (sys s))
       (fun k s => let c := SystemModule.services k in
          put_hobd (set_module (c_peer c) (hobd_thread s))
            (mk_system (console s) (with_services (c_regs c) k) (root_regs s))) m.

(** ** The turns

    An iteration of the HOBD thread, which waits while communication is
    disabled; a line of the console; a timeout of the heartbeat, which wakes up
    the system thread; a fault, which the root task logs; a hard flush. *)
Inductive turn := HobdTurn | ConsoleTurn (args : list string) | HeartbeatTurn | FaultTurn | FlushTurn.

Definition take_turn (u : turn) : M system_s unit :=
  match u with
  | HobdTurn =>
      c ← gets (fun s => Comm.g_comm (HobdModule.hobd (hobd_thread s)));
      when (negb (Comm.enabled c =? 0)) (on_thread HobdModule.thread_iteration)
  | ConsoleTurn args =>
      on_console (Console.console_exec (Z.of_nat (length args)) (map Some args) 0;; mret tt)
  | HeartbeatTurn => on_sys (SystemModule.timeout_cb true;; SystemModule.sys_iteration)
  | FaultTurn => on_root (SystemModule.fault_loop 1)
  | FlushTurn => on_root flush
  end.
Fixpoint take_turns (us : list turn) : M system_s unit :=
  match us with [] => mret tt | u :: us => take_turn u;; take_turns us end.

(** Before their loops: the thread of the MMC module attaches the card, the system
    thread opens the barrier, and the thread of the HOBD module starts. *)
Definition on_mmc_thread {A} (m : M (MmcModule.mmc_s F W) A) : M system_s A :=
  zoom (fun s => mmc (module_of (hobd_thread s)))
       (fun k s => let t := hobd_thread s in
          put_hobd (set_module (mk_module k (history (module_of t))) t) s) m.
Definition start_threads (ns MS_IN_S NS_IN_MS : Z) (rx_buffer : list Z) : M system_s unit :=
  on_mmc_thread (MmcModule.thread_init ns);;
  on_sys (SystemModule.sys_start MS_IN_S NS_IN_MS);;
  on_thread (HobdModule.on_hobd (HobdModule.thread_init rx_buffer)).
End system.
Arguments peers_s : clear implicits.
Arguments system_s : clear implicits.

(** ** The abstract machine

    The flags and the state of the conversation with the ECU, what the line still
    has and what was done to it, and the history of the log. *)
Record view := mk_view {
  v_enabled : Z; v_passive : Z; v_state : Comm.comm_state_kind; v_pend : list Z;
  v_rx : list Comm.poll; v_line : list Comm.line_event; v_history : list event }.

Definition v_set_history h v :=
  mk_view (v_enabled v) (v_passive v) (v_state v) (v_pend v) (v_rx v) (v_line v) h.
Definition v_event ev v := v_set_history (v_history v ++ [ev]) v.
(** The connection starts again, with other flags. *)
Definition v_restart enabled passive v :=
  mk_view enabled passive Comm.COMM_STATE_GPIO_INIT [] (v_rx v) (v_line v) (v_history v).

(** What a line of the console makes of it. *)
Definition v_command (a : Console.action) (v : view) : view :=
  match a with
  | Console.Subcommand c k =>
      if c =? Cli.CLI_CMD_MMC then
        if k =? Cli.CLI_MMC_SUBCMD_ON then v_event (EvSet 1) v
        else if k =? Cli.CLI_MMC_SUBCMD_OFF then v_event (EvSet 0) v
        else if k =? Cli.CLI_MMC_SUBCMD_RM then v_event EvRm v
        else v
      else
        if k =? Cli.CLI_HOBD_SUBCMD_ON then v_restart 1 (v_passive v) v
        else if k =? Cli.CLI_HOBD_SUBCMD_OFF then v_restart 0 (v_passive v) v
        else if k =? Cli.CLI_HOBD_SUBCMD_PASSIVE then v_restart (v_enabled v) (1 - v_passive v) v
        else v
  | _ => v
  end.

Section machine.
Context `{!Comm.Hw}.

(** What the HOBD thread waits for, and what it makes of it. *)
Definition v_converse (v : view) : Comm.recv_result * list Z * list Comm.poll :=
  Session.converse (v_passive v) (v_state v) (v_pend v) (v_rx v).
Definition v_conversed r pend rx (es : list log_entry) (v : view) : view :=
  mk_view (v_enabled v) (v_passive v) (Session.leads_to (v_passive v) (v_state v) r) pend rx
    (v_line v ++ Session.said (v_passive v) (v_state v)) (v_history v ++ map EvLog es).

Inductive view_turn : turn -> view -> view -> Prop :=
| turn_talks v r pend rx es : v_enabled v <> 0 -> v_converse v = (r, pend, rx) -> r <> Comm.RBlocked ->
    Forall2 HobdModule.entry_of (Session.heard (v_passive v) (v_state v) r) es ->
    view_turn HobdTurn v (v_conversed r pend rx es v)
| turn_waits v : v_enabled v = 0 -> view_turn HobdTurn v v
| turn_line args v : view_turn (ConsoleTurn args) v (v_command (Console.meaning args) v)
| turn_beats t v : 0 <= t < 2 ^ 64 ->
    view_turn HeartbeatTurn v (v_event (EvLog (Entry MMC_ENTRY_TYPE_HEARTBEAT t [])) v)
| turn_faults t v : 0 <= t < 2 ^ 64 ->
    view_turn FaultTurn v (v_event (EvLog (Entry MMC_ENTRY_TYPE_FAULT t [])) v)
| turn_flushes v : view_turn FlushTurn v (v_event EvFlush v).

Inductive view_turns : list turn -> view -> view -> Prop :=
| turns_nil v : view_turns [] v v
| turns_cons u us v1 v2 v3 : view_turn u v1 v2 -> view_turns us v2 v3 -> view_turns (u :: us) v1 v3.

(** The HOBD thread waits for a byte the line does not have. *)
Definition v_starves (v : view) : Prop := v_enabled v <> 0 /\ (v_converse v).1.1 = Comm.RBlocked.

(** The log is not enabled when it is on, as in MmcLog. *)
Definition command_sets (a : Console.action) : option bool :=
  match a with
  | Console.Subcommand c k =>
      if c =? Cli.CLI_CMD_MMC then
        if k =? Cli.CLI_MMC_SUBCMD_ON then Some true
        else if k =? Cli.CLI_MMC_SUBCMD_OFF then Some false else None
      else None
  | _ => None
  end.
Definition sets_log (u : turn) : option bool :=
  match u with ConsoleTurn args => command_sets (Console.meaning args) | _ => None end.
Fixpoint turns_fit (us : list turn) (is_on : bool) : Prop :=
  match us with
  | [] => True
  | u :: us =>
      (sets_log u = Some true -> is_on = false) /\
      turns_fit us (match sets_log u with Some b => b | None => is_on end)
  end.

(** Which turns turn the log on and off. *)
Lemma turn_on l0 u v v' : view_turn u v v' ->
  on (replay l0 (v_history v')) =
  match sets_log u with Some b => b | None => on (replay l0 (v_history v)) end.
Proof.
  destruct 1; cbn [sets_log v_conversed v_event v_set_history v_history];
    rewrite ?replay_snoc, ?replay_app, ?replay_logs_on, ?log_event_on; try done.
  destruct (Console.meaning args) as [|n| |c|c k]; cbn [v_command command_sets]; [done..|].
  repeat case_match; cbn [v_event v_set_history v_history v_restart];
    by rewrite ?replay_snoc, ?log_event_on.
Qed.
End machine.

(** ** The system refines the machine *)
Section refinement.
Context `{LogPolicy} `{!Console.Build} `{!Comm.Hw} `{!Kernel} `{!KernelSpec}.
Context {F W X : Type} `{!Fat F} `{!FatSpec F} `{!TimeServer W} `{!TimeServerSpec W} `{!TimerSpec W}.
Context `{!SyncMutex X} `{!SyncMutexSpec X} (wait_for_start : M W unit).
Hypothesis wait_for_start_spec : forall w, time_ok w ->
  wp wait_for_start (fun _ w' => time_ok w' /\ allocated w' = allocated w) total w.
Hypothesis works : card_works (F := F).
Context (l0 : log_s).
Abbreviation C := (client (module_s F W)).
Abbreviation T := (HobdModule.thread_s C).
#[local] Instance our_services : Services C := services wait_for_start.
#[local] Instance our_modules : Console.Backend (peers_s F W) := modules wait_for_start.

(** What the thread of the HOBD module shows of the machine, with the bytes the
    parser has pending. *)
Definition view_of (pend : list Z) (t : T) : view :=
  let s := HobdModule.hobd t in let c := Comm.g_comm s in
  mk_view (Comm.enabled c) (Comm.listen_only c) (Comm.state c) pend (Comm.rx_line s) (Comm.line s)
    (history (module_of t)).

Definition id_of (t : T) : Z := Comm.timeout_id (Comm.g_comm (HobdModule.hobd t)).
Definition talker_ok (pend : list Z) (t : T) : Prop :=
  let s := HobdModule.hobd t in
  regs_ok (HobdModule.g_regs t) /\ HobdModule.ep t = [] /\
  Parser.repr (Comm.g_msg_parser s) pend /\ Parser.counts_ok (Comm.g_msg_parser s) /\
  HobdModule.stats_ok (Comm.stats s) /\ HobdModule.tx_ok (Comm.g_msg_tx_buffer s) /\
  Console.is_flag (Comm.enabled (Comm.g_comm s)) /\ Console.is_flag (Comm.listen_only (Comm.g_comm s)).
Definition hobd_shows (v : view) (t : T) : Prop :=
  talker_ok (v_pend v) t /\ view_of (v_pend v) t = v /\
  module_at l0 (id_of t) (v_history v) (Comm.services (HobdModule.hobd t)).
Definition peers_show (v : view) (p : peers_s F W) : Prop :=
  regs_ok (p_regs p) /\ hobd_shows v (p_hobd p).

(** Another client's turn with the module. *)
Lemma module_turn v h t c : hobd_shows v t -> module_at l0 (id_of t) h c ->
  hobd_shows (v_set_history h v) (set_module (c_peer c) t).
Proof.
  intros (Ht & Hv & ((Hr & _) & _)) ((_ & Hh) & Hid & Eh).
  split; [exact Ht|]. split.
  - rewrite <- Hv. unfold view_of, v_set_history, module_of. cbn. by rewrite Eh.
  - by split.
Qed.

Lemma module_for r v t : regs_ok r -> hobd_shows v t ->
  module_at l0 (id_of t) (v_history v) (mk_client r (module_of t)).
Proof. intros Hr (_ & _ & ((_ & Hh) & Hid & Eh)). by split. Qed.

(** *** The calls of the console *)
Lemma on_module_wp {A} (m : M C A) (R : A -> list event -> Prop) v p : peers_show v p ->
  (forall c, module_at l0 (id_of (p_hobd p)) (v_history v) c ->
     wp m (fun a c' => exists h, R a h /\ module_at l0 (id_of (p_hobd p)) h c') total c) ->
  wp (on_module m) (fun a p' => exists h, R a h /\ peers_show (v_set_history h v) p') total p.
Proof.
  intros [Hr Hv] Hm. apply wp_zoom. wp_use ltac:(by apply Hm, module_for); [|done].
  intros a c (h & HR & Hc). exists h. split; [done|]. split; [apply Hc|]. by apply module_turn.
Qed.

Lemma set_same_history v : v_set_history (v_history v) v = v.
Proof. by destruct v. Qed.

(** A call that asks. *)
Lemma ask_module {A} (m : M C A) (R : A -> Prop) v p : peers_show v p ->
  (forall c, module_at l0 (id_of (p_hobd p)) (v_history v) c ->
     wp m (fun a c' => module_at l0 (id_of (p_hobd p)) (v_history v) c' /\ R a) total c) ->
  wp (on_module m) (fun a p' => peers_show v p' /\ R a) total p.
Proof.
  intros Hp Hm. wp_use ltac:(apply (on_module_wp _ (fun a h => R a /\ h = v_history v) v); [done|]); [| |done].
  - intros c Hc. wp_use ltac:(by apply Hm); [|done]. intros a c' [Hc' Ha]. by eexists.
  - intros a p' (h & [HR ->] & Hp'). by rewrite set_same_history in Hp'.
Qed.
Lemma tell_module {A} (m : M C A) ev v p : peers_show v p ->
  (forall c, module_at l0 (id_of (p_hobd p)) (v_history v) c ->
     wp m (fun _ c' => module_at l0 (id_of (p_hobd p)) (v_history v ++ [ev]) c') total c) ->
  wp (on_module m) (fun _ p' => peers_show (v_event ev v) p') total p.
Proof.
  intros Hp Hm. wp_use ltac:(apply (on_module_wp _ (fun _ h => h = v_history v ++ [ev]) v); [done|]); [| |done].
  - intros c Hc. wp_use ltac:(by apply Hm); [|done]. intros a c' Hc'. by eexists.
  - by intros a p' (h & -> & Hp').
Qed.
(** The calls of the HOBD module. *)
Lemma on_hobd_wp {A} (m : M (client T) A) Q p :
  wp m (fun a c => Q a (mk_peers (c_regs c) (c_peer c))) total (mk_client (p_regs p) (p_hobd p)) ->
  wp (on_hobd m) Q total p.
Proof. intros Hm. by apply wp_zoom. Qed.

Lemma same_hobd v t t' : hobd_shows v t -> regs_ok (HobdModule.g_regs t') ->
  HobdModule.ep t' = HobdModule.ep t -> HobdModule.hobd t' = HobdModule.hobd t -> hobd_shows v t'.
Proof.
  intros (Ht & Hv & Hm) Hr Hep E. unfold hobd_shows, talker_ok, view_of, id_of, module_of. rewrite Hep, E.
  split; [split; [done|apply Ht]|]. by split.
Qed.

Lemma restarted v t t' en pa f : hobd_shows v t -> regs_ok (HobdModule.g_regs t') ->
  HobdModule.ep t' = HobdModule.ep t -> HobdModule.hobd t' = HobdModule.restart f (HobdModule.hobd t) ->
  (forall c, Comm.timeout_id (f c) = Comm.timeout_id c) -> Console.is_flag en -> Console.is_flag pa ->
  (let c := Comm.g_comm (HobdModule.hobd t) in Comm.enabled (f c) = en /\ Comm.listen_only (f c) = pa) ->
  hobd_shows (v_restart en pa v) t'.
Proof.
  intros ((Hr0 & Hep0 & Hp & Hcn & Hst & Htx & _) & Hv & Hm) Hr Hep E Hid Hen Hpa [<- <-].
  unfold hobd_shows, talker_ok, view_of, id_of, module_of. rewrite Hep, E.
  split; [|split].
  - split; [done|]. split; [done|]. split; [apply Parser.repr_nil; [apply Hp|done]|]. by split.
  - rewrite <- Hv. done.
  - cbn. rewrite Hid. exact Hm.
Qed.

(** What the other modules of the console do in the eyes of the machine. *)
Definition asks {A} (m : M (peers_s F W) A) (R : view -> A -> Prop) : Prop := forall v p,
  peers_show v p -> wp m (fun a p' => peers_show v p' /\ R v a) total p.
Definition tells {A} (m : M (peers_s F W) A) (f : view -> view) : Prop := forall v p,
  peers_show v p -> wp m (fun _ p' => peers_show (f v) p') total p.

Lemma asks_time : asks Console.time_server_get_time (fun _ _ => True).
Proof.
  intros v p Hp. apply ask_module; [done|]. intros c Hc. wp_use ltac:(by apply time_at); [|done]. by intros.
Qed.
Lemma asks_mmc_stats : asks Console.mmc_get_stats (fun _ _ => True).
Proof.
  intros v p Hp. cbn [Console.mmc_get_stats our_modules modules]. wp_step.
  wp_use ltac:(apply (ask_module _ (fun _ => True) v); [exact Hp|]); [| |done].
  - intros c Hc. wp_use ltac:(by apply stats_at); [|done]. by intros.
  - intros a p' Hp'. by wp_step.
Qed.
Lemma asks_mmc_state : asks Console.mmc_get_state (fun _ _ => True).
Proof.
  intros v p Hp. apply ask_module; [done|]. intros c Hc. wp_use ltac:(by apply get_state_at); [|done]. by intros a c' [].
Qed.
Lemma asks_mmc_size : asks Console.mmc_get_file_size (fun _ _ => True).
Proof.
  intros v p Hp. apply ask_module; [done|]. intros c Hc. wp_use ltac:(by apply file_size_at); [|done]. by intros.
Qed.
Lemma tells_mmc_rm : tells Console.mmc_rm (v_event EvRm).
Proof.
  intros v p Hp. apply tell_module; [done|]. intros c Hc. wp_use ltac:(by apply rm_at); [|done]. by intros a c' [].
Qed.
Lemma tells_mmc_state x v p : peers_show v p -> (u32 x <> 0 -> on (replay l0 (v_history v)) = false) ->
  wp (Console.mmc_set_state x) (fun _ p' => peers_show (v_event (EvSet x) v) p') total p.
Proof.
  intros Hp Hx. apply tell_module; [done|]. intros c Hc.
  wp_use ltac:(by apply set_state_at); [|done]. by intros a c' [].
Qed.

(** The interface of the HOBD module, for the owner of [id], from the history [h0] on. *)
Abbreviation our_spec h0 := (shared_spec works l0 h0 wait_for_start wait_for_start_spec).
Abbreviation owner_spec id h0 := (shared_spec (TimeServerSpec0 := owned_spec id) (TimerSpec0 := owned_timer id)
  works l0 h0 wait_for_start (owned_wait id wait_for_start wait_for_start_spec)).

Lemma ask_hobd {A} (m : M (client T) A) (R : A -> Prop) v p :
  respects HobdModule.peer_unheard m -> peers_show v p ->
  wp m (fun a c => (regs_ok (c_regs c) /\ regs_ok (HobdModule.g_regs (c_peer c)) /\
    HobdModule.hobd (c_peer c) = HobdModule.hobd (p_hobd p)) /\ R a) total (mk_client (p_regs p) (p_hobd p)) ->
  wp (on_hobd m) (fun a p' => peers_show v p' /\ R a) total p.
Proof.
  intros Hun [Hr Hv] Hm. apply on_hobd_wp.
  eapply wp_mono; [exact (wp_conj _ _ _ _ _ _ Hm (wp_respects _ m _ _ Hun (fun _ Hs => Hs)))| |by intros k c []].
  intros a c [[(Hr' & Hrt & E) HR] (_ & _ & Hep)]. split; [|done]. split; [done|]. by eapply same_hobd.
Qed.
Lemma asks_comm_state : asks Console.hobd_get_comm_state (fun _ _ => True).
Proof.
  intros v p Hp. apply (ask_hobd _ (fun _ => True)); [exact HobdModule.get_comm_state_unheard|done|].
  apply HobdModule.get_comm_state_wp; [apply Hp|apply Hp|]. by intros.
Qed.
Lemma asks_listen_only : asks Console.hobd_get_listen_only (fun v a => a = v_passive v).
Proof.
  intros v p Hp. apply (ask_hobd _ (fun a => a = v_passive v)); [exact HobdModule.get_listen_only_unheard|done|].
  apply HobdModule.get_listen_only_wp; [apply Hp|apply Hp|]. intros c' Hr Hrt E. split; [done|].
  destruct Hp as (_ & (_ & _ & _ & _ & _ & _ & _ & Hl) & Hv & _). rewrite <- Hv.
  cbn [c_peer v_passive view_of]. by destruct Hl as [-> | ->].
Qed.

Lemma tells_restart (m : M (client T) Z) (f : Comm.comm_s -> Comm.comm_s) en pa v p : peers_show v p ->
  respects HobdModule.peer_unheard m ->
  wp m (fun a c => regs_ok (c_regs c) /\ regs_ok (HobdModule.g_regs (c_peer c)) /\
    HobdModule.hobd (c_peer c) = HobdModule.restart f (HobdModule.hobd (p_hobd p))) total
    (mk_client (p_regs p) (p_hobd p)) ->
  (forall c, Comm.timeout_id (f c) = Comm.timeout_id c) -> Console.is_flag en -> Console.is_flag pa ->
  (let c := Comm.g_comm (HobdModule.hobd (p_hobd p)) in
   Comm.enabled (f c) = en /\ Comm.listen_only (f c) = pa) ->
  wp (on_hobd m) (fun _ p' => peers_show (v_restart en pa v) p') total p.
Proof.
  intros [Hr Hv] Hun Hm Hid Hen Hpa Hf. apply on_hobd_wp.
  eapply wp_mono; [exact (wp_conj _ _ _ _ _ _ Hm (wp_respects _ m _ _ Hun (fun _ Hs => Hs)))| |by intros k c []].
  intros a c [(Hr' & Hrt & E) (_ & _ & Hep)]. split; [done|]. by eapply restarted.
Qed.

Lemma tells_comm_state x : tells (Console.hobd_set_comm_state x) (fun v =>
  v_restart (Console.of_word x) (v_passive v) v).
Proof.
  intros v p Hp. pose proof Hp as (Hr & ((Hrt & _ & _ & _ & _ & _ & _ & Hl) & Hv & _)).
  eapply tells_restart; [exact Hp|apply HobdModule.set_comm_state_unheard| | |apply Commands.of_word_flag| |].
  - by apply HobdModule.set_comm_state_wp.
  - done.
  - by rewrite <- Hv.
  - by rewrite <- Hv.
Qed.
Lemma tells_listen_only x : tells (Console.hobd_set_listen_only x) (fun v =>
  v_restart (v_enabled v) (Console.of_word x) v).
Proof.
  intros v p Hp. pose proof Hp as (Hr & ((Hrt & _ & _ & _ & _ & _ & He & _) & Hv & _)).
  eapply tells_restart; [exact Hp|apply HobdModule.set_listen_only_unheard| | | |apply Commands.of_word_flag|].
  - by apply HobdModule.set_listen_only_wp.
  - done.
  - by rewrite <- Hv.
  - by rewrite <- Hv.
Qed.

(** The statistics: the time is asked for, and the counters are sampled. *)
Lemma sampled_ok tm pa s : HobdModule.stats_ok s -> Parser.counts_ok pa -> 0 <= tm < 2 ^ 64 ->
  HobdModule.stats_ok (HobdModule.sample_stats tm (Parser.valid_count pa) (Parser.invalid_count pa) s).
Proof.
  intros (?&?&?&?&?) [Hv Hi] Ht. unfold HobdModule.stats_ok. cbn. rewrite <- Hv, <- Hi.
  split; [done|]. by split; [apply HobdModule.u16_range|split; [apply HobdModule.u16_range|]].
Qed.

Lemma asks_hobd_stats : asks Console.hobd_get_stats (fun _ _ => True).
Proof.
  intros v p Hp. cbn [Console.hobd_get_stats our_modules modules]. wp_step.
  assert (wp (on_hobd (HobdModule.hobd_get_stats HobdModule.serve)) (fun _ p' => peers_show v p') total p) as Hm.
  { apply on_hobd_wp. pose proof Hp as (Hr & (Hrt & Hep & Hpa & Hcn & Hst & Htx & Hfl) & Hv & Hc & Hid & Eh).
    eapply wp_mono; [eapply wp_conj; [|exact (wp_respects _ _ _ _ HobdModule.get_stats_unheard (fun _ Hs => Hs))]
      | |by intros k c []].
    - apply (HobdModule.get_stats_wp (ServicesSpec0 := owner_spec (id_of (p_hobd p)) (v_history v))
        (mk_client (p_regs p) (p_hobd p)) (fun _ c' => regs_ok (c_regs c') /\ regs_ok (HobdModule.g_regs (c_peer c')) /\
           exists tm w, 0 <= tm < 2 ^ 64 /\ module_at l0 (id_of (p_hobd p)) (v_history v) w /\
             HobdModule.hobd (c_peer c') = HobdModule.sampled tm (Comm.set_services w
               (HobdModule.hobd (p_hobd p)))) total Hr Hrt); [|exact Hcn|exact Hst|].
      + split; [by apply owned_shared|]. exists []. by rewrite app_nil_r.
      + intros tm w c' Htm Hr' Hrt' Hw Hlog E. split; [done|]. split; [done|]. exists tm, w.
        split; [done|]. split; [|exact E]. pose proof Hw as [[Hsh Hidw]%owned_shared _].
        split; [done|]. split; [done|]. apply logging_ok_logged in Hw.
        change (shared_logged (v_history v) w = shared_logged (v_history v)
          (Comm.services (HobdModule.hobd (p_hobd p)))) in Hlog.
        rewrite Hw, Hlog. unfold shared_logged. cbn [c_peer]. rewrite Eh, drop_all. apply app_nil_r.
    - intros st c' [(Hr' & Hrt' & tm & w & Htm & Hw & E) (_ & _ & Hep')]. split; [done|].
      unfold hobd_shows, talker_ok, view_of, id_of, module_of. cbn [p_hobd c_peer] in *. rewrite E, Hep'.
      split; [|split; [|exact Hw]].
      + do 4 (split; [done|]). split; [by apply sampled_ok|done].
      + destruct Hw as (_ & _ & Eh'). rewrite <- Hv. unfold view_of, module_of. cbn. by rewrite Eh', Eh. }
  wp_use ltac:(exact Hm); [|done]. intros st p' Hp'. by wp_step.
Qed.

(** A line of the console. *)
Lemma ask_then {A} (m : M (peers_s F W) A) R (k : A -> M (peers_s F W) unit) v p Q : asks m R -> peers_show v p ->
  (forall a p', peers_show v p' -> R v a -> wp (k a) Q total p') -> wp (m ≫= k) Q total p.
Proof.
  intros Hm Hp Hk. wp_step. wp_use ltac:(by apply Hm); [|done]. intros a p' [Hp' HR]. by apply Hk.
Qed.
Lemma tell_then {A} (m : M (peers_s F W) A) (v' : view) p :
  wp m (fun _ p' => peers_show v' p') total p -> wp (m;; mret tt) (fun _ p' => peers_show v' p') total p.
Proof. intros Hm. wp_step. wp_use ltac:(exact Hm); [|done]. intros a p' Hp'. by wp_step. Qed.

Lemma shown_flags v p : peers_show v p -> Console.is_flag (v_enabled v) /\ Console.is_flag (v_passive v).
Proof. intros (_ & (_ & _ & _ & _ & _ & _ & He & Hl) & Hv & _). by rewrite <- Hv. Qed.

Lemma mmc_calls_refine k v p : peers_show v p ->
  (command_sets (Console.Subcommand Cli.CLI_CMD_MMC k) = Some true -> on (replay l0 (v_history v)) = false) ->
  wp (Console.mmc_calls_of k) (fun _ p' => peers_show (v_command (Console.Subcommand Cli.CLI_CMD_MMC k) v) p')
    total p.
Proof.
  intros Hp Hon. unfold Console.mmc_calls_of, v_command, command_sets in *. rewrite Z.eqb_refl in *.
  destruct (Z.eqb_spec k Cli.CLI_MMC_SUBCMD_RM) as [->|]; [exact (tell_then _ _ _ (tells_mmc_rm v p Hp))|].
  repeat case_match; try (by wp_step).
  - apply tell_then, tells_mmc_state; [done|]. intros _. by apply Hon.
  - by apply tell_then, tells_mmc_state.
  - eapply ask_then; [apply asks_mmc_state|done|]. intros a p' Hp' _. by wp_step.
  - eapply ask_then; [apply asks_mmc_size|done|]. intros a p' Hp' _. by wp_step.
Qed.
Lemma hobd_calls_refine k v p : peers_show v p ->
  wp (Console.hobd_calls_of k) (fun _ p' => peers_show (v_command (Console.Subcommand Cli.CLI_CMD_HOBD k) v) p')
    total p.
Proof.
  intros Hp. unfold Console.hobd_calls_of, v_command. change (Cli.CLI_CMD_HOBD =? Cli.CLI_CMD_MMC) with false.
  destruct (Z.eqb_spec k Cli.CLI_HOBD_SUBCMD_STATUS) as [->|].
  { eapply ask_then; [apply asks_comm_state|done|]. intros a p1 Hp1 _.
    eapply ask_then; [apply asks_listen_only|done|]. intros a2 p2 Hp2 _. by wp_step. }
  repeat case_match; try (by wp_step).
  - by apply tell_then, (tells_comm_state 1).
  - by apply tell_then, (tells_comm_state 0).
  - eapply ask_then; [apply asks_listen_only|done|]. intros a p1 Hp1 ->.
    apply tell_then. destruct (shown_flags v p Hp) as [_ [El|El]]; rewrite El; cbn [Z.eqb Pos.eqb].
    + exact (tells_listen_only 1 v p1 Hp1).
    + exact (tells_listen_only 0 v p1 Hp1).
Qed.
Lemma module_calls_refine a v p : Console.in_tables a -> peers_show v p ->
  (command_sets a = Some true -> on (replay l0 (v_history v)) = false) ->
  wp (Console.calls_of a) (fun _ p' => peers_show (v_command a v) p') total p.
Proof.
  intros Ha Hp Hon. destruct a as [|n| |c|c k]; cbn [Console.calls_of v_command]; try (by wp_step).
  - repeat case_match; try (by wp_step).
    + eapply ask_then; [apply asks_time|done|]. intros t p' Hp' _. by wp_step.
    + eapply ask_then; [apply asks_mmc_stats|done|]. intros _ p1 Hp1 _.
      eapply ask_then; [apply asks_mmc_state|done|]. intros _ p2 Hp2 _.
      eapply ask_then; [apply asks_hobd_stats|done|]. intros _ p3 Hp3 _.
      eapply ask_then; [apply asks_comm_state|done|]. intros _ p4 Hp4 _.
      eapply ask_then; [apply asks_listen_only|done|]. intros _ p5 Hp5 _. by wp_step.
  - destruct Ha as [->|[-> _]].
    + by apply mmc_calls_refine.
    + by apply hobd_calls_refine.
Qed.

(** *** The turns *)
Abbreviation S := (system_s F W X).
Definition system_shows (v : view) (s : S) : Prop :=
  peers_show v (Console.peers (console s)) /\ regs_ok (SystemModule.services (sys s)) /\
  SystemModule.ep (sys s) = [] /\ regs_ok (root_regs s).

Lemma retries_ok pa st c : HobdModule.stats_ok c -> HobdModule.stats_ok (Session.retries pa st c).
Proof.
  intros (?&?&?&?&?). unfold Session.retries, HobdModule.stats_ok. destruct (pa =? 0); [|done].
  destruct st; cbn; (split; [done|]); repeat (split; [done|]); done || (split; [apply HobdModule.u16_range|done]) || apply HobdModule.u16_range.
Qed.

Lemma hobd_turn v t r pend rx : HobdModule.drivers_ok -> hobd_shows v t -> v_enabled v <> 0 ->
  v_converse v = (r, pend, rx) ->
  wp HobdModule.thread_iteration (fun _ t' => r <> Comm.RBlocked /\ exists es,
      Forall2 HobdModule.entry_of (Session.heard (v_passive v) (v_state v) r) es /\
      hobd_shows (v_conversed r pend rx es v) t')
    (fun k _ => k = Blocked /\ r = Comm.RBlocked) t.
Proof.
  intros Hd ((Hrt & Hep & Hpa & Hcn & Hst & Htx & He & Hl) & Hv & Hc & Hid & Eh) Hen Hr.
  rewrite <- Hv in Hen, Hr |- *. unfold v_converse in Hr.
  cbn [v_passive v_state v_pend v_rx v_enabled view_of] in *.
  set (h0 := history (module_of t)).
  assert (logging_ok l0 h0 (Comm.services (HobdModule.hobd t))) as Hlogok.
  { split; [done|]. exists []. by rewrite app_nil_r. }
  assert (Comm.inv (ServicesSpec0 := our_spec h0) (v_pend v) (HobdModule.hobd t)) as Hinv0 by done.
  pose proof (Session.hobd_iteration_run (ServicesSpec0 := our_spec h0) _ t r pend rx Hd Hinv0 Htx Hen Hep Hr) as Hrun.
  wp_use ltac:(exact Hrun); [|done].
  intros _ t' ((Hinv & Htx' & Hrx' & Hst' & Hline & (es & Hlog & Hes) & Hstats & [He' Hl'] & Hnb) & Hrt' & Hep' & _).
  destruct Hinv as (Hpa' & Hcn' & Hok' & Hid'). split; [done|]. exists es. split; [exact Hes|].
  change (shared_logged h0 (Comm.services (HobdModule.hobd t')) =
    shared_logged h0 (Comm.services (HobdModule.hobd t)) ++ es) in Hlog.
  unfold shared_logged in Hlog at 2. change (history (c_peer (Comm.services (HobdModule.hobd t)))) with h0 in Hlog.
  rewrite drop_all in Hlog. cbn [entries_in omap list_omap app] in Hlog.
  pose proof (logging_ok_logged _ _ _ Hok') as Eh'. rewrite Hlog in Eh'.
  split; [|split].
  - unfold talker_ok. rewrite Hrt', Hep'. split; [done|]. split; [done|]. split; [done|]. split; [done|].
    split; [rewrite Hstats; by apply retries_ok|]. split; [done|]. by rewrite He', Hl'.
  - unfold view_of at 1, v_conversed. cbn. unfold module_of. by rewrite He', Hl', Hst', Hrx', Hline, Eh'.
  - split; [apply Hok'|]. by split.
Qed.

(** A client of the module that only has its registers. *)
Lemma client_turn v s get put (m : M C unit) (R : event -> Prop) : system_shows v s -> regs_ok (get s) ->
  (forall c, module_at l0 (id_of (hobd_thread s)) (v_history v) c ->
     wp m (fun _ c' => exists ev, R ev /\ module_at l0 (id_of (hobd_thread s)) (v_history v ++ [ev]) c') total c) ->
  (forall v' r k, system_shows v' k -> regs_ok r -> system_shows v' (put r k)) ->
  wp (on_client get put m) (fun _ s' => exists ev, R ev /\ system_shows (v_event ev v) s') total s.
Proof.
  intros ((Hr & Hv) & Hs) Hg Hm Hput. apply wp_zoom. wp_use ltac:(by apply Hm, module_for); [|done].
  intros _ c (ev & HR & Hc). exists ev. split; [done|]. apply Hput; [|apply Hc].
  split; [|done]. split; [done|]. by apply module_turn.
Qed.

Lemma root_turn v s (m : M C unit) R : system_shows v s ->
  (forall c, module_at l0 (id_of (hobd_thread s)) (v_history v) c ->
     wp m (fun _ c' => exists ev, R ev /\ module_at l0 (id_of (hobd_thread s)) (v_history v ++ [ev]) c') total c) ->
  wp (on_root m) (fun _ s' => exists ev, R ev /\ system_shows (v_event ev v) s') total s.
Proof.
  intros Hs Hm. apply client_turn; [done|apply Hs|done|]. intros v' r k (? & ? & ? & ?) Hr. by split_and!.
Qed.

Lemma beat_turn v s : system_shows v s ->
  wp (on_sys (SystemModule.timeout_cb true;; SystemModule.sys_iteration)) (fun _ s' => exists t, 0 <= t < 2 ^ 64 /\
    system_shows (v_event (EvLog (Entry MMC_ENTRY_TYPE_HEARTBEAT t [])) v) s') total s.
Proof.
  intros ((Hr & Hv) & Hs & Hep & Hroot). apply wp_zoom. wp_step. unfold SystemModule.timeout_cb. wp_step.
  cbn [when]. wp_step. wp_step. unfold SystemModule.sys_iteration. wp_step.
  unfold wp at 1, SystemModule.seL4_Recv, SystemModule.set_ep, with_services.
  cbn [SystemModule.ep SystemModule.services]. rewrite Hep. cbn [app].
  wp_step. wp_step; [done|]. cbn [when]. apply SystemModule.wp_sys_svc.
  cbn [SystemModule.services SystemModule.set_services].
  wp_use ltac:(eapply (marker_at works l0 (id_of (hobd_thread s)) MMC_ENTRY_TYPE_HEARTBEAT 1);
    [by apply module_for|done]); [|done].
  intros _ c (t & Ht & Hc). exists t. split; [done|]. split; [|split; [apply Hc|by split]].
  split; [done|]. by apply module_turn.
Qed.

Lemma turn_refines u v s : HobdModule.drivers_ok -> system_shows v s ->
  (sets_log u = Some true -> on (replay l0 (v_history v)) = false) ->
  wp (take_turn wait_for_start u) (fun _ s' => exists v', view_turn u v v' /\ system_shows v' s')
    (fun k _ => k = Blocked /\ u = HobdTurn /\ v_starves v) s.
Proof.
  intros Hd Hs Hon. destruct u as [|args| | |]; cbn [take_turn].
  - do 2 wp_step. pose proof Hs as ((Hr & Hv) & Hrest).
    assert (Comm.enabled (Comm.g_comm (HobdModule.hobd (hobd_thread s))) = v_enabled v) as ->
      by by destruct Hv as (_ & <- & _).
    wp_step.
    + intros Hen%negb_true_iff%Z.eqb_neq. destruct (v_converse v) as [[r pend] rx] eqn:Hc. apply wp_zoom.
      wp_use ltac:(by apply (hobd_turn v _ r pend rx)).
      * intros _ t' (Hnb & es & Hes & Hv'). eexists. split; [by eapply turn_talks|]. by split.
      * intros k t' [-> ->]. split; [done|]. split; [done|]. split; [done|]. by rewrite Hc.
    + intros Hen%negb_false_iff%Z.eqb_eq. exists v. split; [by apply turn_waits|done].
  - destruct Hs as (Hp & Hs & Hep & Hroot). apply wp_zoom. wp_step.
    wp_use ltac:(apply Console.exec_calls, module_calls_refine; [apply Console.meaning_in_tables|exact Hp|exact Hon]); [|done].
    intros _ c Hp'. wp_step. eexists. split; [apply turn_line|]. by split.
  - wp_use ltac:(by apply beat_turn); [|done]. intros _ s' (t & Ht & Hs'). eexists.
    split; [by apply (turn_beats t)|done].
  - wp_use ltac:(apply (root_turn v s _ (fun ev => exists t, 0 <= t < 2 ^ 64 /\
      ev = EvLog (Entry MMC_ENTRY_TYPE_FAULT t [])) Hs)); [| |done].
    + intros c Hc. cbn [SystemModule.fault_loop]. wp_step.
      wp_use ltac:(by apply (marker_at works l0 _ MMC_ENTRY_TYPE_FAULT 1 _ c Hc)); [|done].
      intros _ c' (t & Ht & Hc'). wp_step. eexists. split; [by exists t|done].
    + intros _ s' (ev & (t & Ht & ->) & Hs'). eexists. split; [by apply turn_faults|done].
  - wp_use ltac:(apply (root_turn v s _ (fun ev => ev = EvFlush) Hs)); [| |done].
    + intros c Hc. wp_use ltac:(by apply flush_at); [|done]. intros _ c' Hc'. by eexists.
    + intros _ s' (ev & -> & Hs'). eexists. split; [apply turn_flushes|done].
Qed.

Lemma turns_refine us : HobdModule.drivers_ok -> forall v s, system_shows v s ->
  turns_fit us (on (replay l0 (v_history v))) ->
  wp (take_turns wait_for_start us) (fun _ s' => exists v', view_turns us v v' /\ system_shows v' s')
    (fun k _ => k = Blocked /\ exists us1 us2 v1, us = us1 ++ HobdTurn :: us2 /\ view_turns us1 v v1 /\ v_starves v1) s.
Proof.
  intros Hd. induction us as [|u us IH]; intros v s Hs Hfit; cbn [take_turns].
  { wp_step. exists v. split; [constructor|done]. }
  destruct Hfit as [Hon Hfit]. wp_step. wp_use ltac:(by apply turn_refines).
  - intros _ s1 (v1 & Hu & Hs1). wp_use ltac:(apply IH; [exact Hs1|by erewrite (turn_on l0 u v v1)]).
    + intros _ s2 (v2 & Hus & Hs2). exists v2. split; [by econstructor|done].
    + intros k s2 (-> & us1 & us2 & v2 & -> & Hus & Hst). split; [done|].
      exists (u :: us1), us2, v2. split; [done|]. split; [by econstructor|done].
  - intros k s1 (-> & -> & Hst). split; [done|]. exists [], us, v. split; [done|]. split; [constructor|done].
Qed.

(** What is known of the card can be read. *)
Lemma known_reads v s es2 : system_shows v s -> card (replay l0 (v_history v)) = Some es2 ->
  Forall LogDump.readable es2 -> System.card_shows es2 (mmc (module_of (hobd_thread s))).
Proof.
  intros ((_ & _ & _ & ((_ & Hh) & _ & Eh)) & _) Hcard Hes fuel Hfuel. rewrite Eh in Hh.
  pose proof Hh as (_ & _ & _ & _ & Hknown & _). unfold module_of, hobd_thread.
  rewrite (Hknown es2 Hcard), <- (app_nil_r (file_bytes es2)).
  pose proof (LogDump.dump_run es2 [] [] fuel Hes ltac:(cbn; lia) ltac:(done) Hfuel) as Hd.
  destruct (wp_done _ _ _ Hd) as (r & d & Hmain & -> & Hout). by exists d.
Qed.

Lemma logging_start c : shared_ok l0 c -> history (c_peer c) = [] -> logging_ok l0 [] c.
Proof. intros Hc Eh. split; [done|]. by exists []. Qed.
Lemma logging_none c c' : logging_ok l0 [] c -> logging_ok l0 [] c' -> history (c_peer c) = [] ->
  shared_logged [] c' = shared_logged [] c -> history (c_peer c') = [].
Proof.
  intros Hc Hc' Eh E. rewrite (logging_ok_logged _ _ _ Hc'), E. unfold shared_logged. by rewrite Eh.
Qed.

(** The start of the system thread and of the HOBD thread. *)
Definition unstarted (s : S) : Prop :=
  let t := hobd_thread s in let h := HobdModule.hobd t in
  regs_ok (p_regs (Console.peers (console s))) /\ regs_ok (SystemModule.services (sys s)) /\
  regs_ok (root_regs s) /\ SystemModule.ep (sys s) = [] /\ SystemModule.g_is_init (sys s) = 0 /\
  mutex_free (SystemModule.g_sys_ready_mutex (sys s)) /\
  regs_ok (HobdModule.g_regs t) /\ HobdModule.ep t = [] /\ regs_ok (c_regs (Comm.services h)) /\
  HobdModule.stats_ok (Comm.stats h) /\ HobdModule.tx_ok (Comm.g_msg_tx_buffer h) /\
  (exists cm, Comm.g_comm h = HobdModule.hobd_module_init cm) /\ history (module_of t) = [].

Definition started_view (s : S) : view :=
  let h := HobdModule.hobd (hobd_thread s) in
  mk_view 0 1 Comm.COMM_STATE_GPIO_INIT [] (Comm.rx_line h) (Comm.line h ++ Session.start_traffic) [].

Lemma sys_thread_starts MS_IN_S NS_IN_MS s : unstarted s -> holds l0 (mmc (module_of (hobd_thread s))) ->
  length (allocated (MmcModule.m_services (mmc (module_of (hobd_thread s))))) = 1%nat ->
  wp (on_sys (SystemModule.sys_start MS_IN_S NS_IN_MS)) (fun _ s' =>
    exists mo k, s' = put_hobd (set_module mo (hobd_thread s)) (mk_system (console s) k (root_regs s)) /\
      regs_ok (SystemModule.services k) /\ SystemModule.ep k = [] /\ holds l0 (mmc mo) /\ history mo = [] /\
      length (allocated (MmcModule.m_services (mmc mo))) = 2%nat) total s.
Proof.
  intros (Hc & Hr & Hroot & Hep & Hi & Hm & _ & _ & _ & _ & _ & _ & Eh) Hh Hids. apply wp_zoom.
  set (c := mk_client (SystemModule.services (sys s)) (module_of (hobd_thread s))).
  assert (shared_ok l0 c) as Hc0 by (split; [done|cbn; by rewrite Eh]).
  pose proof (logging_start c Hc0 Eh) as Hlog0.
  pose proof (SystemModule.sys_start_run (ServicesSpec0 := our_spec []) MS_IN_S NS_IN_MS (with_services c (sys s))
    Hlog0) as Hrun.
  wp_use ltac:(apply Hrun; [unfold ids_left; cbn; unfold clock; cbn; rewrite Hids; by apply Nat.ltb_lt|done..]); [|done].
  intros _ k (Hok & _ & _ & Hep' & Hlog & Ha & _). cbn in Hep', Hlog, Ha.
  pose proof (logging_none _ _ Hlog0 Hok Eh Hlog) as Eh'. destruct Hok as [[Hr' Hh'] _]. rewrite Eh' in Hh'.
  exists (c_peer (SystemModule.services k)), (with_services (c_regs (SystemModule.services k)) k).
  split; [done|]. split; [done|]. split; [by cbn; rewrite Hep'|]. split; [done|]. split; [done|].
  unfold clock in Ha. rewrite Ha. cbn. unfold clock. cbn. by rewrite Hids.
Qed.

Lemma hobd_thread_starts buf t cm : Session.gpio_ok -> HobdModule.drivers_ok -> length buf = 512%nat ->
  let h := HobdModule.hobd t in
  regs_ok (HobdModule.g_regs t) -> HobdModule.ep t = [] -> regs_ok (c_regs (Comm.services h)) ->
  HobdModule.stats_ok (Comm.stats h) -> HobdModule.tx_ok (Comm.g_msg_tx_buffer h) ->
  Comm.g_comm h = HobdModule.hobd_module_init cm -> history (module_of t) = [] ->
  holds l0 (mmc (module_of t)) -> length (allocated (clock (Comm.services h))) = 2%nat ->
  wp (HobdModule.on_hobd (HobdModule.thread_init buf)) (fun _ t' => hobd_shows (mk_view 0 1
    Comm.COMM_STATE_GPIO_INIT [] (Comm.rx_line h) (Comm.line h ++ Session.start_traffic) []) t') total t.
Proof.
  intros Hg Hd Hl h Hrt Hep Hr Hst Htx Hc Eh Hh Hids. apply HobdModule.wp_on_hobd.
  assert (shared_ok l0 (Comm.services h)) as Hc0.
  { split; [done|]. change (history (c_peer (Comm.services h))) with (history (module_of t)). by rewrite Eh. }
  pose proof (logging_start _ Hc0 Eh) as Hlog0.
  pose proof (Session.thread_init_run (ServicesSpec0 := our_spec []) buf h Hg Hd Hl Hlog0) as Hrun.
  rewrite Hc in Hrun.
  wp_use ltac:(apply Hrun; [unfold ids_left; cbn; rewrite Hids; by apply Nat.ltb_lt|done]); [|done].
  intros _ h' ((Hpa & Hcn & Hok & Hid) & [He Hlo] & Etx & Erx & Eline & Elog & Est & Estats).
  rewrite Hc in He, Hlo. cbn in He, Hlo.
  pose proof (logging_none _ _ Hlog0 Hok Eh Elog) as Eh'.
  split; [|split].
  - unfold talker_ok. cbn [HobdModule.hobd HobdModule.g_regs HobdModule.ep]. rewrite Estats, Etx, He, Hlo.
    split_and!; try done; [by left|by right].
  - unfold view_of, module_of. cbn [HobdModule.hobd]. by rewrite He, Hlo, Est, Erx, Eline, Eh'.
  - split; [apply Hok|]. by split.
Qed.
End refinement.

(** ** The property *)
Section property.
Context `{LogPolicy} `{!Console.Build} `{!Comm.Hw} `{!Kernel} `{!KernelSpec}.
Context {F W X : Type} `{!Fat F} `{!FatSpec F} `{!TimeServer W} `{!TimeServerSpec W} `{!TimerSpec W}.
Context `{!SyncMutex X} `{!SyncMutexSpec X} (wait_for_start : M W unit).
Hypothesis wait_for_start_spec : forall w, time_ok w ->
  wp wait_for_start (fun _ w' => time_ok w' /\ allocated w' = allocated w) total w.
Hypothesis works : card_works (F := F).
Abbreviation S := (system_s F W X).

(** The MMC module as it is created, with the entries [es] on the card. *)
Definition fresh_mmc (es : list log_entry) (m : MmcModule.mmc_s F W) : Prop :=
  regs_ok (MmcModule.m_regs m) /\ MmcModule.rx_ok m /\ time_ok (MmcModule.m_services m) /\
  allocated (MmcModule.m_services m) = [] /\ MmcModule.stats m = MmcModule.mk_stats 0 0 /\
  stored (fat (MmcModule.fsys m)) = file_bytes es.

(** The log as the thread begins it. *)
Definition begun (es : list log_entry) (t : Z) : log_s :=
  mk_log true (Some (es ++ [begin_entry t])) (Some (es ++ [begin_entry t])) 1.

Lemma threads_start ns MS_IN_S NS_IN_MS buf es (s : S) : Session.gpio_ok -> HobdModule.drivers_ok ->
  length buf = 512%nat -> unstarted s -> fresh_mmc es (mmc (module_of (hobd_thread s))) ->
  wp (start_threads wait_for_start ns MS_IN_S NS_IN_MS buf) (fun _ s' => exists t, 0 <= t < 2 ^ 64 /\
    system_shows (begun es t) (started_view s) s') total s.
Proof.
  intros Hg Hd Hl Hs (Hmr & Hx & Ht & Hids & Hst & Hcard). unfold start_threads. wp_step. apply wp_zoom.
  wp_use ltac:(apply (start_run works ns _ es Hmr Hx Ht); [unfold ids_left; rewrite Hids; by apply Nat.ltb_lt|done..]);
    [|done].
  intros _ m (t & Htr & Hh & Hids1). rewrite Hids in Hids1. change (holds (begun es t) m) in Hh.
  set (s1 := put_hobd _ s). wp_step.
  wp_use ltac:(apply (sys_thread_starts wait_for_start wait_for_start_spec works (begun es t) MS_IN_S NS_IN_MS s1); [exact Hs|exact Hh|exact Hids1]); [|done].
  intros _ s2 (mo & k & -> & Hkr & Hkep & Hh2 & Eh2 & Hids2). unfold on_thread. apply wp_zoom.
  destruct Hs as (Hc & _ & Hroot & _ & _ & _ & Hrt & Hep & Hr & Hss & Htx & (cm & Hcm) & Eh).
  wp_use ltac:(apply (hobd_thread_starts wait_for_start wait_for_start_spec works (begun es t) buf _ cm Hg Hd Hl); done); [|done].
  intros _ t' Ht'. exists t. split; [done|]. split; [|done]. by split.
Qed.

(** C1: the system is the abstract machine.  Its threads start, the log of the
    module begins behind the entries on the card, and from then on the threads -
    the HOBD thread with an iteration in whatever state and mode it is, lines at
    the console, heartbeats, faults, hard flushes - take turns in any order over
    the one MMC module: what they do to the line, to the flags, to the connection
    and to the log is what the machine does, line by line and entry by entry,
    also while the log is off or communication is disabled.  Whenever the machine
    knows the entries on the card, the reader of the card prints and tabulates
    exactly these.  The only way for the system to stop is that the HOBD thread
    waits for a byte the line does not have; the turns before that are the
    machine's.  (The console does not enable a log that is on.) *)
Theorem system_refines ns MS_IN_S NS_IN_MS buf es us (s : S) :
  Session.gpio_ok -> HobdModule.drivers_ok -> length buf = 512%nat -> unstarted s ->
  fresh_mmc es (mmc (module_of (hobd_thread s))) -> turns_fit us true ->
  exists t s1, 0 <= t < 2 ^ 64 /\
    start_threads wait_for_start ns MS_IN_S NS_IN_MS buf s = (Done tt, s1) /\
    system_shows (begun es t) (started_view s) s1 /\
    ((exists s2 v2, take_turns wait_for_start us s1 = (Done tt, s2) /\
        view_turns us (started_view s) v2 /\ system_shows (begun es t) v2 s2 /\
        forall es2, card (replay (begun es t) (v_history v2)) = Some es2 -> Forall LogDump.readable es2 ->
          System.card_shows es2 (mmc (module_of (hobd_thread s2)))) \/
     (exists s2 us1 us2 v1, take_turns wait_for_start us s1 = (Stop Blocked, s2) /\
        us = us1 ++ HobdTurn :: us2 /\ view_turns us1 (started_view s) v1 /\ v_starves v1)).
Proof.
  intros Hg Hd Hl Hs Hm Hfit.
  destruct (wp_done _ _ _ (threads_start ns MS_IN_S NS_IN_MS buf es s Hg Hd Hl Hs Hm))
    as ([] & s1 & Hstart & t & Ht & Hs1).
  exists t, s1. split; [done|]. split; [done|]. split; [done|].
  pose proof (turns_refine wait_for_start wait_for_start_spec works _ us Hd _ s1 Hs1 Hfit) as Hw.
  unfold wp in Hw. destruct (take_turns wait_for_start us s1) as [[[]|k] s2].
  - left. destruct Hw as (v2 & Hus & Hs2). exists s2, v2. do 3 (split; [done|]).
    intros es2 Hcard Hes. by eapply known_reads.
  - right. destruct Hw as (-> & us1 & us2 & v1 & ? & ? & ?). by exists s2, us1, us2, v1.
Qed.
End property.

(** *** At a concrete input: a card with a heartbeat; the line is given to the
    module at the console, which connects and reads a table while the system
    goes on. *)
#[local] Existing Instance Comm.demo_hw.
#[local] Existing Instance log_aborts.
#[local] Existing Instances TimeServer.ts_time_server TimeServer.ts_time_server_spec
  TimeServer.ts_timer_spec Commands.demo_build.
#[local] Existing Instances our_services our_modules.

Abbreviation demo_ts := (TimeServer.ts_s bool small_tm).
Definition demo_mmc : MmcModule.mmc_s ram demo_ts :=
  MmcModule.mk_mmc (mk_fs (mk_file 0 0 None) (Ram (entry_bytes System.heartbeat) [] [] 1))
    (MmcModule.mk_stats 0 0) MmcModule.demo_regs (replicate 120 0) 0 [] []
    (TimeServer.mk_ts false (mk_tm 1000 3 0 [] [])).
Definition demo_thread : HobdModule.thread_s (client (module_s ram demo_ts)) :=
  HobdModule.mk_thread (Comm.mk_hobd
    (HobdModule.hobd_module_init (Comm.mk_comm 0 0 Comm.COMM_STATE_GPIO_INIT 0 0 0 0))
    Parser.zero_parser (replicate 256 0) (Comm.mk_stats 0 0 0 0 0) System.demo_rx false []
    (mk_client MmcModule.demo_regs (mk_module demo_mmc []))) HobdModule.demo_regs [] [].
Definition demo_system : system_s ram demo_ts bool :=
  mk_system (Console.mk_con EmptyString (mk_peers MmcModule.demo_regs demo_thread))
    (SystemModule.mk_sys 0 false 0 [] MmcModule.demo_regs) MmcModule.demo_regs.
Definition demo_turns : list turn :=
  [HobdTurn; ConsoleTurn ["hobd"; "passive"]; ConsoleTurn ["hobd"; "on"]; HobdTurn; HobdTurn; HeartbeatTurn;
   HobdTurn; ConsoleTurn ["info"]; FaultTurn; ConsoleTurn ["mmc"; "status"]; FlushTurn]%string.

Lemma system_refines_witness :
  exists t s1, 0 <= t < 2 ^ 64 /\
    start_threads System.no_wait 1000000000 1000 1000000 (replicate 512 0) demo_system = (Done tt, s1) /\
    system_shows (begun [System.heartbeat] t) (started_view demo_system) s1 /\
    ((exists s2 v2, take_turns System.no_wait demo_turns s1 = (Done tt, s2) /\
        view_turns demo_turns (started_view demo_system) v2 /\ system_shows (begun [System.heartbeat] t) v2 s2 /\
        forall es2, card (replay (begun [System.heartbeat] t) (v_history v2)) = Some es2 ->
          Forall LogDump.readable es2 -> System.card_shows es2 (mmc (module_of (hobd_thread s2)))) \/
     (exists s2 us1 us2 v1, take_turns System.no_wait demo_turns s1 = (Stop Blocked, s2) /\
        demo_turns = us1 ++ HobdTurn :: us2 /\ view_turns us1 (started_view demo_system) v1 /\ v_starves v1)).
Proof.
  refine (system_refines System.no_wait System.no_wait_spec ram_works 1000000000 1000 1000000
    (replicate 512 0) [System.heartbeat] demo_turns demo_system _ _ eq_refl _ _ _).
  - by intros h.
  - by intros h.
  - do 3 (split; [by split|]). do 3 (split; [done|]). split; [by split|]. split; [done|]. split; [by split|].
    split; [decide_now|]. split; [apply (HobdModule.demo_tx_ok Comm.COMM_STATE_GPIO_INIT 0 1 System.demo_rx)|].
    split; [by eexists|done].
  - split; [by split|]. split; [done|]. split; [split; [split; cbn; lia|done]|]. split; [done|].
    split; [done|by vm_compute].
  - repeat split; intros Hs; vm_compute in Hs; discriminate.
Defined.

(** What happens here, and what is on the card then. *)
Example system_here :
  let '(o, s1) := start_threads System.no_wait 1000000000 1000 1000000 (replicate 512 0) demo_system in
  let '(o', s2) := take_turns System.no_wait demo_turns s1 in
  o = Done tt /\ o' = Done tt /\
  map (fun e => (entry_type e, entry_data e))
    (entries_of (stored (fat (MmcModule.fsys (mmc (module_of (hobd_thread s2))))))) =
    [(MMC_ENTRY_TYPE_HEARTBEAT, []); (MMC_ENTRY_TYPE_BEGIN_FLAG, [])] ++
    map (pair MMC_ENTRY_TYPE_HOBD_MSG) (take 3 System.demo_messages) ++ [(MMC_ENTRY_TYPE_HEARTBEAT, [])] ++
    map (pair MMC_ENTRY_TYPE_HOBD_MSG) (drop 3 System.demo_messages) ++ [(MMC_ENTRY_TYPE_FAULT, [])].
Proof. vm_compute. done. Qed.
End Whole.
